(** * NexToU: surface-distance metric and hybrid CNN/GNN encoder-decoder

    A shallow embedding of the shape- and index-level logic of

    - [nnunet/evaluation/surface_dice.py],
    - [nnunetv2/.../network_architecture/NexToU_Encoder_Decoder.py],
    - [nnunetv2/.../loss/nnUNetTrainer_NexToU.py],

    followed by the properties proved about it.

    Conventions.  Python exceptions are values of [exn]; a Python
    computation that may raise is a [result].  Python [int]s are [Z]
    ([//] is [Z.div], which floors like Python does); sizes of tensors
    are [nat].  Python's true division [/] is modelled on the rationals
    [Q]: on the operands that occur here (integers far below 2^53 and
    quotients that are integers) IEEE double arithmetic is exact, so the
    rational model agrees with it.  Tensors are modelled by their shape
    and their elements in row-major order. *)

From Stdlib Require Import QArith.
From stdpp Require Import base numbers list strings gmap.

Set Default Proof Using "Type*".

(* ===================================================================== *)
(** * Part I: the embedding                                               *)
(* ===================================================================== *)

(** ** Python exceptions and the error monad *)

Inductive exn : Set :=
  | NotImplementedError
  | ValueError
  | IndexError
  | TypeError
  | KeyError
  | ZeroDivisionError
  | AssertionError
  | RuntimeError
  | AttributeError
  | UnboundLocalError
  | EinopsError.

Inductive result (A : Type) : Type :=
  | Ok (v : A)
  | Raise (e : exn).
Arguments Ok {A} v.
Arguments Raise {A} e.

#[global] Instance exn_eq_dec : EqDecision exn.
Proof. solve_decision. Defined.

#[global] Instance result_ret : MRet result := @Ok.
#[global] Instance result_bind : MBind result :=
  λ A B f m, match m with Ok v => f v | Raise e => Raise e end.
#[global] Instance result_fmap : FMap result :=
  λ A B f m, match m with Ok v => Ok (f v) | Raise e => Raise e end.

(** [assert c] *)
Definition py_assert (c : bool) : result unit :=
  if c then Ok tt else Raise AssertionError.

(** ** Python sequences *)

Module Py.

(** [l[i]] for a Python int [i]: negative indices count from the end. *)
Definition getitem {A} (l : list A) (i : Z) : result A :=
  let n := Z.of_nat (length l) in
  let j := if (i <? 0)%Z then (n + i)%Z else i in
  if ((0 <=? j)%Z && (j <? n)%Z)%bool
  then match l !! Z.to_nat j with Some v => Ok v | None => Raise IndexError end
  else Raise IndexError.

(** A slice bound [i] clamped the way Python clamps it. *)
Definition clamp (n : nat) (i : Z) : nat :=
  let j := if (i <? 0)%Z then (Z.of_nat n + i)%Z else i in
  Z.to_nat (Z.min (Z.max 0 j) (Z.of_nat n)).

(** [l[0:i]] and [l[i:]] *)
Definition slice_to {A} (l : list A) (i : Z) : list A := take (clamp (length l) i) l.
Definition slice_from {A} (l : list A) (i : Z) : list A := drop (clamp (length l) i) l.

(** [a, b = t] and [a, b, c = t] *)
Definition unpack2 {A} (t : list A) : result (A * A) :=
  match t with [a; b] => Ok (a, b) | _ => Raise ValueError end.
Definition unpack3 {A} (t : list A) : result (A * A * A) :=
  match t with [a; b; c] => Ok (a, b, c) | _ => Raise ValueError end.

(** [a // b] on ints *)
Definition floordiv (a b : Z) : result Z :=
  if (b =? 0)%Z then Raise ZeroDivisionError else Ok (a / b)%Z.

(** [a / b]: true division; the operands are ints or floats *)
Definition truediv (a b : Q) : result Q :=
  if Qeq_bool b 0 then Raise ZeroDivisionError else Ok (a / b)%Q.

(** [int(q)]: truncation towards zero *)
Definition int (q : Q) : Z := Z.quot (Qnum q) (Zpos (Qden q)).

(** [range(n)] and [range(a, b)] *)
Definition range (n : Z) : list Z := seqZ 0 n.
Definition range2 (a b : Z) : list Z := seqZ a (b - a).

(** [sum(l)] and [max(l)] on lists of ints; [max] of an empty list raises. *)
Definition sum (l : list Z) : Z := foldr Z.add 0%Z l.
Definition max (l : list Z) : result Z :=
  match l with
  | [] => Raise ValueError
  | x :: l' => Ok (foldl Z.max x l')
  end.

(** [min(l, key=f)]: the first element whose key is minimal. *)
Definition min_by (key : Z → Z) (l : list Z) : result Z :=
  match l with
  | [] => Raise ValueError
  | x :: l' => Ok (foldl (λ best y, if (key y <? key best)%Z then y else best) x l')
  end.

End Py.

(** ** Tensors: a shape and the elements in row-major order *)

Record tensor (A : Type) : Type := Tensor { shape : list nat; data : list A }.
Arguments Tensor {A} shape data.
Arguments shape {A} t.
Arguments data {A} t.

(** Number of elements of a tensor of shape [s]. *)
Definition numel (s : list nat) : nat := foldr Nat.mul 1 s.

Definition wf_tensor {A} (t : tensor A) : Prop := length (data t) = numel (shape t).

(** Multi-index of the [i]-th element, and back. *)
Fixpoint unravel (s : list nat) (i : nat) : list nat :=
  match s with
  | [] => []
  | _ :: s' => (i / numel s') :: unravel s' (i mod numel s')
  end.

Fixpoint ravel (s idx : list nat) : nat :=
  match s, idx with
  | _ :: s', k :: idx' => k * numel s' + ravel s' idx'
  | _, _ => 0
  end.

(** [take_axes p l] lists the entries of [l] in the order given by [p]. *)
Definition take_axes (p l : list nat) : list nat := (λ a, l !!! a) <$> p.

(** Position of axis [a] in [p]. *)
Definition axis_pos (p : list nat) (a : nat) : nat :=
  from_option fst 0 (list_find (λ b, b = a) p).

Definition inv_perm (p : list nat) : list nat := axis_pos p <$> seq 0 (length p).

Section tensor_ops.
Context {A : Type} `{!Inhabited A}.

(** [t.permute(p)]: entry [idx] of the result is entry [idx'] of [t]
    with [idx' [p[k]] = idx [k]]. *)
Definition permute (p : list nat) (t : tensor A) : result (tensor A) :=
  if decide (p ≡ₚ seq 0 (length (shape t))) then
    let s' := take_axes p (shape t) in
    Ok (Tensor s'
          ((λ j, data t !!! ravel (shape t) (take_axes (inv_perm p) (unravel s' j)))
             <$> seq 0 (numel s')))
  else Raise RuntimeError.

(** [t.reshape(s)] of a contiguous tensor. *)
Definition reshape (s : list nat) (t : tensor A) : result (tensor A) :=
  if decide (numel s = numel (shape t)) then Ok (Tensor s (data t))
  else Raise RuntimeError.
End tensor_ops.

(** ** [einops.rearrange]

    The library is not part of the repository; this is its documented
    behaviour on patterns without ellipsis, anonymous or repeated axes.
    Each side of a pattern is a list of composite axes, a composite axis
    being a group of named elementary axes: ['b (h p1) (w p2) c'] is
    [[["b"]; ["h"; "p1"]; ["w"; "p2"]; ["c"]]].  The lengths of the
    elementary axes are inferred from the shape and the keyword arguments;
    the tensor is reshaped to the elementary axes, transposed to the order
    of the right-hand side, and reshaped to its composite axes. *)

Module Einops.

Abbreviation composite := (list string).

Definition known_product (lens : gmap string nat) (g : composite) : nat :=
  foldr (λ a acc, from_option id 1 (lens !! a) * acc) 1 g.

Definition unknown_axes (lens : gmap string nat) (g : composite) : list string :=
  filter (λ a, lens !! a = None) g.

Definition infer_axis (lens : gmap string nat) (g : composite) (len : nat)
    : result (gmap string nat) :=
  let known := known_product lens g in
  match unknown_axes lens g with
  | [] => if decide (len = known) then Ok lens else Raise EinopsError
  | [u] =>
      if decide (known = 0) then Raise ZeroDivisionError
      else if decide (len mod known = 0) then Ok (<[u := len / known]> lens)
      else Raise EinopsError
  | _ => Raise EinopsError
  end.

Fixpoint infer_axes (lens : gmap string nat) (inp : list composite) (s : list nat)
    : result (gmap string nat) :=
  match inp, s with
  | [], [] => Ok lens
  | g :: inp', len :: s' => lens' ← infer_axis lens g len; infer_axes lens' inp' s'
  | _, _ => Raise EinopsError
  end.

Definition axis_index (elem : list string) (a : string) : nat :=
  from_option fst 0 (list_find (λ b, b = a) elem).

Definition rearrange {A} `{!Inhabited A} (t : tensor A) (inp out : list composite)
    (axes_lengths : gmap string nat) : result (tensor A) :=
  let elem := concat inp in
  if decide (NoDup elem ∧ concat out ≡ₚ elem ∧
             map_Forall (λ a _, a ∈ elem) axes_lengths) then
    lens ← infer_axes axes_lengths inp (shape t);
    t1 ← reshape ((λ a, from_option id 1 (lens !! a)) <$> elem) t;
    t2 ← permute (axis_index elem <$> concat out) t1;
    reshape (known_product lens <$> out) t2
  else Raise EinopsError.

End Einops.

(** ** Window partition and its inverse *)

(** [a // b] on sizes *)
Definition size_floordiv (a b : nat) : result nat :=
  if decide (b = 0) then Raise ZeroDivisionError else Ok (a / b).

(** A size as a float *)
Definition size_to_Q (n : nat) : Q := inject_Z (Z.of_nat n).

(** [l[i]] for a literal index [i] *)
Definition item {A} (l : list A) (i : nat) : result A :=
  match l !! i with Some v => Ok v | None => Raise IndexError end.

Section windows.
Context {A : Type} `{!Inhabited A}.

Definition window_partition (x : tensor A) (window_size : list nat) : result (tensor A) :=
  match shape x with
  | [B; C; H; W] =>
      x ← permute [0; 2; 3; 1] x;
      p1 ← item window_size 0;
      p2 ← item window_size 1;
      windows ← Einops.rearrange x
        [["b"]; ["h"; "p1"]; ["w"; "p2"]; ["c"]]
        [["b"; "h"; "w"]; ["p1"]; ["p2"]; ["c"]]
        (<["p1" := p1]> (<["p2" := p2]> (<["c" := C]> ∅)));
      permute [0; 3; 1; 2] windows
  | [B; C; S_; H; W] =>
      x ← permute [0; 2; 3; 4; 1] x;
      p1 ← item window_size 0;
      p2 ← item window_size 1;
      p3 ← item window_size 2;
      windows ← Einops.rearrange x
        [["b"]; ["s"; "p1"]; ["h"; "p2"]; ["w"; "p3"]; ["c"]]
        [["b"; "s"; "h"; "w"]; ["p1"]; ["p2"]; ["p3"]; ["c"]]
        (<["p1" := p1]> (<["p2" := p2]> (<["p3" := p3]> (<["c" := C]> ∅))));
      permute [0; 4; 1; 2; 3] windows
  | _ => Raise NotImplementedError
  end.

Definition window_reverse (windows : tensor A) (window_size size_tuple : list nat)
    : result (tensor A) :=
  match shape windows with
  | [n; _; _; _] =>
      '(H, W) ← Py.unpack2 size_tuple;
      p1 ← item window_size 0;
      q ← Py.truediv (size_to_Q (H * W)) (size_to_Q p1);
      p2 ← item window_size 1;
      q ← Py.truediv q (size_to_Q p2);
      q ← Py.truediv (size_to_Q n) q;
      let B := Z.to_nat (Py.int q) in
      windows ← permute [0; 2; 3; 1] windows;
      h ← size_floordiv H p1;
      w ← size_floordiv W p2;
      x ← Einops.rearrange windows
        [["b"; "h"; "w"]; ["p1"]; ["p2"]; ["c"]]
        [["b"]; ["h"; "p1"]; ["w"; "p2"]; ["c"]]
        (<["p1" := p1]> (<["p2" := p2]> (<["b" := B]> (<["h" := h]> (<["w" := w]> ∅)))));
      permute [0; 3; 1; 2] x
  | [n; _; _; _; _] =>
      '(S_, H, W) ← Py.unpack3 size_tuple;
      p1 ← item window_size 0;
      q ← Py.truediv (size_to_Q (S_ * H * W)) (size_to_Q p1);
      p2 ← item window_size 1;
      q ← Py.truediv q (size_to_Q p2);
      p3 ← item window_size 2;
      q ← Py.truediv q (size_to_Q p3);
      q ← Py.truediv (size_to_Q n) q;
      let B := Z.to_nat (Py.int q) in
      windows ← permute [0; 2; 3; 4; 1] windows;
      s ← size_floordiv S_ p1;
      h ← size_floordiv H p2;
      w ← size_floordiv W p3;
      x ← Einops.rearrange windows
        [["b"; "s"; "h"; "w"]; ["p1"]; ["p2"]; ["p3"]; ["c"]]
        [["b"]; ["s"; "p1"]; ["h"; "p2"]; ["w"; "p3"]; ["c"]]
        (<["p1" := p1]> (<["p2" := p2]> (<["p3" := p3]> (<["b" := B]>
           (<["s" := s]> (<["h" := h]> (<["w" := w]> ∅)))))));
      permute [0; 4; 1; 2; 3] x
  | _ =>
      (* line 747: the message of the [NotImplementedError] is formatted
         from [len(x.shape)], and [x] is a local variable that only the two
         branches above assign *)
      Raise UnboundLocalError
  end.

End windows.

(** ** Normalized surface dice ([surface_dice.py]) *)

(** The result of dividing two numpy integers: numpy does not raise on a
    zero divisor, it returns [inf] or [nan]. *)
Inductive npfloat : Set :=
  | Finite (q : Q)
  | PosInf
  | NaN.

Definition np_true_divide (a b : Z) : npfloat :=
  if (b =? 0)%Z then (if (a =? 0)%Z then NaN else PosInf)
  else Finite (inject_Z a / inject_Z b).

(** [d <= t] and [d > t] on an array of distances, and [np.sum] of a
    boolean array. *)
Definition Qgt_bool (x y : Q) : bool := (Qnum y * QDen x <? Qnum x * QDen y)%Z.
Definition np_le (d : list Q) (t : Q) : list bool := (λ x, Qle_bool x t) <$> d.
Definition np_gt (d : list Q) (t : Q) : list bool := (λ x, Qgt_bool x t) <$> d.
Definition np_sum (bs : list bool) : Z :=
  foldr (λ (b : bool) acc, ((if b then 1 else 0) + acc)%Z) 0%Z bs.

Section surface_dice.

(** Binary masks are arrays of booleans. *)
Abbreviation mask := (tensor bool).

(** [medpy.metric.binary.__surface_distances(result, reference,
    voxelspacing, connectivity)]: the distance of every surface voxel of
    [result] to the surface of [reference].  It belongs to medpy, not to
    the repository, and raises [RuntimeError] when one of the masks
    contains no object. *)
Variable surface_distances : mask → mask → list Q → Z → result (list Q).

Definition normalized_surface_dice (a b : mask) (threshold : Q)
    (spacing : option (list Q)) : result npfloat :=
  let spacing :=
    match spacing with
    | None => (λ _, 1%Q) <$> seq 0 (length (shape a))
    | Some sp => sp
    end in
  a_to_b ← surface_distances a b spacing 1;
  b_to_a ← surface_distances b a spacing 1;
  let tp_a := np_sum (np_le a_to_b threshold) in
  let tp_b := np_sum (np_le b_to_a threshold) in
  let fp := np_sum (np_gt a_to_b threshold) in
  let fn := np_sum (np_gt b_to_a threshold) in
  let dc := np_true_divide (tp_a + tp_b) (tp_a + tp_b + fp + fn) in
  Ok dc.

End surface_dice.

(** The quantities of the metric as the documentation words them. *)
#[global] Instance Qle_dec (x y : Q) : Decision (x <= y)%Q.
Proof.
  destruct (Qlt_le_dec y x) as [H|H]; [right; by apply Qlt_not_le|by left].
Defined.
#[global] Instance Qlt_dec (x y : Q) : Decision (x < y)%Q.
Proof.
  destruct (Qlt_le_dec x y) as [H|H]; [by left|right; by apply Qle_not_lt].
Defined.

Definition count_within (d : list Q) (t : Q) : nat := length (filter (λ x, (x <= t)%Q) d).
Definition count_beyond (d : list Q) (t : Q) : nat := length (filter (λ x, (t < x)%Q) d).

(** ** The NexToU building blocks ([NexToU_Encoder_Decoder.py])

    Modules are described by the arguments they are constructed with.
    The normalisation, dropout and non-linearity arguments are passed
    through unchanged everywhere and are left out; constructors of
    [torch] and of [dynamic_network_architectures] are recorded, not
    executed. *)

Inductive conv_op : Set :=
  | Conv1d
  | Conv2d
  | Conv3d
  | OtherConv (name : string).

#[global] Instance conv_op_eq_dec : EqDecision conv_op.
Proof. solve_decision. Defined.

(** A Python argument that is either an int or a sequence. *)
Inductive int_or_seq (T : Type) : Type :=
  | AnInt (z : Z)
  | ASeq (l : list T).
Arguments AnInt {T} z.
Arguments ASeq {T} l.

(** [prod] of a tuple of ints, written [n = 1; for h in t: n = n * h]. *)
Definition prod_loop (t : list Z) : Z := foldl Z.mul 1%Z t.

(** *** [OptInit] *)

Record OptInit : Type := mkOptInit {
  pool_op_kernel_sizes_len : nat;
  conv : string;
  act : string;
  norm : string;
  bias : bool;
  dropout : Q;
  use_dilation : bool;
  epsilon : Q;
  use_stochastic : bool;
  drop_path : Q;
  blocks : list Z;
  reduce_ratios : list Z;
  (* attributes added by the encoder and the decoder *)
  img_min_shape : option (list Z);
  n_size_list : option (list Z)
}.

Definition OptInit_init (drop_path_rate : Q) (pool_op_kernel_sizes_len : nat) : OptInit :=
  {| pool_op_kernel_sizes_len := pool_op_kernel_sizes_len;
     conv := "mr";
     act := "leakyrelu";
     norm := "instance";
     bias := true;
     dropout := 0;
     use_dilation := true;
     epsilon := 2 # 10;
     use_stochastic := true;
     drop_path := drop_path_rate;
     blocks := replicate pool_op_kernel_sizes_len 1%Z;
     reduce_ratios :=
       [16; 8; 4; 2]%Z ++ replicate (pool_op_kernel_sizes_len - 4) 1%Z;
     img_min_shape := None;
     n_size_list := None |}.

Definition set_img_min_shape (opt : OptInit) (v : list Z) : OptInit :=
  {| pool_op_kernel_sizes_len := pool_op_kernel_sizes_len opt;
     conv := conv opt; act := act opt; norm := norm opt; bias := bias opt;
     dropout := dropout opt; use_dilation := use_dilation opt;
     epsilon := epsilon opt; use_stochastic := use_stochastic opt;
     drop_path := drop_path opt; blocks := blocks opt;
     reduce_ratios := reduce_ratios opt;
     img_min_shape := Some v; n_size_list := n_size_list opt |}.

Definition set_n_size_list (opt : OptInit) (v : list Z) : OptInit :=
  {| pool_op_kernel_sizes_len := pool_op_kernel_sizes_len opt;
     conv := conv opt; act := act opt; norm := norm opt; bias := bias opt;
     dropout := dropout opt; use_dilation := use_dilation opt;
     epsilon := epsilon opt; use_stochastic := use_stochastic opt;
     drop_path := drop_path opt; blocks := blocks opt;
     reduce_ratios := reduce_ratios opt;
     img_min_shape := img_min_shape opt; n_size_list := Some v |}.

(** Reading an attribute that was never assigned. *)
Definition getattr {T} (v : option T) : result T :=
  match v with Some x => Ok x | None => Raise AttributeError end.

(** *** [FFN] *)

Record FFN : Type := mkFFN {
  ffn_in_features : Z;
  ffn_hidden_features : Z;
  ffn_out_features : Z;
  ffn_act : string;
  ffn_drop_path : Q
}.

(** [a or b] on an optional int: [None] and [0] are falsy. *)
Definition or_default (a : option Z) (b : Z) : Z :=
  match a with
  | Some v => if (v =? 0)%Z then b else v
  | None => b
  end.

Definition FFN_init (in_features : Z) (hidden_features out_features : option Z)
    (act : string) (drop_path : Q) : FFN :=
  let out_features := or_default out_features in_features in
  let hidden_features := or_default hidden_features in_features in
  mkFFN in_features hidden_features out_features act drop_path.

(** *** [GraphConv], [DyGraphConv] and [PoolDyGraphConv] *)

Definition GraphConv_init (conv : string) : result unit :=
  if decide (conv = "mr") then Ok tt else Raise NotImplementedError.

Record DyGraphConv : Type := mkDyGraphConv {
  dg_k : Z;
  dg_d : Z;
  dg_r : Z;
  dg_conv_op : conv_op
}.

Definition DyGraphConv_init (kernel_size dilation : Z) (conv : string) (r : Z)
    (conv_op : conv_op) : result DyGraphConv :=
  _ ← GraphConv_init conv;
  match conv_op with
  | Conv2d | Conv3d => Ok (mkDyGraphConv kernel_size dilation r conv_op)
  | _ => Raise NotImplementedError
  end.

Record PoolDyGraphConv : Type := mkPoolDyGraphConv {
  pg_k : Z;
  pg_d : Z;
  pg_r : Z;
  pg_conv_op : conv_op;
  pg_pool_size : list Z
}.

(** [for h in t], [t] being an argument whose default is [None] *)
Definition iterable {T} (t : option (list T)) : result (list T) :=
  match t with Some l => Ok l | None => Raise TypeError end.

Definition PoolDyGraphConv_init (kernel_size dilation : Z) (conv : string) (r : Z)
    (conv_op : conv_op) (img_shape img_min_shape : option (list Z))
    : result PoolDyGraphConv :=
  _ ← GraphConv_init conv;
  img_shape ← iterable img_shape;
  let n := foldl (λ n h, n * h)%Z 1%Z img_shape in
  img_min_shape ← iterable img_min_shape;
  let n_small := foldl (λ n_small h_small, n_small * h_small * 4)%Z 1%Z img_min_shape in
  let pool_size :=
    if (n >? n_small)%Z
    then (λ h, if (h mod 2 =? 0)%Z then 2 else 1)%Z <$> img_shape
    else (λ h, 1%Z) <$> img_shape in
  match conv_op with
  | Conv2d | Conv3d => Ok (mkPoolDyGraphConv kernel_size dilation r conv_op pool_size)
  | _ => Raise NotImplementedError
  end.

(** [torch.nn.MaxPoolNd(k, stride=k)] and [torch.nn.MaxUnpoolNd(k, stride=k)]
    on one spatial extent: the output extents documented by torch. *)
Definition max_pool_extent (size k : Z) : result Z :=
  if (k <=? 0)%Z then Raise RuntimeError
  else let out := ((size - k) / k + 1)%Z in
       if (out <=? 0)%Z then Raise RuntimeError else Ok out.

Definition max_unpool_extent (size k : Z) : Z := ((size - 1) * k + k)%Z.

Fixpoint zip_extents (f : Z → Z → result Z) (sizes ks : list Z) : result (list Z) :=
  match sizes, ks with
  | [], [] => Ok []
  | s :: sizes', k :: ks' => o ← f s k; os ← zip_extents f sizes' ks'; Ok (o :: os)
  | _, _ => Raise RuntimeError
  end.

(** [t.reshape(..., -1, ...)]: the extent inferred for the [-1]. *)
Definition infer_extent (numel known : Z) : result Z :=
  if (known =? 0)%Z then Raise RuntimeError
  else if (numel mod known =? 0)%Z then Ok (numel / known)%Z
  else Raise RuntimeError.

Definition unpack4 {T} (t : list T) : result (T * T * T * T) :=
  match t with [a; b; c; d] => Ok (a, b, c, d) | _ => Raise ValueError end.
Definition unpack5 {T} (t : list T) : result (T * T * T * T * T) :=
  match t with [a; b; c; d; e] => Ok (a, b, c, d, e) | _ => Raise ValueError end.

Section pool_forward.

(** [GraphConv.forward] after the kNN graph was built by
    [DenseDilatedKnnGraph], on the shapes of [x] and [y]: the result has
    the shape of the output of [MRConv].  The graph construction and
    [BasicConv] live in [torch_edge.py] and [torch_nn.py]. *)
Variable graph_conv : list Z → option (list Z) → result (list Z).

(** [MaxUnpoolNd] rejects a pooling index that does not lie in the plane
    it unpools to.  The indices are positions in the plane that was
    pooled: they all fit when the unpooled plane is that plane, and
    otherwise it depends on where the maxima of the data lie.
    [indices_fit spatial pool_size] says whether they fit, for the data at
    hand. *)
Variable indices_fit : list Z → list Z → bool.

(** [F.avg_pool2d(x, r, r)] and [F.avg_pool3d(x, r, r)] on spatial extents *)
Definition avg_pool_extents (spatial : list Z) (r : Z) : result (list Z) :=
  zip_extents max_pool_extent spatial ((λ _, r) <$> spatial).

(** [PoolDyGraphConv.forward], on shapes. *)
Definition PoolDyGraphConv_forward (self : PoolDyGraphConv) (x : list Z)
    : result (list Z) :=
  '(B, C, spatial) ←
    match pg_conv_op self with
    | Conv2d => '(B, C, H, W) ← unpack4 x; Ok (B, C, [H; W])
    | Conv3d => '(B, C, S_, H, W) ← unpack5 x; Ok (B, C, [S_; H; W])
    | _ => Raise NotImplementedError
    end;
  (* x, indices = self.max_pool_input(x) *)
  pooled ← zip_extents max_pool_extent spatial (pg_pool_size self);
  let numel_x := (B * C * prod_loop pooled)%Z in
  y ←
    (if (pg_r self >? 1)%Z then
       ys ← avg_pool_extents pooled (pg_r self);
       n_y ← infer_extent (B * C * prod_loop ys) (B * C * 1);
       Ok (Some [B; C; n_y; 1%Z])
     else Ok None);
  n_x ← infer_extent numel_x (B * C * 1);
  let x := [B; C; n_x; 1%Z] in
  let indices := [B; C; n_x; 1%Z] in
  (* edge_index = self.dilated_knn_graph(x, y, relative_pos) and the
     graph convolution *)
  x ← graph_conv x y;
  (* indices_cat = torch.cat((indices, indices), 1) *)
  let indices_cat := [B; (C + C)%Z; n_x; 1%Z] in
  pools ←
    match pg_conv_op self with
    | Conv2d =>
        '(H, W) ← Py.unpack2 spatial;
        p0 ← Py.getitem (pg_pool_size self) 0; H_pool ← Py.floordiv H p0;
        p1 ← Py.getitem (pg_pool_size self) 1; W_pool ← Py.floordiv W p1;
        Ok [H_pool; W_pool]
    | Conv3d =>
        '(S_, H, W) ← Py.unpack3 spatial;
        p0 ← Py.getitem (pg_pool_size self) 0; S_pool ← Py.floordiv S_ p0;
        p1 ← Py.getitem (pg_pool_size self) 1; H_pool ← Py.floordiv H p1;
        p2 ← Py.getitem (pg_pool_size self) 2; W_pool ← Py.floordiv W p2;
        Ok [S_pool; H_pool; W_pool]
    | _ => Raise NotImplementedError
    end;
  c_x ← infer_extent (prod_loop x) (B * prod_loop pools);
  c_i ← infer_extent (prod_loop indices_cat) (B * prod_loop pools);
  (* x = self.max_unpool_output(x, indices_cat) *)
  let unpooled := zip_with max_unpool_extent pools (pg_pool_size self) in
  if decide (c_x = c_i) then
    if decide (unpooled = spatial) then Ok (B :: c_x :: unpooled)
    else if indices_fit spatial (pg_pool_size self) then Ok (B :: c_x :: unpooled)
    else Raise RuntimeError
  else Raise RuntimeError.

End pool_forward.

(** *** [Grapher], [SwinGrapher] and [PoolGrapher] *)

Section graphers.

(** The relative position embedding is a float tensor; its values are
    produced by [pos_embed.py] and by [torch], and are kept abstract. *)
Context {embedding : Type}.

(** The tensor built in the constructors when [relative_pos] is true, from
    the convolution type, the number of channels, [n] and [r]. *)
Variable relative_pos_tensor : conv_op → Z → Z → Z → result embedding.

(** [F.interpolate(e.unsqueeze(0), size=(N, M), mode="bicubic").squeeze(0)] *)
Variable interpolate_bicubic : embedding → Z * Z → result embedding.

Definition init_relative_pos (relative_pos : bool) (conv_op : conv_op)
    (in_channels n r : Z) : result (option embedding) :=
  if relative_pos then
    match conv_op with
    | Conv2d | Conv3d => e ← relative_pos_tensor conv_op in_channels n r; Ok (Some e)
    | _ => Raise NotImplementedError
    end
  else Ok None.

Record Grapher : Type := mkGrapher {
  gr_channels : Z;
  gr_n : Z;
  gr_r : Z;
  gr_conv_op : conv_op;
  gr_graph_conv : DyGraphConv;
  gr_drop_path : Q;
  gr_relative_pos : option embedding
}.

Definition Grapher_init (in_channels kernel_size dilation : Z) (conv : string)
    (r n : Z) (drop_path : Q) (relative_pos : bool) (conv_op : conv_op)
    : result Grapher :=
  graph_conv ← DyGraphConv_init kernel_size dilation conv r conv_op;
  relative_pos ← init_relative_pos relative_pos conv_op in_channels n r;
  Ok (mkGrapher in_channels n r conv_op graph_conv drop_path relative_pos).

Definition Grapher_get_relative_pos (self : Grapher)
    (relative_pos : option embedding) (size_tuple : list Z)
    : result (option embedding) :=
  match gr_conv_op self with
  | Conv2d =>
      '(H, W) ← Py.unpack2 size_tuple;
      match relative_pos with
      | None => Ok None
      | Some e =>
          if (H * W =? gr_n self)%Z then Ok (Some e)
          else
            let N := (H * W)%Z in
            N_reduced ← Py.floordiv N (gr_r self * gr_r self);
            e' ← interpolate_bicubic e (N, N_reduced);
            Ok (Some e')
      end
  | Conv3d =>
      '(H, W, D) ← Py.unpack3 size_tuple;
      match relative_pos with
      | None => Ok None
      | Some e =>
          if (H * W * D =? gr_n self)%Z then Ok (Some e)
          else
            let N := (H * W * D)%Z in
            N_reduced ← Py.floordiv N (gr_r self * gr_r self * gr_r self);
            e' ← interpolate_bicubic e (N, N_reduced);
            Ok (Some e')
      end
  | _ => Raise NotImplementedError
  end.

Record SwinGrapher : Type := mkSwinGrapher {
  sw_channels : Z;
  sw_r : Z;
  sw_conv_op : conv_op;
  sw_img_shape : list Z;
  sw_window_size : list Z;
  sw_shift_size : list Z;
  sw_graph_conv : DyGraphConv;
  sw_drop_path : Q;
  sw_n : Z;
  sw_relative_pos : option embedding
}.

Definition SwinGrapher_init (in_channels : Z) (img_shape : list Z)
    (kernel_size dilation : Z) (conv : string) (r n : Z) (drop_path : Q)
    (relative_pos : bool) (conv_op : conv_op) (window_size shift_size : list Z)
    : result SwinGrapher :=
  graph_conv ← DyGraphConv_init kernel_size dilation conv r conv_op;
  let n := foldl (λ n h, n * h)%Z 1%Z window_size in
  relative_pos ← init_relative_pos relative_pos conv_op in_channels n r;
  Ok (mkSwinGrapher in_channels r conv_op img_shape window_size shift_size
        graph_conv drop_path n relative_pos).

Definition SwinGrapher_get_relative_pos (self : SwinGrapher)
    (relative_pos : option embedding) (window_size_tuple : list Z)
    : result (option embedding) :=
  match sw_conv_op self with
  | Conv2d =>
      '(H, W) ← Py.unpack2 window_size_tuple;
      match relative_pos with
      | None => Ok None
      | Some e =>
          if (H * W =? sw_n self)%Z then Ok (Some e)
          else
            let N := (H * W)%Z in
            N_reduced ← Py.floordiv N (sw_r self * sw_r self);
            e' ← interpolate_bicubic e (N, N_reduced);
            Ok (Some e')
      end
  | Conv3d =>
      '(S_, H, W) ← Py.unpack3 window_size_tuple;
      match relative_pos with
      | None => Ok None
      | Some e =>
          if (S_ * H * W =? sw_n self)%Z then Ok (Some e)
          else
            let N := (S_ * H * W)%Z in
            N_reduced ← Py.floordiv N (sw_r self * sw_r self * sw_r self);
            e' ← interpolate_bicubic e (N, N_reduced);
            Ok (Some e')
      end
  | _ => Raise NotImplementedError
  end.

Record PoolGrapher : Type := mkPoolGrapher {
  po_channels : Z;
  po_r : Z;
  po_conv_op : conv_op;
  po_img_shape : list Z;
  po_graph_conv : PoolDyGraphConv;
  po_drop_path : Q;
  po_pool_size : list Z;
  po_n : Z;
  po_relative_pos : option embedding
}.

Definition PoolGrapher_init (in_channels : Z) (img_shape : list Z)
    (kernel_size dilation : Z) (conv : string) (r n : Z) (drop_path : Q)
    (relative_pos : bool) (conv_op : conv_op) (img_min_shape : option (list Z))
    : result PoolGrapher :=
  graph_conv ← PoolDyGraphConv_init kernel_size dilation conv r conv_op
                  (Some img_shape) img_min_shape;
  let n := foldl (λ n h, n * h)%Z 1%Z img_shape in
  img_min_shape ← iterable img_min_shape;
  let n_small := foldl (λ n_small h_small, n_small * h_small * 4)%Z 1%Z img_min_shape in
  let pool_size :=
    if (n >? n_small)%Z
    then (λ h, if (h mod 2 =? 0)%Z then 2 else 1)%Z <$> img_shape
    else (λ h, 1%Z) <$> img_shape in
  let p_num := foldl (λ p_num p, p_num * p)%Z 1%Z pool_size in
  n ← Py.floordiv n p_num;
  relative_pos ← init_relative_pos relative_pos conv_op in_channels n r;
  Ok (mkPoolGrapher in_channels r conv_op img_shape graph_conv drop_path
        pool_size n relative_pos).

Definition PoolGrapher_get_relative_pos (self : PoolGrapher)
    (relative_pos : option embedding) (size_tuple : list Z)
    : result (option embedding) :=
  match po_conv_op self with
  | Conv2d =>
      '(H, W) ← Py.unpack2 size_tuple;
      match relative_pos with
      | None => Ok None
      | Some e =>
          if (H * W =? po_n self)%Z then Ok (Some e)
          else
            let N := (H * W)%Z in
            N_reduced ← Py.floordiv N (po_r self * po_r self);
            e' ← interpolate_bicubic e (N, N_reduced);
            Ok (Some e')
      end
  | Conv3d =>
      '(S_, H, W) ← Py.unpack3 size_tuple;
      match relative_pos with
      | None => Ok None
      | Some e =>
          if (S_ * H * W =? po_n self)%Z then Ok (Some e)
          else
            let N := (S_ * H * W)%Z in
            N_reduced ← Py.floordiv N (po_r self * po_r self * po_r self);
            e' ← interpolate_bicubic e (N, N_reduced);
            Ok (Some e')
      end
  | _ => Raise NotImplementedError
  end.

(** *** [SwinGNNBlocks] and [PoolGNNBlocks] *)

(** [torch.linspace(0, stop, steps)] as a list *)
Definition linspace (stop : Q) (steps : Z) : result (list Q) :=
  if (steps <? 0)%Z then Raise RuntimeError
  else if (steps =? 1)%Z then Ok [0%Q]
  else Ok ((λ i, inject_Z i * stop / inject_Z (steps - 1))%Q <$> Py.range steps).

(** [l[i]] in a list of floats *)
Definition getitem_Q (l : list Q) (i : Z) : result Q := Py.getitem l i.

(** The choice of the neighbourhood sizes, which both constructors make
    with the same statements: [(max_k, k_list, max_dilation, window_size_n)]. *)
Definition knn_hyperparameters (conv_op : conv_op) (img_min_shape : list Z)
    (pool_op_kernel_sizes_len : nat) : result (Z * list Z * Z * Z) :=
  match conv_op with
  | Conv2d =>
      '(H_min, W_min) ← Py.unpack2 img_min_shape;
      let max_num := (H_min * W_min / 2)%Z in
      let k_candidate_list := [2; 4; 8; 16; 32]%Z in
      max_k ← Py.min_by (λ x, Z.abs (x - max_num)) k_candidate_list;
      let min_k := (max_num / (2 * 2))%Z in
      let k_list :=
        if decide (5 ≤ pool_op_kernel_sizes_len) then
          [Z.min min_k max_k; Z.min (min_k * 2) max_k; Z.min (min_k * 2) max_k;
           Z.min (min_k * 4) max_k; Z.min (min_k * 8) max_k]
          ++ replicate (pool_op_kernel_sizes_len - 5) (Z.min (min_k * 16) max_k)
        else
          take pool_op_kernel_sizes_len
            [Z.min min_k max_k; Z.min (min_k * 2) max_k; Z.min (min_k * 2) max_k;
             Z.min (min_k * 4) max_k; Z.min (min_k * 8) max_k] in
      m ← Py.max k_list;
      max_dilation ← Py.floordiv (H_min * W_min) m;
      let window_size := img_min_shape in
      w0 ← Py.getitem window_size 0;
      w1 ← Py.getitem window_size 1;
      let window_size_n := (w0 * w1)%Z in
      Ok (max_k, k_list, max_dilation, window_size_n)
  | Conv3d =>
      '(H_min, W_min, D_min) ← Py.unpack3 img_min_shape;
      let max_num := (H_min * W_min * D_min / 3)%Z in
      let k_candidate_list := [2; 4; 8; 16; 32]%Z in
      max_k ← Py.min_by (λ x, Z.abs (x - max_num)) k_candidate_list;
      let min_k := (max_num / (2 * 2 * 2))%Z in
      let k_list :=
        if decide (5 ≤ pool_op_kernel_sizes_len) then
          [Z.min min_k max_k; Z.min (min_k * 2) max_k; Z.min (min_k * 2) max_k;
           Z.min (min_k * 4) max_k; Z.min (min_k * 8) max_k]
          ++ replicate (pool_op_kernel_sizes_len - 5) (Z.min (min_k * 16) max_k)
        else
          take pool_op_kernel_sizes_len
            [Z.min min_k max_k; Z.min (min_k * 2) max_k; Z.min (min_k * 2) max_k;
             Z.min (min_k * 4) max_k; Z.min (min_k * 8) max_k] in
      m ← Py.max k_list;
      max_dilation ← Py.floordiv (H_min * W_min * D_min) m;
      let window_size := img_min_shape in
      w0 ← Py.getitem window_size 0;
      w1 ← Py.getitem window_size 1;
      w2 ← Py.getitem window_size 2;
      let window_size_n := (w0 * w1 * w2)%Z in
      Ok (max_k, k_list, max_dilation, window_size_n)
  | _ => Raise NotImplementedError
  end.

(** [shift_size], computed inside the loop over the blocks *)
Definition shift_size_of (conv_op : conv_op) (window_size : list Z) : result (list Z) :=
  match conv_op with
  | Conv2d =>
      w0 ← Py.getitem window_size 0; w1 ← Py.getitem window_size 1;
      Ok [w0 / 2; w1 / 2]%Z
  | Conv3d =>
      w0 ← Py.getitem window_size 0; w1 ← Py.getitem window_size 1;
      w2 ← Py.getitem window_size 2;
      Ok [w0 / 2; w1 / 2; w2 / 2]%Z
  | _ => Raise NotImplementedError
  end.

Record SwinGNNBlocks : Type := mkSwinGNNBlocks {
  swin_n_blocks : Z;
  swin_blocks : list (SwinGrapher * FFN)
}.

Definition SwinGNNBlocks_init (channels : Z) (img_shape : list Z) (index : Z)
    (opt : OptInit) (conv_op : conv_op) : result SwinGNNBlocks :=
  let pool_op_kernel_sizes_len := pool_op_kernel_sizes_len opt in
  let blocks_num_list := blocks opt in
  n_size_list ← getattr (n_size_list opt);
  img_min_shape ← getattr (img_min_shape opt);
  let n_blocks := Py.sum blocks_num_list in
  dpr ← linspace (drop_path opt) n_blocks;
  let sum_blocks := Py.sum (Py.slice_to blocks_num_list index) in
  n_here ← Py.getitem blocks_num_list index;
  let idx_list := (λ k, k + sum_blocks)%Z <$> Py.range n_here in
  '(max_k, k_list, max_dilation, window_size_n) ←
    knn_hyperparameters conv_op img_min_shape pool_op_kernel_sizes_len;
  let window_size := img_min_shape in
  let i := index in
  n_here ← Py.getitem blocks_num_list index;
  blocks ← mapM (λ j,
      idx ← Py.getitem idx_list j;
      shift_size ← shift_size_of conv_op window_size;
      k ← Py.getitem k_list i;
      dp ← getitem_Q dpr idx;
      g ← SwinGrapher_init channels img_shape k (Z.min (idx / 4 + 1) max_dilation)
             (conv opt) 1 window_size_n dp true conv_op window_size shift_size;
      dp ← getitem_Q dpr idx;
      Ok (g, FFN_init channels (Some (channels * 4)%Z) None (act opt) dp))
    (Py.range n_here);
  Ok (mkSwinGNNBlocks n_blocks blocks).

Record PoolGNNBlocks : Type := mkPoolGNNBlocks {
  pool_n_blocks : Z;
  pool_blocks : list (PoolGrapher * FFN)
}.

Definition PoolGNNBlocks_init (channels : Z) (img_shape : list Z)
    (index stage_num : Z) (opt : OptInit) (conv_op : conv_op)
    : result PoolGNNBlocks :=
  let pool_op_kernel_sizes_len := pool_op_kernel_sizes_len opt in
  let reduce_ratios := reduce_ratios opt in
  let blocks_num_list := blocks opt in
  n_size_list ← getattr (n_size_list opt);
  img_min_shape ← getattr (img_min_shape opt);
  let n_blocks := Py.sum blocks_num_list in
  dpr ← linspace (drop_path opt) n_blocks;
  let sum_blocks := Py.sum (Py.slice_to blocks_num_list index) in
  n_here ← Py.getitem blocks_num_list index;
  let idx_list := (λ k, k + sum_blocks)%Z <$> Py.range n_here in
  '(max_k, k_list, max_dilation, window_size_n) ←
    knn_hyperparameters conv_op img_min_shape pool_op_kernel_sizes_len;
  let window_size := img_min_shape in
  let i := index in
  n_here ← Py.getitem blocks_num_list index;
  blocks ← mapM (λ j,
      idx ← Py.getitem idx_list j;
      shift_size ← shift_size_of conv_op window_size;
      k ← Py.getitem k_list (i + stage_num);
      r ← Py.getitem reduce_ratios (i + stage_num);
      n ← Py.getitem n_size_list (i + stage_num);
      dp ← getitem_Q dpr idx;
      g ← PoolGrapher_init channels img_shape k (Z.min (idx / 4 + 1) max_dilation)
             (conv opt) r n dp true conv_op (Some img_min_shape);
      dp ← getitem_Q dpr idx;
      Ok (g, FFN_init channels (Some (channels * 4)%Z) None (act opt) dp))
    (Py.range n_here);
  Ok (mkPoolGNNBlocks n_blocks blocks).

(** *** [NexToU_Encoder] and [NexToU_Decoder] *)

#[warnings="-register-all"] Inductive module : Type :=
  | StackedConvBlocks (num_convs : Z) (conv_op : conv_op)
      (input_channels output_channels : Z) (kernel_size initial_stride : int_or_seq Z)
  | StackedResidualBlocks (n_blocks : Z) (conv_op : conv_op)
      (input_channels output_channels : Z) (kernel_size initial_stride : int_or_seq Z)
  | SwinGNN (b : SwinGNNBlocks)
  | PoolGNN (b : PoolGNNBlocks)
  | Pooling (kernel_size : int_or_seq Z)
  | TransposedConv (input_channels output_channels : Z) (kernel_size stride : list Z)
  | SegLayer (input_channels num_classes : Z)
  | Sequential (ms : list module).

(** Helpers of [dynamic_network_architectures]. *)
Variable get_matching_pool_op : conv_op → string → result unit.
Variable get_matching_convtransp : conv_op → result unit.
Variable maybe_convert_scalar_to_list : conv_op → int_or_seq Z → result (list Z).

(** [x = [x] * n_stages] when [x] is an int *)
Definition per_stage {T} (wrap : Z → T) (x : int_or_seq T) (n_stages : Z) : list T :=
  match x with
  | AnInt k => replicate (Z.to_nat n_stages) (wrap k)
  | ASeq l => l
  end.

(** [h_k, w_k = k] and [h_k, w_k, d_k = k] *)
Definition unpack_kernel2 (k : int_or_seq Z) : result (Z * Z) :=
  match k with AnInt _ => Raise TypeError | ASeq l => Py.unpack2 l end.
Definition unpack_kernel3 (k : int_or_seq Z) : result (Z * Z * Z) :=
  match k with AnInt _ => Raise TypeError | ASeq l => Py.unpack3 l end.

(** Lines 109-140: the resolution of every stage. *)
Fixpoint encoder_shapes2 (h w : Z) (pool_op_kernel_sizes : list (int_or_seq Z))
    (img_shape_list : list (list Z)) (n_size_list : list Z)
    : result (list (list Z) * list Z) :=
  match pool_op_kernel_sizes with
  | [] => Ok (img_shape_list, n_size_list)
  | k :: rest =>
      '(h_k, w_k) ← unpack_kernel2 k;
      h ← Py.floordiv h h_k;
      w ← Py.floordiv w w_k;
      encoder_shapes2 h w rest (img_shape_list ++ [[h; w]]) (n_size_list ++ [h * w])%Z
  end.

Fixpoint encoder_shapes3 (h w d : Z) (pool_op_kernel_sizes : list (int_or_seq Z))
    (img_shape_list : list (list Z)) (n_size_list : list Z)
    : result (list (list Z) * list Z) :=
  match pool_op_kernel_sizes with
  | [] => Ok (img_shape_list, n_size_list)
  | k :: rest =>
      '(h_k, w_k, d_k) ← unpack_kernel3 k;
      h ← Py.floordiv h h_k;
      w ← Py.floordiv w w_k;
      d ← Py.floordiv d d_k;
      encoder_shapes3 h w d rest (img_shape_list ++ [[h; w; d]]) (n_size_list ++ [h * w * d])%Z
  end.

Definition encoder_img_shapes (conv_op : conv_op) (patch_size : list Z)
    (strides : list (int_or_seq Z)) : result (list (list Z) * list Z * list Z) :=
  let pool_op_kernel_sizes := Py.slice_from strides 1 in
  '(img_shape_list, n_size_list) ←
    match conv_op with
    | Conv2d =>
        h ← Py.getitem patch_size 0;
        w ← Py.getitem patch_size 1;
        encoder_shapes2 h w pool_op_kernel_sizes [[h; w]] [h * w]%Z
    | Conv3d =>
        h ← Py.getitem patch_size 0;
        w ← Py.getitem patch_size 1;
        d ← Py.getitem patch_size 2;
        encoder_shapes3 h w d pool_op_kernel_sizes [[h; w; d]] [h * w * d]%Z
    | _ => Raise ValueError
    end;
  img_min_shape ← Py.getitem img_shape_list (-1);
  Ok (img_shape_list, n_size_list, img_min_shape).

Record NexToU_Encoder : Type := mkEncoder {
  enc_opt : OptInit;
  enc_n_swin_gnn_stages : Z;
  enc_no_pool_gnn_stage_num : Z;
  enc_n_conv_stages : Z;
  enc_stem : option module;
  enc_stages : list module;
  output_channels : list Z;
  enc_strides : list (list Z);
  return_skips : bool;
  enc_conv_op : conv_op;
  conv_bias : bool;
  kernel_sizes : list (int_or_seq Z)
}.

(** The body of [for s in range(n_stages)]. *)
Definition encoder_stage (s : Z) (input_channels : Z) (pooled : bool)
    (n_conv_stages no_pool_gnn_stage_num : Z) (opt : OptInit) (conv_op : conv_op)
    (features_per_stage n_blocks_per_stage : list Z)
    (kernel_sizes strides : list (int_or_seq Z))
    (img_shape_list : list (list Z)) : result module :=
  stride_for_conv ← (if pooled then Ok (AnInt 1) else Py.getitem strides s);
  stage ←
    (if (s <? n_conv_stages)%Z then
       n ← Py.getitem n_blocks_per_stage s;
       f ← Py.getitem features_per_stage s;
       k ← Py.getitem kernel_sizes s;
       Ok (StackedResidualBlocks n conv_op input_channels f k stride_for_conv)
     else if (s <? no_pool_gnn_stage_num)%Z then
       n ← Py.getitem n_blocks_per_stage s;
       f ← Py.getitem features_per_stage s;
       k ← Py.getitem kernel_sizes s;
       let res := StackedResidualBlocks (n - 1) conv_op input_channels f k stride_for_conv in
       f ← Py.getitem features_per_stage s;
       shp ← Py.getitem img_shape_list s;
       swin ← SwinGNNBlocks_init f shp (s - n_conv_stages) opt conv_op;
       Ok (Sequential [res; SwinGNN swin])
     else
       n ← Py.getitem n_blocks_per_stage s;
       f ← Py.getitem features_per_stage s;
       k ← Py.getitem kernel_sizes s;
       let res := StackedResidualBlocks (n - 1) conv_op input_channels f k stride_for_conv in
       f ← Py.getitem features_per_stage s;
       shp ← Py.getitem img_shape_list s;
       pool ← PoolGNNBlocks_init f shp (s - no_pool_gnn_stage_num)
                no_pool_gnn_stage_num opt conv_op;
       f ← Py.getitem features_per_stage s;
       shp ← Py.getitem img_shape_list s;
       swin ← SwinGNNBlocks_init f shp (s - n_conv_stages) opt conv_op;
       Ok (Sequential [res; PoolGNN pool; SwinGNN swin]));
  if pooled then
    st ← Py.getitem strides s;
    Ok (Sequential [Pooling st; stage])
  else Ok stage.

Fixpoint encoder_stages (ss : list Z) (input_channels : Z) (pooled : bool)
    (n_conv_stages no_pool_gnn_stage_num : Z) (opt : OptInit) (conv_op : conv_op)
    (features_per_stage n_blocks_per_stage : list Z)
    (kernel_sizes strides : list (int_or_seq Z))
    (img_shape_list : list (list Z)) : result (list module) :=
  match ss with
  | [] => Ok []
  | s :: ss' =>
      stage ← encoder_stage s input_channels pooled n_conv_stages
                 no_pool_gnn_stage_num opt conv_op features_per_stage
                 n_blocks_per_stage kernel_sizes strides img_shape_list;
      input_channels ← Py.getitem features_per_stage s;
      stages ← encoder_stages ss' input_channels pooled n_conv_stages
                  no_pool_gnn_stage_num opt conv_op features_per_stage
                  n_blocks_per_stage kernel_sizes strides img_shape_list;
      Ok (stage :: stages)
  end.

Definition len {T} (l : list T) : Z := Z.of_nat (length l).

Definition NexToU_Encoder_init (input_channels : Z) (patch_size : list Z)
    (n_stages : Z) (features_per_stage : int_or_seq Z) (conv_op : conv_op)
    (kernel_sizes strides : int_or_seq (int_or_seq Z))
    (n_blocks_per_stage : int_or_seq Z) (conv_bias : bool)
    (bottleneck_channels : option (int_or_seq Z)) (return_skips : bool)
    (disable_default_stem : bool) (stem_channels : option Z) (pool_type : string)
    : result NexToU_Encoder :=
  let kernel_sizes := per_stage AnInt kernel_sizes n_stages in
  let features_per_stage := per_stage id features_per_stage n_stages in
  let n_blocks_per_stage := per_stage id n_blocks_per_stage n_stages in
  let strides := per_stage AnInt strides n_stages in
  let bottleneck_channels :=
    match bottleneck_channels with
    | None => replicate (Z.to_nat n_stages) None
    | Some (AnInt k) => replicate (Z.to_nat n_stages) (Some k)
    | Some (ASeq l) => Some <$> l
    end in
  _ ← py_assert (len bottleneck_channels =? n_stages)%Z;
  _ ← py_assert (len kernel_sizes =? n_stages)%Z;
  _ ← py_assert (len n_blocks_per_stage =? n_stages)%Z;
  _ ← py_assert (len features_per_stage =? n_stages)%Z;
  _ ← py_assert (len strides =? n_stages)%Z;
  pool_op ←
    (if decide (pool_type ≠ "conv")
     then _ ← get_matching_pool_op conv_op pool_type; Ok true
     else Ok false);
  '(img_shape_list, n_size_list, img_min_shape) ←
    encoder_img_shapes conv_op patch_size strides;
  let opt := OptInit_init 0 (length strides) in
  let opt := set_img_min_shape opt img_min_shape in
  let n_swin_gnn_stages := 0%Z in
  let no_pool_gnn_stage_num := (n_stages - 4)%Z in
  let n_conv_stages := (no_pool_gnn_stage_num - n_swin_gnn_stages)%Z in
  let opt := set_n_size_list opt n_size_list in
  '(stem, input_channels) ←
    (if disable_default_stem then Ok (None, input_channels)
     else
       stem_channels ←
         match stem_channels with
         | None => Py.getitem features_per_stage 0
         | Some c => Ok c
         end;
       k ← Py.getitem kernel_sizes 0;
       Ok (Some (StackedConvBlocks 1 conv_op input_channels stem_channels k (AnInt 1)),
           stem_channels));
  stages ← encoder_stages (Py.range n_stages) input_channels pool_op n_conv_stages
              no_pool_gnn_stage_num opt conv_op features_per_stage
              n_blocks_per_stage kernel_sizes strides img_shape_list;
  strides' ← mapM (maybe_convert_scalar_to_list conv_op) strides;
  Ok (mkEncoder opt n_swin_gnn_stages no_pool_gnn_stage_num n_conv_stages stem
        stages features_per_stage strides' return_skips conv_op conv_bias
        kernel_sizes).

(** Lines 279-310 of the decoder: the same quantities, computed again. *)
Fixpoint decoder_shapes2 (h w : Z) (pool_op_kernel_sizes : list (int_or_seq Z))
    (img_shape_list : list (list Z)) (n_size_list : list Z)
    : result (list (list Z) * list Z) :=
  match pool_op_kernel_sizes with
  | [] => Ok (img_shape_list, n_size_list)
  | k :: rest =>
      '(h_k, w_k) ← unpack_kernel2 k;
      h ← Py.floordiv h h_k;
      w ← Py.floordiv w w_k;
      decoder_shapes2 h w rest (img_shape_list ++ [[h; w]]) (n_size_list ++ [h * w])%Z
  end.

Fixpoint decoder_shapes3 (h w d : Z) (pool_op_kernel_sizes : list (int_or_seq Z))
    (img_shape_list : list (list Z)) (n_size_list : list Z)
    : result (list (list Z) * list Z) :=
  match pool_op_kernel_sizes with
  | [] => Ok (img_shape_list, n_size_list)
  | k :: rest =>
      '(h_k, w_k, d_k) ← unpack_kernel3 k;
      h ← Py.floordiv h h_k;
      w ← Py.floordiv w w_k;
      d ← Py.floordiv d d_k;
      decoder_shapes3 h w d rest (img_shape_list ++ [[h; w; d]]) (n_size_list ++ [h * w * d])%Z
  end.

Definition decoder_img_shapes (encoder : NexToU_Encoder) (patch_size : list Z)
    (strides : list (int_or_seq Z)) : result (list (list Z) * list Z * list Z) :=
  let pool_op_kernel_sizes := Py.slice_from strides 1 in
  '(img_shape_list, n_size_list) ←
    match enc_conv_op encoder with
    | Conv2d =>
        h ← Py.getitem patch_size 0;
        w ← Py.getitem patch_size 1;
        decoder_shapes2 h w pool_op_kernel_sizes [[h; w]] [h * w]%Z
    | Conv3d =>
        h ← Py.getitem patch_size 0;
        w ← Py.getitem patch_size 1;
        d ← Py.getitem patch_size 2;
        decoder_shapes3 h w d pool_op_kernel_sizes [[h; w; d]] [h * w * d]%Z
    | _ => Raise ValueError
    end;
  img_min_shape ← Py.getitem img_shape_list (-1);
  Ok (img_shape_list, n_size_list, img_min_shape).

Record NexToU_Decoder : Type := mkDecoder {
  deep_supervision : bool;
  dec_encoder : NexToU_Encoder;
  num_classes : Z;
  dec_opt : OptInit;
  dec_n_swin_gnn_stages : Z;
  dec_no_pool_gnn_stage_num : Z;
  dec_n_conv_stages : Z;
  dec_stages : list module;
  transpconvs : list module;
  seg_layers : list module
}.

(** The body of [for s in range(1, n_stages_encoder)]: the transposed
    convolution, the stage and the segmentation layer. *)
Definition decoder_stage (s : Z) (encoder : NexToU_Encoder) (n_stages_encoder : Z)
    (n_conv_stages no_pool_gnn_stage_num : Z) (opt : OptInit)
    (n_conv_per_stage : list Z) (num_classes : Z)
    (img_shape_list : list (list Z)) : result (module * module * module) :=
  input_features_below ← Py.getitem (output_channels encoder) (- s);
  input_features_skip ← Py.getitem (output_channels encoder) (- (s + 1));
  stride_for_transpconv ← Py.getitem (enc_strides encoder) (- s);
  let transpconv :=
    TransposedConv input_features_below input_features_skip
      stride_for_transpconv stride_for_transpconv in
  stage ←
    (if (s <? n_stages_encoder - no_pool_gnn_stage_num)%Z then
       n ← Py.getitem n_conv_per_stage (s - 1);
       k ← Py.getitem (kernel_sizes encoder) (- (s + 1));
       let res := StackedResidualBlocks (n - 1) (enc_conv_op encoder)
                    (2 * input_features_skip) input_features_skip k (AnInt 1) in
       shp ← Py.getitem img_shape_list (n_stages_encoder - (s + 1));
       pool ← PoolGNNBlocks_init input_features_skip shp
                (n_stages_encoder - no_pool_gnn_stage_num - (s + 1))
                no_pool_gnn_stage_num opt (enc_conv_op encoder);
       shp ← Py.getitem img_shape_list (n_stages_encoder - (s + 1));
       swin ← SwinGNNBlocks_init input_features_skip shp
                (n_stages_encoder - n_conv_stages - (s + 1)) opt (enc_conv_op encoder);
       Ok (Sequential [res; PoolGNN pool; SwinGNN swin])
     else if (s <? n_stages_encoder - n_conv_stages)%Z then
       n ← Py.getitem n_conv_per_stage (s - 1);
       k ← Py.getitem (kernel_sizes encoder) (- (s + 1));
       let res := StackedResidualBlocks (n - 1) (enc_conv_op encoder)
                    (2 * input_features_skip) input_features_skip k (AnInt 1) in
       shp ← Py.getitem img_shape_list (n_stages_encoder - (s + 1));
       swin ← SwinGNNBlocks_init input_features_skip shp
                (n_stages_encoder - n_conv_stages - (s + 1)) opt (enc_conv_op encoder);
       Ok (Sequential [res; SwinGNN swin])
     else
       n ← Py.getitem n_conv_per_stage (s - 1);
       k ← Py.getitem (kernel_sizes encoder) (- (s + 1));
       Ok (StackedResidualBlocks n (enc_conv_op encoder)
             (2 * input_features_skip) input_features_skip k (AnInt 1)));
  Ok (transpconv, stage, SegLayer input_features_skip num_classes).

Definition NexToU_Decoder_init (encoder : NexToU_Encoder) (patch_size : list Z)
    (strides : int_or_seq (int_or_seq Z)) (num_classes : Z)
    (n_conv_per_stage : int_or_seq Z) (deep_supervision : bool)
    : result NexToU_Decoder :=
  let n_stages_encoder := len (output_channels encoder) in
  let n_conv_per_stage := per_stage id n_conv_per_stage (n_stages_encoder - 1) in
  _ ← py_assert (len n_conv_per_stage =? n_stages_encoder - 1)%Z;
  _ ← get_matching_convtransp (enc_conv_op encoder);
  strides ← match strides with AnInt _ => Raise TypeError | ASeq l => Ok l end;
  '(img_shape_list, n_size_list, img_min_shape) ←
    decoder_img_shapes encoder patch_size strides;
  let opt := OptInit_init 0 (length strides) in
  let opt := set_img_min_shape opt img_min_shape in
  let n_swin_gnn_stages := 0%Z in
  let no_pool_gnn_stage_num := (n_stages_encoder - 4)%Z in
  let n_conv_stages := (no_pool_gnn_stage_num - n_swin_gnn_stages)%Z in
  let opt := set_n_size_list opt n_size_list in
  built ← mapM (λ s, decoder_stage s encoder n_stages_encoder n_conv_stages
                       no_pool_gnn_stage_num opt n_conv_per_stage num_classes
                       img_shape_list)
            (Py.range2 1 n_stages_encoder);
  Ok (mkDecoder deep_supervision encoder num_classes opt n_swin_gnn_stages
        no_pool_gnn_stage_num n_conv_stages
        ((λ b, b.1.2) <$> built) ((λ b, b.1.1) <$> built) ((λ b, b.2) <$> built)).

End graphers.

(** *** The forward passes of the encoder and the decoder *)

(** What a forward pass returns: one feature map, or a list of them. *)
Inductive forward_output (T : Type) : Type :=
  | Single (t : T)
  | Many (l : list T).
Arguments Single {T} t.
Arguments Many {T} l.

Section forward.
Context {embedding T : Type}.

(** Calling a module on a feature map, and [torch.cat((x, skip), 1)]. *)
Variable call : @module embedding → T → result T.
Variable cat : T → T → result T.

(** [for s_i in range(0, len(self.stages))] *)
Fixpoint encoder_forward_loop (self : @NexToU_Encoder embedding) (s_is : list Z)
    (x : T) (ret : list T) : result (list T) :=
  match s_is with
  | [] => Ok ret
  | s_i :: rest =>
      s ← Py.getitem (enc_stages self) s_i;
      x ← call s x;
      encoder_forward_loop self rest x (ret ++ [x])
  end.

Definition NexToU_Encoder_forward (self : @NexToU_Encoder embedding) (x : T)
    : result (forward_output T) :=
  x ← match enc_stem self with
      | Some stem => call stem x
      | None => Ok x
      end;
  ret ← encoder_forward_loop self (Py.range2 0 (len (enc_stages self))) x [];
  if return_skips self then Ok (Many ret)
  else r ← Py.getitem ret (-1); Ok (Single r).

(** [for s in range(len(self.stages))] *)
Fixpoint decoder_forward_loop (self : @NexToU_Decoder embedding) (ss : list Z)
    (skips : list T) (lres_input : T) (seg_outputs : list T) : result (list T) :=
  match ss with
  | [] => Ok seg_outputs
  | s :: rest =>
      transpconv ← Py.getitem (transpconvs self) s;
      x ← call transpconv lres_input;
      skip ← Py.getitem skips (- (s + 2));
      x ← cat x skip;
      stage ← Py.getitem (dec_stages self) s;
      x ← call stage x;
      seg_outputs ←
        (if deep_supervision self then
           seg ← Py.getitem (seg_layers self) s;
           o ← call seg x;
           Ok (seg_outputs ++ [o])
         else if (s =? len (dec_stages self) - 1)%Z then
           seg ← Py.getitem (seg_layers self) (-1);
           o ← call seg x;
           Ok (seg_outputs ++ [o])
         else Ok seg_outputs);
      decoder_forward_loop self rest skips x seg_outputs
  end.

Definition NexToU_Decoder_forward (self : @NexToU_Decoder embedding) (skips : list T)
    : result (forward_output T) :=
  lres_input ← Py.getitem skips (-1);
  seg_outputs ←
    decoder_forward_loop self (Py.range (len (dec_stages self))) skips lres_input [];
  let seg_outputs := reverse seg_outputs in
  if negb (deep_supervision self) then r ← Py.getitem seg_outputs 0; Ok (Single r)
  else Ok (Many seg_outputs).

End forward.

(** *** The embedding the graph convolution receives in [forward] *)

Section forward_relative_pos.
Context {embedding : Type}.
Variable interpolate_bicubic : embedding → Z * Z → result embedding.

(** [SwinGrapher.forward], lines 849-858: the embedding handed to the graph
    convolution, from the shape of [fc1(x_windows)]. *)
Definition SwinGrapher_forward_relative_pos (self : @SwinGrapher embedding)
    (x_shape : list Z) : result (option embedding) :=
  match sw_conv_op self with
  | Conv2d =>
      '(B_, C, H, W) ← unpack4 x_shape;
      let window_size_tuple := [H; W] in
      SwinGrapher_get_relative_pos interpolate_bicubic self (sw_relative_pos self)
        window_size_tuple
  | Conv3d =>
      '(B_, C, S_, H, W) ← unpack5 x_shape;
      let window_size_tuple := [S_; H; W] in
      SwinGrapher_get_relative_pos interpolate_bicubic self (sw_relative_pos self)
        window_size_tuple
  | _ => Raise NotImplementedError
  end.

(** [PoolGrapher.forward], lines 973-983: the same, from the shape of
    [fc1(x)]; the size handed over is the pooled one. *)
Definition PoolGrapher_forward_relative_pos (self : @PoolGrapher embedding)
    (x_shape : list Z) : result (option embedding) :=
  match po_conv_op self with
  | Conv2d =>
      '(B_, C, H, W) ← unpack4 x_shape;
      p0 ← Py.getitem (po_pool_size self) 0; h ← Py.floordiv H p0;
      p1 ← Py.getitem (po_pool_size self) 1; w ← Py.floordiv W p1;
      let size_tuple := [h; w] in
      PoolGrapher_get_relative_pos interpolate_bicubic self (po_relative_pos self)
        size_tuple
  | Conv3d =>
      '(B_, C, S_, H, W) ← unpack5 x_shape;
      p0 ← Py.getitem (po_pool_size self) 0; s ← Py.floordiv S_ p0;
      p1 ← Py.getitem (po_pool_size self) 1; h ← Py.floordiv H p1;
      p2 ← Py.getitem (po_pool_size self) 2; w ← Py.floordiv W p2;
      let size_tuple := [s; h; w] in
      PoolGrapher_get_relative_pos interpolate_bicubic self (po_relative_pos self)
        size_tuple
  | _ => Raise NotImplementedError
  end.

End forward_relative_pos.

(** *** [compute_conv_feature_map_size] of the encoder and the decoder *)

Section feature_map_size.
Context {embedding : Type}.

(** What the two methods take from elsewhere: the method
    [compute_conv_feature_map_size] of the blocks of
    [dynamic_network_architectures], for a module that has one; the
    addition of [np.int64] and [np.prod(..., dtype=np.int64)]. *)
Variable blocks_feature_map_size : @module embedding → option (list Z → result Z).
Variable int64_add : Z → Z → result Z.
Variable np_prod_int64 : list Z → result Z.

(** [m.compute_conv_feature_map_size]: the classes of this file, the
    containers and the layers of torch have no attribute of that name. *)
Definition feature_map_size_method (m : @module embedding)
    : option (list Z → result Z) :=
  match m with
  | StackedConvBlocks _ _ _ _ _ _ | StackedResidualBlocks _ _ _ _ _ _ =>
      blocks_feature_map_size m
  | _ => None
  end.

Definition getattr_feature_map_size (m : @module embedding)
    : result (list Z → result Z) :=
  match feature_map_size_method m with
  | Some f => Ok f
  | None => Raise AttributeError
  end.

Definition hasattr_feature_map_size (m : @module embedding) : bool :=
  match feature_map_size_method m with Some _ => true | None => false end.

(** [[i // j for i, j in zip(input_size, strides)]] *)
Fixpoint floordiv_zip (input_size strides : list Z) : result (list Z) :=
  match input_size, strides with
  | i :: input_size, j :: strides =>
      q ← Py.floordiv i j;
      qs ← floordiv_zip input_size strides;
      Ok (q :: qs)
  | _, _ => Ok []
  end.

(** [for sq in self.stages[s]], on a stage that is a [nn.Sequential] *)
Fixpoint encoder_size_of_sequential (stage sqs : list (@module embedding))
    (input_size : list Z) (output : Z) : result Z :=
  match sqs with
  | [] => Ok output
  | sq :: rest =>
      output ←
        (if hasattr_feature_map_size sq then
           last_module ← Py.getitem stage (-1);
           f ← getattr_feature_map_size last_module;
           v ← f input_size;
           int64_add output v
         else Ok output);
      encoder_size_of_sequential stage rest input_size output
  end.

(** [for s in range(len(self.stages))] *)
Fixpoint encoder_size_loop (self : @NexToU_Encoder embedding) (ss : list Z)
    (input_size : list Z) (output : Z) : result Z :=
  match ss with
  | [] => Ok output
  | s :: rest =>
      stage ← Py.getitem (enc_stages self) s;
      output ←
        match stage with
        | Sequential ms => encoder_size_of_sequential ms ms input_size output
        | _ =>
            f ← getattr_feature_map_size stage;
            v ← f input_size;
            int64_add output v
        end;
      strides_s ← Py.getitem (enc_strides self) s;
      input_size ← floordiv_zip input_size strides_s;
      encoder_size_loop self rest input_size output
  end.

Definition NexToU_Encoder_compute_conv_feature_map_size
    (self : @NexToU_Encoder embedding) (input_size : list Z) : result Z :=
  let output := 0%Z in
  encoder_size_loop self (Py.range (len (enc_stages self))) input_size output.

(** [for s in range(len(self.encoder.strides) - 1)] *)
Fixpoint decoder_skip_sizes (strides : list (list Z)) (ss : list Z)
    (input_size : list Z) (skip_sizes : list (list Z)) : result (list (list Z)) :=
  match ss with
  | [] => Ok skip_sizes
  | s :: rest =>
      strides_s ← Py.getitem strides s;
      size ← floordiv_zip input_size strides_s;
      let skip_sizes := skip_sizes ++ [size] in
      input_size ← Py.getitem skip_sizes (-1);
      decoder_skip_sizes strides rest input_size skip_sizes
  end.

(** [for s in range(len(self.stages))] *)
Fixpoint decoder_size_loop (self : @NexToU_Decoder embedding) (ss : list Z)
    (skip_sizes : list (list Z)) (output : Z) : result Z :=
  match ss with
  | [] => Ok output
  | s :: rest =>
      stage ← Py.getitem (dec_stages self) s;
      f ← getattr_feature_map_size stage;
      size ← Py.getitem skip_sizes (- (s + 1));
      v ← f size;
      output ← int64_add output v;
      channels ← Py.getitem (output_channels (dec_encoder self)) (- (s + 2));
      size ← Py.getitem skip_sizes (- (s + 1));
      v ← np_prod_int64 (channels :: size);
      output ← int64_add output v;
      output ←
        (if (deep_supervision self || (s =? len (dec_stages self) - 1)%Z)%bool then
           size ← Py.getitem skip_sizes (- (s + 1));
           v ← np_prod_int64 (num_classes self :: size);
           int64_add output v
         else Ok output);
      decoder_size_loop self rest skip_sizes output
  end.

Definition NexToU_Decoder_compute_conv_feature_map_size
    (self : @NexToU_Decoder embedding) (input_size : list Z) : result Z :=
  let strides := enc_strides (dec_encoder self) in
  skip_sizes ← decoder_skip_sizes strides (Py.range (len strides - 1)) input_size [];
  _ ← py_assert (len skip_sizes =? len (dec_stages self))%Z;
  let output := 0%Z in
  decoder_size_loop self (Py.range (len (dec_stages self))) skip_sizes output.

End feature_map_size.

(** ** The trainer ([nnUNetTrainer_NexToU.py]) *)

Inductive network_class : Set :=
  | PlainConvUNet
  | ResidualEncoderUNet
  | NexToU.

#[global] Instance network_class_eq_dec : EqDecision network_class.
Proof. solve_decision. Defined.

(** What the method reads from [self.configuration_manager]. *)
Record ConfigurationManager : Type := mkConfigurationManager {
  cm_conv_kernel_sizes : list (list Z);
  cm_patch_size : list Z;
  cm_n_stages : Z;
  cm_UNet_base_num_features : Z;
  cm_unet_max_num_features : Z;
  cm_pool_op_kernel_sizes : list (list Z);
  cm_n_blocks_per_stage : list Z;
  cm_n_conv_per_stage_decoder : list Z
}.

(** The keyword arguments of [network_class(...)]. *)
Record network_kwargs : Type := mkNetworkKwargs {
  kw_input_channels : Z;
  kw_patch_size : list Z;
  kw_n_stages : Z;
  kw_features_per_stage : list Z;
  kw_conv_op : conv_op;
  kw_kernel_sizes : list (list Z);
  kw_strides : list (list Z);
  kw_num_classes : Z;
  kw_deep_supervision : bool;
  kw_n_blocks_per_stage : list Z;
  kw_n_blocks_per_stage_decoder : list Z;
  kw_conv_bias : bool
}.

Definition segmentation_network_class_name : string := "NexToU".

Definition mapping : gmap string network_class :=
  <["PlainConvUNet" := PlainConvUNet]>
    (<["ResidualEncoderUNet" := ResidualEncoderUNet]>
       (<["NexToU" := NexToU]> ∅)).

(** [d[k]] on a dict *)
Definition dict_getitem {V} (d : gmap string V) (k : string) : result V :=
  match d !! k with Some v => Ok v | None => Raise KeyError end.

(** [assert segmentation_network_class_name in mapping.keys()] *)
Definition class_name_assertion : result unit :=
  py_assert (bool_decide (segmentation_network_class_name ∈ dom mapping)).

Section trainer.

(** The state of a constructed network, and the functions the method
    calls that are defined elsewhere: [convert_dim_to_conv_op],
    [get_matching_batchnorm], the label manager and its number of
    segmentation heads, the constructors of the three network classes,
    and [model.apply]. *)
Context {net_state label_manager : Type}.
Variable convert_dim_to_conv_op : Z → result conv_op.
Variable get_matching_batchnorm : conv_op → result unit.
Variable get_label_manager : result label_manager.
Variable num_segmentation_heads : label_manager → result Z.
Variable construct : network_class → network_kwargs → result net_state.
Variable apply_init : string → net_state → result net_state.

(** An object and its class. *)
Record model : Type := mkModel { model_class : network_class; model_state : net_state }.

Definition build_network_architecture (cm : ConfigurationManager)
    (architecture_class_name : string) (num_input_channels num_output_channels : Z)
    (enable_deep_supervision : bool) : result model :=
  k0 ← Py.getitem (cm_conv_kernel_sizes cm) 0;
  let dim := len k0 in
  conv_op ← convert_dim_to_conv_op dim;
  label_manager ← get_label_manager;
  let segmentation_network_class_name := segmentation_network_class_name in
  let mapping := mapping in
  _ ← get_matching_batchnorm conv_op;
  _ ← get_matching_batchnorm conv_op;
  _ ← get_matching_batchnorm conv_op;
  _ ← class_name_assertion;
  network_class ← dict_getitem mapping segmentation_network_class_name;
  let features_per_stage :=
    (λ i, Z.min (cm_UNet_base_num_features cm * 2 ^ i) (cm_unet_max_num_features cm))
      <$> Py.range (cm_n_stages cm) in
  heads ← num_segmentation_heads label_manager;
  st ← construct network_class
         (mkNetworkKwargs num_input_channels (cm_patch_size cm) (cm_n_stages cm)
            features_per_stage conv_op (cm_conv_kernel_sizes cm)
            (cm_pool_op_kernel_sizes cm) heads enable_deep_supervision
            (cm_n_blocks_per_stage cm) (cm_n_conv_per_stage_decoder cm) true);
  st ← apply_init "InitWeights_He" st;
  st ← (if decide (network_class = ResidualEncoderUNet)
        then apply_init "init_last_bn_before_add_to_0" st
        else Ok st);
  Ok (mkModel network_class st).

End trainer.

(** ** Vocabulary of the properties *)

(** The spacing [normalized_surface_dice] works with. *)
Definition spacing_used (a : tensor bool) (spacing : option (list Q)) : list Q :=
  match spacing with
  | None => replicate (length (shape a)) 1%Q
  | Some sp => sp
  end.

(** The entries of a kernel or stride given as a sequence. *)
Definition kernel_entries (k : int_or_seq Z) : list Z :=
  match k with AnInt _ => [] | ASeq l => l end.

(** The multi-resolution schedule: the first resolution, then each
    resolution floor-divided componentwise by the next stride. *)
Fixpoint resolutions (cur : list Z) (pool_op_kernel_sizes : list (int_or_seq Z))
    : list (list Z) :=
  match pool_op_kernel_sizes with
  | [] => [cur]
  | k :: rest => cur :: resolutions (zip_with Z.div cur (kernel_entries k)) rest
  end.

(** Number of spatial dimensions of a convolution. *)
Definition spatial_dims (c : conv_op) : nat :=
  match c with Conv1d => 1 | Conv2d => 2 | Conv3d => 3 | OtherConv _ => 0 end.

(** The three kinds of stage the encoder and the decoder can build. *)
Inductive stage_kind : Set :=
  | ResidualOnly
  | ResidualSwin
  | ResidualPoolSwin
  | OtherStage.

Definition body_kind {embedding} (m : @module embedding) : stage_kind :=
  match m with
  | StackedResidualBlocks _ _ _ _ _ _ => ResidualOnly
  | Sequential [StackedResidualBlocks _ _ _ _ _ _; SwinGNN _] => ResidualSwin
  | Sequential [StackedResidualBlocks _ _ _ _ _ _; PoolGNN _; SwinGNN _] =>
      ResidualPoolSwin
  | _ => OtherStage
  end.

(** The kind of a stage, looking through the pooling that a [pool_type]
    other than ['conv'] puts in front of it. *)
Definition kind_of_stage {embedding} (m : @module embedding) : stage_kind :=
  match m with
  | Sequential [Pooling _; body] => body_kind body
  | _ => body_kind m
  end.

(** A stride entry the resolution loop of dimension [d] accepts. *)
Definition stride_ok (d : nat) (k : int_or_seq Z) : Prop :=
  ∃ l, k = ASeq l ∧ length l = d ∧ Forall (λ z, z ≠ 0%Z) l.


(** The options the encoder and the decoder hand to their GNN blocks. *)
Definition stage_options (n_strides : nat) (img_min_shape : list Z)
    (n_size_list : list Z) : OptInit :=
  set_n_size_list (set_img_min_shape (OptInit_init 0 n_strides) img_min_shape) n_size_list.


(** The product of the entries of a shape. *)
Definition product (l : list Z) : Z := foldr Z.mul 1%Z l.

(** The pooling rule of the pooled graph convolution as the documentation
    words it: 2 along the even extents of an image that is large compared
    with the smallest one, 1 everywhere else. *)
Definition pooling_rule (img_shape img_min_shape : list Z) : list Z :=
  (λ h, if ((product img_min_shape * 4 ^ len img_min_shape <? product img_shape)
             && Z.even h)%Z
        then 2 else 1)%Z <$> img_shape.

(** The coarser nodes [y] that [PoolDyGraphConv.forward] hands to the graph
    convolution with the pooled map: none unless [r > 1], and then the
    average-pooled map, flattened to one axis of nodes. *)
Definition pooled_y (r B C : Z) (pooled : list Z) : option (list Z) :=
  if (r >? 1)%Z
  then Some [B; C; product ((λ s, s / r)%Z <$> pooled); 1%Z]
  else None.

Section relative_pos_vocabulary.
Context {embedding : Type}.
Variable interpolate_bicubic : embedding → Z * Z → result embedding.

(** The behaviour the three methods share, for the convolution [conv], the
    number of nodes [n] and the reduction ratio [r] of the object. *)
Definition relative_pos_behaviour (conv : conv_op) (n r : Z)
    (method : option embedding → list Z → result (option embedding)) : Prop :=
  (∀ relative_pos size_tuple,
     conv = Conv2d ∨ conv = Conv3d →
     length size_tuple = spatial_dims conv →
     relative_pos = None ∨ product size_tuple = n →
     method relative_pos size_tuple = Ok relative_pos) ∧
  (∀ e size_tuple,
     conv = Conv2d ∨ conv = Conv3d →
     length size_tuple = spatial_dims conv →
     product size_tuple ≠ n → r ≠ 0%Z →
     method (Some e) size_tuple =
     e' ← interpolate_bicubic e
             (product size_tuple,
              product size_tuple / r ^ Z.of_nat (spatial_dims conv))%Z;
     Ok (Some e')) ∧
  (∀ relative_pos size_tuple,
     conv ≠ Conv2d → conv ≠ Conv3d →
     method relative_pos size_tuple = Raise NotImplementedError).

End relative_pos_vocabulary.

(** ** Vocabulary of the further properties *)

(** The entry of a tensor at a multi-index. *)
Definition tensor_get {A} `{!Inhabited A} (t : tensor A) (idx : list nat) : A :=
  data t !!! ravel (shape t) idx.

(** A smallest feature map with too few points for the neighbourhood
    sizes: fewer than 8 in two, fewer than 24 in three dimensions. *)
Definition too_small (conv : conv_op) (img_min_shape : list Z) : Prop :=
  (conv = Conv2d ∧ length img_min_shape = 2 ∧ (0 <= product img_min_shape < 8)%Z) ∨
  (conv = Conv3d ∧ length img_min_shape = 3 ∧ (0 <= product img_min_shape < 24)%Z).

(** The groups of graph blocks inside a module. *)
Fixpoint swin_gnn_blocks {embedding} (m : @module embedding) : list SwinGNNBlocks :=
  match m with
  | SwinGNN b => [b]
  | Sequential ms =>
      (fix go ms := match ms with [] => [] | m :: ms' => swin_gnn_blocks m ++ go ms' end) ms
  | _ => []
  end.

Fixpoint pool_gnn_blocks {embedding} (m : @module embedding) : list PoolGNNBlocks :=
  match m with
  | PoolGNN b => [b]
  | Sequential ms =>
      (fix go ms := match ms with [] => [] | m :: ms' => pool_gnn_blocks m ++ go ms' end) ms
  | _ => []
  end.

(** A group of one block, with a dilation of at most 1 and no stochastic
    depth. *)
Definition plain_swin_blocks {embedding} (sb : @SwinGNNBlocks embedding) : Prop :=
  ∃ g f, swin_blocks sb = [(g, f)] ∧ (dg_d (sw_graph_conv g) <= 1)%Z ∧
         (sw_drop_path g == 0)%Q ∧ (ffn_drop_path f == 0)%Q.
Definition plain_pool_blocks {embedding} (pb : @PoolGNNBlocks embedding) : Prop :=
  ∃ g f, pool_blocks pb = [(g, f)] ∧ (pg_d (po_graph_conv g) <= 1)%Z ∧
         (po_drop_path g == 0)%Q ∧ (ffn_drop_path f == 0)%Q.

(** A stage without the pooling that a [pool_type] other than ['conv']
    puts in front of it, and the residual blocks it starts with. *)
Definition stage_body {embedding} (m : @module embedding) : @module embedding :=
  match m with
  | Sequential [Pooling _; body] => body
  | _ => m
  end.

Definition residual_part {embedding} (m : @module embedding)
    : option (@module embedding) :=
  match stage_body m with
  | StackedResidualBlocks n c i o k s => Some (StackedResidualBlocks n c i o k s)
  | Sequential (StackedResidualBlocks n c i o k s :: _) =>
      Some (StackedResidualBlocks n c i o k s)
  | _ => None
  end.

(** Every graph block of a group works on [c] channels, its feed-forward
    network widening them four times in between. *)
Definition swin_channels {embedding} (c : Z) (sb : @SwinGNNBlocks embedding) : Prop :=
  Forall (λ gf, sw_channels gf.1 = c ∧ ffn_in_features gf.2 = c ∧
                ffn_hidden_features gf.2 = (c * 4)%Z ∧ ffn_out_features gf.2 = c)
    (swin_blocks sb).
Definition pool_channels {embedding} (c : Z) (pb : @PoolGNNBlocks embedding) : Prop :=
  Forall (λ gf, po_channels gf.1 = c ∧ ffn_in_features gf.2 = c ∧
                ffn_hidden_features gf.2 = (c * 4)%Z ∧ ffn_out_features gf.2 = c)
    (pool_blocks pb).

Section decoder_vocabulary.
Context {embedding T : Type}.
Variable call : @module embedding → T → result T.
Variable cat : T → T → result T.

(** One pass of the loop of [NexToU_Decoder.forward]: stage [s] turns the
    feature map [prev] into [cur]. *)
Definition decoder_step (self : @NexToU_Decoder embedding) (skips : list T)
    (s : nat) (prev cur : T) : Prop :=
  ∃ tc st skip up merged,
    transpconvs self !! s = Some tc ∧ dec_stages self !! s = Some st ∧
    call tc prev = Ok up ∧
    s + 2 ≤ length skips ∧ skips !! (length skips - (s + 2)) = Some skip ∧
    cat up skip = Ok merged ∧ call st merged = Ok cur.

End decoder_vocabulary.

(** ** Example distances *)

(** Surface distances of two masks of two voxels: 0 and 2 from the mask
    [[true; false]], 1 and 3 from the other. *)
Definition example_distances (x y : tensor bool) (spacing : list Q) (connectivity : Z)
    : result (list Q) :=
  Ok (if bool_decide (data x = [true; false]) then [0; 2] else [1; 3])%Q.

(** ** Example networks *)

(** A 2-d network of five stages on a 64 x 64 patch, and its decoder. *)
Definition example_encoder : result (@NexToU_Encoder unit) :=
  NexToU_Encoder_init (λ _ _ _ _, Ok tt) (λ _ _, Ok tt) (λ _ k, Ok (kernel_entries k))
    1 [64; 64]%Z 5 (ASeq [32; 64; 128; 256; 512]%Z) Conv2d (AnInt 3)
    (ASeq [ASeq [1; 1]; ASeq [2; 2]; ASeq [2; 2]; ASeq [2; 2]; ASeq [2; 2]]%Z)
    (AnInt 2) true None true false None "conv".


Definition example_decoder (encoder : @NexToU_Encoder unit) : result (@NexToU_Decoder unit) :=
  NexToU_Decoder_init (λ _ _ _ _, Ok tt) (λ _, Ok tt) encoder [64; 64]%Z
    (ASeq [ASeq [1; 1]; ASeq [2; 2]; ASeq [2; 2]; ASeq [2; 2]; ASeq [2; 2]]%Z)
    3 (AnInt 2) true.


(* ===================================================================== *)
(** * Part II: properties                                                 *)
(* ===================================================================== *)

(** ** Row-major indexing and axis permutations *)

Lemma numel_cons d s : numel (d :: s) = d * numel s.
Proof. reflexivity. Qed.

Lemma numel_app s1 s2 : numel (s1 ++ s2) = numel s1 * numel s2.
Proof. induction s1 as [|d s1 IH]; simpl; [lia|]. rewrite IH. lia. Qed.




Lemma ravel_lt s idx : Forall2 lt idx s → ravel s idx < numel s.
Proof.
  induction 1 as [|k d idx s Hk _ IH]; simpl; [lia|]. nia.
Qed.


Lemma unravel_ravel s idx : Forall2 lt idx s → unravel s (ravel s idx) = idx.
Proof.
  induction 1 as [|k d idx s Hk Hrest IH]; simpl; [done|].
  pose proof (ravel_lt _ _ Hrest) as Hlt.
  f_equal.
  - rewrite Nat.div_add_l by lia. rewrite Nat.div_small by done. lia.
  - rewrite Nat.add_comm, Nat.Div0.mod_add. rewrite Nat.mod_small by done. done.
Qed.








Section perm.
Context {A : Type} `{!Inhabited A}.

Lemma gather_lookup (f : nat → A) n i :
  i < n → (f <$> seq 0 n) !!! i = f i.
Proof.
  intros Hi.
  assert (Hl : i < length (seq 0 n)) by (by rewrite length_seq).
  rewrite (list_lookup_total_fmap f (seq 0 n) i Hl).
  by rewrite lookup_total_seq_lt.
Qed.



Lemma permute_wf p (t t' : tensor A) : permute p t = Ok t' → wf_tensor t'.
Proof.
  unfold permute. case_decide; [|done]. intros [= <-].
  unfold wf_tensor. simpl. by rewrite length_fmap, length_seq.
Qed.



Lemma permute_ok p (t : tensor A) :
  p ≡ₚ seq 0 (length (shape t)) →
  ∃ t', permute p t = Ok t' ∧ shape t' = take_axes p (shape t) ∧ wf_tensor t'.
Proof.
  intros Hp. unfold permute. rewrite decide_True by done.
  eexists. split; [done|]. split; [done|].
  unfold wf_tensor. simpl. by rewrite length_fmap, length_seq.
Qed.


Lemma reshape_ok s (t : tensor A) :
  numel s = numel (shape t) → reshape s t = Ok (Tensor s (data t)).
Proof. intros Hs. unfold reshape. by rewrite decide_True. Qed.

Lemma reshape_Ok_inv s (t t' : tensor A) :
  reshape s t = Ok t' → numel s = numel (shape t) ∧ t' = Tensor s (data t).
Proof. unfold reshape. case_decide; [|done]. by intros [= <-]. Qed.

Lemma reshape_back s (t t' : tensor A) :
  reshape s t = Ok t' → reshape (shape t) t' = Ok t.
Proof.
  intros [Hn ->]%reshape_Ok_inv. rewrite reshape_ok by done. by destruct t.
Qed.

End perm.

Ltac map_lookup :=
  repeat first
    [ rewrite lookup_insert_eq
    | rewrite lookup_insert_ne by done
    | rewrite lookup_empty ].

Ltac by_decide := apply (bool_decide_unpack _); by vm_compute.

Lemma unknown_axes_nil lens : Einops.unknown_axes lens [] = [].
Proof. done. Qed.
Lemma unknown_axes_cons lens a g :
  Einops.unknown_axes lens (a :: g) =
  match lens !! a with
  | None => a :: Einops.unknown_axes lens g
  | Some _ => Einops.unknown_axes lens g
  end.
Proof.
  unfold Einops.unknown_axes. rewrite filter_cons.
  destruct (lens !! a); by simpl.
Qed.
Lemma known_product_nil lens : Einops.known_product lens [] = 1.
Proof. done. Qed.
Lemma known_product_cons lens a g :
  Einops.known_product lens (a :: g) =
  from_option id 1 (lens !! a) * Einops.known_product lens g.
Proof. done. Qed.

Ltac einops_axes :=
  repeat first
    [ rewrite unknown_axes_cons
    | rewrite unknown_axes_nil
    | rewrite known_product_cons
    | rewrite known_product_nil
    | progress map_lookup
    | progress cbn [from_option id] ].

Lemma infer_axis_known lens g len :
  Einops.unknown_axes lens g = [] → len = Einops.known_product lens g →
  Einops.infer_axis lens g len = Ok lens.
Proof. intros Hu Hk. unfold Einops.infer_axis. rewrite Hu. by rewrite decide_True. Qed.

Lemma infer_axis_unknown lens g len u v :
  Einops.unknown_axes lens g = [u] →
  Einops.known_product lens g ≠ 0 →
  len = v * Einops.known_product lens g →
  Einops.infer_axis lens g len = Ok (<[u := v]> lens).
Proof.
  intros Hu Hk Hlen. unfold Einops.infer_axis. rewrite Hu.
  rewrite decide_False by done. subst len.
  rewrite decide_True by (by apply Nat.Div0.mod_mul).
  by rewrite Nat.div_mul.
Qed.

Ltac infer_unknown v :=
  erewrite (infer_axis_unknown _ _ _ _ v);
    [ cbn [mbind result_bind]
    | by einops_axes
    | einops_axes; lia
    | einops_axes; lia ].
Ltac infer_known :=
  rewrite infer_axis_known;
    [ cbn [mbind result_bind]
    | by einops_axes
    | einops_axes; lia ].


Ltac eval_axis_index :=
  repeat match goal with
  | |- context [Einops.axis_index ?l ?a] =>
      let v := eval vm_compute in (Einops.axis_index l a) in
      change (Einops.axis_index l a) with v
  end.

Ltac rearrange_valid :=
  rewrite decide_True;
    [| split_and!;
       [ simpl; by_decide
       | simpl; by_decide
       | repeat (apply map_Forall_insert_2; [simpl; by_decide|]);
         apply map_Forall_empty ] ].

Section sandwich.
Context {A : Type} `{!Inhabited A}.

Lemma rearrange_partition2d (t : tensor A) B h p1 w p2 C :
  shape t = [B; h * p1; w * p2; C] → 0 < p1 → 0 < p2 →
  Einops.rearrange t
        [["b"]; ["h"; "p1"]; ["w"; "p2"]; ["c"]]
        [["b"; "h"; "w"]; ["p1"]; ["p2"]; ["c"]]
        (<["p1" := p1]> (<["p2" := p2]> (<["c" := C]> ∅)))
  = t1 ← reshape [B; h; p1; w; p2; C] t;
    t2 ← permute [0; 1; 3; 2; 4; 5] t1;
    reshape [B * h * w; p1; p2; C] t2.
Proof.
  intros Hs Hp1 Hp2. unfold Einops.rearrange. rearrange_valid.
  rewrite Hs. cbn [Einops.infer_axes].
  infer_unknown B. infer_unknown h. infer_unknown w. infer_known.
  cbn [concat app fmap list_fmap]. einops_axes. eval_axis_index.
  replace [B * (h * (w * 1)); p1 * 1; p2 * 1; C * 1]
    with [B * h * w; p1; p2; C] by (by rewrite ?Nat.mul_1_r, ?Nat.mul_assoc).
  done.
Qed.


Lemma rearrange_partition3d (t : tensor A) B s p1 h p2 w p3 C :
  shape t = [B; s * p1; h * p2; w * p3; C] → 0 < p1 → 0 < p2 → 0 < p3 →
  Einops.rearrange t
        [["b"]; ["s"; "p1"]; ["h"; "p2"]; ["w"; "p3"]; ["c"]]
        [["b"; "s"; "h"; "w"]; ["p1"]; ["p2"]; ["p3"]; ["c"]]
        (<["p1" := p1]> (<["p2" := p2]> (<["p3" := p3]> (<["c" := C]> ∅))))
  = t1 ← reshape [B; s; p1; h; p2; w; p3; C] t;
    t2 ← permute [0; 1; 3; 5; 2; 4; 6; 7] t1;
    reshape [B * s * h * w; p1; p2; p3; C] t2.
Proof.
  intros Hs Hp1 Hp2 Hp3. unfold Einops.rearrange. rearrange_valid.
  rewrite Hs. cbn [Einops.infer_axes].
  infer_unknown B. infer_unknown s. infer_unknown h. infer_unknown w. infer_known.
  cbn [concat app fmap list_fmap]. einops_axes. eval_axis_index.
  replace [B * (s * (h * (w * 1))); p1 * 1; p2 * 1; p3 * 1; C * 1]
    with [B * s * h * w; p1; p2; p3; C] by (by rewrite ?Nat.mul_1_r, ?Nat.mul_assoc).
  done.
Qed.


End sandwich.

Ltac perm_facts := first [ by_decide | by vm_compute ].

Section roundtrip.
Context {A : Type} `{!Inhabited A}.

End roundtrip.


Lemma truediv_ok a b : ¬ (b == 0)%Q → Py.truediv a b = Ok (a / b)%Q.
Proof.
  intros Hb. unfold Py.truediv.
  destruct (Qeq_bool b 0) eqn:E; [|done].
  by apply Qeq_bool_iff in E.
Qed.



Lemma size_to_Q_nonzero n : 0 < n → ¬ (size_to_Q n == 0)%Q.
Proof.
  unfold size_to_Q, Qeq. simpl. lia.
Qed.





Section roundtrip2.
Context {A : Type} `{!Inhabited A}.


Lemma item_lookup {B} (l : list B) i v : l !! i = Some v → item l i = Ok v.
Proof. unfold item. by intros ->. Qed.



End roundtrip2.

(** ** Window partition and reverse (claim C1) *)

Section window_claims.
Context {A : Type} `{!Inhabited A}.



End window_claims.



(** ** Normalized surface dice (claims C2 and C3) *)

Lemma Qgt_bool_iff x y : Qgt_bool x y = true ↔ (y < x)%Q.
Proof. unfold Qgt_bool, Qlt. apply Z.ltb_lt. Qed.

Lemma np_sum_le d t : np_sum (np_le d t) = Z.of_nat (count_within d t).
Proof.
  unfold np_le, count_within. induction d as [|x d IH]; [done|].
  rewrite filter_cons. cbn [fmap list_fmap np_sum foldr]. fold (np_sum ((λ x, Qle_bool x t) <$> d)).
  change (list_fmap Q bool (λ x0 : Q, Qle_bool x0 t) d) with ((λ x, Qle_bool x t) <$> d).
  rewrite IH. destruct (decide (x <= t)%Q) as [H|H].
  - apply Qle_bool_iff in H. rewrite H. simpl length. lia.
  - destruct (Qle_bool x t) eqn:E; [by apply Qle_bool_iff in E|]. lia.
Qed.

Lemma np_sum_gt d t : np_sum (np_gt d t) = Z.of_nat (count_beyond d t).
Proof.
  unfold np_gt, count_beyond. induction d as [|x d IH]; [done|].
  rewrite filter_cons. cbn [fmap list_fmap np_sum foldr].
  change (list_fmap Q bool (λ x0 : Q, Qgt_bool x0 t) d) with ((λ x, Qgt_bool x t) <$> d).
  fold (np_sum ((λ x, Qgt_bool x t) <$> d)).
  rewrite IH. destruct (decide (t < x)%Q) as [H|H].
  - apply Qgt_bool_iff in H. rewrite H. simpl length. lia.
  - destruct (Qgt_bool x t) eqn:E; [by apply Qgt_bool_iff in E|]. lia.
Qed.

Lemma count_within_beyond d t : count_within d t + count_beyond d t = length d.
Proof.
  unfold count_within, count_beyond. induction d as [|x d IH]; [done|].
  rewrite !filter_cons.
  destruct (decide (x <= t)%Q) as [H1|H1], (decide (t < x)%Q) as [H2|H2]; simpl; try lia.
  - exfalso. by apply (Qlt_not_le t x).
  - exfalso. apply H1. by apply Qnot_lt_le.
Qed.

Lemma ones_replicate n : (λ _ : nat, 1%Q) <$> seq 0 n = replicate n 1%Q.
Proof.
  generalize 0. induction n as [|n IH]; intros k; [done|].
  simpl. f_equal. apply IH.
Qed.

Lemma ratio_bounds (p n : nat) :
  0 < n → p ≤ n →
  (0 <= inject_Z (Z.of_nat p) / inject_Z (Z.of_nat n) <= 1)%Q.
Proof.
  intros Hn Hp.
  assert (Hn' : (0 < inject_Z (Z.of_nat n))%Q).
  { rewrite <-(Zlt_Qlt 0). lia. }
  split.
  - apply Qle_shift_div_l; [done|]. rewrite Qmult_0_l.
    rewrite <-(Zle_Qle 0). lia.
  - apply Qle_shift_div_r; [done|]. rewrite Qmult_1_l.
    rewrite <-Zle_Qle. lia.
Qed.

Section surface_dice_claims.
Variable surface_distances : tensor bool → tensor bool → list Q → Z → result (list Q).

Lemma normalized_surface_dice_unfold a b t spacing :
  normalized_surface_dice surface_distances a b t spacing =
  a_to_b ← surface_distances a b (spacing_used a spacing) 1;
  b_to_a ← surface_distances b a (spacing_used a spacing) 1;
  Ok (np_true_divide
        (Z.of_nat (count_within a_to_b t + count_within b_to_a t))
        (Z.of_nat (count_within a_to_b t + count_within b_to_a t
                   + count_beyond a_to_b t + count_beyond b_to_a t))).
Proof.
  unfold normalized_surface_dice, spacing_used.
  destruct spacing as [sp|]; [|rewrite ones_replicate].
  all: destruct (surface_distances a b _ 1) as [da|]; [|done]; simpl.
  all: destruct (surface_distances b a _ 1) as [db|]; [|done]; simpl.
  all: rewrite !np_sum_le, !np_sum_gt; do 2 f_equal; lia.
Qed.

(** Claim C2: for same-shape masks [a] and [b] whose surfaces are not
    empty, [normalized_surface_dice a b t spacing] returns
    (tp_a + tp_b) / (tp_a + tp_b + fp + fn), where tp_a and tp_b count the
    distances from a to b and from b to a that are <= t, and fp and fn
    those that are > t; the value lies in [0, 1]; and a spacing of [None]
    stands for one 1 per dimension of [a]. *)
Theorem normalized_surface_dice_value a b t spacing a_to_b b_to_a :
  shape a = shape b →
  surface_distances a b (spacing_used a spacing) 1 = Ok a_to_b →
  surface_distances b a (spacing_used a spacing) 1 = Ok b_to_a →
  a_to_b ≠ [] → b_to_a ≠ [] →
  ∃ dc,
    normalized_surface_dice surface_distances a b t spacing = Ok (Finite dc) ∧
    dc = (inject_Z (Z.of_nat (count_within a_to_b t + count_within b_to_a t)) /
          inject_Z (Z.of_nat (count_within a_to_b t + count_within b_to_a t
                              + count_beyond a_to_b t + count_beyond b_to_a t)))%Q ∧
    (0 <= dc <= 1)%Q ∧
    normalized_surface_dice surface_distances a b t None =
    normalized_surface_dice surface_distances a b t
      (Some (replicate (length (shape a)) 1%Q)).
Proof.
  intros _ Ha Hb Hna Hnb.
  pose proof (count_within_beyond a_to_b t) as Hta.
  pose proof (count_within_beyond b_to_a t) as Htb.
  assert (0 < length a_to_b) by (destruct a_to_b; [done|simpl; lia]).
  eexists. split; [|split; [reflexivity|split]].
  - rewrite normalized_surface_dice_unfold, Ha, Hb. simpl.
    unfold np_true_divide.
    destruct (Z.eqb_spec
      (Z.of_nat (count_within a_to_b t + count_within b_to_a t
                 + count_beyond a_to_b t + count_beyond b_to_a t)) 0) as [E|E]; [lia|].
    done.
  - apply ratio_bounds; lia.
  - by rewrite !normalized_surface_dice_unfold.
Qed.

(** Claim C3: for same-shape masks the metric is symmetric: whenever one
    of [normalized_surface_dice a b t spacing] and
    [normalized_surface_dice b a t spacing] returns a value, the other
    returns the same value; and, medpy raising nothing but [RuntimeError],
    the two calls agree when they raise as well. *)
Theorem normalized_surface_dice_symmetric a b t spacing :
  shape a = shape b →
  (∀ dc, normalized_surface_dice surface_distances a b t spacing = Ok dc ↔
         normalized_surface_dice surface_distances b a t spacing = Ok dc) ∧
  ((∀ x y sp c e, surface_distances x y sp c = Raise e → e = RuntimeError) →
   normalized_surface_dice surface_distances a b t spacing =
   normalized_surface_dice surface_distances b a t spacing).
Proof.
  intros Hs.
  rewrite !normalized_surface_dice_unfold.
  assert (Hsp : spacing_used b spacing = spacing_used a spacing).
  { unfold spacing_used. by rewrite Hs. }
  rewrite Hsp.
  assert (Hswap : ∀ da db,
    np_true_divide
      (Z.of_nat (count_within da t + count_within db t))
      (Z.of_nat (count_within da t + count_within db t + count_beyond da t + count_beyond db t)) =
    np_true_divide
      (Z.of_nat (count_within db t + count_within da t))
      (Z.of_nat (count_within db t + count_within da t + count_beyond db t + count_beyond da t))).
  { intros da db. f_equal; f_equal; lia. }
  split.
  - intros dc.
    destruct (surface_distances a b _ 1) as [da|e1], (surface_distances b a _ 1) as [db|e2];
      simpl; try done.
    by rewrite Hswap.
  - intros Herr.
    destruct (surface_distances a b _ 1) as [da|e1] eqn:E1,
             (surface_distances b a _ 1) as [db|e2] eqn:E2; simpl; try done.
    + by rewrite Hswap.
    + by rewrite (Herr _ _ _ _ _ E1), (Herr _ _ _ _ _ E2).
Qed.

End surface_dice_claims.

(** Two masks of two voxels; the distances are 0 and 2 from the first to
    the second and 1 and 3 back, and the threshold is 1. *)
Lemma normalized_surface_dice_value_witness :
  ∃ dc,
    normalized_surface_dice
      (λ x _ _ _, Ok (if bool_decide (data x = [true; false])
                      then [0; 2] else [1; 3])%Q)
      (Tensor [2] [true; false]) (Tensor [2] [false; true]) 1 None
    = Ok (Finite dc) ∧
    dc = (inject_Z (Z.of_nat (count_within [0; 2] 1 + count_within [1; 3] 1)) /
          inject_Z (Z.of_nat (count_within [0; 2] 1 + count_within [1; 3] 1
                              + count_beyond [0; 2] 1 + count_beyond [1; 3] 1)))%Q ∧
    (0 <= dc <= 1)%Q ∧
    normalized_surface_dice
      (λ x _ _ _, Ok (if bool_decide (data x = [true; false])
                      then [0; 2] else [1; 3])%Q)
      (Tensor [2] [true; false]) (Tensor [2] [false; true]) 1 None =
    normalized_surface_dice
      (λ x _ _ _, Ok (if bool_decide (data x = [true; false])
                      then [0; 2] else [1; 3])%Q)
      (Tensor [2] [true; false]) (Tensor [2] [false; true]) 1
      (Some (replicate (length (shape (Tensor [2] [true; false]))) 1%Q)).
Proof.
  apply (normalized_surface_dice_value
           (λ x _ _ _, Ok (if bool_decide (data x = [true; false])
                           then [0; 2] else [1; 3])%Q)
           (Tensor [2] [true; false]) (Tensor [2] [false; true]) 1 None
           [0; 2]%Q [1; 3]%Q).
  - reflexivity.
  - reflexivity.
  - reflexivity.
  - discriminate.
  - discriminate.
Defined.

Lemma normalized_surface_dice_symmetric_witness :
  (∀ dc,
     normalized_surface_dice
       (λ x _ _ _, Ok (if bool_decide (data x = [true; false])
                       then [0; 2] else [1; 3])%Q)
       (Tensor [2] [true; false]) (Tensor [2] [false; true]) 1 None = Ok dc ↔
     normalized_surface_dice
       (λ x _ _ _, Ok (if bool_decide (data x = [true; false])
                       then [0; 2] else [1; 3])%Q)
       (Tensor [2] [false; true]) (Tensor [2] [true; false]) 1 None = Ok dc) ∧
  ((∀ (x y : tensor bool) (sp : list Q) (c : Z) e,
      Ok (if bool_decide (data x = [true; false]) then [0; 2] else [1; 3])%Q
      = Raise e → e = RuntimeError) →
   normalized_surface_dice
       (λ x _ _ _, Ok (if bool_decide (data x = [true; false])
                       then [0; 2] else [1; 3])%Q)
       (Tensor [2] [true; false]) (Tensor [2] [false; true]) 1 None =
   normalized_surface_dice
       (λ x _ _ _, Ok (if bool_decide (data x = [true; false])
                       then [0; 2] else [1; 3])%Q)
       (Tensor [2] [false; true]) (Tensor [2] [true; false]) 1 None).
Proof.
  apply (normalized_surface_dice_symmetric
           (λ x _ _ _, Ok (if bool_decide (data x = [true; false])
                           then [0; 2] else [1; 3])%Q)
           (Tensor [2] [true; false]) (Tensor [2] [false; true]) 1 None).
  reflexivity.
Defined.

(** ** The resolutions and the stages of the encoder and the decoder
       (claims C4, C5 and C6) *)

(** Inversion of a computation that returned. *)
Lemma floordiv_Ok a b q : Py.floordiv a b = Ok q → b ≠ 0%Z ∧ q = (a / b)%Z.
Proof.
  unfold Py.floordiv. destruct (Z.eqb_spec b 0); [done|]. by intros [= <-].
Qed.

Lemma floordiv_nonzero a b : b ≠ 0%Z → Py.floordiv a b = Ok (a / b)%Z.
Proof. intros Hb. unfold Py.floordiv. by destruct (Z.eqb_spec b 0). Qed.

Lemma unpack_kernel2_Ok k a b :
  unpack_kernel2 k = Ok (a, b) → k = ASeq [a; b].
Proof.
  destruct k as [z|[|x [|y [|? ?]]]]; simpl; try done. by intros [= -> ->].
Qed.

Lemma unpack_kernel3_Ok k a b c :
  unpack_kernel3 k = Ok (a, b, c) → k = ASeq [a; b; c].
Proof.
  destruct k as [z|[|x [|y [|u [|? ?]]]]]; simpl; try done. by intros [= -> -> ->].
Qed.

Lemma resolutions_cons cur ks : resolutions cur ks = cur :: tail (resolutions cur ks).
Proof. by destruct ks. Qed.

Lemma length_resolutions cur ks : length (resolutions cur ks) = S (length ks).
Proof. revert cur. induction ks as [|k ks IH]; intros cur; simpl; [done|]. by rewrite IH. Qed.

Lemma resolutions_head cur ks : resolutions cur ks !! 0 = Some cur.
Proof. by destruct ks. Qed.

Lemma resolutions_step cur ks i shp k :
  resolutions cur ks !! i = Some shp → ks !! i = Some k →
  resolutions cur ks !! S i = Some (zip_with Z.div shp (kernel_entries k)).
Proof.
  revert cur i. induction ks as [|k' ks IH]; intros cur i Hi Hk; [done|].
  destruct i as [|i]; simpl in *.
  - injection Hi as <-. injection Hk as <-. apply resolutions_head.
  - by apply IH.
Qed.

Lemma encoder_shapes2_Ok ks : ∀ h w isl nsl r,
  encoder_shapes2 h w ks isl nsl = Ok r →
  r = (isl ++ tail (resolutions [h; w] ks),
       nsl ++ (prod_loop <$> tail (resolutions [h; w] ks))) ∧
  Forall (stride_ok 2) ks.
Proof.
  induction ks as [|k ks IH]; intros h w isl nsl r H; simpl in H.
  - injection H as <-. simpl. by rewrite !app_nil_r.
  - destruct (unpack_kernel2 k) as [[h_k w_k]|] eqn:Ek; [|done].
    cbn [mbind result_bind] in H.
    destruct (Py.floordiv h h_k) as [h'|] eqn:Eh; [|done].
    destruct (Py.floordiv w w_k) as [w'|] eqn:Ew; [|done].
    cbn [mbind result_bind] in H.
    apply unpack_kernel2_Ok in Ek as ->.
    apply floordiv_Ok in Eh as [Hh ->]. apply floordiv_Ok in Ew as [Hw ->].
    apply IH in H as [-> Hks]. split.
    + simpl. rewrite (resolutions_cons _ ks). simpl.
      rewrite <-!app_assoc. simpl. do 3 f_equal. unfold prod_loop. simpl. lia.
    + constructor; [|done]. exists [h_k; w_k]. repeat constructor; done.
Qed.

Lemma encoder_shapes3_Ok ks : ∀ h w d isl nsl r,
  encoder_shapes3 h w d ks isl nsl = Ok r →
  r = (isl ++ tail (resolutions [h; w; d] ks),
       nsl ++ (prod_loop <$> tail (resolutions [h; w; d] ks))) ∧
  Forall (stride_ok 3) ks.
Proof.
  induction ks as [|k ks IH]; intros h w d isl nsl r H; simpl in H.
  - injection H as <-. simpl. by rewrite !app_nil_r.
  - destruct (unpack_kernel3 k) as [[[h_k w_k] d_k]|] eqn:Ek; [|done].
    cbn [mbind result_bind] in H.
    destruct (Py.floordiv h h_k) as [h'|] eqn:Eh; [|done].
    destruct (Py.floordiv w w_k) as [w'|] eqn:Ew; [|done].
    destruct (Py.floordiv d d_k) as [d'|] eqn:Ed; [|done].
    cbn [mbind result_bind] in H.
    apply unpack_kernel3_Ok in Ek as ->.
    apply floordiv_Ok in Eh as [Hh ->]. apply floordiv_Ok in Ew as [Hw ->].
    apply floordiv_Ok in Ed as [Hd ->].
    apply IH in H as [-> Hks]. split.
    + simpl. rewrite (resolutions_cons _ ks). simpl.
      rewrite <-!app_assoc. simpl. do 3 f_equal. unfold prod_loop. simpl. lia.
    + constructor; [|done]. exists [h_k; w_k; d_k]. repeat constructor; done.
Qed.

Lemma encoder_shapes2_total ks : ∀ h w isl nsl,
  Forall (stride_ok 2) ks →
  encoder_shapes2 h w ks isl nsl =
  Ok (isl ++ tail (resolutions [h; w] ks),
      nsl ++ (prod_loop <$> tail (resolutions [h; w] ks))).
Proof.
  induction ks as [|k ks IH]; intros h w isl nsl Hks; simpl.
  - by rewrite !app_nil_r.
  - inversion Hks as [|? ? (l & -> & Hl & Hnz) Hks']; subst.
    destruct l as [|h_k [|w_k [|? ?]]]; try done.
    inversion Hnz as [|? ? Hh Hnz']; subst. inversion Hnz' as [|? ? Hw _]; subst.
    simpl. rewrite !floordiv_nonzero by done. simpl.
    rewrite IH by done. rewrite (resolutions_cons _ ks). simpl.
    rewrite <-!app_assoc. simpl. do 4 f_equal. unfold prod_loop. simpl. lia.
Qed.

Lemma encoder_shapes3_total ks : ∀ h w d isl nsl,
  Forall (stride_ok 3) ks →
  encoder_shapes3 h w d ks isl nsl =
  Ok (isl ++ tail (resolutions [h; w; d] ks),
      nsl ++ (prod_loop <$> tail (resolutions [h; w; d] ks))).
Proof.
  induction ks as [|k ks IH]; intros h w d isl nsl Hks; simpl.
  - by rewrite !app_nil_r.
  - inversion Hks as [|? ? (l & -> & Hl & Hnz) Hks']; subst.
    destruct l as [|h_k [|w_k [|d_k [|? ?]]]]; try done.
    inversion Hnz as [|? ? Hh Hnz']; subst. inversion Hnz' as [|? ? Hw Hnz'']; subst.
    inversion Hnz'' as [|? ? Hd _]; subst.
    simpl. rewrite !floordiv_nonzero by done. simpl.
    rewrite IH by done. rewrite (resolutions_cons _ ks). simpl.
    rewrite <-!app_assoc. simpl. do 4 f_equal. unfold prod_loop. simpl. lia.
Qed.

Lemma getitem_Ok {A} (l : list A) i v :
  Py.getitem l i = Ok v →
  ∃ j, l !! j = Some v ∧
       Z.of_nat j = (if (i <? 0)%Z then Z.of_nat (length l) + i else i)%Z.
Proof.
  unfold Py.getitem.
  set (j := if (i <? 0)%Z then (Z.of_nat (length l) + i)%Z else i).
  destruct ((0 <=? j)%Z && (j <? Z.of_nat (length l))%Z) eqn:Hj; [|done].
  apply andb_prop in Hj as [H0 _]. apply Z.leb_le in H0.
  destruct (l !! Z.to_nat j) as [x|] eqn:E; [|done]. intros [= <-].
  exists (Z.to_nat j). split; [done|]. lia.
Qed.

Lemma getitem_nat {A} (l : list A) (j : nat) v :
  l !! j = Some v → Py.getitem l (Z.of_nat j) = Ok v.
Proof.
  intros Hj. unfold Py.getitem.
  pose proof (lookup_lt_Some _ _ _ Hj).
  destruct (Z.ltb_spec (Z.of_nat j) 0); [lia|].
  destruct (Z.leb_spec 0 (Z.of_nat j)); [|lia].
  destruct (Z.ltb_spec (Z.of_nat j) (Z.of_nat (length l))); [|lia].
  simpl. by rewrite Nat2Z.id, Hj.
Qed.

Lemma getitem_last {A} (l : list A) v :
  last l = Some v → Py.getitem l (-1) = Ok v.
Proof.
  intros Hl. unfold Py.getitem.
  assert (0 < length l) by (destruct l; [done|simpl; lia]).
  rewrite last_lookup in Hl.
  change (-1 <? 0)%Z with true. cbv iota.
  destruct (Z.leb_spec 0 (Z.of_nat (length l) + -1)); [|lia].
  destruct (Z.ltb_spec (Z.of_nat (length l) + -1) (Z.of_nat (length l))); [|lia].
  simpl. replace (Z.to_nat (Z.of_nat (length l) + -1)) with (pred (length l)) by lia.
  by rewrite Hl.
Qed.

Lemma getitem_last_Ok {A} (l : list A) v :
  Py.getitem l (-1) = Ok v → last l = Some v.
Proof.
  intros (j & Hj & Hidx)%getitem_Ok. change (-1 <? 0)%Z with true in Hidx.
  rewrite last_lookup. replace (pred (length l)) with j by lia. done.
Qed.

Lemma slice_from_1 {A} (l : list A) : Py.slice_from l 1 = drop 1 l.
Proof.
  unfold Py.slice_from, Py.clamp. change (1 <? 0)%Z with false. cbv iota.
  destruct l as [|x l]; [done|]. simpl length.
  replace (Z.to_nat (Z.min (Z.max 0 1) (Z.of_nat (S (length l))))) with 1 by lia.
  done.
Qed.

Lemma last_resolutions cur ks : is_Some (last (resolutions cur ks)).
Proof.
  rewrite last_lookup, length_resolutions. simpl.
  apply lookup_lt_is_Some_2. rewrite length_resolutions. lia.
Qed.

(** What the resolution block of the encoder returns, when it returns. *)
Lemma encoder_img_shapes_Ok conv patch_size strides isl nsl ims :
  encoder_img_shapes conv patch_size strides = Ok (isl, nsl, ims) →
  (conv = Conv2d ∨ conv = Conv3d) ∧
  spatial_dims conv ≤ length patch_size ∧
  Forall (stride_ok (spatial_dims conv)) (drop 1 strides) ∧
  isl = resolutions (take (spatial_dims conv) patch_size) (drop 1 strides) ∧
  nsl = prod_loop <$> isl ∧
  last isl = Some ims.
Proof.
  unfold encoder_img_shapes. rewrite slice_from_1. intros H.
  destruct conv; try done.
  - destruct (Py.getitem patch_size 0) as [h|] eqn:Eh; [|done].
    destruct (Py.getitem patch_size 1) as [w|] eqn:Ew; [|done].
    cbn [mbind result_bind] in H.
    destruct (encoder_shapes2 h w (drop 1 strides) [[h; w]] [(h * w)%Z]) as [[isl' nsl']|] eqn:E;
      [|done].
    cbn [mbind result_bind] in H.
    destruct (Py.getitem isl' (-1)) as [ims'|] eqn:El; [|done].
    injection H as -> -> ->.
    apply encoder_shapes2_Ok in E as [[= -> ->] Hks].
    apply getitem_Ok in Eh as (j0 & Hj0 & Hi0). apply getitem_Ok in Ew as (j1 & Hj1 & Hi1).
    simpl in Hi0, Hi1. assert (j0 = 0) as -> by lia. assert (j1 = 1) as -> by lia.
    destruct patch_size as [|h' [|w' rest]]; try done. simpl in Hj0, Hj1.
    injection Hj0 as ->. injection Hj1 as ->.
    apply getitem_last_Ok in El. simpl spatial_dims. simpl take.
    rewrite <-resolutions_cons in El |- *.
    split_and!; try done; [by left|simpl; lia|].
    rewrite (resolutions_cons _ (drop 1 strides)). simpl. f_equal.
    unfold prod_loop. simpl. lia.
  - destruct (Py.getitem patch_size 0) as [h|] eqn:Eh; [|done].
    destruct (Py.getitem patch_size 1) as [w|] eqn:Ew; [|done].
    destruct (Py.getitem patch_size 2) as [d|] eqn:Ed; [|done].
    cbn [mbind result_bind] in H.
    destruct (encoder_shapes3 h w d (drop 1 strides) [[h; w; d]] [(h * w * d)%Z])
      as [[isl' nsl']|] eqn:E; [|done].
    cbn [mbind result_bind] in H.
    destruct (Py.getitem isl' (-1)) as [ims'|] eqn:El; [|done].
    injection H as -> -> ->.
    apply encoder_shapes3_Ok in E as [[= -> ->] Hks].
    apply getitem_Ok in Eh as (j0 & Hj0 & Hi0). apply getitem_Ok in Ew as (j1 & Hj1 & Hi1).
    apply getitem_Ok in Ed as (j2 & Hj2 & Hi2).
    simpl in Hi0, Hi1, Hi2.
    assert (j0 = 0) as -> by lia. assert (j1 = 1) as -> by lia. assert (j2 = 2) as -> by lia.
    destruct patch_size as [|h' [|w' [|d' rest]]]; try done. simpl in Hj0, Hj1, Hj2.
    injection Hj0 as ->. injection Hj1 as ->. injection Hj2 as ->.
    apply getitem_last_Ok in El. simpl spatial_dims. simpl take.
    rewrite <-resolutions_cons in El |- *.
    split_and!; try done; [by right|simpl; lia|].
    rewrite (resolutions_cons _ (drop 1 strides)). simpl. f_equal.
    unfold prod_loop. simpl. lia.
Qed.

Lemma getitem_0 {A} (x : A) l : Py.getitem (x :: l) 0 = Ok x.
Proof. by apply (getitem_nat (x :: l) 0). Qed.
Lemma getitem_1 {A} (x y : A) l : Py.getitem (x :: y :: l) 1 = Ok y.
Proof. by apply (getitem_nat (x :: y :: l) 1). Qed.
Lemma getitem_2 {A} (x y z : A) l : Py.getitem (x :: y :: z :: l) 2 = Ok z.
Proof. by apply (getitem_nat (x :: y :: z :: l) 2). Qed.

(** The block returns whenever the patch size and the strides fit the
    convolution. *)
Lemma encoder_img_shapes_total conv patch_size strides :
  conv = Conv2d ∨ conv = Conv3d →
  spatial_dims conv ≤ length patch_size →
  Forall (stride_ok (spatial_dims conv)) (drop 1 strides) →
  ∃ ims,
    encoder_img_shapes conv patch_size strides =
    Ok (resolutions (take (spatial_dims conv) patch_size) (drop 1 strides),
        prod_loop <$> resolutions (take (spatial_dims conv) patch_size) (drop 1 strides),
        ims).
Proof.
  intros [-> | ->] Hp Hks; simpl in Hp, Hks; unfold encoder_img_shapes;
    rewrite slice_from_1.
  - destruct patch_size as [|h [|w rest]]; simpl in Hp; try lia.
    rewrite getitem_0, getitem_1.
    cbn [mbind result_bind]. rewrite encoder_shapes2_total by done.
    cbn [mbind result_bind]. simpl take.
    change ([[h; w]] ++ tail (resolutions [h; w] (drop 1 strides)))
      with ([h; w] :: tail (resolutions [h; w] (drop 1 strides))).
    rewrite <-resolutions_cons.
    destruct (last_resolutions [h; w] (drop 1 strides)) as [ims Hims].
    rewrite (getitem_last _ _ Hims). cbn [mbind result_bind].
    exists ims. do 3 f_equal. rewrite take_0.
    rewrite (resolutions_cons [h; w] (drop 1 strides)) at 2. simpl. f_equal.
    unfold prod_loop. simpl. lia.
  - destruct patch_size as [|h [|w [|d rest]]]; simpl in Hp; try lia.
    rewrite getitem_0, getitem_1, getitem_2.
    cbn [mbind result_bind]. rewrite encoder_shapes3_total by done.
    cbn [mbind result_bind]. simpl take.
    change ([[h; w; d]] ++ tail (resolutions [h; w; d] (drop 1 strides)))
      with ([h; w; d] :: tail (resolutions [h; w; d] (drop 1 strides))).
    rewrite <-resolutions_cons.
    destruct (last_resolutions [h; w; d] (drop 1 strides)) as [ims Hims].
    rewrite (getitem_last _ _ Hims). cbn [mbind result_bind].
    exists ims. do 3 f_equal. rewrite take_0.
    rewrite (resolutions_cons [h; w; d] (drop 1 strides)) at 2. simpl. f_equal.
    unfold prod_loop. simpl. lia.
Qed.

Ltac invert_result :=
  repeat match goal with
  | H : (?m ≫= _) = Ok _ |- _ =>
      let x := fresh "x" in let E := fresh "E" in
      destruct m as [x|] eqn:E; [cbn [mbind result_bind] in H|discriminate H]
  | H : Ok _ = Ok _ |- _ => injection H as H; try subst
  | H : Raise _ = Ok _ |- _ => discriminate H
  end.

Ltac destruct_bind H :=
  match type of H with
  | (?m ≫= _) = Ok _ =>
      let x := fresh "x" in let E := fresh "E" in
      destruct m as [x|] eqn:E; [cbn [mbind result_bind] in H|discriminate H]
  end.

Section encoder_claims.
Context {embedding : Type}.
Variable relative_pos_tensor : conv_op → Z → Z → Z → result embedding.
Variable get_matching_pool_op : conv_op → string → result unit.
Variable get_matching_convtransp : conv_op → result unit.
Variable maybe_convert_scalar_to_list : conv_op → int_or_seq Z → result (list Z).

Lemma NexToU_Encoder_init_Ok input_channels patch_size n_stages features_per_stage
    conv kernel_sizes strides n_blocks_per_stage conv_bias bottleneck_channels
    return_skips disable_default_stem stem_channels pool_type enc :
  NexToU_Encoder_init relative_pos_tensor get_matching_pool_op
    maybe_convert_scalar_to_list input_channels patch_size n_stages
    features_per_stage conv kernel_sizes strides n_blocks_per_stage conv_bias
    bottleneck_channels return_skips disable_default_stem stem_channels pool_type
  = Ok enc →
  ∃ isl nsl ims input_channels' pooled,
    len (per_stage AnInt strides n_stages) = n_stages ∧
    encoder_img_shapes conv patch_size (per_stage AnInt strides n_stages)
      = Ok (isl, nsl, ims) ∧
    enc_opt enc = stage_options (length (per_stage AnInt strides n_stages)) ims nsl ∧
    enc_n_swin_gnn_stages enc = 0%Z ∧
    enc_no_pool_gnn_stage_num enc = (n_stages - 4)%Z ∧
    enc_n_conv_stages enc = (n_stages - 4 - 0)%Z ∧
    enc_conv_op enc = conv ∧
    encoder_stages relative_pos_tensor (Py.range n_stages) input_channels' pooled
      (n_stages - 4 - 0) (n_stages - 4)
      (stage_options (length (per_stage AnInt strides n_stages)) ims nsl) conv
      (per_stage id features_per_stage n_stages)
      (per_stage id n_blocks_per_stage n_stages)
      (per_stage AnInt kernel_sizes n_stages)
      (per_stage AnInt strides n_stages) isl
    = Ok (enc_stages enc).
Proof.
  unfold NexToU_Encoder_init. intros H.
  repeat match type of H with
  | (py_assert ?c ≫= _) = Ok _ =>
      destruct c eqn:?; [cbn [py_assert mbind result_bind] in H|done]
  end.
  match type of H with
  | (?m ≫= _) = Ok _ => destruct m as [pooled|] eqn:Epool; [|done]
  end.
  cbn [mbind result_bind] in H.
  destruct (encoder_img_shapes conv patch_size (per_stage AnInt strides n_stages))
    as [[[isl nsl] ims]|] eqn:Eshapes; [|done].
  cbn [mbind result_bind] in H.
  match type of H with
  | (?m ≫= _) = Ok _ => destruct m as [[stem ic']|] eqn:Estem; [|done]
  end.
  cbn [mbind result_bind] in H.
  match type of H with
  | (?m ≫= _) = Ok _ => destruct m as [stages|] eqn:Estages; [|done]
  end.
  cbn [mbind result_bind] in H.
  match type of H with
  | (?m ≫= _) = Ok _ => destruct m as [strides'|] eqn:Estrides; [|done]
  end.
  cbn [mbind result_bind] in H. injection H as <-. simpl.
  exists isl, nsl, ims, ic', pooled. split_and!; try done.
  by apply Z.eqb_eq.
Qed.


Lemma encoder_stage_kind s input_channels pooled n_conv_stages no_pool_gnn_stage_num
    opt conv features_per_stage n_blocks_per_stage kernel_sizes strides
    img_shape_list st :
  encoder_stage relative_pos_tensor s input_channels pooled n_conv_stages
    no_pool_gnn_stage_num opt conv features_per_stage n_blocks_per_stage
    kernel_sizes strides img_shape_list = Ok st →
  kind_of_stage st =
    if (s <? n_conv_stages)%Z then ResidualOnly
    else if (s <? no_pool_gnn_stage_num)%Z then ResidualSwin
    else ResidualPoolSwin.
Proof.
  unfold encoder_stage. intros H.
  destruct (s <? n_conv_stages)%Z; [|destruct (s <? no_pool_gnn_stage_num)%Z].
  all: destruct pooled; invert_result; reflexivity.
Qed.

Lemma encoder_stages_kinds ss : ∀ input_channels pooled n_conv_stages
    no_pool_gnn_stage_num opt conv features_per_stage n_blocks_per_stage
    kernel_sizes strides img_shape_list stages,
  encoder_stages relative_pos_tensor ss input_channels pooled n_conv_stages
    no_pool_gnn_stage_num opt conv features_per_stage n_blocks_per_stage
    kernel_sizes strides img_shape_list = Ok stages →
  Forall2 (λ s st, kind_of_stage st =
                     if (s <? n_conv_stages)%Z then ResidualOnly
                     else if (s <? no_pool_gnn_stage_num)%Z then ResidualSwin
                     else ResidualPoolSwin) ss stages.
Proof.
  induction ss as [|s ss IH]; intros ic pooled nc np opt conv fps nbs ks strides isl stages H;
    simpl in H.
  - injection H as <-. constructor.
  - destruct (encoder_stage relative_pos_tensor s ic pooled nc np opt conv fps nbs ks
                strides isl) as [st|] eqn:Est; [|done].
    cbn [mbind result_bind] in H.
    destruct (Py.getitem fps s) as [ic'|]; [|done]. cbn [mbind result_bind] in H.
    destruct (encoder_stages relative_pos_tensor ss ic' pooled nc np opt conv fps nbs ks
                strides isl) as [sts|] eqn:Ests; [|done].
    cbn [mbind result_bind] in H. injection H as <-.
    constructor; [by eapply encoder_stage_kind|by eapply IH].
Qed.

Lemma mapM_Ok {A B} (f : A → result B) l ys :
  mapM f l = Ok ys → Forall2 (λ x y, f x = Ok y) l ys.
Proof.
  revert ys. induction l as [|x l IH]; intros ys H; simpl in H.
  - injection H as <-. constructor.
  - destruct (f x) as [y|] eqn:Ey; [|done]. cbn [mbind result_bind] in H.
    destruct (mapM f l) as [k|]; [|done]. cbn [mbind result_bind mret result_ret] in H.
    injection H as <-. constructor; [done|by apply IH].
Qed.

Lemma decoder_stage_kind s encoder n_stages_encoder n_conv_stages
    no_pool_gnn_stage_num opt n_conv_per_stage num_classes img_shape_list t st sg :
  decoder_stage relative_pos_tensor s encoder n_stages_encoder n_conv_stages
    no_pool_gnn_stage_num opt n_conv_per_stage num_classes img_shape_list
    = Ok (t, st, sg) →
  kind_of_stage st =
    if (s <? n_stages_encoder - no_pool_gnn_stage_num)%Z then ResidualPoolSwin
    else if (s <? n_stages_encoder - n_conv_stages)%Z then ResidualSwin
    else ResidualOnly.
Proof.
  unfold decoder_stage. intros H.
  destruct (s <? n_stages_encoder - no_pool_gnn_stage_num)%Z;
    [|destruct (s <? n_stages_encoder - n_conv_stages)%Z].
  all: invert_result; reflexivity.
Qed.

Lemma NexToU_Decoder_init_Ok encoder patch_size strides num_classes n_conv_per_stage
    deep_supervision dec :
  NexToU_Decoder_init relative_pos_tensor get_matching_convtransp encoder patch_size
    strides num_classes n_conv_per_stage deep_supervision = Ok dec →
  ∃ strides_l isl nsl ims built,
    strides = ASeq strides_l ∧
    decoder_img_shapes encoder patch_size strides_l = Ok (isl, nsl, ims) ∧
    dec_opt dec = stage_options (length strides_l) ims nsl ∧
    dec_n_swin_gnn_stages dec = 0%Z ∧
    dec_no_pool_gnn_stage_num dec = (len (output_channels encoder) - 4)%Z ∧
    dec_n_conv_stages dec = (len (output_channels encoder) - 4 - 0)%Z ∧
    dec_stages dec = (λ b, b.1.2) <$> built ∧
    Forall2 (λ s b,
        decoder_stage relative_pos_tensor s encoder (len (output_channels encoder))
          (len (output_channels encoder) - 4 - 0) (len (output_channels encoder) - 4)
          (stage_options (length strides_l) ims nsl)
          (per_stage id n_conv_per_stage (len (output_channels encoder) - 1))
          num_classes isl = Ok b)
      (Py.range2 1 (len (output_channels encoder))) built.
Proof.
  unfold NexToU_Decoder_init. intros H.
  match type of H with
  | (py_assert ?c ≫= _) = Ok _ =>
      destruct c eqn:?; [cbn [py_assert mbind result_bind] in H|done]
  end.
  destruct_bind H.
  destruct strides as [z|strides_l]; [done|]. cbn [mbind result_bind] in H.
  destruct (decoder_img_shapes encoder patch_size strides_l)
    as [[[isl nsl] ims]|] eqn:Eshapes; [|done].
  cbn [mbind result_bind] in H.
  match type of H with
  | (?m ≫= _) = Ok _ => destruct m as [built|] eqn:Ebuilt; [|done]
  end.
  cbn [mbind result_bind] in H. injection H as <-. simpl.
  exists strides_l, isl, nsl, ims, built. split_and!; try done.
  by apply mapM_Ok.
Qed.


Lemma decoder_shapes2_eq ks : ∀ h w isl nsl,
  decoder_shapes2 h w ks isl nsl = encoder_shapes2 h w ks isl nsl.
Proof.
  induction ks as [|k ks IH]; intros h w isl nsl; simpl; [done|].
  destruct (unpack_kernel2 k) as [[h_k w_k]|]; [|done]. cbn [mbind result_bind].
  destruct (Py.floordiv h h_k) as [h'|]; [|done]. cbn [mbind result_bind].
  destruct (Py.floordiv w w_k) as [w'|]; [|done]. cbn [mbind result_bind].
  apply IH.
Qed.

Lemma decoder_shapes3_eq ks : ∀ h w d isl nsl,
  decoder_shapes3 h w d ks isl nsl = encoder_shapes3 h w d ks isl nsl.
Proof.
  induction ks as [|k ks IH]; intros h w d isl nsl; simpl; [done|].
  destruct (unpack_kernel3 k) as [[[h_k w_k] d_k]|]; [|done]. cbn [mbind result_bind].
  destruct (Py.floordiv h h_k) as [h'|]; [|done]. cbn [mbind result_bind].
  destruct (Py.floordiv w w_k) as [w'|]; [|done]. cbn [mbind result_bind].
  destruct (Py.floordiv d d_k) as [d'|]; [|done]. cbn [mbind result_bind].
  apply IH.
Qed.

Lemma decoder_img_shapes_eq (encoder : @NexToU_Encoder embedding) patch_size strides :
  decoder_img_shapes encoder patch_size strides =
  encoder_img_shapes (enc_conv_op encoder) patch_size strides.
Proof.
  unfold decoder_img_shapes, encoder_img_shapes.
  destruct (enc_conv_op encoder); [reflexivity| | |reflexivity].
  - destruct (Py.getitem patch_size 0) as [h|]; [|done].
    destruct (Py.getitem patch_size 1) as [w|]; [|done].
    cbn [mbind result_bind]. by rewrite decoder_shapes2_eq.
  - destruct (Py.getitem patch_size 0) as [h|]; [|done].
    destruct (Py.getitem patch_size 1) as [w|]; [|done].
    destruct (Py.getitem patch_size 2) as [d|]; [|done].
    cbn [mbind result_bind]. by rewrite decoder_shapes3_eq.
Qed.

(** Claim C5: given the same patch size, the same list of strides and
    the same convolution, the decoder computes the [img_shape_list], the
    [n_size_list] and the [img_min_shape] that the encoder computes: the
    two blocks are the same function, and a decoder built on an encoder
    with the encoder's patch size and strides stores the same values. *)
Theorem encoder_decoder_agree_on_resolutions :
  (∀ (encoder : @NexToU_Encoder embedding) patch_size strides,
     decoder_img_shapes encoder patch_size strides =
     encoder_img_shapes (enc_conv_op encoder) patch_size strides) ∧
  (∀ input_channels patch_size n_stages features_per_stage conv kernel_sizes
     strides n_blocks_per_stage conv_bias bottleneck_channels return_skips
     disable_default_stem stem_channels pool_type enc num_classes
     n_conv_per_stage deep_supervision dec,
     NexToU_Encoder_init relative_pos_tensor get_matching_pool_op
       maybe_convert_scalar_to_list input_channels patch_size n_stages
       features_per_stage conv kernel_sizes (ASeq strides) n_blocks_per_stage
       conv_bias bottleneck_channels return_skips disable_default_stem
       stem_channels pool_type = Ok enc →
     NexToU_Decoder_init relative_pos_tensor get_matching_convtransp enc
       patch_size (ASeq strides) num_classes n_conv_per_stage deep_supervision
       = Ok dec →
     ∃ img_shape_list n_size_list' img_min_shape',
       encoder_img_shapes conv patch_size strides =
         Ok (img_shape_list, n_size_list', img_min_shape') ∧
       decoder_img_shapes enc patch_size strides =
         Ok (img_shape_list, n_size_list', img_min_shape') ∧
       img_min_shape (enc_opt enc) = Some img_min_shape' ∧
       img_min_shape (dec_opt dec) = Some img_min_shape' ∧
       n_size_list (enc_opt enc) = Some n_size_list' ∧
       n_size_list (dec_opt dec) = Some n_size_list').
Proof.
  split; [apply decoder_img_shapes_eq|].
  intros ic patch n fps conv ks strides nbs bias bc rs dds sc pt enc ncls ncps ds dec
    Henc Hdec.
  apply NexToU_Encoder_init_Ok in Henc
    as (isl & nsl & ims & ic' & pooled & Hlen & Hshapes & Hopt & _ & _ & _ & Hconv & _).
  apply NexToU_Decoder_init_Ok in Hdec
    as (strides_l & isl' & nsl' & ims' & built & [= <-] & Hshapes' & Hopt' & _).
  simpl in Hshapes, Hopt.
  rewrite decoder_img_shapes_eq, Hconv, Hshapes in Hshapes'.
  injection Hshapes' as <- <- <-.
  exists isl, nsl, ims. rewrite decoder_img_shapes_eq, Hconv, Hopt, Hopt'. done.
Qed.

(** Claim C6, as amended: with [len(strides) == n_stages >= 1] and a 2-d
    or 3-d convolution, whenever the resolution block of
    [NexToU_Encoder.__init__] completes, [img_shape_list] has exactly
    [n_stages] entries, entry 0 is [patch_size] (its first [d] components
    when it has more), entry [i+1] is entry [i] floor-divided componentwise
    by [strides[i+1]], [n_size_list[i]] is the product of the components of
    entry [i], and [img_min_shape] is the last entry; the block completes
    when [patch_size] has at least [d] components and every stride after
    the first is a sequence of [d] non-zero ints; for any other
    convolution it raises [ValueError]. *)
Theorem encoder_resolution_schedule conv (patch_size : list Z)
    (strides : list (int_or_seq Z)) (n_stages : nat) :
  length strides = n_stages → 1 ≤ n_stages →
  (conv = Conv2d ∨ conv = Conv3d →
   (∀ img_shape_list n_size_list' img_min_shape',
      encoder_img_shapes conv patch_size strides
        = Ok (img_shape_list, n_size_list', img_min_shape') →
      length img_shape_list = n_stages ∧
      img_shape_list !! 0 = Some (take (spatial_dims conv) patch_size) ∧
      (length patch_size = spatial_dims conv → img_shape_list !! 0 = Some patch_size) ∧
      (∀ i shp k,
         img_shape_list !! i = Some shp → strides !! S i = Some k →
         length (kernel_entries k) = spatial_dims conv ∧
         img_shape_list !! S i = Some (zip_with Z.div shp (kernel_entries k))) ∧
      (∀ i shp,
         img_shape_list !! i = Some shp → n_size_list' !! i = Some (prod_loop shp)) ∧
      last img_shape_list = Some img_min_shape') ∧
   (spatial_dims conv ≤ length patch_size →
    Forall (stride_ok (spatial_dims conv)) (drop 1 strides) →
    ∃ r, encoder_img_shapes conv patch_size strides = Ok r)) ∧
  (conv ≠ Conv2d → conv ≠ Conv3d →
   encoder_img_shapes conv patch_size strides = Raise ValueError).
Proof.
  intros Hlen Hn. split.
  - intros Hconv. split.
    + intros isl nsl ims H.
      apply encoder_img_shapes_Ok in H as (_ & Hp & Hks & -> & -> & Hlast).
      split_and!.
      * rewrite length_resolutions, length_drop. lia.
      * apply resolutions_head.
      * intros Hd. rewrite resolutions_head, <-Hd. by rewrite firstn_all.
      * intros i shp k Hi Hk.
        assert (Hk' : drop 1 strides !! i = Some k) by (by rewrite lookup_drop).
        split; [|by apply resolutions_step].
        rewrite Forall_lookup in Hks. destruct (Hks _ _ Hk') as (l & -> & Hl & _). done.
      * intros i shp Hi. by rewrite list_lookup_fmap, Hi.
      * done.
    + intros Hp Hks.
      destruct (encoder_img_shapes_total conv patch_size strides Hconv Hp Hks) as [ims ->].
      by eexists.
  - intros H2 H3. unfold encoder_img_shapes. by destruct conv.
Qed.


Lemma range_lookup n (i : nat) s : Py.range n !! i = Some s → s = Z.of_nat i.
Proof. unfold Py.range. intros [-> _]%lookup_seqZ. lia. Qed.

Lemma range2_lookup a b (i : nat) s :
  Py.range2 a b !! i = Some s → s = (a + Z.of_nat i)%Z.
Proof. unfold Py.range2. by intros [-> _]%lookup_seqZ. Qed.

(** Claim C4: in the encoder [n_swin_gnn_stages] is 0 and
    [n_conv_stages = no_pool_gnn_stage_num = n_stages - 4]; every stage
    with index [s < n_stages - 4] is residual blocks only, every stage with
    [s >= n_stages - 4] is residual blocks, then [PoolGNNBlocks], then
    [SwinGNNBlocks], and no stage is residual blocks followed by
    [SwinGNNBlocks] alone.  In the decoder the stages [s = 1..3] are
    residual blocks, [PoolGNNBlocks], [SwinGNNBlocks], the stages [s >= 4]
    are residual blocks only, and again no stage takes the middle branch. *)
Theorem stage_composition input_channels patch_size n_stages features_per_stage
    conv kernel_sizes strides n_blocks_per_stage conv_bias bottleneck_channels
    return_skips disable_default_stem stem_channels pool_type enc
    (encoder : @NexToU_Encoder embedding) patch_size' strides' num_classes
    n_conv_per_stage deep_supervision dec :
  NexToU_Encoder_init relative_pos_tensor get_matching_pool_op
    maybe_convert_scalar_to_list input_channels patch_size n_stages
    features_per_stage conv kernel_sizes strides n_blocks_per_stage conv_bias
    bottleneck_channels return_skips disable_default_stem stem_channels pool_type
    = Ok enc →
  NexToU_Decoder_init relative_pos_tensor get_matching_convtransp encoder
    patch_size' strides' num_classes n_conv_per_stage deep_supervision = Ok dec →
  (enc_n_swin_gnn_stages enc = 0%Z ∧
   enc_n_conv_stages enc = (n_stages - 4)%Z ∧
   enc_no_pool_gnn_stage_num enc = (n_stages - 4)%Z ∧
   length (enc_stages enc) = Z.to_nat n_stages ∧
   ∀ (s : nat) st, enc_stages enc !! s = Some st →
     ((Z.of_nat s < n_stages - 4)%Z → kind_of_stage st = ResidualOnly) ∧
     ((Z.of_nat s >= n_stages - 4)%Z → kind_of_stage st = ResidualPoolSwin) ∧
     kind_of_stage st ≠ ResidualSwin) ∧
  (dec_n_swin_gnn_stages dec = 0%Z ∧
   dec_n_conv_stages dec = (len (output_channels encoder) - 4)%Z ∧
   dec_no_pool_gnn_stage_num dec = (len (output_channels encoder) - 4)%Z ∧
   length (dec_stages dec) = Z.to_nat (len (output_channels encoder) - 1) ∧
   ∀ (s : nat) st, 1 ≤ s → dec_stages dec !! (s - 1) = Some st →
     (s ≤ 3 → kind_of_stage st = ResidualPoolSwin) ∧
     (4 ≤ s → kind_of_stage st = ResidualOnly) ∧
     kind_of_stage st ≠ ResidualSwin).
Proof.
  intros Henc Hdec. split.
  - apply NexToU_Encoder_init_Ok in Henc
      as (isl & nsl & ims & ic' & pooled & _ & _ & _ & Hsw & Hnp & Hnc & _ & Hstages).
    apply encoder_stages_kinds in Hstages.
    split_and!; [done|lia|done| |].
    { rewrite <-(Forall2_length _ _ _ Hstages). unfold Py.range. by rewrite length_seqZ. }
    intros s st Hst.
    destruct (Forall2_lookup_r _ _ _ _ _ Hstages Hst) as (s' & Hs' & Hkind).
    apply range_lookup in Hs' as ->. rewrite Hkind.
    replace (n_stages - 4 - 0)%Z with (n_stages - 4)%Z by lia.
    destruct (Z.ltb_spec (Z.of_nat s) (n_stages - 4)); split_and!; (done || lia).
  - apply NexToU_Decoder_init_Ok in Hdec
      as (strides_l & isl & nsl & ims & built & _ & _ & _ & Hsw & Hnp & Hnc & Hst & Hbuilt).
    split_and!; [done|lia|done| |].
    { rewrite Hst, length_fmap, <-(Forall2_length _ _ _ Hbuilt).
      unfold Py.range2. by rewrite length_seqZ. }
    intros s st Hs Hlook. rewrite Hst, list_lookup_fmap in Hlook.
    destruct (built !! (s - 1)) as [[[t st'] sg]|] eqn:Hb; [|done].
    simpl in Hlook. injection Hlook as ->.
    destruct (Forall2_lookup_r _ _ _ _ _ Hbuilt Hb) as (s' & Hs' & Hstage).
    apply range2_lookup in Hs'. apply decoder_stage_kind in Hstage. rewrite Hstage.
    assert (s' = Z.of_nat s) as -> by lia.
    set (n := len (output_channels encoder)).
    replace (n - (n - 4))%Z with 4%Z by lia.
    replace (n - (n - 4 - 0))%Z with 4%Z by lia.
    destruct (Z.ltb_spec (Z.of_nat s) 4); split_and!; (done || lia).
Qed.

End encoder_claims.

(** A network of three stages on a 64 x 64 patch. *)
Lemma encoder_resolution_schedule_witness :
  (Conv2d = Conv2d ∨ Conv2d = Conv3d →
   (∀ img_shape_list n_size_list' img_min_shape',
      encoder_img_shapes Conv2d [64; 64]%Z
        [ASeq [1; 1]; ASeq [2; 2]; ASeq [2; 2]]%Z
        = Ok (img_shape_list, n_size_list', img_min_shape') →
      length img_shape_list = 3 ∧
      img_shape_list !! 0 = Some (take (spatial_dims Conv2d) [64; 64]%Z) ∧
      (length [64; 64]%Z = spatial_dims Conv2d →
       img_shape_list !! 0 = Some [64; 64]%Z) ∧
      (∀ i shp k,
         img_shape_list !! i = Some shp →
         [ASeq [1; 1]; ASeq [2; 2]; ASeq [2; 2]]%Z !! S i = Some k →
         length (kernel_entries k) = spatial_dims Conv2d ∧
         img_shape_list !! S i = Some (zip_with Z.div shp (kernel_entries k))) ∧
      (∀ i shp,
         img_shape_list !! i = Some shp → n_size_list' !! i = Some (prod_loop shp)) ∧
      last img_shape_list = Some img_min_shape') ∧
   (spatial_dims Conv2d ≤ length [64; 64]%Z →
    Forall (stride_ok (spatial_dims Conv2d))
      (drop 1 [ASeq [1; 1]; ASeq [2; 2]; ASeq [2; 2]]%Z) →
    ∃ r, encoder_img_shapes Conv2d [64; 64]%Z
           [ASeq [1; 1]; ASeq [2; 2]; ASeq [2; 2]]%Z = Ok r)) ∧
  (Conv2d ≠ Conv2d → Conv2d ≠ Conv3d →
   encoder_img_shapes Conv2d [64; 64]%Z
     [ASeq [1; 1]; ASeq [2; 2]; ASeq [2; 2]]%Z = Raise ValueError).
Proof.
  apply (encoder_resolution_schedule Conv2d [64; 64]%Z
           [ASeq [1; 1]; ASeq [2; 2]; ASeq [2; 2]]%Z 3).
  - reflexivity.
  - lia.
Defined.

(** What the block computes on that network. *)
Example encoder_resolutions_example :
  encoder_img_shapes Conv2d [64; 64]%Z [ASeq [1; 1]; ASeq [2; 2]; ASeq [2; 2]]%Z
  = Ok ([[64; 64]; [32; 32]; [16; 16]], [4096; 1024; 256], [16; 16])%Z.
Proof. reflexivity. Qed.

(** Claim C6 as stated fails for a network without stages: [strides] is
    empty, so [len(strides) == n_stages == 0], and [img_shape_list]
    still receives the patch size as its one entry.  With
    [disable_default_stem] the constructor completes. *)
Lemma encoder_resolutions_without_stages :
  length ([] : list (int_or_seq Z)) = 0 ∧
  encoder_img_shapes Conv2d [8; 8]%Z [] = Ok ([[8; 8]], [64], [8; 8])%Z ∧
  length [[8; 8]]%Z = 1 ∧
  ∃ enc,
    NexToU_Encoder_init (embedding := unit)
      (λ _ _ _ _, Ok tt) (λ _ _, Ok tt) (λ _ k, Ok (kernel_entries k))
      1 [8; 8]%Z 0 (ASeq []) Conv2d (ASeq []) (ASeq []) (ASeq []) true None
      true true None "conv" = Ok enc ∧
    img_min_shape (enc_opt enc) = Some [8; 8]%Z ∧
    enc_stages enc = [].
Proof.
  split_and!; [reflexivity..|]. eexists. split_and!; reflexivity.
Qed.

(** The network [example_encoder] with its decoder. *)
Lemma stage_composition_witness :
  ∃ enc dec,
    example_encoder = Ok enc ∧ example_decoder enc = Ok dec ∧
    (enc_n_swin_gnn_stages enc = 0%Z ∧
     enc_n_conv_stages enc = (5 - 4)%Z ∧
     enc_no_pool_gnn_stage_num enc = (5 - 4)%Z ∧
     length (enc_stages enc) = Z.to_nat 5 ∧
     ∀ (s : nat) st, enc_stages enc !! s = Some st →
       ((Z.of_nat s < 5 - 4)%Z → kind_of_stage st = ResidualOnly) ∧
       ((Z.of_nat s >= 5 - 4)%Z → kind_of_stage st = ResidualPoolSwin) ∧
       kind_of_stage st ≠ ResidualSwin) ∧
    (dec_n_swin_gnn_stages dec = 0%Z ∧
     dec_n_conv_stages dec = (len (output_channels enc) - 4)%Z ∧
     dec_no_pool_gnn_stage_num dec = (len (output_channels enc) - 4)%Z ∧
     length (dec_stages dec) = Z.to_nat (len (output_channels enc) - 1) ∧
     ∀ (s : nat) st, 1 ≤ s → dec_stages dec !! (s - 1) = Some st →
       (s ≤ 3 → kind_of_stage st = ResidualPoolSwin) ∧
       (4 ≤ s → kind_of_stage st = ResidualOnly) ∧
       kind_of_stage st ≠ ResidualSwin).
Proof.
  eexists _, _. split; [vm_compute; reflexivity|].
  split; [vm_compute; reflexivity|].
  apply (stage_composition (λ _ _ _ _, Ok tt) (λ _ _, Ok tt) (λ _, Ok tt)
           (λ _ k, Ok (kernel_entries k))
           1 [64; 64]%Z 5 (ASeq [32; 64; 128; 256; 512]%Z) Conv2d (AnInt 3)
           (ASeq [ASeq [1; 1]; ASeq [2; 2]; ASeq [2; 2]; ASeq [2; 2]; ASeq [2; 2]]%Z)
           (AnInt 2) true None true false None "conv" _ _ [64; 64]%Z
           (ASeq [ASeq [1; 1]; ASeq [2; 2]; ASeq [2; 2]; ASeq [2; 2]; ASeq [2; 2]]%Z)
           3 (AnInt 2) true _).
  - vm_compute. reflexivity.
  - vm_compute. reflexivity.
Defined.

(** The kinds of the stages of that network. *)
Example example_stage_kinds :
  (enc ← example_encoder; dec ← example_decoder enc;
   Ok (kind_of_stage <$> enc_stages enc, kind_of_stage <$> dec_stages dec))
  = Ok ([ResidualOnly; ResidualPoolSwin; ResidualPoolSwin; ResidualPoolSwin;
         ResidualPoolSwin],
        [ResidualPoolSwin; ResidualPoolSwin; ResidualPoolSwin; ResidualOnly]).
Proof. vm_compute. reflexivity. Qed.

(** ** The pooled graph convolution (claim C7) *)

Lemma foldl_mul_product (l : list Z) a :
  foldl (λ n h, n * h)%Z a l = (a * product l)%Z.
Proof.
  revert a. induction l as [|h l IH]; intros a; simpl; [lia|].
  rewrite IH. lia.
Qed.

Lemma foldl_mul4_product (l : list Z) a :
  foldl (λ n_small h_small, n_small * h_small * 4)%Z a l =
  (a * (product l * 4 ^ len l))%Z.
Proof.
  revert a. induction l as [|h l IH]; intros a; simpl; [unfold len; simpl; lia|].
  rewrite IH. unfold len. simpl length.
  rewrite Nat2Z.inj_succ, Z.pow_succ_r by lia. lia.
Qed.

Lemma prod_loop_product l : prod_loop l = product l.
Proof. unfold prod_loop. change Z.mul with (λ n h, n * h)%Z. rewrite foldl_mul_product. lia. Qed.

(** The list the two constructors build is the pooling rule. *)
Lemma pool_size_rule img_shape img_min_shape :
  (if (foldl (λ n h, n * h) 1 img_shape
         >? foldl (λ n_small h_small, n_small * h_small * 4) 1 img_min_shape)
   then (λ h, if (h mod 2 =? 0) then 2 else 1) <$> img_shape
   else (λ h, 1) <$> img_shape)%Z
  = pooling_rule img_shape img_min_shape.
Proof.
  rewrite foldl_mul_product, foldl_mul4_product, !Z.mul_1_l.
  unfold pooling_rule. rewrite Z.gtb_ltb.
  destruct (_ <? _)%Z; simpl; [|done].
  apply list_fmap_ext. intros _ h _.
  rewrite Zeven_mod. done.
Qed.

Lemma pooling_rule_entries img_shape img_min_shape :
  Forall (λ p, p = 1 ∨ p = 2)%Z (pooling_rule img_shape img_min_shape).
Proof.
  unfold pooling_rule. apply Forall_fmap, Forall_forall. intros h _. simpl.
  destruct (_ && _); auto.
Qed.

Lemma pooling_rule_divides img_shape img_min_shape :
  Forall2 (λ s p, (p | s)%Z) img_shape (pooling_rule img_shape img_min_shape).
Proof.
  unfold pooling_rule. apply Forall2_fmap_r, Forall_Forall2_diag, Forall_forall.
  intros h _. simpl.
  destruct (_ <? _)%Z; simpl; [|apply Z.divide_1_l].
  destruct (Z.even h) eqn:E; [|apply Z.divide_1_l].
  apply Z.even_spec in E as [k ->]. exists k. lia.
Qed.

Lemma PoolDyGraphConv_init_Ok k d conv r conv_op img_shape img_min_shape g :
  PoolDyGraphConv_init k d conv r conv_op img_shape img_min_shape = Ok g →
  ∃ shp shp_min,
    img_shape = Some shp ∧ img_min_shape = Some shp_min ∧ conv = "mr" ∧
    (conv_op = Conv2d ∨ conv_op = Conv3d) ∧
    g = mkPoolDyGraphConv k d r conv_op (pooling_rule shp shp_min).
Proof.
  unfold PoolDyGraphConv_init, GraphConv_init. intros H.
  case_decide as Hconv; [|done]. cbn [mbind result_bind] in H.
  destruct img_shape as [shp|]; [|done]. destruct img_min_shape as [shp_min|]; [|done].
  cbn [iterable mbind result_bind] in H. rewrite pool_size_rule in H.
  exists shp, shp_min. destruct conv_op; try done; injection H as <-; auto 10.
Qed.

Lemma PoolDyGraphConv_init_total k d r conv_op img_shape img_min_shape :
  conv_op = Conv2d ∨ conv_op = Conv3d →
  PoolDyGraphConv_init k d "mr" r conv_op (Some img_shape) (Some img_min_shape)
  = Ok (mkPoolDyGraphConv k d r conv_op (pooling_rule img_shape img_min_shape)).
Proof.
  intros Hc. unfold PoolDyGraphConv_init, GraphConv_init.
  rewrite decide_True by done. cbn [iterable mbind result_bind].
  rewrite pool_size_rule. by destruct Hc as [-> | ->].
Qed.

Section pool_claims.
Context {embedding : Type}.
Variable relative_pos_tensor : conv_op → Z → Z → Z → result embedding.
Variable graph_conv : list Z → option (list Z) → result (list Z).
Variable indices_fit : list Z → list Z → bool.

Lemma PoolGrapher_init_Ok in_channels img_shape k d conv r n drop_path relative_pos
    conv_op img_min_shape p :
  PoolGrapher_init relative_pos_tensor in_channels img_shape k d conv r n drop_path
    relative_pos conv_op img_min_shape = Ok p →
  ∃ shp_min,
    img_min_shape = Some shp_min ∧
    po_conv_op p = conv_op ∧ po_r p = r ∧
    po_pool_size p = pooling_rule img_shape shp_min ∧
    po_graph_conv p = mkPoolDyGraphConv k d r conv_op (pooling_rule img_shape shp_min) ∧
    po_n p = (product img_shape / product (pooling_rule img_shape shp_min))%Z.
Proof.
  unfold PoolGrapher_init. intros H.
  destruct (PoolDyGraphConv_init k d conv r conv_op (Some img_shape) img_min_shape)
    as [g|] eqn:Eg; [|done].
  cbn [mbind result_bind] in H.
  apply PoolDyGraphConv_init_Ok in Eg as (shp & shp_min & [= <-] & -> & -> & Hc & ->).
  cbn [iterable mbind result_bind] in H. rewrite pool_size_rule in H.
  rewrite !foldl_mul_product, !Z.mul_1_l in H.
  destruct (Py.floordiv _ _) as [n'|] eqn:En; [|done]. cbn [mbind result_bind] in H.
  apply floordiv_Ok in En as [_ ->].
  destruct (init_relative_pos _ _ _ _ _ _) as [rp|]; [|done].
  cbn [mbind result_bind] in H. injection H as <-. simpl.
  exists shp_min. done.
Qed.

(** Max-pooling with kernel and stride [k] divides the extent by [k]. *)
Lemma max_pool_extent_Ok s k o :
  max_pool_extent s k = Ok o → (0 < k ∧ o = s / k ∧ 0 < o)%Z.
Proof.
  unfold max_pool_extent. destruct (Z.leb_spec k 0); [done|].
  destruct (Z.leb_spec ((s - k) / k + 1) 0); [done|]. intros [= <-].
  assert ((s - k) / k + 1 = s / k)%Z as Hq.
  { replace s with ((s - k) + 1 * k)%Z at 2 by lia. rewrite Z.div_add by lia. done. }
  lia.
Qed.

Lemma max_unpool_extent_mul o k : max_unpool_extent o k = (o * k)%Z.
Proof. unfold max_unpool_extent. lia. Qed.

Lemma zip_extents_max_pool sizes : ∀ ks os,
  zip_extents max_pool_extent sizes ks = Ok os →
  length ks = length sizes ∧ os = zip_with Z.div sizes ks ∧ Forall (λ k, 0 < k)%Z ks.
Proof.
  induction sizes as [|s sizes IH]; intros [|k ks] os H; simpl in H; try done.
  - by injection H as <-.
  - destruct (max_pool_extent s k) as [o|] eqn:Eo; [|done]. cbn [mbind result_bind] in H.
    destruct (zip_extents max_pool_extent sizes ks) as [os'|] eqn:Eos; [|done].
    cbn [mbind result_bind] in H. injection H as <-.
    apply max_pool_extent_Ok in Eo as (Hk & -> & _).
    apply IH in Eos as (Hl & -> & Hks). simpl. split_and!; [by f_equal|done|by constructor].
Qed.

Lemma unpool_pool_extents sizes ks :
  zip_with max_unpool_extent (zip_with Z.div sizes ks) ks =
  zip_with (λ s k, s / k * k)%Z sizes ks.
Proof.
  revert ks. induction sizes as [|s sizes IH]; intros [|k ks]; simpl; try done.
  rewrite max_unpool_extent_mul, IH. done.
Qed.

Lemma unpool_pool_exact sizes ks :
  Forall (λ k, 0 < k)%Z ks → Forall2 (λ s k, (k | s)%Z) sizes ks →
  zip_with (λ s k, s / k * k)%Z sizes ks = sizes.
Proof.
  intros Hpos H. induction H as [|s k sizes ks Hd _ IH]; simpl; [done|].
  inversion Hpos as [|? ? Hk Hpos']; subst. rewrite IH by done. f_equal.
  destruct Hd as [q ->]. rewrite Z.div_mul by lia. done.
Qed.

Lemma max_pool_extent_total s k :
  (0 < k <= s)%Z → max_pool_extent s k = Ok (s / k)%Z.
Proof.
  intros Hk. unfold max_pool_extent. destruct (Z.leb_spec k 0); [lia|].
  assert ((s - k) / k + 1 = s / k)%Z as Hq.
  { replace s with ((s - k) + 1 * k)%Z at 2 by lia. rewrite Z.div_add by lia. done. }
  assert (0 <= (s - k) / k)%Z by (apply Z.div_pos; lia).
  destruct (Z.leb_spec ((s - k) / k + 1) 0); [lia|]. by rewrite Hq.
Qed.

Lemma zip_extents_max_pool_total sizes ks :
  Forall2 (λ s k, 0 < k <= s)%Z sizes ks →
  zip_extents max_pool_extent sizes ks = Ok (zip_with Z.div sizes ks).
Proof.
  induction 1 as [|s k sizes ks Hk _ IH]; simpl; [done|].
  rewrite max_pool_extent_total by done. cbn [mbind result_bind].
  by rewrite IH.
Qed.

Lemma zip_with_div_const (l : list Z) r :
  zip_with Z.div l ((λ _, r) <$> l) = (λ s, s / r)%Z <$> l.
Proof. induction l as [|s l IH]; simpl; [done|]. f_equal. exact IH. Qed.

Lemma infer_extent_Ok numel known q :
  infer_extent numel known = Ok q → known ≠ 0%Z ∧ numel = (q * known)%Z.
Proof.
  unfold infer_extent. destruct (Z.eqb_spec known 0); [done|].
  destruct (Z.eqb_spec (numel mod known) 0) as [Hm|]; [|done]. intros [= <-].
  split; [done|]. pose proof (Z.div_mod numel known ltac:(done)). lia.
Qed.

Lemma infer_extent_exact q known :
  known ≠ 0%Z → infer_extent (q * known) known = Ok q.
Proof.
  intros Hk. unfold infer_extent. destruct (Z.eqb_spec known 0); [done|].
  rewrite Z.mod_mul, Z.div_mul by done. done.
Qed.

Lemma product_pos l : Forall (λ s, 0 < s)%Z l → (0 < product l)%Z.
Proof. induction 1; simpl; lia. Qed.

Lemma pooled_extents_pos sizes ks :
  Forall2 (λ s k, 0 < k <= s)%Z sizes ks → Forall (λ s, 0 < s)%Z (zip_with Z.div sizes ks).
Proof.
  induction 1 as [|s k sizes ks Hk _ IH]; simpl; constructor; [|done].
  apply Z.div_str_pos. lia.
Qed.

(** The spatial extents that [forward] unpacks, and the pooled extents it
    computes for the reshapes. *)
Lemma forward_unpack (cop : conv_op) (B C : Z) (spatial : list Z) :
  cop = Conv2d ∨ cop = Conv3d → length spatial = spatial_dims cop →
  match cop with
  | Conv2d => '(B, C, H, W) ← unpack4 (B :: C :: spatial); Ok (B, C, [H; W])
  | Conv3d => '(B, C, S_, H, W) ← unpack5 (B :: C :: spatial); Ok (B, C, [S_; H; W])
  | _ => Raise NotImplementedError
  end = Ok (B, C, spatial).
Proof.
  intros [-> | ->] Hl; simpl in Hl.
  - by destruct spatial as [|h [|w [|? ?]]].
  - by destruct spatial as [|s [|h [|w [|? ?]]]].
Qed.

Lemma forward_pools (cop : conv_op) (spatial pool : list Z) :
  cop = Conv2d ∨ cop = Conv3d → length spatial = spatial_dims cop →
  length pool = length spatial → Forall (λ k, 0 < k)%Z pool →
  match cop with
  | Conv2d =>
      '(H, W) ← Py.unpack2 spatial;
      p0 ← Py.getitem pool 0; H_pool ← Py.floordiv H p0;
      p1 ← Py.getitem pool 1; W_pool ← Py.floordiv W p1;
      Ok [H_pool; W_pool]
  | Conv3d =>
      '(S_, H, W) ← Py.unpack3 spatial;
      p0 ← Py.getitem pool 0; S_pool ← Py.floordiv S_ p0;
      p1 ← Py.getitem pool 1; H_pool ← Py.floordiv H p1;
      p2 ← Py.getitem pool 2; W_pool ← Py.floordiv W p2;
      Ok [S_pool; H_pool; W_pool]
  | _ => Raise NotImplementedError
  end = Ok (zip_with Z.div spatial pool).
Proof.
  intros [-> | ->] Hl Hlp Hpos; simpl in Hl.
  - destruct spatial as [|h [|w [|? ?]]]; try done.
    destruct pool as [|p0 [|p1 [|? ?]]]; try done.
    inversion Hpos as [|? ? H0 Hpos']; subst. inversion Hpos' as [|? ? H1 _]; subst.
    cbn [Py.unpack2 mbind result_bind]. rewrite getitem_0, getitem_1.
    cbn [mbind result_bind]. rewrite !floordiv_nonzero by lia. done.
  - destruct spatial as [|s [|h [|w [|? ?]]]]; try done.
    destruct pool as [|p0 [|p1 [|p2 [|? ?]]]]; try done.
    inversion Hpos as [|? ? H0 Hpos']; subst. inversion Hpos' as [|? ? H1 Hpos'']; subst.
    inversion Hpos'' as [|? ? H2 _]; subst.
    cbn [Py.unpack3 mbind result_bind]. rewrite getitem_0, getitem_1, getitem_2.
    cbn [mbind result_bind]. rewrite !floordiv_nonzero by lia. done.
Qed.

(** What [PoolDyGraphConv.forward] does with the shapes, when it returns:
    the spatial extents are divided by the pool sizes, the graph
    convolution sees the pooled extents flattened to one axis of nodes
    and returns twice the channels, and the result is unpooled to the
    pooled extents times the pool sizes. *)
Lemma PoolDyGraphConv_forward_Ok self x out :
  PoolDyGraphConv_forward graph_conv indices_fit self x = Ok out →
  ∃ B C spatial nodes,
    let pooled := zip_with Z.div spatial (pg_pool_size self) in
    x = B :: C :: spatial ∧
    length spatial = spatial_dims (pg_conv_op self) ∧
    length (pg_pool_size self) = length spatial ∧
    Forall (λ k, 0 < k)%Z (pg_pool_size self) ∧
    graph_conv [B; C; product pooled; 1%Z] (pooled_y (pg_r self) B C pooled) = Ok nodes ∧
    product nodes = (B * (C + C) * product pooled)%Z ∧
    out = B :: (C + C)%Z :: zip_with (λ s k, s / k * k)%Z spatial (pg_pool_size self).
Proof.
  unfold PoolDyGraphConv_forward. intros H.
  match type of H with
  | (?m ≫= _) = Ok _ => destruct m as [[[B C] spatial]|] eqn:Ex; [|done]
  end.
  cbn [mbind result_bind] in H.
  destruct (zip_extents max_pool_extent spatial (pg_pool_size self)) as [pooled|] eqn:Ep;
    [|done].
  cbn [mbind result_bind] in H.
  apply zip_extents_max_pool in Ep as (Hlen & -> & Hpos).
  cbv zeta in H.
  destruct (if (pg_r self >? 1)%Z then _ else _) as [y|] eqn:Ey; [|done].
  cbn [mbind result_bind] in H.
  destruct (infer_extent _ _) as [n_x|] eqn:En; [|done]. cbn [mbind result_bind] in H.
  apply infer_extent_Ok in En as [HBC En]. rewrite prod_loop_product in En.
  assert (n_x = product (zip_with Z.div spatial (pg_pool_size self))) as -> by nia.
  assert (y = pooled_y (pg_r self) B C (zip_with Z.div spatial (pg_pool_size self))) as ->.
  { unfold pooled_y. destruct (pg_r self >? 1)%Z; [|by injection Ey as <-].
    destruct (avg_pool_extents _ _) as [ys|] eqn:Eys; [|done].
    cbn [mbind result_bind] in Ey.
    destruct (infer_extent _ _) as [n_y|] eqn:Eny; [|done].
    cbn [mbind result_bind] in Ey. injection Ey as <-.
    unfold avg_pool_extents in Eys.
    apply zip_extents_max_pool in Eys as (_ & -> & _).
    apply infer_extent_Ok in Eny as [_ Eny]. rewrite prod_loop_product in Eny.
    rewrite zip_with_div_const in Eny. do 4 f_equal.
    apply (Z.mul_reg_r _ _ (B * C * 1)); [done|lia]. }
  destruct (graph_conv _ _) as [g|] eqn:Eg; [|done]. cbn [mbind result_bind] in H.
  match type of H with
  | (?m ≫= _) = Ok _ => destruct m as [pools|] eqn:Epools; [|done]
  end.
  cbn [mbind result_bind] in H.
  destruct (infer_extent (prod_loop g) _) as [c_x|] eqn:Ecx; [|done].
  cbn [mbind result_bind] in H.
  destruct (infer_extent (prod_loop [B; (C + C)%Z; _; 1%Z]) _) as [c_i|] eqn:Eci; [|done].
  cbn [mbind result_bind] in H.
  case_decide as Hc; [|done].
  assert (pools = zip_with Z.div spatial (pg_pool_size self) ∧
          x = B :: C :: spatial ∧
          length spatial = spatial_dims (pg_conv_op self)) as (-> & -> & Hd).
  { destruct (pg_conv_op self); try done.
    - destruct x as [|b [|c0 [|h [|w [|? ?]]]]]; try done.
      cbn in Ex. injection Ex as <- <- <-.
      destruct (pg_pool_size self) as [|p0 [|p1 [|? ?]]]; try done.
      cbn [Py.unpack2 mbind result_bind] in Epools.
      rewrite getitem_0, getitem_1 in Epools. cbn [mbind result_bind] in Epools.
      invert_result.
      apply floordiv_Ok in E as [_ ->]. apply floordiv_Ok in E0 as [_ ->]. done.
    - destruct x as [|b [|c0 [|s [|h [|w [|? ?]]]]]]; try done.
      cbn in Ex. injection Ex as <- <- <-.
      destruct (pg_pool_size self) as [|p0 [|p1 [|p2 [|? ?]]]]; try done.
      cbn [Py.unpack3 mbind result_bind] in Epools.
      rewrite getitem_0, getitem_1, getitem_2 in Epools.
      cbn [mbind result_bind] in Epools. invert_result.
      apply floordiv_Ok in E as [_ ->]. apply floordiv_Ok in E0 as [_ ->].
      apply floordiv_Ok in E1 as [_ ->]. done. }
  apply infer_extent_Ok in Ecx as [HBN Ecx], Eci as [_ Eci].
  rewrite !prod_loop_product in *. simpl in Eci.
  assert (c_i = (C + C)%Z) as -> by nia. subst c_x.
  assert (out = B :: (C + C)%Z
                :: zip_with (λ s k, s / k * k)%Z spatial (pg_pool_size self)) as ->.
  { rewrite unpool_pool_extents in H.
    case_decide; [by injection H|]. destruct (indices_fit _ _); [by injection H|done]. }
  exists B, C, spatial, g. cbv zeta. split_and!; try done. lia.
Qed.

Lemma unpool_exact_iff sizes ks :
  Forall2 (λ s k, 0 < k <= s)%Z sizes ks →
  zip_with (λ s k, s / k * k)%Z sizes ks = sizes
  ↔ Forall2 (λ s k, s mod k = 0)%Z sizes ks.
Proof.
  intros H. induction H as [|s k sizes ks Hk _ IH]; simpl.
  - split; [constructor|done].
  - pose proof (Z.div_mod s k ltac:(lia)) as Hs. split.
    + intros [= Hsk Heq]. constructor; [lia|by apply IH].
    + intros Hdiv. inversion Hdiv; subst. f_equal; [lia|by apply IH].
Qed.

(** The result of [PoolDyGraphConv.forward] on extents that are not
    smaller than the pool sizes (and than [r], when the pooled map is
    average-pooled), with a graph convolution that returns twice the
    channels on the pooled nodes: the input size when the pool sizes
    divide the extents, and otherwise the smaller size or an error, as the
    pooling indices fit the smaller plane or not. *)
Lemma PoolDyGraphConv_forward_value self B C spatial nodes :
  let pooled := zip_with Z.div spatial (pg_pool_size self) in
  pg_conv_op self = Conv2d ∨ pg_conv_op self = Conv3d →
  length spatial = spatial_dims (pg_conv_op self) →
  B ≠ 0%Z → C ≠ 0%Z →
  Forall2 (λ s k, 0 < k <= s)%Z spatial (pg_pool_size self) →
  ((1 < pg_r self)%Z → Forall (λ s, pg_r self <= s)%Z pooled) →
  graph_conv [B; C; product pooled; 1%Z] (pooled_y (pg_r self) B C pooled) = Ok nodes →
  product nodes = (B * (C + C) * product pooled)%Z →
  PoolDyGraphConv_forward graph_conv indices_fit self (B :: C :: spatial) =
  if decide (Forall2 (λ s k, s mod k = 0)%Z spatial (pg_pool_size self))
  then Ok (B :: (C + C)%Z :: spatial)
  else if indices_fit spatial (pg_pool_size self)
       then Ok (B :: (C + C)%Z
                :: zip_with (λ s k, s / k * k)%Z spatial (pg_pool_size self))
       else Raise RuntimeError.
Proof.
  intros pooled Hcop Hd HB HC Hpool Hr Hg Hnodes.
  pose proof (Forall2_length _ _ _ Hpool) as Hlen.
  assert (Forall (λ k, 0 < k)%Z (pg_pool_size self)) as Hpos.
  { clear -Hpool. induction Hpool; constructor; [lia|done]. }
  pose proof (product_pos _ (pooled_extents_pos _ _ Hpool)) as HN. fold pooled in HN.
  assert (B * C * 1 ≠ 0)%Z as HBC by (rewrite Z.mul_1_r; by apply Z.neq_mul_0).
  assert (B * product pooled ≠ 0)%Z as HBN by (apply Z.neq_mul_0; split; [done|lia]).
  unfold PoolDyGraphConv_forward.
  rewrite forward_unpack by done. cbn [mbind result_bind].
  rewrite zip_extents_max_pool_total by done. cbn [mbind result_bind]. fold pooled.
  cbv zeta.
  assert ((if (pg_r self >? 1)%Z
           then ys ← avg_pool_extents pooled (pg_r self);
                n_y ← infer_extent (B * C * prod_loop ys) (B * C * 1);
                Ok (Some [B; C; n_y; 1%Z])
           else Ok None) = Ok (pooled_y (pg_r self) B C pooled)) as ->.
  { unfold pooled_y. destruct (Z.gtb_spec (pg_r self) 1) as [Hgt|]; [|done].
    unfold avg_pool_extents. rewrite zip_extents_max_pool_total.
    - cbn [mbind result_bind]. rewrite zip_with_div_const, prod_loop_product.
      replace (B * C * product ((λ s, s / pg_r self)%Z <$> pooled))%Z
        with (product ((λ s, s / pg_r self)%Z <$> pooled) * (B * C * 1))%Z by lia.
      rewrite infer_extent_exact by done. done.
    - apply Forall2_fmap_r, Forall_Forall2_diag.
      eapply Forall_impl; [exact (Hr Hgt)|]. intros s Hs. unfold compose. cbv beta in *. lia. }
  cbn [mbind result_bind]. rewrite prod_loop_product.
  replace (B * C * product pooled)%Z with (product pooled * (B * C * 1))%Z by lia.
  rewrite infer_extent_exact by done. cbn [mbind result_bind].
  rewrite Hg. cbn [mbind result_bind].
  rewrite forward_pools by (done || lia). cbn [mbind result_bind]. fold pooled.
  rewrite !prod_loop_product, Hnodes. simpl product.
  replace (B * (C + C) * product pooled)%Z
    with ((C + C) * (B * product pooled))%Z by lia.
  replace (B * ((C + C) * (product pooled * (1 * 1))))%Z
    with ((C + C) * (B * product pooled))%Z by lia.
  rewrite !infer_extent_exact by done. cbn [mbind result_bind].
  rewrite decide_True by done. unfold pooled. rewrite unpool_pool_extents.
  pose proof (unpool_exact_iff _ _ Hpool) as Hiff.
  destruct (decide (Forall2 (λ s k, s mod k = 0)%Z spatial (pg_pool_size self)))
    as [Hdiv|Hdiv].
  - apply Hiff in Hdiv. rewrite decide_True by done. by rewrite Hdiv.
  - rewrite decide_False; [done|]. intros Heq. by apply Hdiv, Hiff.
Qed.

(** Claim C7, as amended: in [PoolDyGraphConv.__init__] and in
    [PoolGrapher.__init__], with [n = prod(img_shape)] and
    [n_small = prod(img_min_shape) * 4^len(img_min_shape)], [pool_size[i]]
    is 2 if [n > n_small] and [img_shape[i]] is even, and 1 otherwise;
    [PoolGrapher.n] is [prod(img_shape) // prod(pool_size)]; and
    [PoolDyGraphConv.forward] max-pools its input by [pool_size] before the
    kNN graph is built and max-unpools the output of the graph convolution
    to the pooled extents times [pool_size], which is the size before
    pooling whenever every spatial extent of the input is a multiple of its
    pool size, as it is for an input of the shape [img_shape]; on other
    extents the call returns that smaller size or is rejected, as the
    pooling indices of the data fit the smaller plane or do not. *)
Theorem pooled_graph_convolution k d conv r conv_op img_shape img_min_shape g
    in_channels n drop_path relative_pos p :
  PoolDyGraphConv_init k d conv r conv_op (Some img_shape) (Some img_min_shape) = Ok g →
  PoolGrapher_init relative_pos_tensor in_channels img_shape k d conv r n drop_path
    relative_pos conv_op (Some img_min_shape) = Ok p →
  (* the pooling rule *)
  length (pg_pool_size g) = length img_shape ∧
  (∀ i h, img_shape !! i = Some h →
     pg_pool_size g !! i =
     Some (if ((product img_min_shape * 4 ^ len img_min_shape <? product img_shape)
               && Z.even h)%Z then 2 else 1)%Z) ∧
  po_pool_size p = pg_pool_size g ∧
  pg_pool_size (po_graph_conv p) = pg_pool_size g ∧
  po_n p = (product img_shape / product (po_pool_size p))%Z ∧
  (* the forward pass, on shapes: what a call that returns has done *)
  (∀ x out,
     PoolDyGraphConv_forward graph_conv indices_fit g x = Ok out →
     ∃ B C spatial nodes,
       let pooled := zip_with Z.div spatial (pg_pool_size g) in
       x = B :: C :: spatial ∧
       graph_conv [B; C; product pooled; 1%Z] (pooled_y r B C pooled) = Ok nodes ∧
       product nodes = (B * (C + C) * product pooled)%Z ∧
       out = B :: (C + C)%Z :: zip_with (λ s k, s / k * k)%Z spatial (pg_pool_size g) ∧
       (Forall2 (λ s k, (k | s)%Z) spatial (pg_pool_size g) →
        out = B :: (C + C)%Z :: spatial) ∧
       (spatial = img_shape → out = B :: (C + C)%Z :: spatial)) ∧
  (* which calls return *)
  (∀ B C spatial nodes,
     let pooled := zip_with Z.div spatial (pg_pool_size g) in
     length spatial = length img_shape → length img_shape = spatial_dims conv_op →
     B ≠ 0%Z → C ≠ 0%Z →
     Forall2 (λ s k, 0 < k <= s)%Z spatial (pg_pool_size g) →
     ((1 < r)%Z → Forall (λ s, r <= s)%Z pooled) →
     graph_conv [B; C; product pooled; 1%Z] (pooled_y r B C pooled) = Ok nodes →
     product nodes = (B * (C + C) * product pooled)%Z →
     PoolDyGraphConv_forward graph_conv indices_fit g (B :: C :: spatial) =
     if decide (Forall2 (λ s k, s mod k = 0)%Z spatial (pg_pool_size g))
     then Ok (B :: (C + C)%Z :: spatial)
     else if indices_fit spatial (pg_pool_size g)
          then Ok (B :: (C + C)%Z
                   :: zip_with (λ s k, s / k * k)%Z spatial (pg_pool_size g))
          else Raise RuntimeError) ∧
  (* in particular on the shape the layer was built for *)
  (∀ B C nodes,
     let pooled := zip_with Z.div img_shape (pg_pool_size g) in
     length img_shape = spatial_dims conv_op →
     B ≠ 0%Z → C ≠ 0%Z → Forall (λ s, 0 < s)%Z img_shape →
     ((1 < r)%Z → Forall (λ s, r <= s)%Z pooled) →
     graph_conv [B; C; product pooled; 1%Z] (pooled_y r B C pooled) = Ok nodes →
     product nodes = (B * (C + C) * product pooled)%Z →
     PoolDyGraphConv_forward graph_conv indices_fit g (B :: C :: img_shape)
     = Ok (B :: (C + C)%Z :: img_shape)).
Proof.
  intros Hg Hp.
  apply PoolDyGraphConv_init_Ok in Hg as (shp & shp_min & [= <-] & [= <-] & -> & Hc & ->).
  apply PoolGrapher_init_Ok in Hp as (shp_min & [= <-] & _ & _ & Hps & Hgc & Hn).
  simpl.
  split_and!.
  - unfold pooling_rule. by rewrite length_fmap.
  - intros i h Hi. unfold pooling_rule. by rewrite list_lookup_fmap, Hi.
  - done.
  - by rewrite Hgc.
  - by rewrite Hn, Hps.
  - intros x out Hout.
    apply PoolDyGraphConv_forward_Ok in Hout
      as (B & C & spatial & nodes & -> & Hd & Hlen & Hpos & Hgraph & Hnodes & ->).
    simpl in *. exists B, C, spatial, nodes. split_and!; try done.
    + intros Hdiv. by rewrite unpool_pool_exact.
    + intros ->. rewrite unpool_pool_exact; [done|done|].
      apply pooling_rule_divides.
  - intros B C spatial nodes. cbv zeta. intros Hl Hd HB HC Hpool Hr Hgraph Hnodes.
    apply (PoolDyGraphConv_forward_value
             (mkPoolDyGraphConv k d r conv_op (pooling_rule img_shape img_min_shape))
             B C spatial nodes); simpl; [done|lia|done..].
  - intros B C nodes. cbv zeta. intros Hd HB HC Hshape Hr Hgraph Hnodes.
    rewrite (PoolDyGraphConv_forward_value
               (mkPoolDyGraphConv k d r conv_op (pooling_rule img_shape img_min_shape))
               B C img_shape nodes); simpl; [|done..| |done|done|done].
    + rewrite decide_True; [done|].
      eapply Forall2_impl; [apply pooling_rule_divides|].
      intros s q [c ->]. simpl. apply Z_mod_mult.
    + pose proof (pooling_rule_divides img_shape img_min_shape) as Hdiv.
      pose proof (pooling_rule_entries img_shape img_min_shape) as Hent.
      clear -Hdiv Hent Hshape.
      induction Hdiv as [|s q ss qs Hq _ IH]; [constructor|].
      inversion Hshape; subst. inversion Hent as [|? ? Hq12 ?]; subst.
      constructor; [|by apply IH].
      split; [lia|]. apply Z.divide_pos_le; [done|done].
Qed.

End pool_claims.

(** A layer for 8 x 8 feature maps in a network whose smallest map is
    1 x 1; the graph convolution doubles the channels, and the data are
    such that torch would reject every set of pooling indices it has to
    check.  On an 8 x 8 input with four channels the layer returns an
    8 x 8 map with eight. *)
Lemma pooled_graph_convolution_witness :
  pg_pool_size (mkPoolDyGraphConv 9 1 1 Conv2d [2; 2]%Z) = [2; 2]%Z ∧
  po_n
    (mkPoolGrapher 16 1 Conv2d [8; 8]%Z (mkPoolDyGraphConv 9 1 1 Conv2d [2; 2]%Z)
       0 [2; 2]%Z 16 (Some tt))
    = (product [8; 8] / product [2; 2])%Z ∧
  PoolDyGraphConv_forward
    (λ x _, match x with
            | [B; C; N; _] => Ok [B; 2 * C; N; 1]%Z
            | _ => Raise RuntimeError
            end)
    (λ _ _, false)
    (mkPoolDyGraphConv 9 1 1 Conv2d [2; 2]%Z) [1; 4; 8; 8]%Z
  = Ok [1; 4 + 4; 8; 8]%Z ∧
  ∃ nodes,
    (λ x (_ : option (list Z)),
       match x with
       | [B; C; N; _] => Ok [B; 2 * C; N; 1]%Z
       | _ => Raise RuntimeError
       end)
      [1; 4; product (zip_with Z.div [8; 8] [2; 2]); 1]%Z
      (pooled_y 1 1 4 (zip_with Z.div [8; 8] [2; 2])%Z)
    = Ok nodes ∧
    product nodes = (1 * (4 + 4) * product (zip_with Z.div [8; 8] [2; 2]))%Z.
Proof.
  destruct (pooled_graph_convolution (embedding := unit) (λ _ _ _ _, Ok tt)
           (λ x _, match x with
                   | [B; C; N; _] => Ok [B; 2 * C; N; 1]%Z
                   | _ => Raise RuntimeError
                   end)
           (λ _ _, false)
           9 1 "mr" 1 Conv2d [8; 8]%Z [1; 1]%Z
           (mkPoolDyGraphConv 9 1 1 Conv2d [2; 2]%Z) 16 64 0 true
           (mkPoolGrapher 16 1 Conv2d [8; 8]%Z (mkPoolDyGraphConv 9 1 1 Conv2d [2; 2]%Z)
              0 [2; 2]%Z 16 (Some tt)) eq_refl eq_refl)
    as (_ & _ & _ & _ & Hn & Hinv & _ & Hreturns).
  assert (PoolDyGraphConv_forward
            (λ x _, match x with
                    | [B; C; N; _] => Ok [B; 2 * C; N; 1]%Z
                    | _ => Raise RuntimeError
                    end)
            (λ _ _, false)
            (mkPoolDyGraphConv 9 1 1 Conv2d [2; 2]%Z) [1; 4; 8; 8]%Z
          = Ok [1; 4 + 4; 8; 8]%Z) as Hforward.
  { apply (Hreturns 1 4 [1; 8; 16; 1])%Z.
    - reflexivity.
    - discriminate.
    - discriminate.
    - repeat constructor.
    - intros Hr. exfalso. revert Hr. apply Z.lt_irrefl.
    - reflexivity.
    - reflexivity. }
  split; [reflexivity|]. split; [exact Hn|]. split; [exact Hforward|].
  destruct (Hinv _ _ Hforward) as (B & C & spatial & nodes & Hx & Hgraph & Hnodes & _).
  injection Hx as <- <- <-. exists nodes. split; [exact Hgraph|exact Hnodes].
Defined.

(** On an 8 x 8 input that layer returns an 8 x 8 map. *)
Example pooled_forward_example :
  ∀ indices_fit,
    PoolDyGraphConv_forward
      (λ x _, match x with
              | [B; C; N; _] => Ok [B; 2 * C; N; 1]%Z
              | _ => Raise RuntimeError
              end)
      indices_fit
      (mkPoolDyGraphConv 9 1 1 Conv2d [2; 2]%Z) [1; 4; 8; 8]%Z
    = Ok [1; 8; 8; 8]%Z.
Proof. reflexivity. Qed.

(** Claim C7 as stated fails on an input whose extents are odd where the
    layer pools by 2: the layer built for 8 x 8 maps pools a 7 x 7 input
    to 3 x 3 and unpools to the 6 x 6 plane, when the pooling indices fit
    it; it raises otherwise.  A 7 x 7 map is returned in neither case. *)
Lemma pooled_forward_odd_input :
  PoolDyGraphConv_init 9 1 "mr" 1 Conv2d (Some [8; 8]%Z) (Some [1; 1]%Z)
    = Ok (mkPoolDyGraphConv 9 1 1 Conv2d [2; 2]%Z) ∧
  ∀ indices_fit,
    PoolDyGraphConv_forward
      (λ x _, match x with
              | [B; C; N; _] => Ok [B; 2 * C; N; 1]%Z
              | _ => Raise RuntimeError
              end)
      indices_fit
      (mkPoolDyGraphConv 9 1 1 Conv2d [2; 2]%Z) [1; 4; 7; 7]%Z
    = if indices_fit [7; 7]%Z [2; 2]%Z then Ok [1; 8; 6; 6]%Z else Raise RuntimeError.
Proof. split; [reflexivity|]. intros indices_fit. reflexivity. Qed.

(** ** The choice of the neighbourhood sizes (claim C8) *)

Lemma foldl_min_by (key : Z → Z) l : ∀ x,
  let m := foldl (λ best y, if (key y <? key best)%Z then y else best) x l in
  m ∈ x :: l ∧ ∀ c, c ∈ x :: l → (key m <= key c)%Z.
Proof.
  induction l as [|y l IH]; intros x; simpl.
  - split; [by left|]. intros c ->%list_elem_of_singleton. lia.
  - destruct (IH (if (key y <? key x)%Z then y else x)) as [Hin Hmin].
    split.
    + apply elem_of_cons in Hin as [->|Hin].
      * destruct (key y <? key x)%Z; [right; left|left].
      * by do 2 right.
    + intros c Hc. apply elem_of_cons in Hc as [->|Hc].
      * etrans; [apply Hmin; left|]. destruct (Z.ltb_spec (key y) (key x)); lia.
      * apply elem_of_cons in Hc as [->|Hc].
        -- etrans; [apply Hmin; left|]. destruct (Z.ltb_spec (key y) (key x)); lia.
        -- apply Hmin. by right.
Qed.

Lemma min_by_Ok key l m :
  Py.min_by key l = Ok m → m ∈ l ∧ ∀ c, c ∈ l → (key m <= key c)%Z.
Proof.
  destruct l as [|x l]; [done|]. simpl. intros [= <-]. apply foldl_min_by.
Qed.

Lemma foldl_max l : ∀ x,
  foldl Z.max x l ∈ x :: l ∧ Forall (λ c, c <= foldl Z.max x l)%Z (x :: l).
Proof.
  induction l as [|y l IH]; intros x; simpl.
  - split; [by left|]. constructor; [lia|constructor].
  - destruct (IH (Z.max x y)) as [Hin Hmax]. split.
    + apply elem_of_cons in Hin as [->|Hin]; [|by do 2 right].
      destruct (Z.max_spec x y) as [[_ ->]|[_ ->]]; [right; left|left].
    + inversion Hmax as [|? ? Hxy Hl]; subst. constructor; [lia|].
      constructor; [lia|done].
Qed.

Lemma max_Ok l m : Py.max l = Ok m → m ∈ l ∧ Forall (λ c, c <= m)%Z l.
Proof.
  destruct l as [|x l]; [done|]. simpl. intros [= <-]. apply foldl_max.
Qed.

(** The list of neighbourhood sizes built from [min_k] and [max_k]. *)
Lemma k_list_entries (min_k max_k : Z) (n : nat) :
  let k_list :=
    if decide (5 ≤ n) then
      [Z.min min_k max_k; Z.min (min_k * 2) max_k; Z.min (min_k * 2) max_k;
       Z.min (min_k * 4) max_k; Z.min (min_k * 8) max_k]
      ++ replicate (n - 5) (Z.min (min_k * 16) max_k)
    else
      take n
        [Z.min min_k max_k; Z.min (min_k * 2) max_k; Z.min (min_k * 2) max_k;
         Z.min (min_k * 4) max_k; Z.min (min_k * 8) max_k] in
  length k_list = n ∧
  Forall (λ k, ∃ j : nat, k = Z.min (min_k * 2 ^ Z.of_nat j) max_k) k_list ∧
  Forall (λ k, k <= max_k)%Z k_list.
Proof.
  assert (Hfive : Forall (λ k, ∃ j : nat, k = Z.min (min_k * 2 ^ Z.of_nat j) max_k)
            [Z.min min_k max_k; Z.min (min_k * 2) max_k; Z.min (min_k * 2) max_k;
             Z.min (min_k * 4) max_k; Z.min (min_k * 8) max_k]).
  { repeat constructor.
    - exists 0. simpl. by rewrite Z.mul_1_r.
    - by exists 1.
    - by exists 1.
    - by exists 2.
    - by exists 3. }
  assert (Hsix : ∃ j : nat, Z.min (min_k * 16) max_k = Z.min (min_k * 2 ^ Z.of_nat j) max_k)
    by (by exists 4).
  assert (Hexp : ∀ l, Forall (λ k, ∃ j : nat, k = Z.min (min_k * 2 ^ Z.of_nat j) max_k) l →
                      Forall (λ k, k <= max_k)%Z l).
  { intros l Hl. eapply Forall_impl; [exact Hl|]. intros k [j ->]. lia. }
  cbv zeta. case_decide as Hn.
  - assert (Hall : Forall (λ k, ∃ j : nat, k = Z.min (min_k * 2 ^ Z.of_nat j) max_k)
              ([Z.min min_k max_k; Z.min (min_k * 2) max_k; Z.min (min_k * 2) max_k;
                Z.min (min_k * 4) max_k; Z.min (min_k * 8) max_k]
               ++ replicate (n - 5) (Z.min (min_k * 16) max_k))).
    { apply Forall_app. split; [done|]. by apply Forall_replicate. }
    split_and!; [|done|by apply Hexp].
    rewrite length_app, length_replicate. simpl. lia.
  - assert (Hall : Forall (λ k, ∃ j : nat, k = Z.min (min_k * 2 ^ Z.of_nat j) max_k)
              (take n
                 [Z.min min_k max_k; Z.min (min_k * 2) max_k; Z.min (min_k * 2) max_k;
                  Z.min (min_k * 4) max_k; Z.min (min_k * 8) max_k])).
    { by apply Forall_take. }
    split_and!; [|done|by apply Hexp].
    rewrite length_take. simpl. lia.
Qed.

(** The shared block that chooses the neighbourhood sizes. *)
Lemma knn_hyperparameters_Ok conv img_min_shape n max_k k_list max_dilation wn :
  knn_hyperparameters conv img_min_shape n = Ok (max_k, k_list, max_dilation, wn) →
  ∃ max_num min_k m,
    (conv = Conv2d ∧ length img_min_shape = 2 ∧
       max_num = (product img_min_shape / 2)%Z ∧ min_k = (max_num / (2 * 2))%Z
     ∨ conv = Conv3d ∧ length img_min_shape = 3 ∧
       max_num = (product img_min_shape / 3)%Z ∧ min_k = (max_num / (2 * 2 * 2))%Z) ∧
    max_k ∈ [2; 4; 8; 16; 32]%Z ∧
    (∀ c, c ∈ [2; 4; 8; 16; 32]%Z → Z.abs (max_k - max_num) <= Z.abs (c - max_num))%Z ∧
    length k_list = n ∧
    Forall (λ k, ∃ j : nat, k = Z.min (min_k * 2 ^ Z.of_nat j) max_k) k_list ∧
    Forall (λ k, k <= max_k)%Z k_list ∧
    m ∈ k_list ∧ Forall (λ k, k <= m)%Z k_list ∧
    m ≠ 0%Z ∧
    max_dilation = (product img_min_shape / m)%Z.
Proof.
  unfold knn_hyperparameters. intros H.
  destruct conv; try done.
  - destruct img_min_shape as [|H_min [|W_min [|? ?]]]; try done.
    cbn [Py.unpack2 mbind result_bind] in H.
    destruct (Py.min_by _ _) as [mk|] eqn:Emk; [|done]. cbn [mbind result_bind] in H.
    destruct (Py.max _) as [m|] eqn:Em; [|done]. cbn [mbind result_bind] in H.
    destruct (Py.floordiv _ m) as [md|] eqn:Emd; [|done]. cbn [mbind result_bind] in H.
    rewrite getitem_0, getitem_1 in H. cbn [mbind result_bind] in H.
    injection H as <- <- <- <-.
    apply min_by_Ok in Emk as [Hin Hmin]. apply max_Ok in Em as [Hmin' Hmax].
    apply floordiv_Ok in Emd as [Hm ->].
    destruct (k_list_entries (H_min * W_min / 2 / (2 * 2)) mk n) as (Hl & Hj & Hle).
    exists (H_min * W_min / 2)%Z, (H_min * W_min / 2 / (2 * 2))%Z, m.
    assert (product [H_min; W_min] = H_min * W_min)%Z as Hp by (simpl; lia).
    rewrite Hp. split_and!; try done. left. done.
  - destruct img_min_shape as [|H_min [|W_min [|D_min [|? ?]]]]; try done.
    cbn [Py.unpack3 mbind result_bind] in H.
    destruct (Py.min_by _ _) as [mk|] eqn:Emk; [|done]. cbn [mbind result_bind] in H.
    destruct (Py.max _) as [m|] eqn:Em; [|done]. cbn [mbind result_bind] in H.
    destruct (Py.floordiv _ m) as [md|] eqn:Emd; [|done]. cbn [mbind result_bind] in H.
    rewrite getitem_0, getitem_1, getitem_2 in H. cbn [mbind result_bind] in H.
    injection H as <- <- <- <-.
    apply min_by_Ok in Emk as [Hin Hmin]. apply max_Ok in Em as [Hmin' Hmax].
    apply floordiv_Ok in Emd as [Hm ->].
    destruct (k_list_entries (H_min * W_min * D_min / 3 / (2 * 2 * 2)) mk n) as (Hl & Hj & Hle).
    exists (H_min * W_min * D_min / 3)%Z, (H_min * W_min * D_min / 3 / (2 * 2 * 2))%Z, m.
    assert (product [H_min; W_min; D_min] = H_min * W_min * D_min)%Z as Hp by (simpl; lia).
    rewrite Hp. split_and!; try done. right. done.
Qed.

Lemma DyGraphConv_init_Ok k d conv r conv_op g :
  DyGraphConv_init k d conv r conv_op = Ok g → g = mkDyGraphConv k d r conv_op.
Proof.
  unfold DyGraphConv_init. destruct (GraphConv_init conv); [|done].
  cbn [mbind result_bind]. destruct conv_op; try done; by intros [= <-].
Qed.

Section knn_claims.
Context {embedding : Type}.
Variable relative_pos_tensor : conv_op → Z → Z → Z → result embedding.

Lemma SwinGrapher_init_Ok in_channels img_shape k d conv r n drop_path relative_pos
    conv_op window_size shift_size g :
  SwinGrapher_init relative_pos_tensor in_channels img_shape k d conv r n drop_path
    relative_pos conv_op window_size shift_size = Ok g →
  sw_graph_conv g = mkDyGraphConv k d r conv_op ∧
  sw_conv_op g = conv_op ∧ sw_r g = r ∧
  sw_window_size g = window_size ∧
  sw_n g = product window_size.
Proof.
  unfold SwinGrapher_init. intros H.
  destruct (DyGraphConv_init k d conv r conv_op) as [dg|] eqn:Edg; [|done].
  cbn [mbind result_bind] in H. apply DyGraphConv_init_Ok in Edg as ->.
  destruct (init_relative_pos _ _ _ _ _ _) as [rp|]; [|done].
  cbn [mbind result_bind] in H. injection H as <-. simpl.
  rewrite foldl_mul_product. split_and!; try done. lia.
Qed.

Lemma idx_list_lookup (n_here sum_blocks j idx : Z) :
  Py.getitem ((λ k, k + sum_blocks)%Z <$> Py.range n_here) j = Ok idx →
  j ∈ Py.range n_here → idx = (j + sum_blocks)%Z.
Proof.
  intros (i & Hi & Hidx)%getitem_Ok Hj.
  apply list_elem_of_lookup in Hj as [i' Hi']. apply range_lookup in Hi' as ->.
  destruct (Z.ltb_spec (Z.of_nat i') 0); [lia|]. apply Nat2Z.inj in Hidx as ->.
  rewrite list_lookup_fmap in Hi.
  destruct (Py.range n_here !! i') as [s|] eqn:Es; [|done].
  apply range_lookup in Es as ->. by injection Hi as <-.
Qed.

Lemma SwinGNNBlocks_init_Ok channels img_shape index opt conv_op sb :
  SwinGNNBlocks_init relative_pos_tensor channels img_shape index opt conv_op = Ok sb →
  ∃ ims max_k k_list max_dilation wn n_here,
    img_min_shape opt = Some ims ∧
    knn_hyperparameters conv_op ims (pool_op_kernel_sizes_len opt)
      = Ok (max_k, k_list, max_dilation, wn) ∧
    Py.getitem (blocks opt) index = Ok n_here ∧
    swin_n_blocks sb = Py.sum (blocks opt) ∧
    length (swin_blocks sb) = Z.to_nat n_here ∧
    ∀ (j : nat) g f, swin_blocks sb !! j = Some (g, f) →
      dg_d (sw_graph_conv g) =
        Z.min ((Z.of_nat j + Py.sum (Py.slice_to (blocks opt) index)) / 4 + 1)
              max_dilation ∧
      Py.getitem k_list index = Ok (dg_k (sw_graph_conv g)).
Proof.
  unfold SwinGNNBlocks_init. intros H.
  destruct (n_size_list opt) as [nsl|]; [|done].
  destruct (img_min_shape opt) as [ims|]; [|done].
  cbn [getattr mbind result_bind] in H.
  destruct (linspace _ _) as [dpr|]; [|done]. cbn [mbind result_bind] in H.
  destruct (Py.getitem (blocks opt) index) as [n_here|] eqn:En; [|done].
  cbn [mbind result_bind] in H.
  destruct (knn_hyperparameters _ _ _) as [[[[max_k k_list] max_dilation] wn]|] eqn:Ek;
    [|done].
  cbn [mbind result_bind] in H.
  destruct (mapM _ _) as [bs|] eqn:Ebs; [|done]. cbn [mbind result_bind] in H.
  injection H as <-. simpl. apply mapM_Ok in Ebs.
  exists ims, max_k, k_list, max_dilation, wn, n_here. split_and!; try done.
  - rewrite <- (Forall2_length _ _ _ Ebs). apply length_seqZ.
  - intros j g f Hj.
    destruct (Forall2_lookup_r _ _ _ _ _ Ebs Hj) as (s & Hs & Hblock).
    pose proof (list_elem_of_lookup_2 _ _ _ Hs) as Hin.
    apply range_lookup in Hs as ->. invert_result.
    apply idx_list_lookup in E; [|done]. subst.
    apply SwinGrapher_init_Ok in E3 as (-> & _). simpl. done.
Qed.

Lemma PoolGNNBlocks_init_Ok channels img_shape index stage_num opt conv_op pb :
  PoolGNNBlocks_init relative_pos_tensor channels img_shape index stage_num opt conv_op
    = Ok pb →
  ∃ ims max_k k_list max_dilation wn n_here,
    img_min_shape opt = Some ims ∧
    knn_hyperparameters conv_op ims (pool_op_kernel_sizes_len opt)
      = Ok (max_k, k_list, max_dilation, wn) ∧
    Py.getitem (blocks opt) index = Ok n_here ∧
    pool_n_blocks pb = Py.sum (blocks opt) ∧
    length (pool_blocks pb) = Z.to_nat n_here ∧
    ∀ (j : nat) g f, pool_blocks pb !! j = Some (g, f) →
      pg_d (po_graph_conv g) =
        Z.min ((Z.of_nat j + Py.sum (Py.slice_to (blocks opt) index)) / 4 + 1)
              max_dilation ∧
      Py.getitem k_list (index + stage_num) = Ok (pg_k (po_graph_conv g)).
Proof.
  unfold PoolGNNBlocks_init. intros H.
  destruct (n_size_list opt) as [nsl|]; [|done].
  destruct (img_min_shape opt) as [ims|]; [|done].
  cbn [getattr mbind result_bind] in H.
  destruct (linspace _ _) as [dpr|]; [|done]. cbn [mbind result_bind] in H.
  destruct (Py.getitem (blocks opt) index) as [n_here|] eqn:En; [|done].
  cbn [mbind result_bind] in H.
  destruct (knn_hyperparameters _ _ _) as [[[[max_k k_list] max_dilation] wn]|] eqn:Ek;
    [|done].
  cbn [mbind result_bind] in H.
  destruct (mapM _ _) as [bs|] eqn:Ebs; [|done]. cbn [mbind result_bind] in H.
  injection H as <-. simpl. apply mapM_Ok in Ebs.
  exists ims, max_k, k_list, max_dilation, wn, n_here. split_and!; try done.
  - rewrite <- (Forall2_length _ _ _ Ebs). apply length_seqZ.
  - intros j g f Hj.
    destruct (Forall2_lookup_r _ _ _ _ _ Ebs Hj) as (s & Hs & Hblock).
    pose proof (list_elem_of_lookup_2 _ _ _ Hs) as Hin.
    apply range_lookup in Hs as ->. invert_result.
    apply idx_list_lookup in E; [|done]. subst.
    apply PoolGrapher_init_Ok in E5 as (shp_min & _ & _ & _ & _ & -> & _). simpl. done.
Qed.

(** Claim C8: [SwinGNNBlocks.__init__] and [PoolGNNBlocks.__init__] each
    choose, whenever they return, [max_k] as an element of
    [2, 4, 8, 16, 32] closest to [max_num], which is
    [prod(img_min_shape) // 2] for a 2-d and [// 3] for a 3-d convolution;
    [k_list] has exactly [pool_op_kernel_sizes_len] entries, each of them
    [min(min_k * 2^j, max_k)] for some [j] and so at most [max_k]; and the
    stage holds [blocks_num_list[index]] blocks, the [j]-th of them a
    [SwinGrapher] (a [PoolGrapher]) constructed with the dilation
    [min(idx // 4 + 1, max_dilation)], where [idx] is [j] plus the number
    of blocks of the stages before and
    [max_dilation = prod(img_min_shape) // max(k_list)], and with the
    neighbourhood size [k_list[index]] ([k_list[index + stage_num]]). *)
Theorem knn_parameter_selection opt conv_op :
  (∀ channels img_shape index sb,
     SwinGNNBlocks_init relative_pos_tensor channels img_shape index opt conv_op = Ok sb →
     ∃ img_min_shape' max_num min_k max_k k_list m max_dilation window_size_n n_here,
       img_min_shape opt = Some img_min_shape' ∧
       knn_hyperparameters conv_op img_min_shape' (pool_op_kernel_sizes_len opt)
         = Ok (max_k, k_list, max_dilation, window_size_n) ∧
       (conv_op = Conv2d ∧ max_num = (product img_min_shape' / 2)%Z ∧
          min_k = (max_num / (2 * 2))%Z
        ∨ conv_op = Conv3d ∧ max_num = (product img_min_shape' / 3)%Z ∧
          min_k = (max_num / (2 * 2 * 2))%Z) ∧
       (* max_k is a candidate closest to max_num *)
       max_k ∈ [2; 4; 8; 16; 32]%Z ∧
       (∀ c, c ∈ [2; 4; 8; 16; 32]%Z →
             Z.abs (max_k - max_num) <= Z.abs (c - max_num))%Z ∧
       (* k_list *)
       length k_list = pool_op_kernel_sizes_len opt ∧
       Forall (λ k, ∃ j : nat, k = Z.min (min_k * 2 ^ Z.of_nat j) max_k) k_list ∧
       Forall (λ k, k <= max_k)%Z k_list ∧
       (* max_dilation *)
       m ∈ k_list ∧ Forall (λ k, k <= m)%Z k_list ∧
       max_dilation = (product img_min_shape' / m)%Z ∧
       (* the blocks of the stage *)
       Py.getitem (blocks opt) index = Ok n_here ∧
       swin_n_blocks sb = Py.sum (blocks opt) ∧
       length (swin_blocks sb) = Z.to_nat n_here ∧
       (* the dilation and the neighbourhood size of every block, idx being
          its position among all blocks *)
       (∀ (j : nat) g f, swin_blocks sb !! j = Some (g, f) →
          dg_d (sw_graph_conv g) =
          Z.min ((Z.of_nat j + Py.sum (Py.slice_to (blocks opt) index)) / 4 + 1)
                max_dilation ∧
          Py.getitem k_list index = Ok (dg_k (sw_graph_conv g)))) ∧
  (∀ channels img_shape index stage_num pb,
     PoolGNNBlocks_init relative_pos_tensor channels img_shape index stage_num opt
       conv_op = Ok pb →
     ∃ img_min_shape' max_num min_k max_k k_list m max_dilation window_size_n n_here,
       img_min_shape opt = Some img_min_shape' ∧
       knn_hyperparameters conv_op img_min_shape' (pool_op_kernel_sizes_len opt)
         = Ok (max_k, k_list, max_dilation, window_size_n) ∧
       (conv_op = Conv2d ∧ max_num = (product img_min_shape' / 2)%Z ∧
          min_k = (max_num / (2 * 2))%Z
        ∨ conv_op = Conv3d ∧ max_num = (product img_min_shape' / 3)%Z ∧
          min_k = (max_num / (2 * 2 * 2))%Z) ∧
       max_k ∈ [2; 4; 8; 16; 32]%Z ∧
       (∀ c, c ∈ [2; 4; 8; 16; 32]%Z →
             Z.abs (max_k - max_num) <= Z.abs (c - max_num))%Z ∧
       length k_list = pool_op_kernel_sizes_len opt ∧
       Forall (λ k, ∃ j : nat, k = Z.min (min_k * 2 ^ Z.of_nat j) max_k) k_list ∧
       Forall (λ k, k <= max_k)%Z k_list ∧
       m ∈ k_list ∧ Forall (λ k, k <= m)%Z k_list ∧
       max_dilation = (product img_min_shape' / m)%Z ∧
       Py.getitem (blocks opt) index = Ok n_here ∧
       pool_n_blocks pb = Py.sum (blocks opt) ∧
       length (pool_blocks pb) = Z.to_nat n_here ∧
       (∀ (j : nat) g f, pool_blocks pb !! j = Some (g, f) →
          pg_d (po_graph_conv g) =
          Z.min ((Z.of_nat j + Py.sum (Py.slice_to (blocks opt) index)) / 4 + 1)
                max_dilation ∧
          Py.getitem k_list (index + stage_num) = Ok (pg_k (po_graph_conv g)))).
Proof.
  split.
  - intros channels img_shape index sb Hsb.
    apply SwinGNNBlocks_init_Ok in Hsb
      as (ims & max_k & k_list & md & wn & n_here & Hims & Hk & Hn & Hsum & Hlen & Hs).
    destruct (knn_hyperparameters_Ok _ _ _ _ _ _ _ Hk)
      as (max_num & min_k & m & Hconv & Hin & Hclose & Hl & Hj & Hle & Hm & Hmax & _ & Hmd).
    exists ims, max_num, min_k, max_k, k_list, m, md, wn, n_here.
    split_and!; try done.
    destruct Hconv as [(? & _ & ? & ?)|(? & _ & ? & ?)]; [left|right]; done.
  - intros channels img_shape index stage_num pb Hpb.
    apply PoolGNNBlocks_init_Ok in Hpb
      as (ims & max_k & k_list & md & wn & n_here & Hims & Hk & Hn & Hsum & Hlen & Hp).
    destruct (knn_hyperparameters_Ok _ _ _ _ _ _ _ Hk)
      as (max_num & min_k & m & Hconv & Hin & Hclose & Hl & Hj & Hle & Hm & Hmax & _ & Hmd).
    exists ims, max_num, min_k, max_k, k_list, m, md, wn, n_here.
    split_and!; try done.
    destruct Hconv as [(? & _ & ? & ?)|(? & _ & ? & ?)]; [left|right]; done.
Qed.

End knn_claims.

(** The blocks of the second stage of [example_encoder]: 32 x 32 feature
    maps, the smallest map being 4 x 4.  Both constructors return, with
    [max_num = 8], [max_k = 8], [min_k = 2], the neighbourhood sizes
    [2, 4, 4, 8, 8], the largest dilation [16 // 8], and one block each, of
    the dilation 1 and the neighbourhood size 2 (at [index = 0]) or 4 (at
    [index + stage_num = 1]). *)
Lemma knn_parameter_selection_witness :
  ∃ sb pb,
    SwinGNNBlocks_init (embedding := unit) (λ _ _ _ _, Ok tt) 64 [32; 32]%Z 0
      (stage_options 5 [4; 4]%Z [4096; 1024; 256; 64; 16]%Z) Conv2d = Ok sb ∧
    PoolGNNBlocks_init (embedding := unit) (λ _ _ _ _, Ok tt) 64 [32; 32]%Z 0 1
      (stage_options 5 [4; 4]%Z [4096; 1024; 256; 64; 16]%Z) Conv2d = Ok pb ∧
    (∃ m,
       knn_hyperparameters Conv2d [4; 4]%Z 5 = Ok (8, [2; 4; 4; 8; 8], 2, 16)%Z ∧
       (8 = product [4; 4] / 2)%Z ∧ (2 = 8 / (2 * 2))%Z ∧
       (8 ∈ [2; 4; 8; 16; 32])%Z ∧
       (∀ c, c ∈ [2; 4; 8; 16; 32]%Z → Z.abs (8 - 8) <= Z.abs (c - 8))%Z ∧
       Forall (λ k, ∃ j : nat, k = Z.min (2 * 2 ^ Z.of_nat j) 8) [2; 4; 4; 8; 8]%Z ∧
       Forall (λ k, k <= 8)%Z [2; 4; 4; 8; 8]%Z ∧
       m ∈ [2; 4; 4; 8; 8]%Z ∧ Forall (λ k, k <= m)%Z [2; 4; 4; 8; 8]%Z ∧
       (2 = product [4; 4] / m)%Z) ∧
    length (swin_blocks sb) = 1 ∧
    (∀ (j : nat) g f, swin_blocks sb !! j = Some (g, f) →
       dg_d (sw_graph_conv g) = Z.min ((Z.of_nat j + 0) / 4 + 1) 2 ∧
       dg_k (sw_graph_conv g) = 2%Z) ∧
    length (pool_blocks pb) = 1 ∧
    (∀ (j : nat) g f, pool_blocks pb !! j = Some (g, f) →
       pg_d (po_graph_conv g) = Z.min ((Z.of_nat j + 0) / 4 + 1) 2 ∧
       pg_k (po_graph_conv g) = 4%Z).
Proof.
  eexists _, _. split; [vm_compute; reflexivity|]. split; [vm_compute; reflexivity|].
  match goal with
  | |- _ ∧ length (swin_blocks ?sb) = _ ∧ _ ∧ length (pool_blocks ?pb) = _ ∧ _ =>
      destruct (proj1 (knn_parameter_selection (λ _ _ _ _, Ok tt)
                         (stage_options 5 [4; 4]%Z [4096; 1024; 256; 64; 16]%Z) Conv2d)
                  64%Z [32; 32]%Z 0%Z sb eq_refl)
        as (ims & max_num & min_k & max_k & k_list & m & md & wn & n_here
            & Hims & Hk & Hconv & Hin & Hclose & Hl & Hj & Hle & Hm & Hmax & Hmd
            & Hn & _ & Hlen & Hs);
      destruct (proj2 (knn_parameter_selection (λ _ _ _ _, Ok tt)
                         (stage_options 5 [4; 4]%Z [4096; 1024; 256; 64; 16]%Z) Conv2d)
                  64%Z [32; 32]%Z 0%Z 1%Z pb eq_refl)
        as (ims' & max_num' & min_k' & max_k' & k_list' & m' & md' & wn' & n_here'
            & Hims' & Hk' & _ & _ & _ & _ & _ & _ & _ & _ & _
            & Hn' & _ & Hlen' & Hp)
  end.
  injection Hims as <-. injection Hims' as <-.
  injection Hk as <- <- <- <-. injection Hk' as <- <- <- <-.
  injection Hn as <-. injection Hn' as <-.
  destruct Hconv as [(_ & -> & ->)|(Hc & _)]; [|discriminate Hc].
  split.
  { exists m. split; [reflexivity|]. split; [reflexivity|]. split; [reflexivity|].
    split; [exact Hin|]. split; [exact Hclose|]. split; [exact Hj|].
    split; [exact Hle|]. split; [exact Hm|]. split; [exact Hmax|exact Hmd]. }
  split; [exact Hlen|]. split.
  { intros j g f Hg. destruct (Hs j g f Hg) as [Hd Hkg]. split; [exact Hd|].
    injection Hkg as <-. reflexivity. }
  split; [exact Hlen'|].
  intros j g f Hg. destruct (Hp j g f Hg) as [Hd Hkg]. split; [exact Hd|].
  injection Hkg as <-. reflexivity.
Defined.

(** The neighbourhood sizes of that network: [max_num] is 8, [max_k] is 8,
    [min_k] is 2, and the largest dilation is 16 // 8. *)
Example knn_hyperparameters_example :
  knn_hyperparameters Conv2d [4; 4]%Z 5 = Ok (8, [2; 4; 4; 8; 8], 2, 16)%Z.
Proof. reflexivity. Qed.

(** ** The relative position embedding (claim C9) *)

Lemma pow_dims_2d r : (r ^ Z.of_nat (spatial_dims Conv2d) = r * r)%Z.
Proof. change (r ^ 2 = r * r)%Z. lia. Qed.

Lemma pow_dims_3d r : (r ^ Z.of_nat (spatial_dims Conv3d) = r * r * r)%Z.
Proof. change (r ^ 3 = r * r * r)%Z. lia. Qed.

Section relative_pos_claims.
Context {embedding : Type}.
Variable interpolate_bicubic : embedding → Z * Z → result embedding.

Lemma Grapher_get_relative_pos_behaviour (self : Grapher) :
  relative_pos_behaviour interpolate_bicubic (gr_conv_op self) (gr_n self) (gr_r self)
    (Grapher_get_relative_pos interpolate_bicubic self).
Proof.
  unfold relative_pos_behaviour, Grapher_get_relative_pos. split_and!.
  - intros rp st Hc Hl Hrp.
    destruct Hc as [Hc|Hc]; rewrite Hc in *; simpl in Hl.
    + destruct st as [|H [|W [|? ?]]]; try done. simpl in Hrp.
      cbn [Py.unpack2 mbind result_bind]. destruct rp as [e|]; [|done].
      destruct Hrp as [|Hn]; [done|]. rewrite Z.mul_1_r in Hn.
      by rewrite Hn, Z.eqb_refl.
    + destruct st as [|H [|W [|D [|? ?]]]]; try done. simpl in Hrp.
      cbn [Py.unpack3 mbind result_bind]. destruct rp as [e|]; [|done].
      destruct Hrp as [|Hn]; [done|]. rewrite Z.mul_1_r, Z.mul_assoc in Hn.
      by rewrite Hn, Z.eqb_refl.
  - intros e st Hc Hl Hn Hr.
    destruct Hc as [Hc|Hc]; rewrite Hc in *; simpl in Hl.
    + destruct st as [|H [|W [|? ?]]]; try done. rewrite pow_dims_2d.
      simpl in Hn |- *. rewrite Z.mul_1_r in Hn |- *.
      destruct (Z.eqb_spec (H * W) (gr_n self)); [done|].
      unfold Py.floordiv. destruct (Z.eqb_spec (gr_r self * gr_r self) 0); [lia|].
      done.
    + destruct st as [|H [|W [|D [|? ?]]]]; try done. rewrite pow_dims_3d.
      simpl in Hn |- *. rewrite Z.mul_1_r, Z.mul_assoc in Hn |- *.
      destruct (Z.eqb_spec (H * W * D) (gr_n self)); [done|].
      unfold Py.floordiv.
      destruct (Z.eqb_spec (gr_r self * gr_r self * gr_r self) 0); [lia|].
      done.
  - intros rp st H2 H3. by destruct (gr_conv_op self).
Qed.

Lemma SwinGrapher_get_relative_pos_behaviour (self : SwinGrapher) :
  relative_pos_behaviour interpolate_bicubic (sw_conv_op self) (sw_n self) (sw_r self)
    (SwinGrapher_get_relative_pos interpolate_bicubic self).
Proof.
  unfold relative_pos_behaviour, SwinGrapher_get_relative_pos. split_and!.
  - intros rp st Hc Hl Hrp.
    destruct Hc as [Hc|Hc]; rewrite Hc in *; simpl in Hl.
    + destruct st as [|H [|W [|? ?]]]; try done. simpl in Hrp.
      cbn [Py.unpack2 mbind result_bind]. destruct rp as [e|]; [|done].
      destruct Hrp as [|Hn]; [done|]. rewrite Z.mul_1_r in Hn.
      by rewrite Hn, Z.eqb_refl.
    + destruct st as [|H [|W [|D [|? ?]]]]; try done. simpl in Hrp.
      cbn [Py.unpack3 mbind result_bind]. destruct rp as [e|]; [|done].
      destruct Hrp as [|Hn]; [done|]. rewrite Z.mul_1_r, Z.mul_assoc in Hn.
      by rewrite Hn, Z.eqb_refl.
  - intros e st Hc Hl Hn Hr.
    destruct Hc as [Hc|Hc]; rewrite Hc in *; simpl in Hl.
    + destruct st as [|H [|W [|? ?]]]; try done. rewrite pow_dims_2d.
      simpl in Hn |- *. rewrite Z.mul_1_r in Hn |- *.
      destruct (Z.eqb_spec (H * W) (sw_n self)); [done|].
      unfold Py.floordiv. destruct (Z.eqb_spec (sw_r self * sw_r self) 0); [lia|].
      done.
    + destruct st as [|H [|W [|D [|? ?]]]]; try done. rewrite pow_dims_3d.
      simpl in Hn |- *. rewrite Z.mul_1_r, Z.mul_assoc in Hn |- *.
      destruct (Z.eqb_spec (H * W * D) (sw_n self)); [done|].
      unfold Py.floordiv.
      destruct (Z.eqb_spec (sw_r self * sw_r self * sw_r self) 0); [lia|].
      done.
  - intros rp st H2 H3. by destruct (sw_conv_op self).
Qed.

Lemma PoolGrapher_get_relative_pos_behaviour (self : PoolGrapher) :
  relative_pos_behaviour interpolate_bicubic (po_conv_op self) (po_n self) (po_r self)
    (PoolGrapher_get_relative_pos interpolate_bicubic self).
Proof.
  unfold relative_pos_behaviour, PoolGrapher_get_relative_pos. split_and!.
  - intros rp st Hc Hl Hrp.
    destruct Hc as [Hc|Hc]; rewrite Hc in *; simpl in Hl.
    + destruct st as [|H [|W [|? ?]]]; try done. simpl in Hrp.
      cbn [Py.unpack2 mbind result_bind]. destruct rp as [e|]; [|done].
      destruct Hrp as [|Hn]; [done|]. rewrite Z.mul_1_r in Hn.
      by rewrite Hn, Z.eqb_refl.
    + destruct st as [|H [|W [|D [|? ?]]]]; try done. simpl in Hrp.
      cbn [Py.unpack3 mbind result_bind]. destruct rp as [e|]; [|done].
      destruct Hrp as [|Hn]; [done|]. rewrite Z.mul_1_r, Z.mul_assoc in Hn.
      by rewrite Hn, Z.eqb_refl.
  - intros e st Hc Hl Hn Hr.
    destruct Hc as [Hc|Hc]; rewrite Hc in *; simpl in Hl.
    + destruct st as [|H [|W [|? ?]]]; try done. rewrite pow_dims_2d.
      simpl in Hn |- *. rewrite Z.mul_1_r in Hn |- *.
      destruct (Z.eqb_spec (H * W) (po_n self)); [done|].
      unfold Py.floordiv. destruct (Z.eqb_spec (po_r self * po_r self) 0); [lia|].
      done.
    + destruct st as [|H [|W [|D [|? ?]]]]; try done. rewrite pow_dims_3d.
      simpl in Hn |- *. rewrite Z.mul_1_r, Z.mul_assoc in Hn |- *.
      destruct (Z.eqb_spec (H * W * D) (po_n self)); [done|].
      unfold Py.floordiv.
      destruct (Z.eqb_spec (po_r self * po_r self * po_r self) 0); [lia|].
      done.
  - intros rp st H2 H3. by destruct (po_conv_op self).
Qed.

(** Claim C9: [Grapher._get_relative_pos], [SwinGrapher._get_relative_pos]
    and [PoolGrapher._get_relative_pos] return the stored embedding
    unchanged whenever it is [None] or the product of the given spatial
    extents equals [self.n]; otherwise they interpolate it bicubically to
    the size [(N, N // r^d)], [N] being that product and [d] the number of
    spatial dimensions; for a convolution that is neither 2-d nor 3-d they
    raise [NotImplementedError]. *)
Theorem relative_pos_is_interpolated_conditionally
    (grapher : Grapher) (swin : SwinGrapher) (pool : PoolGrapher) :
  relative_pos_behaviour interpolate_bicubic (gr_conv_op grapher) (gr_n grapher) (gr_r grapher)
    (Grapher_get_relative_pos interpolate_bicubic grapher) ∧
  relative_pos_behaviour interpolate_bicubic (sw_conv_op swin) (sw_n swin) (sw_r swin)
    (SwinGrapher_get_relative_pos interpolate_bicubic swin) ∧
  relative_pos_behaviour interpolate_bicubic (po_conv_op pool) (po_n pool) (po_r pool)
    (PoolGrapher_get_relative_pos interpolate_bicubic pool).
Proof.
  split_and!.
  - apply Grapher_get_relative_pos_behaviour.
  - apply SwinGrapher_get_relative_pos_behaviour.
  - apply PoolGrapher_get_relative_pos_behaviour.
Qed.

End relative_pos_claims.

(** A window of 4 x 4 nodes: the embedding stored for 16 nodes is returned
    as it is; on a window of 2 x 4 nodes it is interpolated to 8 x 8. *)
Example SwinGrapher_get_relative_pos_example :
  SwinGrapher_get_relative_pos (λ _ size, Ok [size.1; size.2])
    (mkSwinGrapher 32 1 Conv2d [32; 32]%Z [4; 4]%Z [2; 2]%Z
       (mkDyGraphConv 4 1 1 Conv2d) 0 16 (Some [16; 16]%Z))
    (Some [16; 16]%Z) [4; 4]%Z = Ok (Some [16; 16]%Z) ∧
  SwinGrapher_get_relative_pos (λ _ size, Ok [size.1; size.2])
    (mkSwinGrapher 32 1 Conv2d [32; 32]%Z [4; 4]%Z [2; 2]%Z
       (mkDyGraphConv 4 1 1 Conv2d) 0 16 (Some [16; 16]%Z))
    (Some [16; 16]%Z) [2; 4]%Z = Ok (Some [8; 8]%Z).
Proof. split; reflexivity. Qed.

(** ** The trainer (claim C10) *)

Lemma mapping_NexToU : mapping !! segmentation_network_class_name = Some NexToU.
Proof. reflexivity. Qed.

Lemma class_name_assertion_Ok : class_name_assertion = Ok tt.
Proof.
  unfold class_name_assertion. rewrite bool_decide_eq_true_2; [done|].
  apply elem_of_dom. rewrite mapping_NexToU. by eexists.
Qed.

Lemma getitem_nat_Ok {A} (l : list A) (j : nat) v :
  Py.getitem l (Z.of_nat j) = Ok v → l !! j = Some v.
Proof.
  intros (i & Hi & Hj)%getitem_Ok.
  destruct (Z.ltb_spec (Z.of_nat j) 0); [lia|]. apply Nat2Z.inj in Hj as ->. done.
Qed.

Lemma getitem_0_Raise {A} (l : list A) e :
  Py.getitem l 0 = Raise e → l = [] ∧ e = IndexError.
Proof. destruct l as [|x l]; [|done]. by intros [= <-]. Qed.

Section trainer_claims.
Context {net_state label_manager : Type}.
Variable convert_dim_to_conv_op : Z → result conv_op.
Variable get_matching_batchnorm : conv_op → result unit.
Variable get_label_manager : result label_manager.
Variable num_segmentation_heads : label_manager → result Z.
Variable construct : network_class → network_kwargs → result net_state.
Variable apply_init : string → net_state → result net_state.

(** Claim C10: [build_network_architecture] sets the class name to the
    literal ['NexToU'] whatever [architecture_class_name] is; ['NexToU'] is
    a key of [mapping], so the assertion passes on every input, and a model
    that is returned is an instance of [NexToU].  The method is the
    program that is left when the assertion and the look-up in [mapping]
    are taken out and [NexToU] is constructed: an error of the method is
    the [IndexError] of a plan without kernel sizes or an error of a
    function it calls, never the assertion's; and when there are kernel
    sizes and those functions return, the method returns a [NexToU]. *)
Theorem network_class_is_NexToU (cm : ConfigurationManager)
    (architecture_class_name : string) (num_input_channels num_output_channels : Z)
    (enable_deep_supervision : bool) :
  segmentation_network_class_name = "NexToU" ∧
  (∀ other_name,
     build_network_architecture convert_dim_to_conv_op get_matching_batchnorm
       get_label_manager num_segmentation_heads construct apply_init cm
       architecture_class_name num_input_channels num_output_channels
       enable_deep_supervision =
     build_network_architecture convert_dim_to_conv_op get_matching_batchnorm
       get_label_manager num_segmentation_heads construct apply_init cm
       other_name num_input_channels num_output_channels
       enable_deep_supervision) ∧
  segmentation_network_class_name ∈ dom mapping ∧
  class_name_assertion = Ok tt ∧
  dict_getitem mapping segmentation_network_class_name = Ok NexToU ∧
  (∀ m,
     build_network_architecture convert_dim_to_conv_op get_matching_batchnorm
       get_label_manager num_segmentation_heads construct apply_init cm
       architecture_class_name num_input_channels num_output_channels
       enable_deep_supervision = Ok m →
     model_class m = NexToU) ∧
  (* the method without the assertion and the look-up *)
  build_network_architecture convert_dim_to_conv_op get_matching_batchnorm
    get_label_manager num_segmentation_heads construct apply_init cm
    architecture_class_name num_input_channels num_output_channels
    enable_deep_supervision =
  (k0 ← Py.getitem (cm_conv_kernel_sizes cm) 0;
   conv_op ← convert_dim_to_conv_op (len k0);
   label_manager ← get_label_manager;
   _ ← get_matching_batchnorm conv_op;
   _ ← get_matching_batchnorm conv_op;
   _ ← get_matching_batchnorm conv_op;
   heads ← num_segmentation_heads label_manager;
   st ← construct NexToU
          (mkNetworkKwargs num_input_channels (cm_patch_size cm) (cm_n_stages cm)
             ((λ i, Z.min (cm_UNet_base_num_features cm * 2 ^ i)
                      (cm_unet_max_num_features cm))
                <$> Py.range (cm_n_stages cm))
             conv_op (cm_conv_kernel_sizes cm) (cm_pool_op_kernel_sizes cm) heads
             enable_deep_supervision (cm_n_blocks_per_stage cm)
             (cm_n_conv_per_stage_decoder cm) true);
   st ← apply_init "InitWeights_He" st;
   Ok (mkModel NexToU st)) ∧
  (* where an error of the method comes from *)
  (∀ e,
     build_network_architecture convert_dim_to_conv_op get_matching_batchnorm
       get_label_manager num_segmentation_heads construct apply_init cm
       architecture_class_name num_input_channels num_output_channels
       enable_deep_supervision = Raise e →
     (cm_conv_kernel_sizes cm = [] ∧ e = IndexError) ∨
     (∃ k0, cm_conv_kernel_sizes cm !! 0 = Some k0 ∧
            convert_dim_to_conv_op (len k0) = Raise e) ∨
     get_label_manager = Raise e ∨
     (∃ conv_op, get_matching_batchnorm conv_op = Raise e) ∨
     (∃ label_manager, num_segmentation_heads label_manager = Raise e) ∨
     (∃ kw, construct NexToU kw = Raise e) ∨
     (∃ st, apply_init "InitWeights_He" st = Raise e)) ∧
  (* the method returns when the functions it calls do *)
  (cm_conv_kernel_sizes cm ≠ [] →
   (∀ dim, ∃ conv_op, convert_dim_to_conv_op dim = Ok conv_op) →
   (∃ label_manager, get_label_manager = Ok label_manager) →
   (∀ conv_op, get_matching_batchnorm conv_op = Ok tt) →
   (∀ label_manager, ∃ heads, num_segmentation_heads label_manager = Ok heads) →
   (∀ kw, ∃ st, construct NexToU kw = Ok st) →
   (∀ st, ∃ st', apply_init "InitWeights_He" st = Ok st') →
   ∃ m,
     build_network_architecture convert_dim_to_conv_op get_matching_batchnorm
       get_label_manager num_segmentation_heads construct apply_init cm
       architecture_class_name num_input_channels num_output_channels
       enable_deep_supervision = Ok m ∧
     model_class m = NexToU).
Proof.
  assert (Hprogram :
    build_network_architecture convert_dim_to_conv_op get_matching_batchnorm
      get_label_manager num_segmentation_heads construct apply_init cm
      architecture_class_name num_input_channels num_output_channels
      enable_deep_supervision =
    (k0 ← Py.getitem (cm_conv_kernel_sizes cm) 0;
     conv_op ← convert_dim_to_conv_op (len k0);
     label_manager ← get_label_manager;
     _ ← get_matching_batchnorm conv_op;
     _ ← get_matching_batchnorm conv_op;
     _ ← get_matching_batchnorm conv_op;
     heads ← num_segmentation_heads label_manager;
     st ← construct NexToU
            (mkNetworkKwargs num_input_channels (cm_patch_size cm) (cm_n_stages cm)
               ((λ i, Z.min (cm_UNet_base_num_features cm * 2 ^ i)
                        (cm_unet_max_num_features cm))
                  <$> Py.range (cm_n_stages cm))
               conv_op (cm_conv_kernel_sizes cm) (cm_pool_op_kernel_sizes cm) heads
               enable_deep_supervision (cm_n_blocks_per_stage cm)
               (cm_n_conv_per_stage_decoder cm) true);
     st ← apply_init "InitWeights_He" st;
     Ok (mkModel NexToU st))).
  { unfold build_network_architecture.
    destruct (Py.getitem (cm_conv_kernel_sizes cm) 0) as [k0|]; [|done].
    cbn [mbind result_bind].
    destruct (convert_dim_to_conv_op (len k0)) as [cop|]; [|done].
    cbn [mbind result_bind].
    destruct get_label_manager as [lm|]; [|done]. cbn [mbind result_bind].
    destruct (get_matching_batchnorm cop) as [[]|]; [|done]. cbn [mbind result_bind].
    rewrite class_name_assertion_Ok. cbn [mbind result_bind].
    unfold dict_getitem. rewrite mapping_NexToU. cbn [mbind result_bind].
    destruct (num_segmentation_heads lm) as [heads|]; [|done]. cbn [mbind result_bind].
    destruct (construct NexToU _) as [st|]; [|done]. cbn [mbind result_bind].
    destruct (apply_init "InitWeights_He" st) as [st'|]; [|done].
    cbn [mbind result_bind]. by rewrite decide_False. }
  split_and!.
  - reflexivity.
  - reflexivity.
  - apply elem_of_dom. rewrite mapping_NexToU. by eexists.
  - apply class_name_assertion_Ok.
  - unfold dict_getitem. by rewrite mapping_NexToU.
  - intros m H. unfold build_network_architecture in H.
    unfold dict_getitem in H. rewrite mapping_NexToU in H.
    invert_result. destruct (decide (NexToU = ResidualEncoderUNet)); [done|].
    invert_result. done.
  - exact Hprogram.
  - intros e. rewrite Hprogram. intros H.
    destruct (Py.getitem (cm_conv_kernel_sizes cm) 0) as [k0|e0] eqn:Ek0.
    2: { cbn [mbind result_bind] in H. injection H as ->.
         left. by apply getitem_0_Raise. }
    cbn [mbind result_bind] in H. apply (getitem_nat_Ok _ 0) in Ek0.
    destruct (convert_dim_to_conv_op (len k0)) as [cop|e0] eqn:Ecop.
    2: { cbn [mbind result_bind] in H. injection H as ->.
         right; left. by exists k0. }
    cbn [mbind result_bind] in H.
    destruct get_label_manager as [lm|e0] eqn:Elm.
    2: { cbn [mbind result_bind] in H. injection H as ->. do 2 right; left. done. }
    cbn [mbind result_bind] in H.
    destruct (get_matching_batchnorm cop) as [[]|e0] eqn:Ebn.
    2: { cbn [mbind result_bind] in H. injection H as ->.
         do 3 right; left. by exists cop. }
    cbn [mbind result_bind] in H.
    destruct (num_segmentation_heads lm) as [heads|e0] eqn:Eh.
    2: { cbn [mbind result_bind] in H. injection H as ->.
         do 4 right; left. by exists lm. }
    cbn [mbind result_bind] in H.
    destruct (construct NexToU _) as [st|e0] eqn:Est.
    2: { cbn [mbind result_bind] in H. injection H as ->.
         do 5 right; left. by eexists. }
    cbn [mbind result_bind] in H.
    destruct (apply_init "InitWeights_He" st) as [st'|e0] eqn:Einit; [done|].
    cbn [mbind result_bind] in H. injection H as ->.
    do 6 right. by exists st.
  - intros Hk Hconv [lm Hlm] Hbn Hheads Hcons Hinit. rewrite Hprogram.
    destruct (cm_conv_kernel_sizes cm) as [|k0 ks] eqn:Eks; [done|].
    rewrite getitem_0. cbn [mbind result_bind].
    destruct (Hconv (len k0)) as [cop ->]. cbn [mbind result_bind].
    rewrite Hlm. cbn [mbind result_bind]. rewrite !Hbn. cbn [mbind result_bind].
    destruct (Hheads lm) as [heads ->]. cbn [mbind result_bind].
    match goal with
    | |- context [construct NexToU ?kw] => destruct (Hcons kw) as [st ->]
    end.
    cbn [mbind result_bind]. destruct (Hinit st) as [st' ->]. cbn [mbind result_bind].
    by eexists.
Qed.

End trainer_claims.

(** The configuration of [build_network_architecture_example], with
    functions that return: the method returns a [NexToU]. *)
Lemma network_class_is_NexToU_witness :
  ∃ m,
    build_network_architecture (net_state := network_kwargs) (label_manager := unit)
      (λ dim, if (dim =? 2)%Z then Ok Conv2d else Ok Conv3d) (λ _, Ok tt) (Ok tt)
      (λ _, Ok 3%Z) (λ _ kw, Ok kw) (λ _ st, Ok st)
      (mkConfigurationManager [[3; 3]; [3; 3]]%Z [64; 64]%Z 2 32 512
         [[1; 1]; [2; 2]]%Z [1; 3]%Z [1]%Z)
      "PlainConvUNet" 1 3 true = Ok m ∧
    model_class m = NexToU.
Proof.
  destruct (network_class_is_NexToU
              (net_state := network_kwargs) (label_manager := unit)
              (λ dim, if (dim =? 2)%Z then Ok Conv2d else Ok Conv3d) (λ _, Ok tt) (Ok tt)
              (λ _, Ok 3%Z) (λ _ kw, Ok kw) (λ _ st, Ok st)
              (mkConfigurationManager [[3; 3]; [3; 3]]%Z [64; 64]%Z 2 32 512
                 [[1; 1]; [2; 2]]%Z [1; 3]%Z [1]%Z)
              "PlainConvUNet" 1%Z 3%Z true)
    as (_ & _ & _ & _ & _ & _ & _ & _ & Hreturns).
  apply Hreturns.
  - discriminate.
  - intros dim. destruct (dim =? 2)%Z; by eexists.
  - by eexists.
  - reflexivity.
  - intros lm. by eexists.
  - intros kw. by eexists.
  - intros st. by eexists.
Defined.

(** Without kernel sizes in the plan the method raises the [IndexError] of
    [conv_kernel_sizes[0]]. *)
Example build_network_architecture_no_kernel_sizes :
  build_network_architecture (net_state := network_kwargs) (label_manager := unit)
    (λ dim, if (dim =? 2)%Z then Ok Conv2d else Ok Conv3d) (λ _, Ok tt) (Ok tt)
    (λ _, Ok 3%Z) (λ _ kw, Ok kw) (λ _ st, Ok st)
    (mkConfigurationManager [] [64; 64]%Z 2 32 512 [[1; 1]; [2; 2]]%Z [1; 3]%Z [1]%Z)
    "NexToU" 1 3 true
  = Raise IndexError.
Proof. reflexivity. Qed.

(** With helpers that return, the method returns a [NexToU]. *)
Example build_network_architecture_example :
  model_class <$>
    build_network_architecture (net_state := network_kwargs) (label_manager := unit)
      (λ dim, if (dim =? 2)%Z then Ok Conv2d else Ok Conv3d) (λ _, Ok tt) (Ok tt)
      (λ _, Ok 3%Z) (λ _ kw, Ok kw) (λ _ st, Ok st)
      (mkConfigurationManager [[3; 3]; [3; 3]]%Z [64; 64]%Z 2 32 512
         [[1; 1]; [2; 2]]%Z [1; 3]%Z [1]%Z)
      "PlainConvUNet" 1 3 true
  = Ok NexToU.
Proof. reflexivity. Qed.

(* ===================================================================== *)
(** * Part III: further properties                                        *)
(* ===================================================================== *)

(** ** The windows: their contents, the other round trip, the errors *)

Lemma truediv_zero a b : (b == 0)%Q → Py.truediv a b = Raise ZeroDivisionError.
Proof.
  intros Hb. unfold Py.truediv.
  destruct (Qeq_bool b 0) eqn:E; [done|].
  apply Qeq_bool_neq in E. done.
Qed.

Lemma infer_axis_indivisible lens g len u :
  Einops.unknown_axes lens g = [u] →
  Einops.known_product lens g ≠ 0 →
  len mod Einops.known_product lens g ≠ 0 →
  Einops.infer_axis lens g len = Raise EinopsError.
Proof.
  intros Hu Hk Hlen. unfold Einops.infer_axis. rewrite Hu.
  rewrite decide_False by done. by rewrite decide_False.
Qed.

Section window_properties.
Context {A : Type} `{!Inhabited A}.

Lemma permute_lookup p (t t' : tensor A) idx :
  permute p t = Ok t' → Forall2 lt idx (shape t') →
  tensor_get t' idx = tensor_get t (take_axes (inv_perm p) idx).
Proof.
  unfold permute, tensor_get. case_decide; [|done]. intros [= <-] Hidx. simpl in *.
  rewrite gather_lookup by (by apply ravel_lt).
  by rewrite unravel_ravel.
Qed.

Lemma reshape_lookup s (t t' : tensor A) idx idx' :
  reshape s t = Ok t' → ravel s idx = ravel (shape t) idx' →
  tensor_get t' idx = tensor_get t idx'.
Proof.
  intros [_ ->]%reshape_Ok_inv Hr. unfold tensor_get. simpl. by rewrite Hr.
Qed.

Lemma window_index_bound B h w b i j :
  b < B → i < h → j < w → (b * h + i) * w + j < B * h * w.
Proof.
  intros Hb Hi Hj.
  assert (b * h + i + 1 ≤ B * h) as H1 by nia.
  assert ((b * h + i + 1) * w ≤ B * h * w) as H2 by (by apply Nat.mul_le_mono_r).
  lia.
Qed.

Lemma window_index_bound3 B s h w b k i j :
  b < B → k < s → i < h → j < w → ((b * s + k) * h + i) * w + j < B * s * h * w.
Proof.
  intros Hb Hk Hi Hj.
  pose proof (window_index_bound B s h b k i Hb Hk Hi) as H0.
  assert ((b * s + k) * h + i + 1 ≤ B * s * h) as H1 by lia.
  assert (((b * s + k) * h + i + 1) * w ≤ B * s * h * w) as H2
    by (by apply Nat.mul_le_mono_r).
  lia.
Qed.

(** Property X1: on a feature map [(B, C, h * p1, w * p2)] and a window
    [(p1, p2)], [window_partition] returns [B * h * w] windows of shape
    [(C, p1, p2)]; window [(b * h + i) * w + j] holds, at [(c, u, v)], the
    entry of the feature map at [(b, c, i * p1 + u, j * p2 + v)]: the
    windows tile every image, in row-major order of the tiles, images one
    after the other.  In three dimensions likewise. *)
Theorem window_partition_contents :
  (∀ (x : tensor A) B C h w p1 p2 ws,
     shape x = [B; C; h * p1; w * p2] →
     ws !! 0 = Some p1 → ws !! 1 = Some p2 → 0 < p1 → 0 < p2 →
     ∃ windows,
       window_partition x ws = Ok windows ∧
       shape windows = [B * h * w; C; p1; p2] ∧
       ∀ b c i j u v, b < B → c < C → i < h → j < w → u < p1 → v < p2 →
         tensor_get windows [(b * h + i) * w + j; c; u; v] =
         tensor_get x [b; c; i * p1 + u; j * p2 + v]) ∧
  (∀ (x : tensor A) B C s h w p1 p2 p3 ws,
     shape x = [B; C; s * p1; h * p2; w * p3] →
     ws !! 0 = Some p1 → ws !! 1 = Some p2 → ws !! 2 = Some p3 →
     0 < p1 → 0 < p2 → 0 < p3 →
     ∃ windows,
       window_partition x ws = Ok windows ∧
       shape windows = [B * s * h * w; C; p1; p2; p3] ∧
       ∀ b c k i j t u v,
         b < B → c < C → k < s → i < h → j < w → t < p1 → u < p2 → v < p3 →
         tensor_get windows [((b * s + k) * h + i) * w + j; c; t; u; v] =
         tensor_get x [b; c; k * p1 + t; i * p2 + u; j * p3 + v]).
Proof.
  split.
  { intros x B C h w p1 p2 ws.
    intros Hs Hw0 Hw1 Hp1 Hp2.
    unfold window_partition. rewrite Hs.
    destruct (permute_ok [0; 2; 3; 1] x) as (x1 & Hx1 & Hs1 & _).
    { rewrite Hs. perm_facts. }
    rewrite Hs in Hs1. cbn in Hs1.
    rewrite Hx1. cbn [mbind result_bind].
    rewrite (item_lookup _ _ _ Hw0), (item_lookup _ _ _ Hw1). cbn [mbind result_bind].
    rewrite (rearrange_partition2d x1 B h p1 w p2 C) by done.
    rewrite reshape_ok by (rewrite Hs1; simpl; lia). cbn [mbind result_bind].
    destruct (permute_ok [0; 1; 3; 2; 4; 5] (Tensor [B; h; p1; w; p2; C] (data x1)))
      as (t2 & Ht2 & Hs2 & _); [perm_facts|].
    cbn in Hs2. rewrite Ht2. cbn [mbind result_bind].
    rewrite reshape_ok by (rewrite Hs2; simpl; lia). cbn [mbind result_bind].
    destruct (permute_ok [0; 3; 1; 2] (Tensor [B * h * w; p1; p2; C] (data t2)))
      as (wd & Hwd & Hswd & _); [perm_facts|].
    cbn in Hswd. rewrite Hwd.
    exists wd. split; [done|]. split; [done|].
    intros b c i j u v Hb Hc Hi Hj Hu Hv.
    pose proof (window_index_bound B h w b i j Hb Hi Hj) as Hn.
    rewrite (permute_lookup _ _ _ _ Hwd)
      by (rewrite Hswd; repeat constructor; done).
    change (take_axes (inv_perm [0; 3; 1; 2]) [(b * h + i) * w + j; c; u; v])
      with [(b * h + i) * w + j; u; v; c].
    erewrite (reshape_lookup [B * h * w; p1; p2; C] t2 _ _ [b; i; j; u; v; c]).
    2:{ apply reshape_ok; rewrite Hs2; simpl; lia. }
    2:{ rewrite Hs2. simpl. nia. }
    rewrite (permute_lookup _ _ _ _ Ht2)
      by (rewrite Hs2; repeat constructor; done).
    change (take_axes (inv_perm [0; 1; 3; 2; 4; 5]) [b; i; j; u; v; c])
      with [b; i; u; j; v; c].
    erewrite (reshape_lookup [B; h; p1; w; p2; C] x1 _ _ [b; i * p1 + u; j * p2 + v; c]).
    2:{ apply reshape_ok; rewrite Hs1; simpl; lia. }
    2:{ rewrite Hs1. simpl. nia. }
    rewrite (permute_lookup _ _ _ _ Hx1)
      by (rewrite Hs1; repeat constructor; nia).
    done. }
  { intros x B C s h w p1 p2 p3 ws.
    intros Hs Hw0 Hw1 Hw2 Hp1 Hp2 Hp3.
    unfold window_partition. rewrite Hs.
    destruct (permute_ok [0; 2; 3; 4; 1] x) as (x1 & Hx1 & Hs1 & _).
    { rewrite Hs. perm_facts. }
    rewrite Hs in Hs1. cbn in Hs1.
    rewrite Hx1. cbn [mbind result_bind].
    rewrite (item_lookup _ _ _ Hw0), (item_lookup _ _ _ Hw1), (item_lookup _ _ _ Hw2).
    cbn [mbind result_bind].
    rewrite (rearrange_partition3d x1 B s p1 h p2 w p3 C) by done.
    rewrite reshape_ok by (rewrite Hs1; simpl; lia). cbn [mbind result_bind].
    destruct (permute_ok [0; 1; 3; 5; 2; 4; 6; 7]
                (Tensor [B; s; p1; h; p2; w; p3; C] (data x1)))
      as (t2 & Ht2 & Hs2 & _); [perm_facts|].
    cbn in Hs2. rewrite Ht2. cbn [mbind result_bind].
    rewrite reshape_ok by (rewrite Hs2; simpl; lia). cbn [mbind result_bind].
    destruct (permute_ok [0; 4; 1; 2; 3] (Tensor [B * s * h * w; p1; p2; p3; C] (data t2)))
      as (wd & Hwd & Hswd & _); [perm_facts|].
    cbn in Hswd. rewrite Hwd.
    exists wd. split; [done|]. split; [done|].
    intros b c k i j t u v Hb Hc Hk Hi Hj Ht Hu Hv.
    pose proof (window_index_bound3 B s h w b k i j Hb Hk Hi Hj) as Hn.
    rewrite (permute_lookup _ _ _ _ Hwd)
      by (rewrite Hswd; repeat constructor; done).
    change (take_axes (inv_perm [0; 4; 1; 2; 3]) [((b * s + k) * h + i) * w + j; c; t; u; v])
      with [((b * s + k) * h + i) * w + j; t; u; v; c].
    erewrite (reshape_lookup [B * s * h * w; p1; p2; p3; C] t2 _ _ [b; k; i; j; t; u; v; c]).
    2:{ apply reshape_ok; rewrite Hs2; simpl; lia. }
    2:{ rewrite Hs2. simpl. nia. }
    rewrite (permute_lookup _ _ _ _ Ht2)
      by (rewrite Hs2; repeat constructor; done).
    change (take_axes (inv_perm [0; 1; 3; 5; 2; 4; 6; 7]) [b; k; i; j; t; u; v; c])
      with [b; k; t; i; u; j; v; c].
    erewrite (reshape_lookup [B; s; p1; h; p2; w; p3; C] x1 _ _
                [b; k * p1 + t; i * p2 + u; j * p3 + v; c]).
    2:{ apply reshape_ok; rewrite Hs1; simpl; lia. }
    2:{ rewrite Hs1. simpl. nia. }
    rewrite (permute_lookup _ _ _ _ Hx1)
      by (rewrite Hs1; repeat constructor; nia).
    done. }
Qed.


(** Property X3: [window_partition] raises the error of einops when an
    extent of the feature map is not a multiple of the entry of the window
    for it, in two and in three dimensions, and an [IndexError] when the
    window has fewer entries than the feature map has spatial axes. *)
Theorem window_partition_errors :
  (∀ (x : tensor A) B C H W p1 p2 ws,
     shape x = [B; C; H; W] →
     ws !! 0 = Some p1 → ws !! 1 = Some p2 → 0 < p1 → 0 < p2 →
     H mod p1 ≠ 0 ∨ W mod p2 ≠ 0 →
     window_partition x ws = Raise EinopsError) ∧
  (∀ (x : tensor A) B C S_ H W p1 p2 p3 ws,
     shape x = [B; C; S_; H; W] →
     ws !! 0 = Some p1 → ws !! 1 = Some p2 → ws !! 2 = Some p3 →
     0 < p1 → 0 < p2 → 0 < p3 →
     S_ mod p1 ≠ 0 ∨ H mod p2 ≠ 0 ∨ W mod p3 ≠ 0 →
     window_partition x ws = Raise EinopsError) ∧
  (∀ (x : tensor A) ws,
     (length (shape x) = 4 ∧ length ws < 2) ∨ (length (shape x) = 5 ∧ length ws < 3) →
     window_partition x ws = Raise IndexError).
Proof.
  split; [|split].
  { intros x B C H W p1 p2 ws.
    intros Hs Hw0 Hw1 Hp1 Hp2 Hdiv.
    unfold window_partition. rewrite Hs.
    destruct (permute_ok [0; 2; 3; 1] x) as (x1 & Hx1 & Hs1 & _).
    { rewrite Hs. perm_facts. }
    rewrite Hs in Hs1. cbn in Hs1.
    rewrite Hx1. cbn [mbind result_bind].
    rewrite (item_lookup _ _ _ Hw0), (item_lookup _ _ _ Hw1). cbn [mbind result_bind].
    unfold Einops.rearrange. rearrange_valid.
    rewrite Hs1. cbn [Einops.infer_axes].
    infer_unknown B.
    destruct (decide (H mod p1 = 0)) as [HH|HH].
    - destruct Hdiv as [|HW]; [done|].
      apply Nat.Lcm0.mod_divide in HH as [h ->].
      infer_unknown h.
      rewrite (infer_axis_indivisible _ _ _ "w");
        [done|by einops_axes|einops_axes; lia|einops_axes; by rewrite ?Nat.mul_1_l, ?Nat.mul_1_r].
    - rewrite (infer_axis_indivisible _ _ _ "h");
        [done|by einops_axes|einops_axes; lia|einops_axes; by rewrite ?Nat.mul_1_l, ?Nat.mul_1_r]. }
  { intros x B C S_ H W p1 p2 p3 ws.
    intros Hs Hw0 Hw1 Hw2 Hp1 Hp2 Hp3 Hdiv.
    unfold window_partition. rewrite Hs.
    destruct (permute_ok [0; 2; 3; 4; 1] x) as (x1 & Hx1 & Hs1 & _).
    { rewrite Hs. perm_facts. }
    rewrite Hs in Hs1. cbn in Hs1.
    rewrite Hx1. cbn [mbind result_bind].
    rewrite (item_lookup _ _ _ Hw0), (item_lookup _ _ _ Hw1), (item_lookup _ _ _ Hw2).
    cbn [mbind result_bind].
    unfold Einops.rearrange. rearrange_valid.
    rewrite Hs1. cbn [Einops.infer_axes].
    infer_unknown B.
    destruct (decide (S_ mod p1 = 0)) as [HS|HS]; last first.
    { rewrite (infer_axis_indivisible _ _ _ "s");
        [done|by einops_axes|einops_axes; lia|einops_axes; by rewrite ?Nat.mul_1_l, ?Nat.mul_1_r]. }
    apply Nat.Lcm0.mod_divide in HS as [s ->]. infer_unknown s.
    destruct (decide (H mod p2 = 0)) as [HH|HH]; last first.
    { rewrite (infer_axis_indivisible _ _ _ "h");
        [done|by einops_axes|einops_axes; lia|einops_axes; by rewrite ?Nat.mul_1_l, ?Nat.mul_1_r]. }
    apply Nat.Lcm0.mod_divide in HH as [h ->]. infer_unknown h.
    destruct Hdiv as [Hd|[Hd|Hd]];
      [by rewrite Nat.Div0.mod_mul in Hd|by rewrite Nat.Div0.mod_mul in Hd|].
    rewrite (infer_axis_indivisible _ _ _ "w");
      [done|by einops_axes|einops_axes; lia|einops_axes; by rewrite ?Nat.mul_1_l, ?Nat.mul_1_r]. }
  { intros x ws.
    intros Hl. unfold window_partition.
    destruct (shape x) as [|B [|C [|d1 [|d2 [|d3 [|d4 l]]]]]] eqn:Hs;
      simpl in Hl; try (exfalso; lia).
    - destruct (permute_ok [0; 2; 3; 1] x) as (x1 & Hx1 & _).
      { rewrite Hs. perm_facts. }
      rewrite Hx1. cbn [mbind result_bind].
      destruct ws as [|p1 [|p2 ws]]; simpl in Hl; [done|done|lia].
    - destruct (permute_ok [0; 2; 3; 4; 1] x) as (x1 & Hx1 & _).
      { rewrite Hs. perm_facts. }
      rewrite Hx1. cbn [mbind result_bind].
      destruct ws as [|p1 [|p2 [|p3 ws]]]; simpl in Hl; [done|done|done|lia]. }
Qed.

(** Property X4: [window_reverse] raises a [ZeroDivisionError] when an
    entry of the window or an extent in [size_tuple] is 0, in two and in
    three dimensions, and a [ValueError] when [size_tuple] does not have
    one entry for each spatial axis of the windows. *)
Theorem window_reverse_errors :
  (∀ (windows : tensor A) n C a b H W p1 p2 ws,
     shape windows = [n; C; a; b] →
     ws !! 0 = Some p1 → ws !! 1 = Some p2 →
     p1 = 0 ∨ p2 = 0 ∨ H = 0 ∨ W = 0 →
     window_reverse windows ws [H; W] = Raise ZeroDivisionError) ∧
  (∀ (windows : tensor A) n C a b c S_ H W p1 p2 p3 ws,
     shape windows = [n; C; a; b; c] →
     ws !! 0 = Some p1 → ws !! 1 = Some p2 → ws !! 2 = Some p3 →
     p1 = 0 ∨ p2 = 0 ∨ p3 = 0 ∨ S_ = 0 ∨ H = 0 ∨ W = 0 →
     window_reverse windows ws [S_; H; W] = Raise ZeroDivisionError) ∧
  (∀ (windows : tensor A) ws size_tuple,
     (length (shape windows) = 4 ∧ length size_tuple ≠ 2)
     ∨ (length (shape windows) = 5 ∧ length size_tuple ≠ 3) →
     window_reverse windows ws size_tuple = Raise ValueError).
Proof.
  split; [|split].
  { intros windows n C a b H W p1 p2 ws.
    intros Hs Hw0 Hw1 Hz. unfold window_reverse. rewrite Hs.
    cbn [Py.unpack2 mbind result_bind].
    rewrite (item_lookup _ _ _ Hw0). cbn [mbind result_bind].
    destruct (decide (p1 = 0)) as [->|Hp1]; [by rewrite truediv_zero|].
    rewrite truediv_ok by (apply size_to_Q_nonzero; lia). cbn [mbind result_bind].
    rewrite (item_lookup _ _ _ Hw1). cbn [mbind result_bind].
    destruct (decide (p2 = 0)) as [->|Hp2]; [by rewrite truediv_zero|].
    rewrite truediv_ok by (apply size_to_Q_nonzero; lia). cbn [mbind result_bind].
    rewrite truediv_zero; [done|].
    assert (H * W = 0) as -> by nia.
    unfold Qeq, Qdiv, Qmult. simpl. lia. }
  { intros windows n C a b c S_ H W p1 p2 p3 ws.
    intros Hs Hw0 Hw1 Hw2 Hz. unfold window_reverse. rewrite Hs.
    cbn [Py.unpack3 mbind result_bind].
    rewrite (item_lookup _ _ _ Hw0). cbn [mbind result_bind].
    destruct (decide (p1 = 0)) as [->|Hp1]; [by rewrite truediv_zero|].
    rewrite truediv_ok by (apply size_to_Q_nonzero; lia). cbn [mbind result_bind].
    rewrite (item_lookup _ _ _ Hw1). cbn [mbind result_bind].
    destruct (decide (p2 = 0)) as [->|Hp2]; [by rewrite truediv_zero|].
    rewrite truediv_ok by (apply size_to_Q_nonzero; lia). cbn [mbind result_bind].
    rewrite (item_lookup _ _ _ Hw2). cbn [mbind result_bind].
    destruct (decide (p3 = 0)) as [->|Hp3]; [by rewrite truediv_zero|].
    rewrite truediv_ok by (apply size_to_Q_nonzero; lia). cbn [mbind result_bind].
    rewrite truediv_zero; [done|].
    assert (S_ * H * W = 0) as -> by nia.
    unfold Qeq, Qdiv, Qmult. simpl. lia. }
  { intros windows ws size_tuple.
    intros Hl. unfold window_reverse.
    destruct (shape windows) as [|B [|C [|d1 [|d2 [|d3 [|d4 l]]]]]] eqn:Hs;
      simpl in Hl; try (exfalso; lia).
    - destruct size_tuple as [|? [|? [|? ?]]]; simpl in Hl; try done. lia.
    - destruct size_tuple as [|? [|? [|? [|? ?]]]]; simpl in Hl; try done. lia. }
Qed.

(** Property X22: on windows of a rank other than 4 and 5
    [window_reverse] raises an [UnboundLocalError], whatever the window
    and the sizes are: the [raise NotImplementedError] of its last branch
    formats its message from [len(x.shape)], and [x] is a local variable
    that no statement has assigned there. *)
Theorem window_reverse_other_rank (windows : tensor A) window_size size_tuple :
  length (shape windows) ≠ 4 → length (shape windows) ≠ 5 →
  window_reverse windows window_size size_tuple = Raise UnboundLocalError.
Proof.
  intros H4 H5. unfold window_reverse.
  destruct (shape windows) as [|a [|b [|c [|d [|e [|f l]]]]]]; simpl in *; done.
Qed.

End window_properties.

(** A feature map of one image, one channel, two rows and two columns,
    and windows of one row. *)
Lemma window_partition_contents_witness :
  ∃ windows,
    window_partition (Tensor [1; 1; 2; 2] [10; 11; 12; 13]) [1; 2] = Ok windows ∧
    shape windows = [1 * 2 * 1; 1; 1; 2] ∧
    ∀ b c i j u v, b < 1 → c < 1 → i < 2 → j < 1 → u < 1 → v < 2 →
      tensor_get windows [(b * 2 + i) * 1 + j; c; u; v] =
      tensor_get (Tensor [1; 1; 2; 2] [10; 11; 12; 13]) [b; c; i * 1 + u; j * 2 + v].
Proof.
  apply (proj1 window_partition_contents
           (Tensor [1; 1; 2; 2] [10; 11; 12; 13]) 1 1 2 1 1 2 [1; 2]);
    [reflexivity|reflexivity|reflexivity|lia|lia].
Defined.


(** Three rows do not split into windows of two. *)
Lemma window_partition_errors_witness :
  window_partition (Tensor [1; 1; 3; 2] [10; 11; 12; 13; 14; 15]) [2; 2]
  = Raise EinopsError.
Proof.
  apply (proj1 window_partition_errors
           (Tensor [1; 1; 3; 2] [10; 11; 12; 13; 14; 15]) 1 1 3 2 2 2 [2; 2]);
    [reflexivity|reflexivity|reflexivity|lia|lia|left; discriminate].
Defined.

(** Windows without a channel axis. *)
Lemma window_reverse_other_rank_witness :
  window_reverse (Tensor [2; 1; 2] [10; 11; 12; 13]) [1; 2] [2; 2]
  = Raise UnboundLocalError.
Proof.
  apply (window_reverse_other_rank (Tensor [2; 1; 2] [10; 11; 12; 13]) [1; 2] [2; 2]);
    simpl; lia.
Defined.

Lemma window_reverse_errors_witness :
  window_reverse (Tensor [2; 1; 1; 2] [10; 11; 12; 13]) [0; 2] [2; 2]
  = Raise ZeroDivisionError.
Proof.
  apply (proj1 window_reverse_errors
           (Tensor [2; 1; 1; 2] [10; 11; 12; 13]) 2 1 1 2 2 2 0 2 [0; 2]);
    [reflexivity|reflexivity|reflexivity|left; reflexivity].
Defined.

(** ** The surface dice as a function of the threshold *)

Lemma count_within_mono d t1 t2 : (t1 <= t2)%Q → count_within d t1 ≤ count_within d t2.
Proof.
  intros Ht. unfold count_within. induction d as [|x d IH]; [done|].
  rewrite !filter_cons.
  destruct (decide (x <= t1)%Q) as [H1|H1], (decide (x <= t2)%Q) as [H2|H2]; simpl; try lia.
  exfalso. apply H2. by apply (Qle_trans _ t1).
Qed.

Lemma count_within_all d t : count_within d t = length d ↔ Forall (λ x, (x <= t)%Q) d.
Proof.
  unfold count_within. induction d as [|x d IH]; [by split; [constructor|]|].
  rewrite filter_cons. pose proof (length_filter (λ x, (x <= t)%Q) d) as Hl.
  destruct (decide (x <= t)%Q) as [H|H]; simpl.
  - split.
    + intros [= E]. constructor; [done|]. by apply IH.
    + intros Hall. inversion Hall; subst. f_equal. by apply IH.
  - split; [lia|]. intros Hall. by inversion Hall.
Qed.

Lemma count_beyond_all d t : count_beyond d t = length d ↔ Forall (λ x, (t < x)%Q) d.
Proof.
  unfold count_beyond. induction d as [|x d IH]; [by split; [constructor|]|].
  rewrite filter_cons. pose proof (length_filter (λ x, (t < x)%Q) d) as Hl.
  destruct (decide (t < x)%Q) as [H|H]; simpl.
  - split.
    + intros [= E]. constructor; [done|]. by apply IH.
    + intros Hall. inversion Hall; subst. f_equal. by apply IH.
  - split; [lia|]. intros Hall. by inversion Hall.
Qed.

Lemma np_true_divide_Finite (p n : nat) q :
  np_true_divide (Z.of_nat p) (Z.of_nat n) = Finite q →
  0 < n ∧ q = (inject_Z (Z.of_nat p) / inject_Z (Z.of_nat n))%Q.
Proof.
  unfold np_true_divide. destruct (Z.eqb_spec (Z.of_nat n) 0).
  - by destruct (_ =? _)%Z.
  - intros [= <-]. split; [lia|done].
Qed.

Lemma ratio_le (p1 p2 n : nat) :
  0 < n → p1 ≤ p2 →
  (inject_Z (Z.of_nat p1) / inject_Z (Z.of_nat n)
   <= inject_Z (Z.of_nat p2) / inject_Z (Z.of_nat n))%Q.
Proof.
  intros Hn Hp.
  assert (Hn' : (0 < inject_Z (Z.of_nat n))%Q) by (rewrite <-(Zlt_Qlt 0); lia).
  apply Qle_shift_div_l; [done|].
  unfold Qdiv. rewrite <-Qmult_assoc, (Qmult_comm (/ _)), Qmult_inv_r, Qmult_1_r.
  - rewrite <-Zle_Qle. lia.
  - intros E. rewrite E in Hn'. by apply Qlt_irrefl in Hn'.
Qed.

Lemma ratio_one (p n : nat) :
  0 < n → (inject_Z (Z.of_nat p) / inject_Z (Z.of_nat n) == 1)%Q ↔ p = n.
Proof.
  intros Hn. unfold Qeq, Qdiv, Qmult, Qinv. simpl.
  destruct n as [|n]; [lia|]. simpl. lia.
Qed.

Lemma ratio_zero (p n : nat) :
  0 < n → (inject_Z (Z.of_nat p) / inject_Z (Z.of_nat n) == 0)%Q ↔ p = 0.
Proof.
  intros Hn. unfold Qeq, Qdiv, Qmult, Qinv. simpl.
  destruct n as [|n]; [lia|]. simpl. lia.
Qed.

Section surface_dice_properties.
Variable surface_distances : tensor bool → tensor bool → list Q → Z → result (list Q).

(** Property X5: [normalized_surface_dice] does not decrease when the
    threshold grows: for [t1 <= t2], a value returned at [t1] is at most
    the value returned at [t2] on the same masks and spacing. *)
Theorem normalized_surface_dice_monotone a b t1 t2 spacing q1 q2 :
  (t1 <= t2)%Q →
  normalized_surface_dice surface_distances a b t1 spacing = Ok (Finite q1) →
  normalized_surface_dice surface_distances a b t2 spacing = Ok (Finite q2) →
  (q1 <= q2)%Q.
Proof.
  intros Ht. rewrite !normalized_surface_dice_unfold.
  destruct (surface_distances a b _ 1) as [da|]; [|done].
  destruct (surface_distances b a _ 1) as [db|]; [|done].
  cbn [mbind result_bind]. intros [= H1] [= H2].
  pose proof (count_within_beyond da t1). pose proof (count_within_beyond db t1).
  pose proof (count_within_beyond da t2). pose proof (count_within_beyond db t2).
  replace (count_within da t1 + count_within db t1 + count_beyond da t1 + count_beyond db t1)
    with (length da + length db) in H1 by lia.
  replace (count_within da t2 + count_within db t2 + count_beyond da t2 + count_beyond db t2)
    with (length da + length db) in H2 by lia.
  apply np_true_divide_Finite in H1 as [Hn ->].
  apply np_true_divide_Finite in H2 as [_ ->].
  apply ratio_le; [done|].
  pose proof (count_within_mono da t1 t2 Ht). pose proof (count_within_mono db t1 t2 Ht).
  lia.
Qed.

(** Property X6: a value [normalized_surface_dice] returns is 1 exactly
    when every surface distance, in both directions, is within the
    threshold, and 0 exactly when every one is beyond it. *)
Theorem normalized_surface_dice_extremes a b t spacing a_to_b b_to_a q :
  surface_distances a b (spacing_used a spacing) 1 = Ok a_to_b →
  surface_distances b a (spacing_used a spacing) 1 = Ok b_to_a →
  normalized_surface_dice surface_distances a b t spacing = Ok (Finite q) →
  ((q == 1)%Q ↔ Forall (λ d, (d <= t)%Q) (a_to_b ++ b_to_a)) ∧
  ((q == 0)%Q ↔ Forall (λ d, (t < d)%Q) (a_to_b ++ b_to_a)).
Proof.
  intros Ha Hb. rewrite normalized_surface_dice_unfold, Ha, Hb.
  cbn [mbind result_bind]. intros [= H1].
  pose proof (count_within_beyond a_to_b t) as Hca.
  pose proof (count_within_beyond b_to_a t) as Hcb.
  replace (count_within a_to_b t + count_within b_to_a t
           + count_beyond a_to_b t + count_beyond b_to_a t)
    with (length a_to_b + length b_to_a) in H1 by lia.
  apply np_true_divide_Finite in H1 as [Hn ->].
  rewrite ratio_one, ratio_zero by done.
  rewrite !Forall_app, <-!count_within_all, <-!count_beyond_all.
  pose proof (length_filter (λ x, (x <= t)%Q) a_to_b) as Hl.
  pose proof (length_filter (λ x, (x <= t)%Q) b_to_a) as Hl'.
  unfold count_within in *. split; split; lia.
Qed.

End surface_dice_properties.

(** The two masks of two voxels again, with the thresholds 1 and 2, and
    with the threshold 3 that all four distances are within. *)
Lemma normalized_surface_dice_monotone_witness :
  ∃ q1 q2,
    normalized_surface_dice example_distances
      (Tensor [2] [true; false]) (Tensor [2] [false; true]) 1 None = Ok (Finite q1) ∧
    normalized_surface_dice example_distances
      (Tensor [2] [true; false]) (Tensor [2] [false; true]) 2 None = Ok (Finite q2) ∧
    (q1 <= q2)%Q.
Proof.
  exists (2 # 4)%Q, (3 # 4)%Q. split; [reflexivity|]. split; [reflexivity|].
  apply (normalized_surface_dice_monotone example_distances
           (Tensor [2] [true; false]) (Tensor [2] [false; true]) 1 2 None);
    [discriminate|reflexivity|reflexivity].
Defined.

Lemma normalized_surface_dice_extremes_witness :
  ((4 # 4 == 1)%Q ↔ Forall (λ d, (d <= 3)%Q) ([0; 2] ++ [1; 3])%Q) ∧
  ((4 # 4 == 0)%Q ↔ Forall (λ d, (3 < d)%Q) ([0; 2] ++ [1; 3])%Q).
Proof.
  apply (normalized_surface_dice_extremes example_distances
           (Tensor [2] [true; false]) (Tensor [2] [false; true]) 3 None
           [0; 2]%Q [1; 3]%Q (4 # 4)%Q);
    reflexivity.
Defined.

(** ** The neighbourhood sizes on a small feature map *)

Lemma foldl_max_zeros n : foldl Z.max 0%Z (replicate n 0%Z) = 0%Z.
Proof. induction n as [|n IH]; [done|]. simpl. exact IH. Qed.

Lemma max_zeros n : 1 ≤ n → Py.max (replicate n 0%Z) = Ok 0%Z.
Proof. destruct n as [|n]; [lia|]. intros _. simpl. by rewrite foldl_max_zeros. Qed.

Lemma k_list_zeros (max_k : Z) (n : nat) :
  (0 <= max_k)%Z →
  (if decide (5 ≤ n) then
      [Z.min 0 max_k; Z.min (0 * 2) max_k; Z.min (0 * 2) max_k;
       Z.min (0 * 4) max_k; Z.min (0 * 8) max_k]
      ++ replicate (n - 5) (Z.min (0 * 16) max_k)
    else
      take n
        [Z.min 0 max_k; Z.min (0 * 2) max_k; Z.min (0 * 2) max_k;
         Z.min (0 * 4) max_k; Z.min (0 * 8) max_k])
  = replicate n 0%Z.
Proof.
  intros Hk. rewrite !Z.mul_0_l, !Z.min_l by done.
  case_decide as Hn.
  - replace n with (5 + (n - 5)) at 2 by lia. by rewrite replicate_add.
  - do 5 (destruct n as [|n]; [done|]). lia.
Qed.

Lemma min_by_candidates key m :
  Py.min_by key [2; 4; 8; 16; 32]%Z = Ok m → (2 <= m)%Z.
Proof.
  intros [Hin _]%min_by_Ok.
  repeat (apply elem_of_cons in Hin as [->|Hin]; [lia|]). by apply elem_of_nil in Hin.
Qed.

Lemma min_by_total key x l : ∃ m, Py.min_by key (x :: l) = Ok m.
Proof. by eexists. Qed.

Lemma knn_hyperparameters_too_small conv ims n :
  1 ≤ n → too_small conv ims →
  knn_hyperparameters conv ims n = Raise ZeroDivisionError.
Proof.
  intros Hn [(-> & Hl & Hp)|(-> & Hl & Hp)]; unfold knn_hyperparameters.
  - destruct ims as [|H [|W [|? ?]]]; try done. simpl in Hp. rewrite Z.mul_1_r in Hp.
    cbn [Py.unpack2 mbind result_bind].
    destruct (min_by_total (λ x, Z.abs (x - H * W / 2))%Z 2%Z [4; 8; 16; 32]%Z) as [mk Hmk].
    rewrite Hmk. cbn [mbind result_bind].
    apply min_by_candidates in Hmk.
    assert (H * W / 2 / (2 * 2) = 0)%Z as ->.
    { apply Z.div_small. split; [apply Z.div_pos; lia|].
      apply Z.div_lt_upper_bound; lia. }
    rewrite k_list_zeros by lia. rewrite max_zeros by done. done.
  - destruct ims as [|H [|W [|D [|? ?]]]]; try done. simpl in Hp.
    rewrite Z.mul_1_r, Z.mul_assoc in Hp.
    cbn [Py.unpack3 mbind result_bind].
    destruct (min_by_total (λ x, Z.abs (x - H * W * D / 3))%Z 2%Z [4; 8; 16; 32]%Z)
      as [mk Hmk].
    rewrite Hmk. cbn [mbind result_bind].
    apply min_by_candidates in Hmk.
    assert (H * W * D / 3 / (2 * 2 * 2) = 0)%Z as ->.
    { apply Z.div_small. split; [apply Z.div_pos; lia|].
      apply Z.div_lt_upper_bound; lia. }
    rewrite k_list_zeros by lia. rewrite max_zeros by done. done.
Qed.

Lemma knn_hyperparameters_no_stage conv ims :
  (conv = Conv2d ∧ length ims = 2) ∨ (conv = Conv3d ∧ length ims = 3) →
  knn_hyperparameters conv ims 0 = Raise ValueError.
Proof.
  intros [(-> & Hl)|(-> & Hl)]; unfold knn_hyperparameters.
  - destruct ims as [|H [|W [|? ?]]]; try done.
  - destruct ims as [|H [|W [|D [|? ?]]]]; try done.
Qed.

(** Property X7: [knn_hyperparameters] cannot be computed on a smallest
    feature map of fewer than 8 points in two dimensions, or fewer than 24
    in three: every entry of [k_list] is then 0 and [// max(k_list)] raises
    a [ZeroDivisionError]; and with no stage at all [max(k_list)] raises a
    [ValueError]. *)
Theorem knn_hyperparameters_errors :
  (∀ conv ims n,
     1 ≤ n → too_small conv ims →
     knn_hyperparameters conv ims n = Raise ZeroDivisionError) ∧
  (∀ conv ims,
     (conv = Conv2d ∧ length ims = 2) ∨ (conv = Conv3d ∧ length ims = 3) →
     knn_hyperparameters conv ims 0 = Raise ValueError).
Proof.
  split.
  - apply knn_hyperparameters_too_small.
  - apply knn_hyperparameters_no_stage.
Qed.

(** A smallest feature map of 2 x 2 points. *)
Lemma knn_hyperparameters_errors_witness :
  knn_hyperparameters Conv2d [2; 2]%Z 5 = Raise ZeroDivisionError.
Proof.
  apply (proj1 knn_hyperparameters_errors Conv2d [2; 2]%Z 5); [lia|].
  left. split; [reflexivity|]. split; [reflexivity|]. simpl. lia.
Defined.

(** ** The constructors of the blocks, the encoder and the decoder *)

Lemma sum_replicate_1 n : Py.sum (replicate n 1%Z) = Z.of_nat n.
Proof.
  unfold Py.sum. induction n as [|n IH]; [done|].
  cbn [replicate foldr]. rewrite IH. lia.
Qed.

Lemma slice_to_replicate {A} (x : A) n (i : Z) :
  (0 <= i <= Z.of_nat n)%Z → Py.slice_to (replicate n x) i = replicate (Z.to_nat i) x.
Proof.
  intros Hi. unfold Py.slice_to, Py.clamp. rewrite length_replicate.
  destruct (Z.ltb_spec i 0); [lia|].
  rewrite take_replicate. f_equal. lia.
Qed.

Lemma getitem_replicate {A} (x v : A) n i :
  Py.getitem (replicate n x) i = Ok v →
  v = x ∧ (- Z.of_nat n <= i < Z.of_nat n)%Z.
Proof.
  intros (j & Hj & Hi)%getitem_Ok. rewrite length_replicate in Hi.
  apply lookup_replicate in Hj as [-> Hj]. split; [done|].
  destruct (Z.ltb_spec i 0); lia.
Qed.

Lemma linspace_zero n l : linspace 0 n = Ok l → Forall (λ q, q == 0)%Q l.
Proof.
  unfold linspace. destruct (n <? 0)%Z; [done|]. destruct (n =? 1)%Z.
  - intros [= <-]. by repeat constructor.
  - intros [= <-]. apply Forall_fmap, Forall_forall. intros i _. simpl.
    unfold Qeq, Qdiv, Qmult. simpl. lia.
Qed.

Lemma getitem_Forall {A} (P : A → Prop) l i v :
  Forall P l → Py.getitem l i = Ok v → P v.
Proof.
  intros Hl (j & Hj & _)%getitem_Ok. by eapply Forall_lookup_1.
Qed.

Lemma or_default_times4 ch : or_default (Some (ch * 4)%Z) ch = (ch * 4)%Z.
Proof. unfold or_default. destruct (Z.eqb_spec (ch * 4) 0); lia. Qed.

Lemma range_1 : Py.range 1 = [0%Z].
Proof. reflexivity. Qed.

Lemma getitem_neg_Ok {A} (l : list A) (k : nat) v :
  Py.getitem l (- Z.of_nat (S k)) = Ok v →
  S k ≤ length l ∧ l !! (length l - S k) = Some v.
Proof.
  intros (j & Hj & Hi)%getitem_Ok.
  destruct (Z.ltb_spec (- Z.of_nat (S k)) 0); [|lia].
  assert (j = length l - S k) as -> by lia. split; [lia|done].
Qed.

Lemma div_mul_exact a b p q :
  (p | a)%Z → (q | b)%Z → (0 < p)%Z → (0 < q)%Z →
  (a / p * (b / q) = a * b / (p * q))%Z.
Proof.
  intros [x ->] [y ->] Hp Hq. rewrite !Z.div_mul by lia.
  replace (x * p * (y * q))%Z with (x * y * (p * q))%Z by lia.
  rewrite Z.div_mul by lia. done.
Qed.

Lemma pooling_rule_pos img_shape ims : Forall (λ p, 0 < p)%Z (pooling_rule img_shape ims).
Proof.
  eapply Forall_impl; [apply pooling_rule_entries|]. intros p [-> | ->]; lia.
Qed.

Lemma product_pooling_rule_exact img_shape ims :
  (product img_shape / product (pooling_rule img_shape ims)
   * product (pooling_rule img_shape ims) = product img_shape)%Z.
Proof.
  pose proof (pooling_rule_pos img_shape ims) as Hpos.
  pose proof (pooling_rule_divides img_shape ims) as Hdiv.
  assert (Hprod : (0 < product (pooling_rule img_shape ims)
                   ∧ (product (pooling_rule img_shape ims) | product img_shape))%Z).
  { induction Hdiv as [|s p ss ps Hd _ IH]; simpl.
    - split; [lia|]. by exists 1%Z.
    - inversion Hpos as [|? ? Hp Hpos']; subst. destruct (IH Hpos') as [Hps [q Hq]].
      split; [lia|]. destruct Hd as [a ->]. rewrite Hq. exists (a * q)%Z. lia. }
  destruct Hprod as [Hp [q ->]]. rewrite Z.div_mul by lia. done.
Qed.

Lemma shift_size_of_Ok cop ws shift :
  shift_size_of cop ws = Ok shift → length ws ≥ spatial_dims cop →
  shift = (λ w, w / 2)%Z <$> take (spatial_dims cop) ws.
Proof.
  unfold shift_size_of. intros H Hl. destruct cop; try done; simpl in Hl.
  - destruct ws as [|w0 [|w1 ws]]; simpl in Hl; try lia.
    rewrite getitem_0, getitem_1 in H. cbn [mbind result_bind] in H.
    injection H as <-. simpl. by rewrite ?take_0.
  - destruct ws as [|w0 [|w1 [|w2 ws]]]; simpl in Hl; try lia.
    rewrite getitem_0, getitem_1, getitem_2 in H. cbn [mbind result_bind] in H.
    injection H as <-. simpl. by rewrite ?take_0.
Qed.

Section network_properties.
Context {embedding : Type}.
Variable relative_pos_tensor : conv_op → Z → Z → Z → result embedding.
Variable get_matching_pool_op : conv_op → string → result unit.
Variable get_matching_convtransp : conv_op → result unit.
Variable maybe_convert_scalar_to_list : conv_op → int_or_seq Z → result (list Z).

(** The one block that a group of graph blocks gets from the options of
    the encoder and the decoder, which allot one block to every stage. *)
Lemma SwinGNNBlocks_init_stage channels img_shape index n ims nsl cop sb :
  SwinGNNBlocks_init relative_pos_tensor channels img_shape index
    (stage_options n ims nsl) cop = Ok sb →
  (0 <= index)%Z →
  (index < Z.of_nat n)%Z ∧ swin_n_blocks sb = Z.of_nat n ∧
  ∃ max_k k_list max_dilation wn k dp shift rp,
    knn_hyperparameters cop ims n = Ok (max_k, k_list, max_dilation, wn) ∧
    Py.getitem k_list index = Ok k ∧ (dp == 0)%Q ∧
    shift_size_of cop ims = Ok shift ∧
    swin_blocks sb =
      [(mkSwinGrapher channels 1 cop img_shape ims shift
          (mkDyGraphConv k (Z.min (index / 4 + 1) max_dilation) 1 cop) dp
          (product ims) rp,
        mkFFN channels (channels * 4) channels "leakyrelu" dp)].
Proof.
  unfold SwinGNNBlocks_init, stage_options. intros H Hidx.
  cbn [n_size_list img_min_shape set_n_size_list set_img_min_shape OptInit_init
       pool_op_kernel_sizes_len blocks drop_path conv act getattr mbind result_bind] in H.
  rewrite sum_replicate_1 in H.
  destruct (linspace 0 (Z.of_nat n)) as [dpr|] eqn:Edpr; [|done].
  cbn [mbind result_bind] in H. apply linspace_zero in Edpr.
  destruct (Py.getitem (replicate n 1%Z) index) as [n_here|] eqn:En; [|done].
  cbn [mbind result_bind] in H.
  apply getitem_replicate in En as [-> Hrange].
  rewrite slice_to_replicate, sum_replicate_1, Z2Nat.id in H by lia.
  destruct (knn_hyperparameters cop ims n) as [[[[max_k k_list] max_dilation] wn]|] eqn:Ek;
    [|done].
  cbn [mbind result_bind] in H. rewrite range_1 in H.
  cbn [mapM fmap list_fmap mbind result_bind] in H.
  rewrite getitem_0 in H. cbn [mbind result_bind] in H.
  destruct (shift_size_of cop ims) as [shift|] eqn:Eshift; [|done].
  cbn [mbind result_bind] in H.
  destruct (Py.getitem k_list index) as [k|] eqn:Ekk; [|done].
  cbn [mbind result_bind] in H.
  destruct (getitem_Q dpr (0 + index)) as [dp|] eqn:Edp; [|done].
  cbn [mbind result_bind] in H.
  apply (getitem_Forall _ _ _ _ Edpr) in Edp.
  unfold SwinGrapher_init in H.
  destruct (DyGraphConv_init _ _ _ _ _) as [dg|] eqn:Edg; [|done].
  cbn [mbind result_bind] in H. apply DyGraphConv_init_Ok in Edg as ->.
  destruct (init_relative_pos _ _ _ _ _ _) as [rp|]; [|done].
  cbn [mbind result_bind mret result_ret] in H. injection H as <-. simpl.
  split; [lia|]. split; [done|].
  exists max_k, k_list, max_dilation, wn, k, dp, shift, rp.
  split_and!; try done.
  unfold FFN_init. rewrite or_default_times4. cbn [or_default].
  rewrite foldl_mul_product, Z.mul_1_l. replace (0 + index)%Z with index by lia. done.
Qed.

Lemma PoolGNNBlocks_init_stage channels img_shape index stage_num n ims nsl cop pb :
  PoolGNNBlocks_init relative_pos_tensor channels img_shape index stage_num
    (stage_options n ims nsl) cop = Ok pb →
  (0 <= index)%Z →
  (index < Z.of_nat n)%Z ∧ pool_n_blocks pb = Z.of_nat n ∧
  ∃ max_k k_list max_dilation wn k r n_nodes dp rp,
    knn_hyperparameters cop ims n = Ok (max_k, k_list, max_dilation, wn) ∧
    Py.getitem k_list (index + stage_num) = Ok k ∧
    Py.getitem ([16; 8; 4; 2]%Z ++ replicate (n - 4) 1%Z) (index + stage_num) = Ok r ∧
    Py.getitem nsl (index + stage_num) = Ok n_nodes ∧
    (dp == 0)%Q ∧
    pool_blocks pb =
      [(mkPoolGrapher channels r cop img_shape
          (mkPoolDyGraphConv k (Z.min (index / 4 + 1) max_dilation) r cop
             (pooling_rule img_shape ims))
          dp (pooling_rule img_shape ims)
          (product img_shape / product (pooling_rule img_shape ims)) rp,
        mkFFN channels (channels * 4) channels "leakyrelu" dp)].
Proof.
  unfold PoolGNNBlocks_init, stage_options. intros H Hidx.
  cbn [n_size_list img_min_shape set_n_size_list set_img_min_shape OptInit_init
       pool_op_kernel_sizes_len blocks drop_path conv act reduce_ratios
       getattr mbind result_bind] in H.
  rewrite sum_replicate_1 in H.
  destruct (linspace 0 (Z.of_nat n)) as [dpr|] eqn:Edpr; [|done].
  cbn [mbind result_bind] in H. apply linspace_zero in Edpr.
  destruct (Py.getitem (replicate n 1%Z) index) as [n_here|] eqn:En; [|done].
  cbn [mbind result_bind] in H.
  apply getitem_replicate in En as [-> Hrange].
  rewrite slice_to_replicate, sum_replicate_1, Z2Nat.id in H by lia.
  destruct (knn_hyperparameters cop ims n) as [[[[max_k k_list] max_dilation] wn]|] eqn:Ek;
    [|done].
  cbn [mbind result_bind] in H. rewrite range_1 in H.
  cbn [mapM fmap list_fmap mbind result_bind] in H.
  rewrite getitem_0 in H. cbn [mbind result_bind] in H.
  destruct (shift_size_of cop ims) as [shift|] eqn:Eshift; [|done].
  cbn [mbind result_bind] in H.
  destruct (Py.getitem k_list (index + stage_num)) as [k|] eqn:Ekk; [|done].
  cbn [mbind result_bind] in H.
  destruct (Py.getitem ([16; 8; 4; 2]%Z ++ replicate (n - 4) 1%Z) (index + stage_num))
    as [r|] eqn:Er; [|done].
  cbn [mbind result_bind] in H.
  destruct (Py.getitem nsl (index + stage_num)) as [nn|] eqn:Enn; [|done].
  cbn [mbind result_bind] in H.
  destruct (getitem_Q dpr (0 + index)) as [dp|] eqn:Edp; [|done].
  cbn [mbind result_bind] in H.
  apply (getitem_Forall _ _ _ _ Edpr) in Edp.
  destruct (PoolGrapher_init _ _ _ _ _ _ _ _ _ _ _ _) as [g|] eqn:Eg; [|done].
  cbn [mbind result_bind mret result_ret] in H. injection H as <-. simpl.
  split; [lia|]. split; [done|].
  pose proof Eg as Eg'.
  apply PoolGrapher_init_Ok in Eg' as (shp_min & [= <-] & Hc & Hr & Hps & Hgc & Hn).
  unfold PoolGrapher_init in Eg.
  destruct (PoolDyGraphConv_init _ _ _ _ _ _ _) as [pg|]; [|done].
  cbn [iterable mbind result_bind] in Eg.
  destruct (Py.floordiv _ _) as [n'|]; [|done]. cbn [mbind result_bind] in Eg.
  destruct (init_relative_pos _ _ _ _ _ _) as [rp|]; [|done].
  cbn [mbind result_bind] in Eg. injection Eg as <-. simpl in *.
  exists max_k, k_list, max_dilation, wn, k, r, nn, dp, rp.
  split_and!; try done.
  unfold FFN_init. rewrite or_default_times4. cbn [or_default].
  replace (0 + index)%Z with index by lia. subst.
  rewrite pool_size_rule. done.
Qed.

(** What one pass of the loop over the stages builds. *)
Lemma encoder_stage_inv s ic pooled nc np opt cop fps nbs ks strides isl st :
  encoder_stage relative_pos_tensor s ic pooled nc np opt cop fps nbs ks strides isl
    = Ok st →
  ∃ f nb k sv body,
    Py.getitem fps s = Ok f ∧ Py.getitem nbs s = Ok nb ∧ Py.getitem ks s = Ok k ∧
    Py.getitem strides s = Ok sv ∧
    st = (if pooled then Sequential [Pooling sv; body] else body) ∧
    let stride := if pooled then AnInt 1 else sv in
    ((s < nc)%Z ∧ body = StackedResidualBlocks nb cop ic f k stride
     ∨ ((nc <= s < np)%Z ∧ ∃ shp swin,
         Py.getitem isl s = Ok shp ∧
         SwinGNNBlocks_init relative_pos_tensor f shp (s - nc) opt cop = Ok swin ∧
         body = Sequential [StackedResidualBlocks (nb - 1) cop ic f k stride; SwinGNN swin])
     ∨ ((nc <= s)%Z ∧ (np <= s)%Z ∧ ∃ shp pool swin,
         Py.getitem isl s = Ok shp ∧
         PoolGNNBlocks_init relative_pos_tensor f shp (s - np) np opt cop = Ok pool ∧
         SwinGNNBlocks_init relative_pos_tensor f shp (s - nc) opt cop = Ok swin ∧
         body = Sequential [StackedResidualBlocks (nb - 1) cop ic f k stride;
                            PoolGNN pool; SwinGNN swin])).
Proof.
  unfold encoder_stage. intros H.
  destruct (Z.ltb_spec s nc); [|destruct (Z.ltb_spec s np)].
  all: destruct pooled; invert_result.
  all: eexists _, _, _, _, _; split_and!; try done; cbv zeta.
  all: first [ left; split; [lia|reflexivity]
             | right; left; split;
               [lia|eexists _, _; split_and!; [reflexivity|eassumption|reflexivity]]
             | right; right; split_and!;
               [lia|lia|eexists _, _, _; split_and!;
                        [reflexivity|eassumption|eassumption|reflexivity]] ].
Qed.

Lemma encoder_stages_lookup ss : ∀ ic pooled nc np opt cop fps nbs ks strides isl stages,
  encoder_stages relative_pos_tensor ss ic pooled nc np opt cop fps nbs ks strides isl
    = Ok stages →
  length stages = length ss ∧
  ∀ i s st, ss !! i = Some s → stages !! i = Some st →
    ∃ ic', match i with
           | 0 => ic' = ic
           | S j => ∃ s', ss !! j = Some s' ∧ Py.getitem fps s' = Ok ic'
           end ∧
           encoder_stage relative_pos_tensor s ic' pooled nc np opt cop fps nbs ks
             strides isl = Ok st.
Proof.
  induction ss as [|s0 ss IH]; intros ic pooled nc np opt cop fps nbs ks strides isl stages H;
    simpl in H.
  - injection H as <-. split; [done|]. intros i s st Hi. done.
  - destruct (encoder_stage _ _ _ _ _ _ _ _ _ _ _ _ _) as [st0|] eqn:Est; [|done].
    cbn [mbind result_bind] in H.
    destruct (Py.getitem fps s0) as [ic0|] eqn:Eic; [|done]. cbn [mbind result_bind] in H.
    destruct (encoder_stages _ _ _ _ _ _ _ _ _ _ _ _ _) as [sts|] eqn:Ests; [|done].
    cbn [mbind result_bind] in H. injection H as <-.
    apply IH in Ests as [Hlen Hsts]. split; [simpl; by rewrite Hlen|].
    intros [|i] s st Hs Hst; simpl in Hs, Hst.
    + injection Hs as <-. injection Hst as <-. by exists ic.
    + destruct (Hsts i s st Hs Hst) as (ic' & Hic' & Hstage).
      exists ic'. split; [|done].
      destruct i as [|j]; simpl.
      * subst ic'. by exists s0.
      * done.
Qed.

(** What a construction that returned has computed. *)
Lemma NexToU_Encoder_init_inv input_channels patch_size n_stages features_per_stage
    cop kernel_sizes_ strides n_blocks_per_stage conv_bias_ bottleneck_channels
    return_skips_ disable_default_stem stem_channels pool_type enc :
  NexToU_Encoder_init relative_pos_tensor get_matching_pool_op
    maybe_convert_scalar_to_list input_channels patch_size n_stages
    features_per_stage cop kernel_sizes_ strides n_blocks_per_stage conv_bias_
    bottleneck_channels return_skips_ disable_default_stem stem_channels pool_type
  = Ok enc →
  let fps := per_stage id features_per_stage n_stages in
  let nbs := per_stage id n_blocks_per_stage n_stages in
  let ks := per_stage AnInt kernel_sizes_ n_stages in
  let sts := per_stage AnInt strides n_stages in
  ∃ isl nsl ims ic',
    len fps = n_stages ∧ len nbs = n_stages ∧ len ks = n_stages ∧ len sts = n_stages ∧
    encoder_img_shapes cop patch_size sts = Ok (isl, nsl, ims) ∧
    enc_opt enc = stage_options (length sts) ims nsl ∧
    output_channels enc = fps ∧ kernel_sizes enc = ks ∧ enc_conv_op enc = cop ∧
    conv_bias enc = conv_bias_ ∧ return_skips enc = return_skips_ ∧
    mapM (maybe_convert_scalar_to_list cop) sts = Ok (enc_strides enc) ∧
    (if disable_default_stem then enc_stem enc = None ∧ ic' = input_channels
     else ∃ k0, Py.getitem ks 0 = Ok k0 ∧
                match stem_channels with
                | Some c => ic' = c
                | None => Py.getitem fps 0 = Ok ic'
                end ∧
                enc_stem enc =
                  Some (StackedConvBlocks 1 cop input_channels ic' k0 (AnInt 1))) ∧
    encoder_stages relative_pos_tensor (Py.range n_stages) ic'
      (bool_decide (pool_type ≠ "conv")) (n_stages - 4 - 0) (n_stages - 4)
      (stage_options (length sts) ims nsl) cop fps nbs ks sts isl
    = Ok (enc_stages enc).
Proof.
  unfold NexToU_Encoder_init. intros H.
  repeat match type of H with
  | (py_assert ?c ≫= _) = Ok _ =>
      destruct c eqn:?; [cbn [py_assert mbind result_bind] in H|done]
  end.
  match type of H with
  | (?m ≫= _) = Ok _ => destruct m as [pooled|] eqn:Epool; [|done]
  end.
  cbn [mbind result_bind] in H.
  destruct (encoder_img_shapes cop patch_size (per_stage AnInt strides n_stages))
    as [[[isl nsl] ims]|] eqn:Eshapes; [|done].
  cbn [mbind result_bind] in H.
  match type of H with
  | (?m ≫= _) = Ok _ => destruct m as [[stem ic']|] eqn:Estem; [|done]
  end.
  cbn [mbind result_bind] in H.
  match type of H with
  | (?m ≫= _) = Ok _ => destruct m as [stages|] eqn:Estages; [|done]
  end.
  cbn [mbind result_bind] in H.
  match type of H with
  | (?m ≫= _) = Ok _ => destruct m as [strides'|] eqn:Estrides; [|done]
  end.
  cbn [mbind result_bind] in H. injection H as <-. cbv zeta. simpl.
  assert (pooled = bool_decide (pool_type ≠ "conv")) as Hpooled.
  { destruct (decide (pool_type ≠ "conv")) as [Hpt|Hpt].
    - rewrite bool_decide_eq_true_2 by done.
      destruct (get_matching_pool_op cop pool_type); [|done]. by injection Epool.
    - rewrite bool_decide_eq_false_2 by done. by injection Epool. }
  exists isl, nsl, ims, ic'. rewrite <-Hpooled.
  split_and!; try done; try (by apply Z.eqb_eq).
  destruct disable_default_stem.
  - by injection Estem as <- <-.
  - destruct stem_channels as [c|]; invert_result; eexists; split_and!; done.
Qed.

Lemma NexToU_Encoder_init_lengths input_channels patch_size n_stages features_per_stage
    cop kernel_sizes_ strides n_blocks_per_stage conv_bias_ bottleneck_channels
    return_skips_ disable_default_stem stem_channels pool_type enc :
  NexToU_Encoder_init relative_pos_tensor get_matching_pool_op
    maybe_convert_scalar_to_list input_channels patch_size n_stages
    features_per_stage cop kernel_sizes_ strides n_blocks_per_stage conv_bias_
    bottleneck_channels return_skips_ disable_default_stem stem_channels pool_type
  = Ok enc →
  length (enc_stages enc) = Z.to_nat n_stages ∧
  length (output_channels enc) = Z.to_nat n_stages ∧
  return_skips enc = return_skips_.
Proof.
  intros Hinit.
  apply NexToU_Encoder_init_inv in Hinit
    as (isl & nsl & ims & ic' & Hfps & _ & _ & _ & _ & _ & Hout & _ & _ & _ & Hrs & _ & _
        & Hstages).
  apply encoder_stages_lookup in Hstages as [Hlen _].
  split_and!; [|rewrite Hout; unfold len in Hfps; lia|done].
  rewrite Hlen. unfold Py.range. by rewrite length_seqZ.
Qed.

(** The neighbourhood sizes of an encoder with a stage. *)
Lemma NexToU_Encoder_init_knn input_channels patch_size n_stages features_per_stage
    cop kernel_sizes_ strides n_blocks_per_stage conv_bias_ bottleneck_channels
    return_skips_ disable_default_stem stem_channels pool_type enc :
  NexToU_Encoder_init relative_pos_tensor get_matching_pool_op
    maybe_convert_scalar_to_list input_channels patch_size n_stages
    features_per_stage cop kernel_sizes_ strides n_blocks_per_stage conv_bias_
    bottleneck_channels return_skips_ disable_default_stem stem_channels pool_type
  = Ok enc →
  (1 <= n_stages)%Z →
  (4 <= n_stages)%Z ∧ len (per_stage AnInt strides n_stages) = n_stages ∧
  ∃ isl nsl ims max_k k_list max_dilation wn,
    encoder_img_shapes cop patch_size (per_stage AnInt strides n_stages)
      = Ok (isl, nsl, ims) ∧
    enc_opt enc = stage_options (length (per_stage AnInt strides n_stages)) ims nsl ∧
    knn_hyperparameters cop ims (Z.to_nat n_stages)
      = Ok (max_k, k_list, max_dilation, wn).
Proof.
  intros Hinit Hn.
  apply NexToU_Encoder_init_inv in Hinit
    as (isl & nsl & ims & ic' & Hfps & Hnbs & Hks & Hsts & Hshapes & Hopt & _ & _ & _ & _ & _
        & _ & _ & Hstages).
  apply encoder_stages_lookup in Hstages as [Hlen Hlook].
  assert (length (Py.range n_stages) = Z.to_nat n_stages) as Hlr
    by (unfold Py.range; by rewrite length_seqZ).
  rewrite Hlr in Hlen.
  destruct (lookup_lt_is_Some_2 (enc_stages enc) (Z.to_nat n_stages - 1)) as [st Hst];
    [lia|].
  assert (Py.range n_stages !! (Z.to_nat n_stages - 1) = Some (n_stages - 1)%Z) as Hs.
  { unfold Py.range. rewrite lookup_seqZ. split; lia. }
  destruct (Hlook _ _ _ Hs Hst) as (ic'' & _ & Hstage).
  apply encoder_stage_inv in Hstage
    as (f & nb & k & sv & body & _ & _ & _ & _ & _ & Hbody).
  cbv zeta in Hbody.
  destruct Hbody as [[? _]|[[? _]|(_ & _ & shp & pool & swin & _ & Hpool & _)]]; [lia|lia|].
  apply PoolGNNBlocks_init_stage in Hpool
    as (Hidx & _ & max_k & k_list & md & wn & k' & r & nn & dp & rp & Hknn & _); [|lia].
  assert (length (per_stage AnInt strides n_stages) = Z.to_nat n_stages) as Hl
    by (unfold len in Hsts; lia).
  rewrite Hl in Hidx, Hknn.
  split; [lia|]. split; [done|].
  by exists isl, nsl, ims, max_k, k_list, md, wn.
Qed.

Lemma product_nonneg l : Forall (λ s, 0 <= s)%Z l → (0 <= product l)%Z.
Proof. induction 1; simpl; lia. Qed.

(** Property X8: what [NexToU_Encoder.__init__] needs in order to return
    with at least one stage: four stages or more, since the graph blocks of
    the last stage read [opt.blocks], which has one entry for each stage,
    at the index 3; [strides] given as a sequence of that length; and a
    smallest feature map that has the dimension of the convolution and is
    not too small for the neighbourhood sizes: the product of its extents
    is at least 8 in two and at least 24 in three dimensions, or it is
    negative, which no extent that is negative rules out. *)
Theorem NexToU_Encoder_init_requires input_channels patch_size n_stages features_per_stage
    cop kernel_sizes_ strides n_blocks_per_stage conv_bias_ bottleneck_channels
    return_skips_ disable_default_stem stem_channels pool_type enc :
  NexToU_Encoder_init relative_pos_tensor get_matching_pool_op
    maybe_convert_scalar_to_list input_channels patch_size n_stages
    features_per_stage cop kernel_sizes_ strides n_blocks_per_stage conv_bias_
    bottleneck_channels return_skips_ disable_default_stem stem_channels pool_type
  = Ok enc →
  (1 <= n_stages)%Z →
  (4 <= n_stages)%Z ∧
  (∃ l, strides = ASeq l ∧ len l = n_stages) ∧
  ∃ ims,
    img_min_shape (enc_opt enc) = Some ims ∧ ¬ too_small cop ims ∧
    (cop = Conv2d ∧ length ims = 2 ∧
       (product ims < 0 ∨ 8 <= product ims)%Z ∧
       (Forall (λ s, 0 <= s)%Z ims → (8 <= product ims)%Z)
     ∨ cop = Conv3d ∧ length ims = 3 ∧
       (product ims < 0 ∨ 24 <= product ims)%Z ∧
       (Forall (λ s, 0 <= s)%Z ims → (24 <= product ims)%Z)).
Proof.
  intros Hinit Hn.
  destruct (NexToU_Encoder_init_knn _ _ _ _ _ _ _ _ _ _ _ _ _ _ _ Hinit Hn)
    as (H4 & Hsts & isl & nsl & ims & max_k & k_list & md & wn & Hshapes & Hopt & Hknn).
  split; [done|]. split.
  - destruct strides as [z|l]; [|by exists l].
    exfalso. apply encoder_img_shapes_Ok in Hshapes as (Hc & _ & Hok & _).
    simpl in Hok. destruct (Z.to_nat n_stages) as [|[|m]] eqn:Em; [lia|lia|].
    simpl in Hok. inversion Hok as [|? ? (l & Hl' & _) _]. done.
  - assert (¬ too_small cop ims) as Hsmall.
    { intros Hsmall.
      rewrite knn_hyperparameters_too_small in Hknn; [done|lia|done]. }
    exists ims. split; [by rewrite Hopt|]. split; [done|].
    destruct (knn_hyperparameters_Ok _ _ _ _ _ _ _ Hknn)
      as (max_num & min_k & m & [(-> & Hl & _)|(-> & Hl & _)] & _); [left|right].
    + assert (product ims < 0 ∨ 8 <= product ims)%Z as Hp.
      { destruct (Z.lt_ge_cases (product ims) 0) as [Hneg|Hpos]; [by left|].
        destruct (Z.lt_ge_cases (product ims) 8) as [Hlt|Hge]; [|by right].
        exfalso. apply Hsmall. left. split_and!; [done|done|lia|lia]. }
      split; [done|]. split; [done|]. split; [done|].
      intros Hnn%product_nonneg. lia.
    + assert (product ims < 0 ∨ 24 <= product ims)%Z as Hp.
      { destruct (Z.lt_ge_cases (product ims) 0) as [Hneg|Hpos]; [by left|].
        destruct (Z.lt_ge_cases (product ims) 24) as [Hlt|Hge]; [|by right].
        exfalso. apply Hsmall. right. split_and!; [done|done|lia|lia]. }
      split; [done|]. split; [done|]. split; [done|].
      intros Hnn%product_nonneg. lia.
Qed.

Lemma SwinGNNBlocks_init_plain channels img_shape index n ims nsl cop sb :
  SwinGNNBlocks_init relative_pos_tensor channels img_shape index
    (stage_options n ims nsl) cop = Ok sb →
  (0 <= index <= 3)%Z → plain_swin_blocks sb.
Proof.
  intros H Hidx.
  apply SwinGNNBlocks_init_stage in H
    as (_ & _ & max_k & k_list & md & wn & k & dp & shift & rp & _ & _ & Hdp & _ & Hb);
    [|lia].
  eexists _, _. split; [exact Hb|]. simpl. split_and!; [|done|done].
  replace (index / 4)%Z with 0%Z by (symmetry; apply Z.div_small; lia). lia.
Qed.

Lemma PoolGNNBlocks_init_plain channels img_shape index stage_num n ims nsl cop pb :
  PoolGNNBlocks_init relative_pos_tensor channels img_shape index stage_num
    (stage_options n ims nsl) cop = Ok pb →
  (0 <= index <= 3)%Z → plain_pool_blocks pb.
Proof.
  intros H Hidx.
  apply PoolGNNBlocks_init_stage in H
    as (_ & _ & max_k & k_list & md & wn & k & r & nn & dp & rp & _ & _ & _ & _ & Hdp & Hb);
    [|lia].
  eexists _, _. split; [exact Hb|]. simpl. split_and!; [|done|done].
  replace (index / 4)%Z with 0%Z by (symmetry; apply Z.div_small; lia). lia.
Qed.

Lemma encoder_stage_plain s ic pooled n ks_len ims nsl cop fps nbs ks strides isl st :
  encoder_stage relative_pos_tensor s ic pooled (n - 4 - 0) (n - 4)
    (stage_options ks_len ims nsl) cop fps nbs ks strides isl = Ok st →
  (0 <= s < n)%Z →
  Forall plain_swin_blocks (swin_gnn_blocks st) ∧
  Forall plain_pool_blocks (pool_gnn_blocks st).
Proof.
  intros H Hs.
  apply encoder_stage_inv in H as (f & nb & k & sv & body & _ & _ & _ & _ & -> & Hbody).
  cbv zeta in Hbody.
  destruct Hbody as [[_ ->]|[[? _]|(_ & ? & shp & pool & swin & _ & Hpool & Hswin & ->)]];
    [|lia|].
  - destruct pooled; simpl; split; constructor.
  - apply SwinGNNBlocks_init_plain in Hswin; [|lia].
    apply PoolGNNBlocks_init_plain in Hpool; [|lia].
    destruct pooled; simpl; split; repeat constructor; done.
Qed.

Lemma decoder_stage_inv s (encoder : @NexToU_Encoder embedding) n nc np opt ncs num_classes_
    isl b :
  decoder_stage relative_pos_tensor s encoder n nc np opt ncs num_classes_ isl = Ok b →
  ∃ below skip stride nb k stage,
    Py.getitem (output_channels encoder) (- s) = Ok below ∧
    Py.getitem (output_channels encoder) (- (s + 1)) = Ok skip ∧
    Py.getitem (enc_strides encoder) (- s) = Ok stride ∧
    Py.getitem ncs (s - 1) = Ok nb ∧
    Py.getitem (kernel_sizes encoder) (- (s + 1)) = Ok k ∧
    b = (TransposedConv below skip stride stride, stage, SegLayer skip num_classes_) ∧
    (((s < n - np)%Z ∧ ∃ shp pool swin,
        Py.getitem isl (n - (s + 1)) = Ok shp ∧
        PoolGNNBlocks_init relative_pos_tensor skip shp (n - np - (s + 1)) np opt
          (enc_conv_op encoder) = Ok pool ∧
        SwinGNNBlocks_init relative_pos_tensor skip shp (n - nc - (s + 1)) opt
          (enc_conv_op encoder) = Ok swin ∧
        stage = Sequential [StackedResidualBlocks (nb - 1) (enc_conv_op encoder)
                              (2 * skip) skip k (AnInt 1); PoolGNN pool; SwinGNN swin])
     ∨ ((n - np <= s < n - nc)%Z ∧ ∃ shp swin,
        Py.getitem isl (n - (s + 1)) = Ok shp ∧
        SwinGNNBlocks_init relative_pos_tensor skip shp (n - nc - (s + 1)) opt
          (enc_conv_op encoder) = Ok swin ∧
        stage = Sequential [StackedResidualBlocks (nb - 1) (enc_conv_op encoder)
                              (2 * skip) skip k (AnInt 1); SwinGNN swin])
     ∨ ((n - np <= s)%Z ∧ (n - nc <= s)%Z ∧
        stage = StackedResidualBlocks nb (enc_conv_op encoder) (2 * skip) skip k (AnInt 1))).
Proof.
  unfold decoder_stage. intros H.
  destruct (Z.ltb_spec s (n - np)); [|destruct (Z.ltb_spec s (n - nc))].
  all: invert_result.
  all: eexists _, _, _, _, _, _; split_and!; try done.
  all: first [ left; split;
               [lia|eexists _, _, _; split_and!;
                    [reflexivity|eassumption|eassumption|reflexivity]]
             | right; left; split;
               [lia|eexists _, _; split_and!; [reflexivity|eassumption|reflexivity]]
             | right; right; split_and!; [lia|lia|reflexivity] ].
Qed.

Lemma decoder_stage_plain s (encoder : @NexToU_Encoder embedding) n ks_len ims nsl ncs
    num_classes_ isl t st sg :
  decoder_stage relative_pos_tensor s encoder n (n - 4 - 0) (n - 4)
    (stage_options ks_len ims nsl) ncs num_classes_ isl = Ok (t, st, sg) →
  (1 <= s)%Z →
  Forall plain_swin_blocks (swin_gnn_blocks st) ∧
  Forall plain_pool_blocks (pool_gnn_blocks st).
Proof.
  intros H Hs.
  apply decoder_stage_inv in H
    as (below & skip & stride & nb & k & stage & _ & _ & _ & _ & _ & [= -> -> ->] & Hstage).
  destruct Hstage
    as [(? & shp & pool & swin & _ & Hpool & Hswin & ->)|[[? _]|(_ & _ & ->)]]; [|lia|].
  - apply SwinGNNBlocks_init_plain in Hswin; [|lia].
    apply PoolGNNBlocks_init_plain in Hpool; [|lia].
    simpl; split; repeat constructor; done.
  - simpl; split; constructor.
Qed.

(** Property X9: every group of graph blocks of an encoder and of a
    decoder that were constructed holds exactly one block, whose graph
    convolution has a dilation of at most 1 and whose stochastic depth, as
    that of its feed-forward network, has the rate 0. *)
Theorem gnn_blocks_are_plain input_channels patch_size n_stages features_per_stage
    cop kernel_sizes_ strides n_blocks_per_stage conv_bias_ bottleneck_channels
    return_skips_ disable_default_stem stem_channels pool_type enc
    (encoder : @NexToU_Encoder embedding) patch_size' strides' num_classes_
    n_conv_per_stage deep_supervision_ dec :
  NexToU_Encoder_init relative_pos_tensor get_matching_pool_op
    maybe_convert_scalar_to_list input_channels patch_size n_stages
    features_per_stage cop kernel_sizes_ strides n_blocks_per_stage conv_bias_
    bottleneck_channels return_skips_ disable_default_stem stem_channels pool_type
  = Ok enc →
  NexToU_Decoder_init relative_pos_tensor get_matching_convtransp encoder
    patch_size' strides' num_classes_ n_conv_per_stage deep_supervision_ = Ok dec →
  Forall (λ st, Forall plain_swin_blocks (swin_gnn_blocks st) ∧
                Forall plain_pool_blocks (pool_gnn_blocks st))
    (enc_stages enc ++ dec_stages dec).
Proof.
  intros Henc Hdec. apply Forall_app. split.
  - apply NexToU_Encoder_init_inv in Henc
      as (isl & nsl & ims & ic' & _ & _ & _ & _ & _ & _ & _ & _ & _ & _ & _ & _ & _ & Hstages).
    apply encoder_stages_lookup in Hstages as [Hlen Hlook].
    apply Forall_lookup. intros i st Hst.
    destruct (lookup_lt_is_Some_2 (Py.range n_stages) i) as [s Hs].
    { rewrite <-Hlen. by eapply lookup_lt_Some. }
    destruct (Hlook _ _ _ Hs Hst) as (ic'' & _ & Hstage).
    apply encoder_stage_plain in Hstage; [done|].
    unfold Py.range in Hs. apply lookup_seqZ in Hs. lia.
  - apply NexToU_Decoder_init_Ok in Hdec
      as (strides_l & isl & nsl & ims & built & _ & _ & _ & _ & _ & _ & -> & Hbuilt).
    apply Forall_fmap, Forall_lookup. intros i [[t st] sg] Hb. simpl.
    destruct (Forall2_lookup_r _ _ _ _ _ Hbuilt Hb) as (s & Hs & Hstage).
    apply decoder_stage_plain in Hstage; [done|].
    apply range2_lookup in Hs. lia.
Qed.

Lemma SwinGNNBlocks_init_channels channels img_shape index n ims nsl cop sb :
  SwinGNNBlocks_init relative_pos_tensor channels img_shape index
    (stage_options n ims nsl) cop = Ok sb →
  (0 <= index)%Z → swin_channels channels sb.
Proof.
  intros H Hidx.
  apply SwinGNNBlocks_init_stage in H
    as (_ & _ & max_k & k_list & md & wn & k & dp & shift & rp & _ & _ & Hdp & _ & Hb);
    [|lia].
  unfold swin_channels. rewrite Hb. by repeat constructor.
Qed.

Lemma PoolGNNBlocks_init_channels channels img_shape index stage_num n ims nsl cop pb :
  PoolGNNBlocks_init relative_pos_tensor channels img_shape index stage_num
    (stage_options n ims nsl) cop = Ok pb →
  (0 <= index)%Z → pool_channels channels pb.
Proof.
  intros H Hidx.
  apply PoolGNNBlocks_init_stage in H
    as (_ & _ & max_k & k_list & md & wn & k & r & nn & dp & rp & _ & _ & _ & _ & Hdp & Hb);
    [|lia].
  unfold pool_channels. rewrite Hb. by repeat constructor.
Qed.

(** Property X10: how [NexToU_Encoder.__init__] wires the stages.  There
    is one stage for each of [n_stages]; stage [j] starts with residual
    blocks from the output channels of the stage before it (of the stem,
    or the input channels, for the first) to [features_per_stage[j]], and
    its graph blocks work on [features_per_stage[j]] channels; the last
    four stages give one of their [n_blocks_per_stage[j]] residual blocks
    away to the graph blocks; with [pool_type = 'conv'] the residual blocks
    carry the stride of the stage, otherwise a pooling with that stride
    precedes them and they have stride 1. *)
Theorem encoder_wiring input_channels patch_size n_stages features_per_stage
    cop kernel_sizes_ strides n_blocks_per_stage conv_bias_ bottleneck_channels
    return_skips_ disable_default_stem stem_channels pool_type enc :
  NexToU_Encoder_init relative_pos_tensor get_matching_pool_op
    maybe_convert_scalar_to_list input_channels patch_size n_stages
    features_per_stage cop kernel_sizes_ strides n_blocks_per_stage conv_bias_
    bottleneck_channels return_skips_ disable_default_stem stem_channels pool_type
  = Ok enc →
  length (enc_stages enc) = Z.to_nat n_stages ∧
  output_channels enc = per_stage id features_per_stage n_stages ∧
  ∀ (j : nat) st, enc_stages enc !! j = Some st →
    ∃ nb cin cout k stride nbj sv,
      residual_part st = Some (StackedResidualBlocks nb cop cin cout k stride) ∧
      (* channels *)
      output_channels enc !! j = Some cout ∧
      match j with
      | 0 => match enc_stem enc with
             | Some (StackedConvBlocks _ _ _ c _ _) => cin = c
             | _ => cin = input_channels
             end
      | S j' => output_channels enc !! j' = Some cin
      end ∧
      Forall (swin_channels cout) (swin_gnn_blocks st) ∧
      Forall (pool_channels cout) (pool_gnn_blocks st) ∧
      (* depth of the residual part *)
      per_stage id n_blocks_per_stage n_stages !! j = Some nbj ∧
      nb = (if (Z.of_nat j <? n_stages - 4)%Z then nbj else nbj - 1)%Z ∧
      (* where the stride goes *)
      per_stage AnInt strides n_stages !! j = Some sv ∧
      (if decide (pool_type = "conv") then st = stage_body st ∧ stride = sv
       else st = Sequential [Pooling sv; stage_body st] ∧ stride = AnInt 1).
Proof.
  intros Hinit.
  apply NexToU_Encoder_init_inv in Hinit
    as (isl & nsl & ims & ic' & Hfps & Hnbs & Hks & Hsts & Hshapes & Hopt & Hout & _ & _ & _
        & _ & _ & Hstem & Hstages).
  apply encoder_stages_lookup in Hstages as [Hlen Hlook].
  assert (length (Py.range n_stages) = Z.to_nat n_stages) as Hlr
    by (unfold Py.range; by rewrite length_seqZ).
  split; [by rewrite Hlen|]. split; [done|].
  intros j st Hst.
  destruct (lookup_lt_is_Some_2 (Py.range n_stages) j) as [s Hs].
  { rewrite <-Hlen. by eapply lookup_lt_Some. }
  destruct (Hlook _ _ _ Hs Hst) as (ic'' & Hic & Hstage).
  pose proof Hs as Hs'. apply range_lookup in Hs' as ->.
  apply encoder_stage_inv in Hstage
    as (f & nb & k & sv & body & Hf & Hnb & Hk & Hsv & -> & Hbody).
  cbv zeta in Hbody.
  apply getitem_nat_Ok in Hf, Hnb, Hsv.
  assert (Hcin : match j with
      | 0 => match enc_stem enc with
             | Some (StackedConvBlocks _ _ _ c _ _) => ic'' = c
             | _ => ic'' = input_channels
             end
      | S j' => output_channels enc !! j' = Some ic''
      end).
  { destruct j as [|j'].
    - subst ic''. destruct disable_default_stem.
      + destruct Hstem as [-> ->]. done.
      + destruct Hstem as (k0 & _ & _ & ->). done.
    - destruct Hic as (s' & Hs'' & Hic). pose proof Hs'' as Hr.
      apply range_lookup in Hr as ->. apply getitem_nat_Ok in Hic. by rewrite Hout. }
  assert (Hpool : bool_decide (pool_type ≠ "conv") = if decide (pool_type = "conv")
                                                   then false else true).
  { destruct (decide (pool_type = "conv")) as [->|Hne].
    - apply bool_decide_eq_false_2. intros Hc. by apply Hc.
    - by apply bool_decide_eq_true_2. }
  rewrite Hpool in *. clear Hpool.
  destruct Hbody as [[Hlt ->]|[[? _]|(_ & Hge & shp & pool & swin & _ & Hpool & Hswin & ->)]];
    [|lia|].
  - exists nb, ic'', f, k, (if decide (pool_type = "conv") then sv else AnInt 1), nb, sv.
    destruct (Z.ltb_spec (Z.of_nat j) (n_stages - 4)); [|lia].
    rewrite Hout in *.
    case_decide; simpl; split_and!; try done; constructor.
  - exists (nb - 1)%Z, ic'', f, k, (if decide (pool_type = "conv") then sv else AnInt 1),
      nb, sv.
    destruct (Z.ltb_spec (Z.of_nat j) (n_stages - 4)); [lia|].
    apply SwinGNNBlocks_init_channels in Hswin; [|lia].
    apply PoolGNNBlocks_init_channels in Hpool; [|lia].
    rewrite Hout in *.
    case_decide; simpl; split_and!; try done; repeat constructor; done.
Qed.

Lemma NexToU_Decoder_init_inv (encoder : @NexToU_Encoder embedding) patch_size strides
    num_classes_ n_conv_per_stage deep_supervision_ dec :
  NexToU_Decoder_init relative_pos_tensor get_matching_convtransp encoder patch_size
    strides num_classes_ n_conv_per_stage deep_supervision_ = Ok dec →
  let n := len (output_channels encoder) in
  ∃ strides_l isl nsl ims built,
    strides = ASeq strides_l ∧
    len (per_stage id n_conv_per_stage (n - 1)) = (n - 1)%Z ∧
    decoder_img_shapes encoder patch_size strides_l = Ok (isl, nsl, ims) ∧
    dec_opt dec = stage_options (length strides_l) ims nsl ∧
    deep_supervision dec = deep_supervision_ ∧ dec_encoder dec = encoder ∧
    num_classes dec = num_classes_ ∧
    dec_stages dec = (λ b, b.1.2) <$> built ∧
    transpconvs dec = (λ b, b.1.1) <$> built ∧
    seg_layers dec = (λ b, b.2) <$> built ∧
    Forall2 (λ s b,
        decoder_stage relative_pos_tensor s encoder n (n - 4 - 0) (n - 4)
          (stage_options (length strides_l) ims nsl)
          (per_stage id n_conv_per_stage (n - 1)) num_classes_ isl = Ok b)
      (Py.range2 1 n) built.
Proof.
  unfold NexToU_Decoder_init. intros H.
  match type of H with
  | (py_assert ?c ≫= _) = Ok _ =>
      destruct c eqn:Hassert; [cbn [py_assert mbind result_bind] in H|done]
  end.
  destruct_bind H.
  destruct strides as [z|strides_l]; [done|]. cbn [mbind result_bind] in H.
  destruct (decoder_img_shapes encoder patch_size strides_l)
    as [[[isl nsl] ims]|] eqn:Eshapes; [|done].
  cbn [mbind result_bind] in H.
  match type of H with
  | (?m ≫= _) = Ok _ => destruct m as [built|] eqn:Ebuilt; [|done]
  end.
  cbn [mbind result_bind] in H. injection H as <-. cbv zeta. simpl.
  exists strides_l, isl, nsl, ims, built. split_and!; try done.
  - by apply Z.eqb_eq.
  - by apply mapM_Ok.
Qed.

Lemma NexToU_Decoder_init_lengths (encoder : @NexToU_Encoder embedding) patch_size strides
    num_classes_ n_conv_per_stage deep_supervision_ dec :
  NexToU_Decoder_init relative_pos_tensor get_matching_convtransp encoder patch_size
    strides num_classes_ n_conv_per_stage deep_supervision_ = Ok dec →
  length (dec_stages dec) = length (output_channels encoder) - 1 ∧
  length (transpconvs dec) = length (output_channels encoder) - 1 ∧
  length (seg_layers dec) = length (output_channels encoder) - 1 ∧
  deep_supervision dec = deep_supervision_.
Proof.
  intros Hinit.
  apply NexToU_Decoder_init_inv in Hinit
    as (strides_l & isl & nsl & ims & built & _ & _ & _ & _ & Hdeep & _ & _ & Hst & Htc & Hsg
        & Hbuilt).
  assert (length built = length (output_channels encoder) - 1) as Hlb.
  { rewrite <-(Forall2_length _ _ _ Hbuilt). unfold Py.range2, len.
    rewrite length_seqZ. lia. }
  by rewrite Hst, Htc, Hsg, !length_fmap.
Qed.

(** Property X11: how [NexToU_Decoder.__init__] wires the stages.  There
    is one stage, one transposed convolution and one segmentation layer for
    every stage of the encoder but the last; the transposed convolution of
    stage [i] goes from the channels of the encoder stage below to those of
    the skip, with the stride of the encoder stage below as kernel and as
    stride; the residual blocks take twice the channels of the skip and
    return them; the graph blocks work on them; the segmentation layer
    maps them to [num_classes]; and the first three stages give one of
    their [n_conv_per_stage[i]] blocks away to the graph blocks. *)
Theorem decoder_wiring (encoder : @NexToU_Encoder embedding) patch_size strides
    num_classes_ n_conv_per_stage deep_supervision_ dec :
  NexToU_Decoder_init relative_pos_tensor get_matching_convtransp encoder patch_size
    strides num_classes_ n_conv_per_stage deep_supervision_ = Ok dec →
  let n := length (output_channels encoder) in
  length (dec_stages dec) = n - 1 ∧
  length (transpconvs dec) = n - 1 ∧
  length (seg_layers dec) = n - 1 ∧
  ∀ (i : nat) st, dec_stages dec !! i = Some st →
    ∃ below skip stride nb k nbi,
      (* the transposed convolution, the skip and the segmentation layer *)
      i + 2 ≤ n ∧
      output_channels encoder !! (n - 1 - i) = Some below ∧
      output_channels encoder !! (n - 2 - i) = Some skip ∧
      enc_strides encoder !! (length (enc_strides encoder) - 1 - i) = Some stride ∧
      transpconvs dec !! i = Some (TransposedConv below skip stride stride) ∧
      seg_layers dec !! i = Some (SegLayer skip num_classes_) ∧
      (* the stage takes the upsampled map and the skip, and returns the
         channels of the skip *)
      residual_part st =
        Some (StackedResidualBlocks nb (enc_conv_op encoder) (2 * skip) skip k (AnInt 1)) ∧
      kernel_sizes encoder !! (length (kernel_sizes encoder) - 2 - i) = Some k ∧
      Forall (swin_channels skip) (swin_gnn_blocks st) ∧
      Forall (pool_channels skip) (pool_gnn_blocks st) ∧
      (* depth of the residual part *)
      per_stage id n_conv_per_stage (Z.of_nat n - 1) !! i = Some nbi ∧
      nb = (if decide (i < 3) then (nbi - 1)%Z else nbi).
Proof.
  intros Hinit n.
  apply NexToU_Decoder_init_inv in Hinit
    as (strides_l & isl & nsl & ims & built & _ & _ & _ & _ & _ & _ & _ & Hst & Htc & Hsg
        & Hbuilt).
  fold (len (output_channels encoder)) in *.
  assert (length built = n - 1) as Hlb.
  { rewrite <-(Forall2_length _ _ _ Hbuilt). unfold Py.range2, len.
    rewrite length_seqZ. fold n. lia. }
  rewrite Hst, Htc, Hsg, !length_fmap. split_and!; try done.
  intros i st Hi. rewrite list_lookup_fmap in Hi.
  destruct (built !! i) as [[[t st'] sg]|] eqn:Hb; [|done].
  simpl in Hi. injection Hi as ->.
  destruct (Forall2_lookup_r _ _ _ _ _ Hbuilt Hb) as (s & Hs & Hstage).
  apply range2_lookup in Hs. subst s.
  pose proof (lookup_lt_Some _ _ _ Hb) as Hlt.
  apply decoder_stage_inv in Hstage
    as (below & skip & stride & nb & k & stage & Hbelow & Hskip & Hstride & Hnb & Hk
        & [= -> -> ->] & Hstage).
  replace (- (1 + Z.of_nat i))%Z with (- Z.of_nat (S i))%Z in Hbelow, Hstride by lia.
  replace (- (1 + Z.of_nat i + 1))%Z with (- Z.of_nat (S (S i)))%Z in Hskip, Hk by lia.
  apply getitem_neg_Ok in Hbelow as [_ Hbelow], Hskip as [_ Hskip],
        Hstride as [_ Hstride], Hk as [_ Hk].
  replace (1 + Z.of_nat i - 1)%Z with (Z.of_nat i) in Hnb by lia.
  apply getitem_nat_Ok in Hnb.
  fold n in Hbelow, Hskip.
  replace (n - S i) with (n - 1 - i) in Hbelow by lia.
  replace (n - S (S i)) with (n - 2 - i) in Hskip by lia.
  replace (length (enc_strides encoder) - S i)
    with (length (enc_strides encoder) - 1 - i) in Hstride by lia.
  replace (length (kernel_sizes encoder) - S (S i))
    with (length (kernel_sizes encoder) - 2 - i) in Hk by lia.
  rewrite !list_lookup_fmap, Hb. simpl.
  unfold len in Hstage, Hnb. fold n in Hstage, Hnb.
  destruct Hstage
    as [(Hlt3 & shp & pool & swin & _ & Hpool & Hswin & ->)|[[? _]|(Hge & _ & ->)]]; [|lia|].
  - apply SwinGNNBlocks_init_channels in Hswin; [|lia].
    apply PoolGNNBlocks_init_channels in Hpool; [|lia].
    exists below, skip, stride, (nb - 1)%Z, k, nb.
    rewrite decide_True by lia.
    split_and!; try done; [lia|repeat constructor; done..].
  - exists below, skip, stride, nb, k, nb.
    rewrite decide_False by lia.
    split_and!; try done; [lia|constructor..].
Qed.

(** Property X12: a decoder constructed on an encoder, from the patch size
    and the strides of the encoder, repeats the graph blocks of the
    encoder: each of its first three stages holds one pooled and one
    windowed group of graph blocks, equal to those of the encoder stage
    whose skip it receives. *)
Theorem decoder_mirrors_encoder input_channels patch_size n_stages features_per_stage
    cop kernel_sizes_ strides_l n_blocks_per_stage conv_bias_ bottleneck_channels
    return_skips_ disable_default_stem stem_channels pool_type enc
    num_classes_ n_conv_per_stage deep_supervision_ dec :
  NexToU_Encoder_init relative_pos_tensor get_matching_pool_op
    maybe_convert_scalar_to_list input_channels patch_size n_stages
    features_per_stage cop kernel_sizes_ (ASeq strides_l) n_blocks_per_stage conv_bias_
    bottleneck_channels return_skips_ disable_default_stem stem_channels pool_type
  = Ok enc →
  NexToU_Decoder_init relative_pos_tensor get_matching_convtransp enc patch_size
    (ASeq strides_l) num_classes_ n_conv_per_stage deep_supervision_ = Ok dec →
  ∀ (i j : nat) st_d st_e,
    i + j + 2 = Z.to_nat n_stages → i < 3 →
    dec_stages dec !! i = Some st_d → enc_stages enc !! j = Some st_e →
    (∃ pool, pool_gnn_blocks st_d = [pool] ∧ pool_gnn_blocks st_e = [pool]) ∧
    (∃ swin, swin_gnn_blocks st_d = [swin] ∧ swin_gnn_blocks st_e = [swin]).
Proof.
  intros Henc Hdec i j st_d st_e Hij Hi Hd He.
  apply NexToU_Encoder_init_inv in Henc
    as (isl & nsl & ims & ic' & Hfps & _ & _ & Hsts & Hshapes & _ & Hout & _ & Hcop & _
        & _ & _ & _ & Hstages).
  simpl in Hsts, Hshapes, Hstages.
  apply NexToU_Decoder_init_inv in Hdec
    as (strides_l' & isl' & nsl' & ims' & built & [= <-] & _ & Hshapes' & _ & _ & _ & _
        & Hst & _ & _ & Hbuilt).
  rewrite (decoder_img_shapes_eq relative_pos_tensor), Hcop, Hshapes in Hshapes'.
  injection Hshapes' as <- <- <-.
  rewrite Hout, Hfps in Hbuilt.
  (* the stage of the encoder *)
  apply encoder_stages_lookup in Hstages as [Hlen Hlook].
  destruct (lookup_lt_is_Some_2 (Py.range n_stages) j) as [s Hs].
  { rewrite <-Hlen. by eapply lookup_lt_Some. }
  destruct (Hlook _ _ _ Hs He) as (ic'' & _ & Hstage).
  apply range_lookup in Hs as ->.
  apply encoder_stage_inv in Hstage
    as (f & nb & k & sv & body & Hf & _ & _ & _ & -> & Hbody).
  cbv zeta in Hbody.
  destruct Hbody as [[? _]|[[? _]|(_ & _ & shp & pool & swin & Hshp & Hpool & Hswin & ->)]];
    [lia|lia|].
  (* the stage of the decoder *)
  rewrite Hst, list_lookup_fmap in Hd.
  destruct (built !! i) as [[[t st'] sg]|] eqn:Hb; [|done].
  simpl in Hd. injection Hd as ->.
  destruct (Forall2_lookup_r _ _ _ _ _ Hbuilt Hb) as (s & Hs & Hstage).
  apply range2_lookup in Hs. subst s.
  apply decoder_stage_inv in Hstage
    as (below & skip & stride & nb' & k' & stage & _ & Hskip & _ & _ & _
        & [= -> -> ->] & Hstage).
  destruct Hstage
    as [(_ & shp' & pool' & swin' & Hshp' & Hpool' & Hswin' & ->)|[[? _]|(? & _ & _)]];
    [|lia|lia].
  rewrite Hout in Hskip. rewrite Hcop in Hpool', Hswin'.
  assert (skip = f) as ->.
  { replace (- (1 + Z.of_nat i + 1))%Z with (- Z.of_nat (S (S i)))%Z in Hskip by lia.
    apply getitem_neg_Ok in Hskip as [_ Hskip]. apply getitem_nat_Ok in Hf.
    unfold len in Hfps.
    replace (length (per_stage id features_per_stage n_stages) - S (S i)) with j
      in Hskip by lia.
    congruence. }
  assert (shp' = shp) as ->.
  { replace (n_stages - (1 + Z.of_nat i + 1))%Z with (Z.of_nat j) in Hshp' by lia.
    congruence. }
  replace (n_stages - (n_stages - 4) - (1 + Z.of_nat i + 1))%Z
    with (Z.of_nat j - (n_stages - 4))%Z in Hpool' by lia.
  replace (n_stages - (n_stages - 4 - 0) - (1 + Z.of_nat i + 1))%Z
    with (Z.of_nat j - (n_stages - 4 - 0))%Z in Hswin' by lia.
  rewrite Hpool in Hpool'. rewrite Hswin in Hswin'.
  injection Hpool' as <-. injection Hswin' as <-.
  destruct (bool_decide (pool_type ≠ "conv")); simpl; split; eexists; done.
Qed.

(** Property X13: the hyperparameters of the graph blocks of the encoder.
    In a stage [j] with graph blocks, the pooled block has the neighbourhood
    size [k_list[j]] and the reduction [r] of 16, 8, 4, 2 and then 1 by the
    stage, works on the feature map of the stage, pools it by
    [pooling_rule], and counts as nodes exactly the points that are left;
    the windowed block has the neighbourhood size
    [k_list[j - (n_stages - 4)]] and no reduction, its window is the
    smallest feature map, its shift half of it, and its nodes are the points
    of one window. *)
Theorem encoder_gnn_hyperparameters input_channels patch_size n_stages features_per_stage
    cop kernel_sizes_ strides n_blocks_per_stage conv_bias_ bottleneck_channels
    return_skips_ disable_default_stem stem_channels pool_type enc :
  NexToU_Encoder_init relative_pos_tensor get_matching_pool_op
    maybe_convert_scalar_to_list input_channels patch_size n_stages
    features_per_stage cop kernel_sizes_ strides n_blocks_per_stage conv_bias_
    bottleneck_channels return_skips_ disable_default_stem stem_channels pool_type
  = Ok enc →
  ∃ isl nsl ims max_k k_list max_dilation wn,
    encoder_img_shapes cop patch_size (per_stage AnInt strides n_stages)
      = Ok (isl, nsl, ims) ∧
    ((1 <= n_stages)%Z →
     knn_hyperparameters cop ims (Z.to_nat n_stages)
       = Ok (max_k, k_list, max_dilation, wn)) ∧
    ∀ (j : nat) st, enc_stages enc !! j = Some st → (n_stages - 4 <= Z.of_nat j)%Z →
      ∃ shp k_pool k_swin r pg pf sg sf,
        isl !! j = Some shp ∧ k_list !! j = Some k_pool ∧
        k_list !! (j - (Z.to_nat n_stages - 4)) = Some k_swin ∧
        ([16; 8; 4; 2]%Z ++ replicate (Z.to_nat n_stages - 4) 1%Z) !! j = Some r ∧
        (* the pooled block *)
        pool_gnn_blocks st = [mkPoolGNNBlocks n_stages [(pg, pf)]] ∧
        po_img_shape pg = shp ∧ po_r pg = r ∧ pg_r (po_graph_conv pg) = r ∧
        pg_k (po_graph_conv pg) = k_pool ∧
        po_pool_size pg = pooling_rule shp ims ∧
        pg_pool_size (po_graph_conv pg) = pooling_rule shp ims ∧
        (po_n pg * product (po_pool_size pg) = product shp)%Z ∧
        (* the windowed block *)
        swin_gnn_blocks st = [mkSwinGNNBlocks n_stages [(sg, sf)]] ∧
        sw_img_shape sg = shp ∧ sw_r sg = 1%Z ∧ dg_r (sw_graph_conv sg) = 1%Z ∧
        dg_k (sw_graph_conv sg) = k_swin ∧
        sw_window_size sg = ims ∧
        sw_shift_size sg = (λ w, w / 2)%Z <$> ims ∧
        sw_n sg = product ims.
Proof.
  intros Hinit.
  apply NexToU_Encoder_init_inv in Hinit
    as (isl & nsl & ims & ic' & Hfps & Hnbs & Hks & Hsts & Hshapes & Hopt & _ & _ & _ & _
        & _ & _ & _ & Hstages).
  cbv zeta in *.
  assert (length (per_stage AnInt strides n_stages) = Z.to_nat n_stages) as Hl
    by (unfold len in Hsts; lia).
  rewrite Hl in Hstages.
  apply encoder_stages_lookup in Hstages as [Hlen Hlook].
  assert (length (Py.range n_stages) = Z.to_nat n_stages) as Hlr
    by (unfold Py.range; by rewrite length_seqZ).
  rewrite Hlr in Hlen.
  (* what a stage with graph blocks says *)
  assert (Hstage : ∀ (j : nat) st, enc_stages enc !! j = Some st →
            (n_stages - 4 <= Z.of_nat j)%Z →
            ∃ f shp pool swin,
              isl !! j = Some shp ∧
              PoolGNNBlocks_init relative_pos_tensor f shp (Z.of_nat j - (n_stages - 4))
                (n_stages - 4) (stage_options (Z.to_nat n_stages) ims nsl) cop = Ok pool ∧
              SwinGNNBlocks_init relative_pos_tensor f shp (Z.of_nat j - (n_stages - 4))
                (stage_options (Z.to_nat n_stages) ims nsl) cop = Ok swin ∧
              pool_gnn_blocks st = [pool] ∧ swin_gnn_blocks st = [swin]).
  { intros j st Hst Hj.
    destruct (lookup_lt_is_Some_2 (Py.range n_stages) j) as [s Hs].
    { rewrite Hlr, <-Hlen. by eapply lookup_lt_Some. }
    destruct (Hlook _ _ _ Hs Hst) as (ic'' & _ & Hst').
    apply range_lookup in Hs as ->.
    apply encoder_stage_inv in Hst'
      as (f & nb & k & sv & body & _ & _ & _ & _ & -> & Hbody).
    cbv zeta in Hbody.
    destruct Hbody as [[? _]|[[? _]|(_ & _ & shp & pool & swin & Hshp & Hpool & Hswin & ->)]];
      [lia|lia|].
    apply getitem_nat_Ok in Hshp.
    replace (n_stages - 4 - 0)%Z with (n_stages - 4)%Z in Hswin by lia.
    exists f, shp, pool, swin. split_and!; try done.
    all: by destruct (bool_decide (pool_type ≠ "conv")). }
  (* the neighbourhood sizes *)
  assert (Hknn : ∃ max_k k_list max_dilation wn,
            (1 <= n_stages)%Z →
            (4 <= n_stages)%Z ∧
            knn_hyperparameters cop ims (Z.to_nat n_stages)
              = Ok (max_k, k_list, max_dilation, wn)).
  { destruct (decide (1 <= n_stages)%Z) as [Hn|Hn];
      [|exists 0%Z, [], 0%Z, 0%Z; intros; lia].
    destruct (lookup_lt_is_Some_2 (enc_stages enc) (Z.to_nat n_stages - 1)) as [st Hst];
      [lia|].
    destruct (Hstage _ _ Hst) as (f & shp & pool & swin & _ & Hpool & _); [lia|].
    apply PoolGNNBlocks_init_stage in Hpool
      as (Hidx & _ & max_k & k_list & md & wn & _ & _ & _ & _ & _ & Hknn & _); [|lia].
    exists max_k, k_list, md, wn. intros _. split; [lia|done]. }
  destruct Hknn as (max_k & k_list & md & wn & Hknn).
  exists isl, nsl, ims, max_k, k_list, md, wn. split_and!; [done|intros Hn; by apply Hknn|].
  intros j st Hst Hj.
  assert (4 <= n_stages)%Z as Hn4.
  { apply Hknn. apply lookup_lt_Some in Hst. lia. }
  destruct Hknn as [_ Hknn]; [lia|].
  destruct (Hstage _ _ Hst Hj) as (f & shp & pool & swin & Hshp & Hpool & Hswin & Hpb & Hsb).
  pose proof (lookup_lt_Some _ _ _ Hst) as Hjn.
  apply PoolGNNBlocks_init_stage in Hpool
    as (Hidx & Hnb & max_k' & k_list' & md' & wn' & kp & r & nn & dp & rp & Hknn' & Hkp & Hr
        & _ & _ & Hblocks); [|lia].
  apply SwinGNNBlocks_init_stage in Hswin
    as (_ & Hnb' & max_k'' & k_list'' & md'' & wn'' & ks & dp' & shift & rp' & Hknn'' & Hks'
        & _ & Hshift & Hblocks'); [|lia].
  rewrite Hknn in Hknn', Hknn''.
  injection Hknn' as <- <- <- <-. injection Hknn'' as <- <- <- <-.
  replace (Z.of_nat j - (n_stages - 4) + (n_stages - 4))%Z with (Z.of_nat j) in Hkp, Hr by lia.
  apply getitem_nat_Ok in Hkp, Hr.
  replace (Z.of_nat j - (n_stages - 4))%Z
    with (Z.of_nat (j - (Z.to_nat n_stages - 4))) in Hks' by lia.
  apply getitem_nat_Ok in Hks'.
  assert (length ims = spatial_dims cop) as Hlims.
  { apply knn_hyperparameters_Ok in Hknn.
    destruct Hknn as (? & ? & ? & [(-> & ? & _)|(-> & ? & _)] & _); done. }
  apply shift_size_of_Ok in Hshift; [|lia].
  rewrite <-Hlims, firstn_all in Hshift.
  destruct pool as [pn pbs], swin as [sn sbs].
  cbn [pool_n_blocks pool_blocks swin_n_blocks swin_blocks] in Hnb, Hblocks, Hnb', Hblocks'.
  rewrite Z2Nat.id in Hnb, Hnb' by lia. subst pn pbs sn sbs.
  rewrite Hpb, Hsb.
  eexists shp, kp, ks, r, _, _, _, _.
  split_and!; try reflexivity; try done.
  simpl. apply product_pooling_rule_exact.
Qed.

End network_properties.

Lemma NexToU_Encoder_init_requires_witness :
  ∃ enc,
    example_encoder = Ok enc ∧
    (4 <= 5)%Z ∧
    (∃ l, (ASeq [ASeq [1; 1]; ASeq [2; 2]; ASeq [2; 2]; ASeq [2; 2]; ASeq [2; 2]]%Z) = ASeq l
          ∧ len l = 5%Z) ∧
    ∃ ims,
      img_min_shape (enc_opt enc) = Some ims ∧ ¬ too_small Conv2d ims ∧
      (Conv2d = Conv2d ∧ length ims = 2 ∧
         (product ims < 0 ∨ 8 <= product ims)%Z ∧
         (Forall (λ s, 0 <= s)%Z ims → (8 <= product ims)%Z)
       ∨ Conv2d = Conv3d ∧ length ims = 3 ∧
         (product ims < 0 ∨ 24 <= product ims)%Z ∧
         (Forall (λ s, 0 <= s)%Z ims → (24 <= product ims)%Z)).
Proof.
  eexists. split; [vm_compute; reflexivity|].
  apply (NexToU_Encoder_init_requires (λ _ _ _ _, Ok tt) (λ _ _, Ok tt)
           (λ _ k, Ok (kernel_entries k))
           1 [64; 64]%Z 5 (ASeq [32; 64; 128; 256; 512]%Z) Conv2d (AnInt 3)
           (ASeq [ASeq [1; 1]; ASeq [2; 2]; ASeq [2; 2]; ASeq [2; 2]; ASeq [2; 2]]%Z)
           (AnInt 2) true None true false None "conv" _).
  - vm_compute. reflexivity.
  - lia.
Defined.

Lemma gnn_blocks_are_plain_witness :
  ∃ enc dec,
    example_encoder = Ok enc ∧ example_decoder enc = Ok dec ∧
    Forall (λ st, Forall plain_swin_blocks (swin_gnn_blocks st) ∧
                  Forall plain_pool_blocks (pool_gnn_blocks st))
      (enc_stages enc ++ dec_stages dec).
Proof.
  eexists _, _. split; [vm_compute; reflexivity|].
  split; [vm_compute; reflexivity|].
  match goal with
  | |- Forall _ (enc_stages ?enc ++ _) =>
      apply (gnn_blocks_are_plain (λ _ _ _ _, Ok tt) (λ _ _, Ok tt) (λ _, Ok tt)
           (λ _ k, Ok (kernel_entries k))
           1 [64; 64]%Z 5 (ASeq [32; 64; 128; 256; 512]%Z) Conv2d (AnInt 3)
           (ASeq [ASeq [1; 1]; ASeq [2; 2]; ASeq [2; 2]; ASeq [2; 2]; ASeq [2; 2]]%Z)
           (AnInt 2) true None true false None "conv" _ enc [64; 64]%Z
           (ASeq [ASeq [1; 1]; ASeq [2; 2]; ASeq [2; 2]; ASeq [2; 2]; ASeq [2; 2]]%Z)
           3 (AnInt 2) true _)
  end.
  - vm_compute. reflexivity.
  - vm_compute. reflexivity.
Defined.

Lemma encoder_wiring_witness :
  ∃ enc,
    example_encoder = Ok enc ∧
    length (enc_stages enc) = Z.to_nat 5 ∧
    output_channels enc = per_stage id (ASeq [32; 64; 128; 256; 512]%Z) 5 ∧
    ∀ (j : nat) st, enc_stages enc !! j = Some st →
      ∃ nb cin cout k stride nbj sv,
        residual_part st = Some (StackedResidualBlocks nb Conv2d cin cout k stride) ∧
        output_channels enc !! j = Some cout ∧
        match j with
        | 0 => match enc_stem enc with
               | Some (StackedConvBlocks _ _ _ c _ _) => cin = c
               | _ => cin = 1%Z
               end
        | S j' => output_channels enc !! j' = Some cin
        end ∧
        Forall (swin_channels cout) (swin_gnn_blocks st) ∧
        Forall (pool_channels cout) (pool_gnn_blocks st) ∧
        per_stage id (AnInt 2) 5 !! j = Some nbj ∧
        nb = (if (Z.of_nat j <? 5 - 4)%Z then nbj else nbj - 1)%Z ∧
        per_stage AnInt
            (ASeq [ASeq [1; 1]; ASeq [2; 2]; ASeq [2; 2]; ASeq [2; 2]; ASeq [2; 2]]%Z) 5
          !! j = Some sv ∧
        (if decide ("conv" = "conv") then st = stage_body st ∧ stride = sv
         else st = Sequential [Pooling sv; stage_body st] ∧ stride = AnInt 1).
Proof.
  eexists. split; [vm_compute; reflexivity|].
  apply (encoder_wiring (λ _ _ _ _, Ok tt) (λ _ _, Ok tt) (λ _ k, Ok (kernel_entries k))
           1 [64; 64]%Z 5 (ASeq [32; 64; 128; 256; 512]%Z) Conv2d (AnInt 3)
           (ASeq [ASeq [1; 1]; ASeq [2; 2]; ASeq [2; 2]; ASeq [2; 2]; ASeq [2; 2]]%Z)
           (AnInt 2) true None true false None "conv" _).
  vm_compute. reflexivity.
Defined.

Lemma decoder_wiring_witness :
  ∃ enc dec,
    example_encoder = Ok enc ∧ example_decoder enc = Ok dec ∧
    let n := length (output_channels enc) in
    length (dec_stages dec) = n - 1 ∧
    length (transpconvs dec) = n - 1 ∧
    length (seg_layers dec) = n - 1 ∧
    ∀ (i : nat) st, dec_stages dec !! i = Some st →
      ∃ below skip stride nb k nbi,
        i + 2 ≤ n ∧
        output_channels enc !! (n - 1 - i) = Some below ∧
        output_channels enc !! (n - 2 - i) = Some skip ∧
        enc_strides enc !! (length (enc_strides enc) - 1 - i) = Some stride ∧
        transpconvs dec !! i = Some (TransposedConv below skip stride stride) ∧
        seg_layers dec !! i = Some (SegLayer skip 3%Z) ∧
        residual_part st =
          Some (StackedResidualBlocks nb (enc_conv_op enc) (2 * skip) skip k (AnInt 1)) ∧
        kernel_sizes enc !! (length (kernel_sizes enc) - 2 - i) = Some k ∧
        Forall (swin_channels skip) (swin_gnn_blocks st) ∧
        Forall (pool_channels skip) (pool_gnn_blocks st) ∧
        per_stage id (AnInt 2) (Z.of_nat n - 1) !! i = Some nbi ∧
        nb = (if decide (i < 3) then (nbi - 1)%Z else nbi).
Proof.
  eexists _, _. split; [vm_compute; reflexivity|].
  split; [vm_compute; reflexivity|].
  apply (decoder_wiring (λ _ _ _ _, Ok tt) (λ _, Ok tt) _ [64; 64]%Z
           (ASeq [ASeq [1; 1]; ASeq [2; 2]; ASeq [2; 2]; ASeq [2; 2]; ASeq [2; 2]]%Z)
           3 (AnInt 2) true _).
  vm_compute. reflexivity.
Defined.

Lemma decoder_mirrors_encoder_witness :
  ∃ enc dec,
    example_encoder = Ok enc ∧ example_decoder enc = Ok dec ∧
    ∀ (i j : nat) st_d st_e,
      i + j + 2 = Z.to_nat 5 → i < 3 →
      dec_stages dec !! i = Some st_d → enc_stages enc !! j = Some st_e →
      (∃ pool, pool_gnn_blocks st_d = [pool] ∧ pool_gnn_blocks st_e = [pool]) ∧
      (∃ swin, swin_gnn_blocks st_d = [swin] ∧ swin_gnn_blocks st_e = [swin]).
Proof.
  eexists _, _. split; [vm_compute; reflexivity|].
  split; [vm_compute; reflexivity|].
  apply (decoder_mirrors_encoder (λ _ _ _ _, Ok tt) (λ _ _, Ok tt) (λ _, Ok tt)
           (λ _ k, Ok (kernel_entries k))
           1 [64; 64]%Z 5 (ASeq [32; 64; 128; 256; 512]%Z) Conv2d (AnInt 3)
           [ASeq [1; 1]; ASeq [2; 2]; ASeq [2; 2]; ASeq [2; 2]; ASeq [2; 2]]%Z
           (AnInt 2) true None true false None "conv" _ 3 (AnInt 2) true _).
  - vm_compute. reflexivity.
  - vm_compute. reflexivity.
Defined.

Lemma encoder_gnn_hyperparameters_witness :
  ∃ enc,
    example_encoder = Ok enc ∧
    ∃ isl nsl ims max_k k_list max_dilation wn,
      encoder_img_shapes Conv2d [64; 64]%Z (per_stage AnInt
           (ASeq [ASeq [1; 1]; ASeq [2; 2]; ASeq [2; 2]; ASeq [2; 2]; ASeq [2; 2]]%Z) 5)
        = Ok (isl, nsl, ims) ∧
      ((1 <= 5)%Z →
       knn_hyperparameters Conv2d ims (Z.to_nat 5)
         = Ok (max_k, k_list, max_dilation, wn)) ∧
      ∀ (j : nat) st, enc_stages enc !! j = Some st → (5 - 4 <= Z.of_nat j)%Z →
        ∃ shp k_pool k_swin r pg pf sg sf,
          isl !! j = Some shp ∧ k_list !! j = Some k_pool ∧
          k_list !! (j - (Z.to_nat 5 - 4)) = Some k_swin ∧
          ([16; 8; 4; 2]%Z ++ replicate (Z.to_nat 5 - 4) 1%Z) !! j = Some r ∧
          pool_gnn_blocks st = [mkPoolGNNBlocks 5 [(pg, pf)]] ∧
          po_img_shape pg = shp ∧ po_r pg = r ∧ pg_r (po_graph_conv pg) = r ∧
          pg_k (po_graph_conv pg) = k_pool ∧
          po_pool_size pg = pooling_rule shp ims ∧
          pg_pool_size (po_graph_conv pg) = pooling_rule shp ims ∧
          (po_n pg * product (po_pool_size pg) = product shp)%Z ∧
          swin_gnn_blocks st = [mkSwinGNNBlocks 5 [(sg, sf)]] ∧
          sw_img_shape sg = shp ∧ sw_r sg = 1%Z ∧ dg_r (sw_graph_conv sg) = 1%Z ∧
          dg_k (sw_graph_conv sg) = k_swin ∧
          sw_window_size sg = ims ∧
          sw_shift_size sg = (λ w, w / 2)%Z <$> ims ∧
          sw_n sg = product ims.
Proof.
  eexists. split; [vm_compute; reflexivity|].
  apply (encoder_gnn_hyperparameters (λ _ _ _ _, Ok tt) (λ _ _, Ok tt)
           (λ _ k, Ok (kernel_entries k))
           1 [64; 64]%Z 5 (ASeq [32; 64; 128; 256; 512]%Z) Conv2d (AnInt 3)
           (ASeq [ASeq [1; 1]; ASeq [2; 2]; ASeq [2; 2]; ASeq [2; 2]; ASeq [2; 2]]%Z)
           (AnInt 2) true None true false None "conv" _).
  vm_compute. reflexivity.
Defined.

(** ** The embedding that reaches the graph convolution *)

Section relative_pos_properties.
Context {embedding : Type}.
Variable relative_pos_tensor : conv_op → Z → Z → Z → result embedding.
Variable interpolate_bicubic : embedding → Z * Z → result embedding.

(** Property X14: on inputs of the size it was constructed for, [forward]
    hands the stored embedding to the graph convolution as it is, without
    interpolation: a [SwinGrapher] on windows of its [window_size], and a
    [PoolGrapher] on a feature map of its [img_shape], whose pooled size has
    exactly the [n] nodes the embedding was made for. *)
Theorem relative_pos_not_interpolated :
  (∀ in_channels img_shape k d conv_ r n drop_path_
    relative_pos cop window_size shift_size g B_ C,
     SwinGrapher_init relative_pos_tensor in_channels img_shape k d conv_ r n drop_path_
       relative_pos cop window_size shift_size = Ok g →
     length window_size = spatial_dims cop →
     SwinGrapher_forward_relative_pos interpolate_bicubic g (B_ :: C :: window_size)
     = Ok (sw_relative_pos g)) ∧
  (∀ in_channels img_shape k d conv_ r n drop_path_
    relative_pos cop img_min_shape p B_ C,
     PoolGrapher_init relative_pos_tensor in_channels img_shape k d conv_ r n drop_path_
       relative_pos cop img_min_shape = Ok p →
     length img_shape = spatial_dims cop →
     PoolGrapher_forward_relative_pos interpolate_bicubic p (B_ :: C :: img_shape)
     = Ok (po_relative_pos p)).
Proof.
  split.
  { intros in_channels img_shape k d conv_ r n drop_path_ relative_pos cop window_size
      shift_size g B_ C.
    intros Hg Hl. pose proof Hg as Hg'.
    apply SwinGrapher_init_Ok in Hg' as (Hdg & Hc & _ & _ & Hn).
    assert (cop = Conv2d ∨ cop = Conv3d) as Hcop.
    { unfold SwinGrapher_init, DyGraphConv_init in Hg.
      destruct (GraphConv_init conv_); [|done]. cbn [mbind result_bind] in Hg.
      destruct cop; try done; auto. }
    destruct (SwinGrapher_get_relative_pos_behaviour interpolate_bicubic g) as (Hsame & _ & _).
    unfold SwinGrapher_forward_relative_pos. rewrite Hc.
    destruct Hcop as [-> | ->]; simpl in Hl.
    - destruct window_size as [|H [|W [|? ?]]]; try done.
      cbn [unpack4 mbind result_bind]. apply Hsame; rewrite ?Hc; auto.
    - destruct window_size as [|S_ [|H [|W [|? ?]]]]; try done.
      cbn [unpack5 mbind result_bind]. apply Hsame; rewrite ?Hc; auto. }
  { intros in_channels img_shape k d conv_ r n drop_path_ relative_pos cop img_min_shape p B_ C.
    intros Hp Hl. pose proof Hp as Hp'.
    apply PoolGrapher_init_Ok in Hp' as (ims & -> & Hc & _ & Hps & Hgc & Hn).
    assert (cop = Conv2d ∨ cop = Conv3d) as Hcop.
    { unfold PoolGrapher_init in Hp.
      destruct (PoolDyGraphConv_init _ _ _ _ _ _ _) as [g|] eqn:Eg; [|done].
      by apply PoolDyGraphConv_init_Ok in Eg as (_ & _ & _ & _ & _ & ? & _). }
    destruct (PoolGrapher_get_relative_pos_behaviour interpolate_bicubic p) as (Hsame & _ & _).
    pose proof (pooling_rule_pos img_shape ims) as Hpos.
    pose proof (pooling_rule_divides img_shape ims) as Hdiv.
    unfold PoolGrapher_forward_relative_pos. rewrite Hc, Hps.
    destruct Hcop as [-> | ->]; simpl in Hl.
    - destruct img_shape as [|H [|W [|? ?]]]; try done.
      destruct (pooling_rule [H; W] ims) as [|p0 [|p1 [|? ?]]] eqn:Er;
        try (by apply Forall2_length in Hdiv).
      inversion Hpos as [|? ? Hp0 Hpos']; subst. inversion Hpos' as [|? ? Hp1 _]; subst.
      inversion Hdiv as [|? ? ? ? Hd0 Hdiv']; subst. inversion Hdiv' as [|? ? ? ? Hd1 _]; subst.
      cbn [unpack4 mbind result_bind]. rewrite getitem_0, getitem_1.
      cbn [mbind result_bind]. rewrite !floordiv_nonzero by lia. cbn [mbind result_bind].
      apply Hsame; rewrite ?Hc; auto. right. rewrite Hn. simpl.
      rewrite !Z.mul_1_r. by apply div_mul_exact.
    - destruct img_shape as [|S_ [|H [|W [|? ?]]]]; try done.
      destruct (pooling_rule [S_; H; W] ims) as [|p0 [|p1 [|p2 [|? ?]]]] eqn:Er;
        try (by apply Forall2_length in Hdiv).
      inversion Hpos as [|? ? Hp0 Hpos']; subst. inversion Hpos' as [|? ? Hp1 Hpos'']; subst.
      inversion Hpos'' as [|? ? Hp2 _]; subst.
      inversion Hdiv as [|? ? ? ? Hd0 Hdiv']; subst.
      inversion Hdiv' as [|? ? ? ? Hd1 Hdiv'']; subst.
      inversion Hdiv'' as [|? ? ? ? Hd2 _]; subst.
      cbn [unpack5 mbind result_bind]. rewrite getitem_0, getitem_1, getitem_2.
      cbn [mbind result_bind]. rewrite !floordiv_nonzero by lia. cbn [mbind result_bind].
      apply Hsame; rewrite ?Hc; auto. right. rewrite Hn. simpl.
      rewrite !Z.mul_1_r.
      rewrite (div_mul_exact H W p1 p2) by done.
      rewrite (div_mul_exact S_ (H * W) p0 (p1 * p2)); [done|done| |lia|lia].
      destruct Hd1 as [a ->], Hd2 as [b ->]. exists (a * b)%Z. lia. }
Qed.

End relative_pos_properties.

(** Windows of 4 x 4 nodes, eight of them, with 32 channels. *)
Lemma relative_pos_not_interpolated_witness :
  ∃ g,
    SwinGrapher_init (λ _ c n r, Ok [c; n; r]) 32 [32; 32]%Z 4 1 "mr" 1 16 0 true
      Conv2d [4; 4]%Z [2; 2]%Z = Ok g ∧
    SwinGrapher_forward_relative_pos (λ _ size, Ok [size.1; size.2]) g
      (8 :: 32 :: [4; 4])%Z = Ok (sw_relative_pos g).
Proof.
  eexists. split; [reflexivity|].
  apply (proj1 (relative_pos_not_interpolated
                  (λ _ c n r, Ok [c; n; r]) (λ _ size, Ok [size.1; size.2]))
           32%Z [32; 32]%Z 4%Z 1%Z "mr" 1%Z 16%Z 0%Q true Conv2d [4; 4]%Z [2; 2]%Z _
           8%Z 32%Z);
    reflexivity.
Defined.

(** ** The forward passes of the encoder and the decoder *)

Lemma range_seq n : Py.range n = Z.of_nat <$> seq 0 (Z.to_nat n).
Proof.
  unfold Py.range, seqZ. apply list_fmap_ext. intros _ i _. lia.
Qed.

Lemma range2_0 n : Py.range2 0 n = Py.range n.
Proof. unfold Py.range2, Py.range. by rewrite Z.sub_0_r. Qed.

Lemma range_len {A} (l : list A) : Py.range (len l) = Z.of_nat <$> seq 0 (length l).
Proof. rewrite range_seq. unfold len. by rewrite Nat2Z.id. Qed.

Lemma getitem_neg_nat {A} (l : list A) (k : nat) v :
  Py.getitem l (- (Z.of_nat k + 2)) = Ok v →
  k + 2 ≤ length l ∧ l !! (length l - (k + 2)) = Some v.
Proof.
  replace (- (Z.of_nat k + 2))%Z with (- Z.of_nat (S (S k)))%Z by lia.
  intros [H1 H2]%getitem_neg_Ok. replace (k + 2) with (S (S k)) by lia. done.
Qed.

Lemma getitem_app_neg {A} (extra l : list A) (k : Z) :
  (1 <= k <= Z.of_nat (length l))%Z →
  Py.getitem (extra ++ l) (- k) = Py.getitem l (- k).
Proof.
  intros Hk. unfold Py.getitem. rewrite length_app.
  destruct (Z.ltb_spec (- k) 0); [|lia].
  destruct (Z.leb_spec 0 (Z.of_nat (length extra + length l) + - k)); [|lia].
  destruct (Z.ltb_spec (Z.of_nat (length extra + length l) + - k)
              (Z.of_nat (length extra + length l))); [|lia].
  destruct (Z.leb_spec 0 (Z.of_nat (length l) + - k)); [|lia].
  destruct (Z.ltb_spec (Z.of_nat (length l) + - k) (Z.of_nat (length l))); [|lia].
  simpl.
  replace (Z.to_nat (Z.of_nat (length extra + length l) + - k))
    with (length extra + Z.to_nat (Z.of_nat (length l) + - k)) by lia.
  by rewrite lookup_app_r, Nat.add_comm, Nat.add_sub by lia.
Qed.

Lemma getitem_neg_total {A} (l : list A) (k : Z) :
  (1 <= k <= Z.of_nat (length l))%Z → ∃ v, Py.getitem l (- k) = Ok v.
Proof.
  intros Hk. unfold Py.getitem.
  destruct (Z.ltb_spec (- k) 0); [|lia].
  destruct (Z.leb_spec 0 (Z.of_nat (length l) + - k)); [|lia].
  destruct (Z.ltb_spec (Z.of_nat (length l) + - k) (Z.of_nat (length l))); [|lia].
  simpl.
  destruct (lookup_lt_is_Some_2 l (Z.to_nat (Z.of_nat (length l) + - k))) as [v ->]; [lia|].
  by exists v.
Qed.

Section encoder_forward_properties.
Context {embedding T : Type}.
Variable call : @module embedding → T → result T.

Lemma encoder_forward_loop_Ok (self : @NexToU_Encoder embedding) m : ∀ k x ret out,
  encoder_forward_loop call self (Z.of_nat <$> seq k m) x ret = Ok out →
  ∃ ys, out = ret ++ ys ∧ length ys = m ∧
    ∀ i, i < m →
      ∃ st prev cur,
        enc_stages self !! (k + i) = Some st ∧ (x :: ys) !! i = Some prev ∧
        ys !! i = Some cur ∧ call st prev = Ok cur.
Proof.
  induction m as [|m IH]; intros k x ret out H; simpl in H.
  - injection H as <-. exists []. rewrite app_nil_r. split_and!; [done..|]. intros; lia.
  - destruct (Py.getitem (enc_stages self) (Z.of_nat k)) as [st|] eqn:Est; [|done].
    cbn [mbind result_bind] in H.
    destruct (call st x) as [x'|] eqn:Ex; [|done]. cbn [mbind result_bind] in H.
    apply IH in H as (ys & -> & Hlen & Hys).
    exists (x' :: ys). rewrite <-app_assoc. split_and!; [done|simpl; lia|].
    intros [|i] Hi.
    + exists st, x, x'. rewrite Nat.add_0_r. apply getitem_nat_Ok in Est. done.
    + destruct (Hys i) as (st' & prev & cur & Hst' & Hprev & Hcur & Hcall); [lia|].
      exists st', prev, cur. replace (k + S i) with (S k + i) by lia. done.
Qed.

Lemma encoder_forward_loop_total (self : @NexToU_Encoder embedding) m : ∀ k x ret,
  (∀ st t, ∃ t', call st t = Ok t') → k + m ≤ length (enc_stages self) →
  ∃ out, encoder_forward_loop call self (Z.of_nat <$> seq k m) x ret = Ok out.
Proof.
  intros k x ret Hcall. revert k x ret.
  induction m as [|m IH]; intros k x ret Hk; simpl; [by eexists|].
  destruct (lookup_lt_is_Some_2 (enc_stages self) k) as [st Hst]; [lia|].
  rewrite (getitem_nat _ _ _ Hst). cbn [mbind result_bind].
  destruct (Hcall st x) as [x' ->]. cbn [mbind result_bind].
  apply IH. lia.
Qed.

(** Property X15: [NexToU_Encoder.forward].  When it returns, the stem,
    if there is one, was applied to the input and every stage to the
    output of the one before it; with [return_skips] the outputs of all
    stages are returned, in the order of the stages, and the output of the
    last stage otherwise.  It returns whenever the modules do, unless
    there is no stage and [return_skips] is off: then [ret[-1]] raises an
    [IndexError]. *)
Theorem NexToU_Encoder_forward_spec (self : @NexToU_Encoder embedding) x :
  (∀ out,
     NexToU_Encoder_forward call self x = Ok out →
     ∃ x0 ret,
       match enc_stem self with
       | Some stem => call stem x = Ok x0
       | None => x0 = x
       end ∧
       length ret = length (enc_stages self) ∧
       (∀ i st, enc_stages self !! i = Some st →
          ∃ prev cur, (x0 :: ret) !! i = Some prev ∧ ret !! i = Some cur ∧
                      call st prev = Ok cur) ∧
       (if return_skips self then out = Many ret
        else ∃ r, last ret = Some r ∧ out = Single r ∧ enc_stages self ≠ [])) ∧
  ((∀ st t, ∃ t', call st t = Ok t') →
   return_skips self = true ∨ enc_stages self ≠ [] →
   ∃ out, NexToU_Encoder_forward call self x = Ok out) ∧
  (enc_stages self = [] → return_skips self = false →
   (∃ x0, match enc_stem self with
          | Some stem => call stem x = Ok x0
          | None => x0 = x
          end) →
   NexToU_Encoder_forward call self x = Raise IndexError).
Proof.
  split; [|split].
  { intros out.
    unfold NexToU_Encoder_forward. intros H.
    match type of H with
    | (?m ≫= _) = Ok _ => destruct m as [x0|] eqn:Estem; [|done]
    end.
    cbn [mbind result_bind] in H. rewrite range2_0, range_len in H.
    destruct (encoder_forward_loop _ _ _ _ _) as [ret|] eqn:Eloop; [|done].
    cbn [mbind result_bind] in H.
    apply encoder_forward_loop_Ok in Eloop as (ys & -> & Hlen & Hys). simpl in *.
    exists x0, ys. split_and!.
    - destruct (enc_stem self); [done|by injection Estem].
    - done.
    - intros i st Hst. destruct (Hys i) as (st' & prev & cur & Hst' & Hprev & Hcur & Hcall).
      { by eapply lookup_lt_Some. }
      simpl in Hst'. rewrite Hst in Hst'. injection Hst' as <-. by exists prev, cur.
    - destruct (return_skips self); [by injection H as <-|].
      destruct (Py.getitem ys (-1)) as [r|] eqn:Er; [|done].
      cbn [mbind result_bind] in H. injection H as <-.
      apply getitem_last_Ok in Er. exists r. split_and!; [done..|].
      intros Hnil. rewrite Hnil in Hlen. by destruct ys. }
  { intros Hcall Hne. unfold NexToU_Encoder_forward.
    assert (∃ x0, match enc_stem self with
                  | Some stem => call stem x
                  | None => Ok x
                  end = Ok x0) as [x0 ->].
    { destruct (enc_stem self) as [stem|]; [apply Hcall|by eexists]. }
    cbn [mbind result_bind]. rewrite range2_0, range_len.
    destruct (encoder_forward_loop_total self (length (enc_stages self)) 0 x0 [] Hcall)
      as [ret Hret]; [lia|].
    rewrite Hret. cbn [mbind result_bind].
    apply encoder_forward_loop_Ok in Hret as (ys & -> & Hlys & _). simpl.
    destruct (return_skips self); [by eexists|].
    destruct Hne as [|Hne]; [done|].
    destruct (getitem_neg_total ys 1) as [r Hr].
    { destruct (enc_stages self); [done|]. simpl in Hlys. lia. }
    change (- (1))%Z with (-1)%Z in Hr. rewrite Hr. by eexists. }
  {
    intros Hst Hrs [x0 Hx0]. unfold NexToU_Encoder_forward. rewrite Hst, Hrs.
    destruct (enc_stem self); [rewrite Hx0|]; done. }
Qed.

End encoder_forward_properties.

Section decoder_forward_properties.
Context {embedding T : Type}.
Variable call : @module embedding → T → result T.
Variable cat : T → T → result T.

Lemma decoder_forward_loop_Ok (self : @NexToU_Decoder embedding) skips m :
  ∀ k x acc out,
  decoder_forward_loop call cat self (Z.of_nat <$> seq k m) skips x acc = Ok out →
  ∃ xs os, out = acc ++ os ∧ length xs = m ∧
    (∀ i prev cur, (x :: xs) !! i = Some prev → xs !! i = Some cur →
       decoder_step call cat self skips (k + i) prev cur) ∧
    (if deep_supervision self then
       length os = m ∧
       ∀ i cur, xs !! i = Some cur →
         ∃ seg o, seg_layers self !! (k + i) = Some seg ∧ call seg cur = Ok o ∧
                  os !! i = Some o
     else
       (os = [] ∧ ¬ (k < length (dec_stages self) ≤ k + m)) ∨
       (∃ cur seg o, k < length (dec_stages self) ≤ k + m ∧
          xs !! (length (dec_stages self) - 1 - k) = Some cur ∧
          last (seg_layers self) = Some seg ∧ call seg cur = Ok o ∧ os = [o])).
Proof.
  induction m as [|m IH]; intros k x acc out H; simpl in H.
  - injection H as <-. exists [], []. rewrite app_nil_r. split_and!; try done.
    destruct (deep_supervision self); [done|]. left. split; [done|lia].
  - destruct (Py.getitem (transpconvs self) (Z.of_nat k)) as [tc|] eqn:Etc; [|done].
    cbn [mbind result_bind] in H.
    destruct (call tc x) as [up|] eqn:Eup; [|done]. cbn [mbind result_bind] in H.
    destruct (Py.getitem skips (- (Z.of_nat k + 2))) as [skip|] eqn:Eskip; [|done].
    cbn [mbind result_bind] in H.
    destruct (cat up skip) as [merged|] eqn:Ecat; [|done]. cbn [mbind result_bind] in H.
    destruct (Py.getitem (dec_stages self) (Z.of_nat k)) as [st|] eqn:Est; [|done].
    cbn [mbind result_bind] in H.
    destruct (call st merged) as [cur0|] eqn:Ecur; [|done]. cbn [mbind result_bind] in H.
    apply getitem_nat_Ok in Etc, Est. apply getitem_neg_nat in Eskip as [Hk Hskip].
    assert (Hstep : decoder_step call cat self skips k x cur0).
    { exists tc, st, skip, up, merged. done. }
    match type of H with
    | (?m ≫= _) = Ok _ => destruct m as [acc'|] eqn:Eseg; [|done]
    end.
    cbn [mbind result_bind] in H.
    apply IH in H as (xs & os & -> & Hlen & Hchain & Hseg).
    pose proof (lookup_lt_Some _ _ _ Est) as Hkn.
    destruct (deep_supervision self) eqn:Hds.
    + destruct (Py.getitem (seg_layers self) (Z.of_nat k)) as [seg|] eqn:Esl; [|done].
      cbn [mbind result_bind] in Eseg.
      destruct (call seg cur0) as [o|] eqn:Eo; [|done]. cbn [mbind result_bind] in Eseg.
      injection Eseg as <-. apply getitem_nat_Ok in Esl.
      destruct Hseg as [Hlos Hseg].
      exists (cur0 :: xs), (o :: os). rewrite <-app_assoc.
      split_and!; [done|simpl; lia| |simpl; lia|].
      * intros [|i] prev cur Hprev Hcur; simpl in Hprev, Hcur.
        -- injection Hprev as <-. injection Hcur as <-. by rewrite Nat.add_0_r.
        -- replace (k + S i) with (S k + i) by lia. by apply Hchain.
      * intros [|i] cur Hcur; simpl in Hcur.
        -- injection Hcur as <-. exists seg, o. by rewrite Nat.add_0_r.
        -- replace (k + S i) with (S k + i) by lia. by apply Hseg.
    + exists (cur0 :: xs).
      destruct (Z.eqb_spec (Z.of_nat k) (len (dec_stages self) - 1)) as [Hlast|Hlast].
      * destruct (Py.getitem (seg_layers self) (-1)) as [seg|] eqn:Esl; [|done].
        cbn [mbind result_bind] in Eseg.
        destruct (call seg cur0) as [o|] eqn:Eo; [|done]. cbn [mbind result_bind] in Eseg.
        injection Eseg as <-. apply getitem_last_Ok in Esl.
        unfold len in Hlast.
        destruct Hseg as [[-> Hnot]|(? & ? & ? & ? & _)]; [|lia].
        exists [o]. rewrite <-app_assoc.
        split_and!; [done|simpl; lia| |].
        -- intros [|i] prev cur Hprev Hcur; simpl in Hprev, Hcur.
           ++ injection Hprev as <-. injection Hcur as <-. by rewrite Nat.add_0_r.
           ++ replace (k + S i) with (S k + i) by lia. by apply Hchain.
        -- right. exists cur0, seg, o. split_and!; try done; [lia..|].
           replace (length (dec_stages self) - 1 - k) with 0 by lia. done.
      * injection Eseg as <-. unfold len in Hlast.
        exists os. split_and!; [done|simpl; lia| |].
        -- intros [|i] prev cur Hprev Hcur; simpl in Hprev, Hcur.
           ++ injection Hprev as <-. injection Hcur as <-. by rewrite Nat.add_0_r.
           ++ replace (k + S i) with (S k + i) by lia. by apply Hchain.
        -- destruct Hseg as [[-> Hnot]|(cur & seg & o & Hr & Hcur & Hsl & Ho & ->)].
           ++ left. split; [done|lia].
           ++ right. exists cur, seg, o. split_and!; try done; [lia..|].
              replace (length (dec_stages self) - 1 - k)
                with (S (length (dec_stages self) - 1 - S k)) by lia. done.
Qed.

Lemma decoder_forward_loop_total (self : @NexToU_Decoder embedding) skips m :
  ∀ k x acc,
  (∀ st t, ∃ t', call st t = Ok t') → (∀ a b, ∃ c, cat a b = Ok c) →
  k + m ≤ length (dec_stages self) →
  length (transpconvs self) = length (dec_stages self) →
  length (seg_layers self) = length (dec_stages self) →
  length (dec_stages self) + 1 ≤ length skips →
  ∃ os, decoder_forward_loop call cat self (Z.of_nat <$> seq k m) skips x acc
          = Ok (acc ++ os) ∧
        length os = if deep_supervision self then m
                    else if decide (k < length (dec_stages self) ≤ k + m) then 1 else 0.
Proof.
  intros k x acc Hcall Hcat. revert k x acc.
  induction m as [|m IH]; intros k x acc Hk Htc Hsl Hskips; simpl.
  - exists []. rewrite app_nil_r. split; [done|].
    destruct (deep_supervision self); [done|]. by rewrite decide_False by lia.
  - destruct (lookup_lt_is_Some_2 (transpconvs self) k) as [tc Htck]; [lia|].
    rewrite (getitem_nat _ _ _ Htck). cbn [mbind result_bind].
    destruct (Hcall tc x) as [up ->]. cbn [mbind result_bind].
    destruct (getitem_neg_total skips (Z.of_nat k + 2)) as [skip ->]; [lia|].
    cbn [mbind result_bind].
    destruct (Hcat up skip) as [merged ->]. cbn [mbind result_bind].
    destruct (lookup_lt_is_Some_2 (dec_stages self) k) as [st Hstk]; [lia|].
    rewrite (getitem_nat _ _ _ Hstk). cbn [mbind result_bind].
    destruct (Hcall st merged) as [cur ->]. cbn [mbind result_bind].
    destruct (deep_supervision self) eqn:Hds.
    + destruct (lookup_lt_is_Some_2 (seg_layers self) k) as [seg Hsegk]; [lia|].
      rewrite (getitem_nat _ _ _ Hsegk). cbn [mbind result_bind].
      destruct (Hcall seg cur) as [o ->]. cbn [mbind result_bind].
      destruct (IH (S k) cur (acc ++ [o])) as (os & Hos & Hlos); [lia|done..|].
      exists (o :: os). rewrite <-app_assoc in Hos. split; [exact Hos|]. simpl. lia.
    + destruct (Z.eqb_spec (Z.of_nat k) (len (dec_stages self) - 1)) as [Hlast|Hlast];
        unfold len in Hlast.
      * destruct (getitem_neg_total (seg_layers self) 1) as [seg Hseg]; [lia|].
        change (- (1))%Z with (-1)%Z in Hseg. rewrite Hseg. cbn [mbind result_bind].
        destruct (Hcall seg cur) as [o ->]. cbn [mbind result_bind].
        destruct (IH (S k) cur (acc ++ [o])) as (os & Hos & Hlos); [lia|done..|].
        exists (o :: os). rewrite <-app_assoc in Hos. split; [exact Hos|].
        rewrite decide_False in Hlos by lia. rewrite decide_True by lia. simpl. lia.
      * cbn [mbind result_bind].
        destruct (IH (S k) cur acc) as (os & Hos & Hlos); [lia|done..|].
        exists os. split; [exact Hos|].
        destruct (decide (S k < length (dec_stages self) ≤ S k + m)).
        -- rewrite decide_True by lia. done.
        -- rewrite decide_False by lia. done.
Qed.

Lemma decoder_forward_loop_prefix (self : @NexToU_Decoder embedding) extra skips ss :
  ∀ x acc,
  Forall (λ s, 0 <= s ∧ s + 2 <= Z.of_nat (length skips))%Z ss →
  decoder_forward_loop call cat self ss (extra ++ skips) x acc =
  decoder_forward_loop call cat self ss skips x acc.
Proof.
  induction ss as [|s ss IH]; intros x acc Hss; simpl; [done|].
  inversion Hss as [|? ? [Hs0 Hs] Hss']; subst.
  rewrite getitem_app_neg by lia.
  destruct (Py.getitem (transpconvs self) s) as [tc|]; [|done]. cbn [mbind result_bind].
  destruct (call tc x) as [up|]; [|done]. cbn [mbind result_bind].
  destruct (Py.getitem skips (- (s + 2))) as [skip|]; [|done]. cbn [mbind result_bind].
  destruct (cat up skip) as [merged|]; [|done]. cbn [mbind result_bind].
  destruct (Py.getitem (dec_stages self) s) as [st|]; [|done]. cbn [mbind result_bind].
  destruct (call st merged) as [cur|]; [|done]. cbn [mbind result_bind].
  match goal with
  | |- (?m ≫= _) = _ => destruct m as [acc'|]; [|done]
  end.
  cbn [mbind result_bind]. by apply IH.
Qed.

(** Property X16: [NexToU_Decoder.forward].  When it returns, there was
    one skip more than the decoder has stages; it started from the last
    skip, and stage [s] upsampled the output of the stage before it with
    its transposed convolution, concatenated the skip [skips[-(s + 2)]] to
    it and applied its blocks; with deep supervision the segmentation
    layer of each stage was applied to its output and the results are
    returned with the one of the last stage first, and otherwise the last
    segmentation layer was applied to the output of the last stage only.
    It returns whenever the modules and the concatenation do, there are
    that many skips, and without deep supervision at least one stage. *)
Theorem NexToU_Decoder_forward_spec (self : @NexToU_Decoder embedding) skips :
  (∀ out,
     NexToU_Decoder_forward call cat self skips = Ok out →
     let n := length (dec_stages self) in
     n + 1 ≤ length skips ∧
     ∃ lres xs,
       last skips = Some lres ∧ length xs = n ∧
       (∀ s prev cur, (lres :: xs) !! s = Some prev → xs !! s = Some cur →
          decoder_step call cat self skips s prev cur) ∧
       (if deep_supervision self then
          ∃ l, out = Many l ∧ length l = n ∧
            ∀ s cur, xs !! s = Some cur →
              ∃ seg o, seg_layers self !! s = Some seg ∧ call seg cur = Ok o ∧
                       l !! (n - 1 - s) = Some o
        else
          ∃ cur seg r, last xs = Some cur ∧ last (seg_layers self) = Some seg ∧
                       call seg cur = Ok r ∧ out = Single r)) ∧
  ((∀ st t, ∃ t', call st t = Ok t') → (∀ a b, ∃ c, cat a b = Ok c) →
   length (transpconvs self) = length (dec_stages self) →
   length (seg_layers self) = length (dec_stages self) →
   length (dec_stages self) + 1 ≤ length skips →
   deep_supervision self = true ∨ dec_stages self ≠ [] →
   ∃ out, NexToU_Decoder_forward call cat self skips = Ok out).
Proof.
  split.
  { intros out.
    intros H n. unfold NexToU_Decoder_forward in H.
    destruct (Py.getitem skips (-1)) as [lres|] eqn:Elres; [|done].
    cbn [mbind result_bind] in H. rewrite range_len in H.
    destruct (decoder_forward_loop _ _ _ _ _ _ _) as [segs|] eqn:Eloop; [|done].
    cbn [mbind result_bind] in H.
    apply decoder_forward_loop_Ok in Eloop as (xs & os & -> & Hlen & Hchain & Hseg).
    simpl in *. apply getitem_last_Ok in Elres.
    assert (n + 1 ≤ length skips) as Hskips.
    { destruct (decide (n = 0)) as [Hn|Hn].
      - destruct skips; [done|simpl; lia].
      - destruct (lookup_lt_is_Some_2 xs (n - 1)) as [cur Hcur]; [fold n in Hlen; lia|].
        destruct (lookup_lt_is_Some_2 (lres :: xs) (n - 1)) as [prev Hprev];
          [simpl; fold n in Hlen; lia|].
        destruct (Hchain _ _ _ Hprev Hcur) as (? & ? & ? & ? & ? & _ & _ & _ & Hle & _).
        lia. }
    split; [done|]. exists lres, xs. split_and!; [done..|].
    destruct (deep_supervision self); simpl in H.
    - injection H as <-. destruct Hseg as [Hlos Hseg].
      exists (reverse os). split_and!; [done|by rewrite length_reverse|].
      intros s cur Hcur. destruct (Hseg s cur Hcur) as (seg & o & Hsl & Ho & Hos).
      exists seg, o. split_and!; [done..|].
      pose proof (lookup_lt_Some _ _ _ Hos) as Hlt.
      rewrite reverse_lookup by (fold n in Hlen; lia).
      rewrite <-Hos. f_equal. fold n in Hlen. lia.
    - destruct (Py.getitem (reverse os) 0) as [r|] eqn:Er; [|done].
      cbn [mbind result_bind] in H. injection H as <-.
      destruct Hseg as [[-> _]|(cur & seg & o & Hr & Hcur & Hsl & Ho & ->)]; [done|].
      change (Py.getitem [o] 0) with (Ok o) in Er. injection Er as <-.
      exists cur, seg, o. split_and!; try done.
      rewrite last_lookup. rewrite Hlen. rewrite <-Hcur. f_equal. lia. }
  { intros Hcall Hcat Htc Hsl Hskips Hne. unfold NexToU_Decoder_forward.
    destruct (getitem_neg_total skips 1) as [lres Hlres]; [lia|].
    change (- (1))%Z with (-1)%Z in Hlres. rewrite Hlres. cbn [mbind result_bind].
    rewrite range_len.
    destruct (decoder_forward_loop_total self skips (length (dec_stages self)) 0 lres []
                Hcall Hcat) as (os & -> & Hlos); [lia|done..|].
    cbn [mbind result_bind]. simpl.
    destruct (deep_supervision self); simpl; [by eexists|].
    destruct Hne as [|Hne]; [done|].
    rewrite decide_True in Hlos by (destruct (dec_stages self); [done|simpl; lia]).
    destruct os as [|o [|? ?]]; try done. simpl. by eexists. }
Qed.

(** Property X17: [NexToU_Decoder.forward] reads the last
    [len(self.stages) + 1] skips only: further skips in front of them
    change nothing, neither the result nor an error. *)
Theorem NexToU_Decoder_forward_prefix (self : @NexToU_Decoder embedding) extra skips :
  length (dec_stages self) + 1 ≤ length skips →
  NexToU_Decoder_forward call cat self (extra ++ skips) =
  NexToU_Decoder_forward call cat self skips.
Proof.
  intros Hlen. unfold NexToU_Decoder_forward.
  pose proof (getitem_app_neg extra skips 1) as Hlast.
  change (- (1))%Z with (-1)%Z in Hlast. rewrite Hlast by lia.
  destruct (Py.getitem skips (-1)) as [lres|]; [|done]. cbn [mbind result_bind].
  rewrite decoder_forward_loop_prefix; [done|].
  rewrite range_len. apply Forall_fmap, Forall_forall. intros s Hs.
  apply elem_of_seq in Hs. simpl. lia.
Qed.

End decoder_forward_properties.

Section encoder_decoder_properties.
Context {embedding T : Type}.
Variable relative_pos_tensor : conv_op → Z → Z → Z → result embedding.
Variable get_matching_pool_op : conv_op → string → result unit.
Variable get_matching_convtransp : conv_op → result unit.
Variable maybe_convert_scalar_to_list : conv_op → int_or_seq Z → result (list Z).
Variable call : @module embedding → T → result T.
Variable cat : T → T → result T.

(** Property X18: the encoder and the decoder fit together.  An encoder
    of at least two stages constructed with [return_skips] returns one skip
    for each of its stages, and a decoder constructed on it accepts them:
    when the modules and the concatenation return, so does the decoder,
    with one segmentation for every stage of the decoder under deep
    supervision and a single one otherwise. *)
Theorem encoder_feeds_decoder input_channels patch_size n_stages features_per_stage
    cop kernel_sizes_ strides n_blocks_per_stage conv_bias_ bottleneck_channels
    disable_default_stem stem_channels pool_type enc
    patch_size' strides' num_classes_ n_conv_per_stage deep_supervision_ dec x :
  NexToU_Encoder_init relative_pos_tensor get_matching_pool_op
    maybe_convert_scalar_to_list input_channels patch_size n_stages
    features_per_stage cop kernel_sizes_ strides n_blocks_per_stage conv_bias_
    bottleneck_channels true disable_default_stem stem_channels pool_type
  = Ok enc →
  NexToU_Decoder_init relative_pos_tensor get_matching_convtransp enc
    patch_size' strides' num_classes_ n_conv_per_stage deep_supervision_ = Ok dec →
  (2 <= n_stages)%Z →
  (∀ m t, ∃ t', call m t = Ok t') → (∀ a b, ∃ c, cat a b = Ok c) →
  ∃ skips out,
    NexToU_Encoder_forward call enc x = Ok (Many skips) ∧
    length skips = Z.to_nat n_stages ∧
    NexToU_Decoder_forward call cat dec skips = Ok out ∧
    if deep_supervision_ then ∃ l, out = Many l ∧ length l = Z.to_nat n_stages - 1
    else ∃ r, out = Single r.
Proof.
  intros Henc Hdec Hn Hcall Hcat.
  pose proof (NexToU_Encoder_init_lengths _ _ _ _ _ _ _ _ _ _ _ _ _ _ _ _ _ _ Henc)
    as (Hlen & Hoc & Hrs).
  pose proof (NexToU_Decoder_init_lengths _ _ _ _ _ _ _ _ _ Hdec)
    as (Hds & Htc & Hsl & Hdeep).
  rewrite Hoc in Hds, Htc, Hsl.
  (* the encoder *)
  unfold NexToU_Encoder_forward.
  assert (∃ x0, match enc_stem enc with
                | Some stem => call stem x
                | None => Ok x
                end = Ok x0) as [x0 ->].
  { destruct (enc_stem enc) as [stem|]; [apply Hcall|by eexists]. }
  cbn [mbind result_bind]. rewrite range2_0, range_len.
  destruct (encoder_forward_loop_total call enc (length (enc_stages enc)) 0 x0 [] Hcall)
    as [skips Hskips]; [lia|].
  rewrite Hskips. cbn [mbind result_bind]. rewrite Hrs.
  apply (encoder_forward_loop_Ok call) in Hskips as (ys & -> & Hlys & _). simpl.
  exists ys. rewrite Hlys, Hlen.
  (* the decoder *)
  unfold NexToU_Decoder_forward.
  destruct (getitem_neg_total ys 1) as [lres Hlres]; [lia|].
  change (- (1))%Z with (-1)%Z in Hlres. rewrite Hlres. cbn [mbind result_bind].
  rewrite range_len.
  destruct (decoder_forward_loop_total call cat dec ys (length (dec_stages dec)) 0 lres []
              Hcall Hcat) as (os & -> & Hlos); [lia..|].
  cbn [mbind result_bind]. simpl. rewrite Hdeep in *.
  destruct deep_supervision_; simpl.
  - eexists. split_and!; [done..|]. eexists. split; [done|].
    rewrite length_reverse. lia.
  - rewrite decide_True in Hlos by lia.
    destruct os as [|o [|? ?]]; try done. simpl.
    eexists. split_and!; [done..|]. by eexists.
Qed.

End encoder_decoder_properties.

(** The network [example_encoder] with its decoder, on feature maps that
    are numbers: a module adds 1, the concatenation adds its arguments. *)
Lemma NexToU_Encoder_forward_spec_witness :
  ∃ enc,
    example_encoder = Ok enc ∧
    ∃ out, NexToU_Encoder_forward (λ _ t, Ok (S t)) enc 0 = Ok out.
Proof.
  eexists. split; [vm_compute; reflexivity|].
  apply (proj1 (proj2 (NexToU_Encoder_forward_spec (λ _ t, Ok (S t)) _ 0))).
  - intros st t. by eexists.
  - left. reflexivity.
Defined.

Lemma NexToU_Decoder_forward_spec_witness :
  ∃ enc dec,
    example_encoder = Ok enc ∧ example_decoder enc = Ok dec ∧
    ∃ out, NexToU_Decoder_forward (λ _ t, Ok (S t)) (λ a b, Ok (a + b)) dec
             [1; 2; 3; 4; 5] = Ok out.
Proof.
  eexists _, _. split; [vm_compute; reflexivity|].
  split; [vm_compute; reflexivity|].
  apply (proj2 (NexToU_Decoder_forward_spec (λ _ t, Ok (S t)) (λ a b, Ok (a + b)) _
                  [1; 2; 3; 4; 5])).
  - intros st t. by eexists.
  - intros a b. by eexists.
  - reflexivity.
  - reflexivity.
  - simpl. lia.
  - left. reflexivity.
Defined.

Lemma NexToU_Decoder_forward_prefix_witness :
  ∃ enc dec,
    example_encoder = Ok enc ∧ example_decoder enc = Ok dec ∧
    NexToU_Decoder_forward (λ _ t, Ok (S t)) (λ a b, Ok (a + b)) dec
      ([7; 8] ++ [1; 2; 3; 4; 5]) =
    NexToU_Decoder_forward (λ _ t, Ok (S t)) (λ a b, Ok (a + b)) dec [1; 2; 3; 4; 5].
Proof.
  eexists _, _. split; [vm_compute; reflexivity|].
  split; [vm_compute; reflexivity|].
  apply (NexToU_Decoder_forward_prefix (λ _ t, Ok (S t)) (λ a b, Ok (a + b)) _
           [7; 8] [1; 2; 3; 4; 5]).
  simpl. lia.
Defined.

Lemma encoder_feeds_decoder_witness :
  ∃ enc dec,
    example_encoder = Ok enc ∧ example_decoder enc = Ok dec ∧
    ∃ skips out,
      NexToU_Encoder_forward (λ _ t, Ok (S t)) enc 0 = Ok (Many skips) ∧
      length skips = Z.to_nat 5 ∧
      NexToU_Decoder_forward (λ _ t, Ok (S t)) (λ a b, Ok (a + b)) dec skips = Ok out ∧
      ∃ l, out = Many l ∧ length l = Z.to_nat 5 - 1.
Proof.
  eexists _, _. split; [vm_compute; reflexivity|].
  split; [vm_compute; reflexivity|].
  apply (encoder_feeds_decoder (λ _ _ _ _, Ok tt) (λ _ _, Ok tt) (λ _, Ok tt)
           (λ _ k, Ok (kernel_entries k)) (λ _ t, Ok (S t)) (λ a b, Ok (a + b))
           1 [64; 64]%Z 5 (ASeq [32; 64; 128; 256; 512]%Z) Conv2d (AnInt 3)
           (ASeq [ASeq [1; 1]; ASeq [2; 2]; ASeq [2; 2]; ASeq [2; 2]; ASeq [2; 2]]%Z)
           (AnInt 2) true None false None "conv" _ [64; 64]%Z
           (ASeq [ASeq [1; 1]; ASeq [2; 2]; ASeq [2; 2]; ASeq [2; 2]; ASeq [2; 2]]%Z)
           3 (AnInt 2) true _ 0).
  - vm_compute. reflexivity.
  - vm_compute. reflexivity.
  - lia.
  - intros m t. by eexists.
  - intros a b. by eexists.
Defined.

(** ** The trainer: what is constructed, and how it is initialised *)

Section trainer_properties.
Context {net_state label_manager : Type}.
Variable convert_dim_to_conv_op : Z → result conv_op.
Variable get_matching_batchnorm : conv_op → result unit.
Variable get_label_manager : result label_manager.
Variable num_segmentation_heads : label_manager → result Z.
Variable construct : network_class → network_kwargs → result net_state.
Variable apply_init : string → net_state → result net_state.

(** Property X19: [build_network_architecture].  A model that is returned
    is the [NexToU] that the constructor made from the configuration: the
    patch size, the stages, the kernel sizes, the strides and the numbers
    of blocks of the plan, the convolution of the dimension of the first
    kernel, the heads of the label manager as classes, a bias in the
    convolutions, and [base * 2 ** i] features in stage [i], capped at the
    maximum of the plan; its weights were initialised with
    [InitWeights_He] and nothing else.  Without kernel sizes the method
    raises an [IndexError]; otherwise it returns whenever the functions it
    calls do. *)
Theorem build_network_architecture_spec (cm : ConfigurationManager)
    (architecture_class_name : string) (num_input_channels num_output_channels : Z)
    (enable_deep_supervision : bool) :
  (∀ m,
     build_network_architecture convert_dim_to_conv_op get_matching_batchnorm
       get_label_manager num_segmentation_heads construct apply_init cm
       architecture_class_name num_input_channels num_output_channels
       enable_deep_supervision = Ok m →
     ∃ k0 cop lm heads kw st,
       cm_conv_kernel_sizes cm !! 0 = Some k0 ∧
       convert_dim_to_conv_op (len k0) = Ok cop ∧
       get_label_manager = Ok lm ∧ get_matching_batchnorm cop = Ok tt ∧
       num_segmentation_heads lm = Ok heads ∧
       (* the arguments of the constructor *)
       construct NexToU kw = Ok st ∧
       kw_input_channels kw = num_input_channels ∧
       kw_patch_size kw = cm_patch_size cm ∧ kw_n_stages kw = cm_n_stages cm ∧
       kw_conv_op kw = cop ∧ kw_kernel_sizes kw = cm_conv_kernel_sizes cm ∧
       kw_strides kw = cm_pool_op_kernel_sizes cm ∧ kw_num_classes kw = heads ∧
       kw_deep_supervision kw = enable_deep_supervision ∧
       kw_n_blocks_per_stage kw = cm_n_blocks_per_stage cm ∧
       kw_n_blocks_per_stage_decoder kw = cm_n_conv_per_stage_decoder cm ∧
       kw_conv_bias kw = true ∧
       length (kw_features_per_stage kw) = Z.to_nat (cm_n_stages cm) ∧
       (∀ (i : nat) f, kw_features_per_stage kw !! i = Some f →
          f = Z.min (cm_UNet_base_num_features cm * 2 ^ Z.of_nat i)
                (cm_unet_max_num_features cm) ∧
          (f <= cm_unet_max_num_features cm)%Z) ∧
       (* the one initialisation *)
       apply_init "InitWeights_He" st = Ok (model_state m) ∧
       model_class m = NexToU) ∧
  (cm_conv_kernel_sizes cm = [] →
   build_network_architecture convert_dim_to_conv_op get_matching_batchnorm
     get_label_manager num_segmentation_heads construct apply_init cm
     architecture_class_name num_input_channels num_output_channels
     enable_deep_supervision = Raise IndexError) ∧
  (cm_conv_kernel_sizes cm ≠ [] →
   (∀ dim, ∃ cop, convert_dim_to_conv_op dim = Ok cop) →
   (∃ lm, get_label_manager = Ok lm) →
   (∀ cop, get_matching_batchnorm cop = Ok tt) →
   (∀ lm, ∃ heads, num_segmentation_heads lm = Ok heads) →
   (∀ kw, ∃ st, construct NexToU kw = Ok st) →
   (∀ st, ∃ st', apply_init "InitWeights_He" st = Ok st') →
   ∃ m,
     build_network_architecture convert_dim_to_conv_op get_matching_batchnorm
       get_label_manager num_segmentation_heads construct apply_init cm
       architecture_class_name num_input_channels num_output_channels
       enable_deep_supervision = Ok m).
Proof.
  split; [|split].
  { intros m.
    unfold build_network_architecture. intros H.
    destruct (Py.getitem (cm_conv_kernel_sizes cm) 0) as [k0|] eqn:Ek0; [|done].
    cbn [mbind result_bind] in H.
    destruct (convert_dim_to_conv_op (len k0)) as [cop|] eqn:Ecop; [|done].
    cbn [mbind result_bind] in H.
    destruct get_label_manager as [lm|] eqn:Elm; [|done]. cbn [mbind result_bind] in H.
    destruct (get_matching_batchnorm cop) as [[]|] eqn:Ebn; [|done]. cbn [mbind result_bind] in H.
    destruct class_name_assertion; [|done]. cbn [mbind result_bind] in H.
    unfold dict_getitem in H. rewrite mapping_NexToU in H. cbn [mbind result_bind] in H.
    destruct (num_segmentation_heads lm) as [heads|] eqn:Eh; [|done].
    cbn [mbind result_bind] in H.
    destruct (construct NexToU _) as [st|] eqn:Est; [|done]. cbn [mbind result_bind] in H.
    destruct (apply_init "InitWeights_He" st) as [st'|] eqn:Einit; [|done].
    cbn [mbind result_bind] in H.
    destruct (decide (NexToU = ResidualEncoderUNet)); [done|].
    cbn [mbind result_bind] in H. injection H as <-.
    apply (getitem_nat_Ok _ 0) in Ek0.
    eexists k0, cop, lm, heads, _, st. split_and!; try done; simpl.
    - rewrite length_fmap. unfold Py.range. by rewrite length_seqZ.
    - intros i f Hi. rewrite list_lookup_fmap in Hi.
      destruct (Py.range (cm_n_stages cm) !! i) as [z|] eqn:Ez; [|done].
      apply range_lookup in Ez as ->. injection Hi as <-. split; [done|lia]. }
  { intros Hk. unfold build_network_architecture. by rewrite Hk. }
  { intros Hk Hconv [lm Hlm] Hbn Hheads Hcons Hinit. unfold build_network_architecture.
    destruct (cm_conv_kernel_sizes cm) as [|k0 ks]; [done|].
    rewrite getitem_0. cbn [mbind result_bind].
    destruct (Hconv (len k0)) as [cop ->]. cbn [mbind result_bind].
    rewrite Hlm. cbn [mbind result_bind]. rewrite !Hbn. cbn [mbind result_bind].
    rewrite class_name_assertion_Ok. cbn [mbind result_bind].
    unfold dict_getitem. rewrite mapping_NexToU. cbn [mbind result_bind].
    destruct (Hheads lm) as [heads ->]. cbn [mbind result_bind].
    match goal with
    | |- context [construct NexToU ?kw] => destruct (Hcons kw) as [st ->]
    end.
    cbn [mbind result_bind]. destruct (Hinit st) as [st' ->]. cbn [mbind result_bind].
    rewrite decide_False by done. by eexists. }
Qed.

End trainer_properties.

(** The configuration of [build_network_architecture_example]. *)
Lemma build_network_architecture_spec_witness :
  ∃ m,
    build_network_architecture (net_state := network_kwargs) (label_manager := unit)
      (λ dim, if (dim =? 2)%Z then Ok Conv2d else Ok Conv3d) (λ _, Ok tt) (Ok tt)
      (λ _, Ok 3%Z) (λ _ kw, Ok kw) (λ _ st, Ok st)
      (mkConfigurationManager [[3; 3]; [3; 3]]%Z [64; 64]%Z 2 32 512
         [[1; 1]; [2; 2]]%Z [1; 3]%Z [1]%Z)
      "PlainConvUNet" 1 3 true = Ok m.
Proof.
  apply (proj2 (proj2 (build_network_architecture_spec
           (net_state := network_kwargs) (label_manager := unit)
           (λ dim, if (dim =? 2)%Z then Ok Conv2d else Ok Conv3d) (λ _, Ok tt) (Ok tt)
           (λ _, Ok 3%Z) (λ _ kw, Ok kw) (λ _ st, Ok st)
           (mkConfigurationManager [[3; 3]; [3; 3]]%Z [64; 64]%Z 2 32 512
              [[1; 1]; [2; 2]]%Z [1; 3]%Z [1]%Z)
           "PlainConvUNet" 1 3 true))).
  - discriminate.
  - intros dim. destruct (dim =? 2)%Z; by eexists.
  - by eexists.
  - reflexivity.
  - intros lm. by eexists.
  - intros kw. by eexists.
  - intros st. by eexists.
Defined.

(** ** [compute_conv_feature_map_size] *)

Lemma floordiv_zip_Raise input_size : ∀ strides e,
  floordiv_zip input_size strides = Raise e → e = ZeroDivisionError.
Proof.
  induction input_size as [|i input_size IH]; intros [|j strides] e H; simpl in H; try done.
  unfold Py.floordiv in H. destruct (j =? 0)%Z; [by injection H|].
  cbn [mbind result_bind] in H.
  destruct (floordiv_zip input_size strides) as [qs|e'] eqn:E; [done|].
  cbn [mbind result_bind] in H. injection H as <-. by eapply IH.
Qed.

Lemma floordiv_zip_nonzero input_size : ∀ strides,
  Forall (λ j, j ≠ 0%Z) strides → ∃ size, floordiv_zip input_size strides = Ok size.
Proof.
  induction input_size as [|i input_size IH]; intros [|j strides] Hnz; simpl;
    try (by eexists).
  inversion Hnz as [|? ? Hj Hnz']; subst.
  rewrite floordiv_nonzero by done. cbn [mbind result_bind].
  destruct (IH strides Hnz') as [qs ->]. by eexists.
Qed.

Lemma getitem_last_snoc {A} (l : list A) x : Py.getitem (l ++ [x]) (-1) = Ok x.
Proof. apply getitem_last, last_snoc. Qed.

Lemma decoder_skip_sizes_cases strides m : ∀ k input_size acc,
  k + m ≤ length strides →
  (∃ sizes, decoder_skip_sizes strides (Z.of_nat <$> seq k m) input_size acc = Ok sizes
            ∧ length sizes = length acc + m)
  ∨ decoder_skip_sizes strides (Z.of_nat <$> seq k m) input_size acc
    = Raise ZeroDivisionError.
Proof.
  induction m as [|m IH]; intros k input_size acc Hk; simpl.
  - left. exists acc. split; [done|lia].
  - destruct (lookup_lt_is_Some_2 strides k) as [st Hst]; [lia|].
    rewrite (getitem_nat _ _ _ Hst). cbn [mbind result_bind].
    destruct (floordiv_zip input_size st) as [size|e] eqn:E.
    + cbn [mbind result_bind]. rewrite getitem_last_snoc. cbn [mbind result_bind].
      destruct (IH (S k) size (acc ++ [size])) as [(sizes & Hs & Hl)|Hs]; [lia| |].
      * left. exists sizes. split; [exact Hs|]. rewrite length_app in Hl. simpl in Hl. lia.
      * right. exact Hs.
    + right. apply floordiv_zip_Raise in E as ->. done.
Qed.

Lemma decoder_skip_sizes_nonzero strides m : ∀ k input_size acc,
  k + m ≤ length strides → Forall (Forall (λ j, j ≠ 0%Z)) strides →
  ∃ sizes, decoder_skip_sizes strides (Z.of_nat <$> seq k m) input_size acc = Ok sizes.
Proof.
  induction m as [|m IH]; intros k input_size acc Hk Hnz; simpl; [by eexists|].
  destruct (lookup_lt_is_Some_2 strides k) as [st Hst]; [lia|].
  rewrite (getitem_nat _ _ _ Hst). cbn [mbind result_bind].
  destruct (floordiv_zip_nonzero input_size st) as [size ->].
  { by eapply Forall_lookup_1. }
  cbn [mbind result_bind]. rewrite getitem_last_snoc. cbn [mbind result_bind].
  destruct (IH (S k) size (acc ++ [size])) as [sizes Hs]; [lia|done|].
  exists sizes. exact Hs.
Qed.

Section feature_map_size_properties.
Context {embedding : Type}.
Variable relative_pos_tensor : conv_op → Z → Z → Z → result embedding.
Variable get_matching_pool_op : conv_op → string → result unit.
Variable get_matching_convtransp : conv_op → result unit.
Variable maybe_convert_scalar_to_list : conv_op → int_or_seq Z → result (list Z).
Variable blocks_feature_map_size : @module embedding → option (list Z → result Z).
Variable int64_add : Z → Z → result Z.
Variable np_prod_int64 : list Z → result Z.

(** Property X20: [NexToU_Decoder.compute_conv_feature_map_size] never
    returns on a decoder of an encoder with stages.  The first stage of the
    decoder is a [nn.Sequential] that ends in graph blocks, and has no
    method of that name: the call raises an [AttributeError], unless a
    stride of 0 has raised a [ZeroDivisionError] in the skip sizes before
    it. *)
Theorem NexToU_Decoder_feature_map_size_raises input_channels patch_size n_stages
    features_per_stage cop kernel_sizes_ strides n_blocks_per_stage conv_bias_
    bottleneck_channels return_skips_ disable_default_stem stem_channels pool_type enc
    patch_size' strides' num_classes_ n_conv_per_stage deep_supervision_ dec input_size :
  NexToU_Encoder_init relative_pos_tensor get_matching_pool_op
    maybe_convert_scalar_to_list input_channels patch_size n_stages
    features_per_stage cop kernel_sizes_ strides n_blocks_per_stage conv_bias_
    bottleneck_channels return_skips_ disable_default_stem stem_channels pool_type
  = Ok enc →
  NexToU_Decoder_init relative_pos_tensor get_matching_convtransp enc
    patch_size' strides' num_classes_ n_conv_per_stage deep_supervision_ = Ok dec →
  (1 <= n_stages)%Z →
  let size :=
    NexToU_Decoder_compute_conv_feature_map_size blocks_feature_map_size int64_add
      np_prod_int64 dec input_size in
  (size = Raise AttributeError ∨ size = Raise ZeroDivisionError) ∧
  (Forall (Forall (λ j, j ≠ 0%Z)) (enc_strides enc) → size = Raise AttributeError).
Proof.
  intros Henc Hdec Hn.
  destruct (NexToU_Encoder_init_knn _ _ _ _ _ _ _ _ _ _ _ _ _ _ _ _ _ _ Henc Hn)
    as (H4 & Hsts & _).
  pose proof (NexToU_Encoder_init_lengths _ _ _ _ _ _ _ _ _ _ _ _ _ _ _ _ _ _ Henc)
    as (Hlen & Hoc & _).
  pose proof (NexToU_Decoder_init_lengths _ _ _ _ _ _ _ _ _ Hdec) as (Hds & _ & _ & _).
  assert (length (enc_strides enc) = Z.to_nat n_stages) as Hstr.
  { apply NexToU_Encoder_init_inv in Henc
      as (isl & nsl & ims & ic' & _ & _ & _ & _ & _ & _ & _ & _ & _ & _ & _ & Hm & _).
    apply mapM_Ok, Forall2_length in Hm. unfold len in Hsts. lia. }
  apply NexToU_Decoder_init_inv in Hdec
    as (strides_l & isl & nsl & ims & built & _ & _ & _ & _ & _ & Hde & _ & Hst & _ & _
        & Hbuilt).
  (* the first stage of the decoder *)
  assert (∃ ms, dec_stages dec !! 0 = Some (Sequential ms)) as [ms Hms].
  { destruct (lookup_lt_is_Some_2 built 0) as [[[t st] sg] Hb].
    { rewrite Hst, length_fmap in Hds. lia. }
    destruct (Forall2_lookup_r _ _ _ _ _ Hbuilt Hb) as (s & Hs & Hstage).
    apply range2_lookup in Hs. subst s.
    apply decoder_stage_inv in Hstage
      as (below & skip & stride & nb & k & stage & _ & _ & _ & _ & _ & [= -> -> ->] & Hstage).
    unfold len in Hstage. rewrite Hoc in Hstage.
    destruct Hstage as [(_ & shp & pool & swin & _ & _ & _ & ->)|[[? _]|(? & _)]];
      [|lia|lia].
    eexists. rewrite Hst, list_lookup_fmap, Hb. done. }
  assert (∀ sizes, length sizes = length (dec_stages dec) →
    (_ ← py_assert (len sizes =? len (dec_stages dec))%Z;
     decoder_size_loop blocks_feature_map_size int64_add np_prod_int64 dec
       (Py.range (len (dec_stages dec))) sizes 0)
    = Raise AttributeError) as Hloop.
  { intros sizes Hl. unfold len. rewrite Hl, Z.eqb_refl. cbn [py_assert mbind result_bind].
    fold (len (dec_stages dec)). rewrite range_len.
    pose proof (lookup_lt_Some _ _ _ Hms) as Hlt.
    destruct (length (dec_stages dec)) as [|n'] eqn:El; [lia|].
    cbn [seq fmap list_fmap decoder_size_loop].
    rewrite (getitem_nat _ 0 _ Hms). done. }
  cbv zeta. unfold NexToU_Decoder_compute_conv_feature_map_size. rewrite Hde.
  replace (Py.range (len (enc_strides enc) - 1))
    with (Z.of_nat <$> seq 0 (length (enc_strides enc) - 1)).
  2:{ rewrite range_seq. unfold len. do 2 f_equal. lia. }
  split.
  - destruct (decoder_skip_sizes_cases (enc_strides enc) (length (enc_strides enc) - 1)
                0 input_size []) as [(sizes & -> & Hl)| ->]; [lia| |by right].
    left. cbn [mbind result_bind]. apply Hloop. simpl in Hl. lia.
  - intros Hnz.
    destruct (decoder_skip_sizes_cases (enc_strides enc) (length (enc_strides enc) - 1)
                0 input_size []) as [(sizes & Hs & Hl)|Hs]; [lia| |].
    + rewrite Hs. cbn [mbind result_bind]. apply Hloop. simpl in Hl. lia.
    + destruct (decoder_skip_sizes_nonzero (enc_strides enc)
                  (length (enc_strides enc) - 1) 0 input_size []) as [sizes Hs'];
        [lia|done|]. congruence.
Qed.

(** A stage that is a [nn.Sequential] whose first module has the method
    and whose last module has not stops the loop of the encoder. *)
Lemma encoder_size_loop_raises (self : @NexToU_Encoder embedding) m :
  ∀ k input_size output j first rest last_module,
  k ≤ j < k + m →
  enc_stages self !! j = Some (Sequential (first :: rest)) →
  hasattr_feature_map_size blocks_feature_map_size first = true →
  last (first :: rest) = Some last_module →
  feature_map_size_method blocks_feature_map_size last_module = None →
  ∃ e, encoder_size_loop blocks_feature_map_size int64_add self
         (Z.of_nat <$> seq k m) input_size output = Raise e.
Proof.
  induction m as [|m IH]; intros k input_size output j first rest last_module Hj Hst Hhas
    Hlast Hnone; [lia|].
  cbn [seq fmap list_fmap encoder_size_loop].
  destruct (decide (k = j)) as [->|Hne].
  - rewrite (getitem_nat _ _ _ Hst). cbn [mbind result_bind encoder_size_of_sequential].
    rewrite Hhas, (getitem_last _ _ Hlast). cbn [mbind result_bind].
    unfold getattr_feature_map_size. rewrite Hnone. by eexists.
  - repeat match goal with
    | |- ∃ e, (?x ≫= _) = Raise e =>
        destruct x as [?|?]; [cbn [mbind result_bind]|by eexists]
    end.
    eapply (IH (S k) _ _ j); [lia|done..].
Qed.

(** Property X21: [NexToU_Encoder.compute_conv_feature_map_size] on an
    encoder with stages.  With [pool_type = 'conv'] it never returns when
    the residual blocks have the method: the first stage with graph blocks
    is a [nn.Sequential] that starts with residual blocks, so the method is
    looked up on its last module, the windowed graph blocks, which have
    none.  With another [pool_type] every stage with graph blocks is a
    pooling followed by a [nn.Sequential], neither of which has the method:
    such a stage adds nothing to the size. *)
Theorem NexToU_Encoder_feature_map_size_skips_graph_blocks input_channels patch_size
    n_stages features_per_stage cop kernel_sizes_ strides n_blocks_per_stage conv_bias_
    bottleneck_channels return_skips_ disable_default_stem stem_channels pool_type enc :
  NexToU_Encoder_init relative_pos_tensor get_matching_pool_op
    maybe_convert_scalar_to_list input_channels patch_size n_stages
    features_per_stage cop kernel_sizes_ strides n_blocks_per_stage conv_bias_
    bottleneck_channels return_skips_ disable_default_stem stem_channels pool_type
  = Ok enc →
  (1 <= n_stages)%Z →
  (pool_type = "conv" →
   (∀ n c i o k s,
      hasattr_feature_map_size blocks_feature_map_size
        (StackedResidualBlocks n c i o k s) = true) →
   ∀ input_size,
     ∃ e, NexToU_Encoder_compute_conv_feature_map_size blocks_feature_map_size
            int64_add enc input_size = Raise e) ∧
  (pool_type ≠ "conv" →
   ∀ (j : nat) st input_size output,
     (n_stages - 4 <= Z.of_nat j)%Z → enc_stages enc !! j = Some st →
     ∃ ms, st = Sequential ms ∧
           encoder_size_of_sequential blocks_feature_map_size int64_add ms ms
             input_size output = Ok output).
Proof.
  intros Henc Hn.
  destruct (NexToU_Encoder_init_knn _ _ _ _ _ _ _ _ _ _ _ _ _ _ _ _ _ _ Henc Hn)
    as (H4 & _ & _).
  apply NexToU_Encoder_init_inv in Henc
    as (isl & nsl & ims & ic' & _ & _ & _ & _ & _ & _ & _ & _ & _ & _ & _ & _ & _ & Hstages).
  apply encoder_stages_lookup in Hstages as [Hlen Hlook].
  assert (length (Py.range n_stages) = Z.to_nat n_stages) as Hlr
    by (unfold Py.range; by rewrite length_seqZ).
  rewrite Hlr in Hlen.
  assert (∀ (j : nat) st, (n_stages - 4 <= Z.of_nat j)%Z → enc_stages enc !! j = Some st →
    ∃ nb k stride cin f sv pool swin,
      st = (if bool_decide (pool_type ≠ "conv")
            then Sequential [Pooling sv;
                   Sequential [StackedResidualBlocks nb cop cin f k stride;
                               PoolGNN pool; SwinGNN swin]]
            else Sequential [StackedResidualBlocks nb cop cin f k stride;
                             PoolGNN pool; SwinGNN swin])) as Hgnn.
  { intros j st Hj Hst.
    destruct (lookup_lt_is_Some_2 (Py.range n_stages) j) as [s Hs].
    { rewrite Hlr, <-Hlen. by eapply lookup_lt_Some. }
    destruct (Hlook _ _ _ Hs Hst) as (ic'' & _ & Hstage).
    apply range_lookup in Hs as ->.
    apply encoder_stage_inv in Hstage
      as (f & nb & k & sv & body & _ & _ & _ & _ & -> & Hbody).
    cbv zeta in Hbody.
    destruct Hbody as [[? _]|[[? _]|(_ & _ & shp & pool & swin & _ & _ & _ & ->)]];
      [lia|lia|].
    by eexists _, _, _, _, _, _, _, _. }
  split.
  - intros -> Hhas input_size.
    destruct (lookup_lt_is_Some_2 (enc_stages enc) (Z.to_nat (n_stages - 4))) as [st Hst];
      [lia|].
    destruct (Hgnn (Z.to_nat (n_stages - 4)) st)
      as (nb & k & stride & cin & f & sv & pool & swin & ->); [lia|done|].
    rewrite bool_decide_eq_false_2 in Hst by (intros Hc; by apply Hc).
    unfold NexToU_Encoder_compute_conv_feature_map_size. rewrite range_len.
    eapply encoder_size_loop_raises; [|exact Hst|apply Hhas|reflexivity|reflexivity]. lia.
  - intros Hpool j st input_size output Hj Hst.
    destruct (Hgnn _ _ Hj Hst) as (nb & k & stride & cin & f & sv & pool & swin & ->).
    rewrite bool_decide_eq_true_2 by done. eexists. split; [done|]. reflexivity.
Qed.

End feature_map_size_properties.

(** The network [example_encoder] with its decoder; the blocks of the
    library report the number of points, and the additions do not
    overflow. *)
Lemma NexToU_Decoder_feature_map_size_raises_witness :
  ∃ enc dec,
    example_encoder = Ok enc ∧ example_decoder enc = Ok dec ∧
    let size :=
      NexToU_Decoder_compute_conv_feature_map_size (λ _, Some (λ size, Ok (product size)))
        (λ a b, Ok (a + b)%Z) (λ l, Ok (product l)) dec [64; 64]%Z in
    (size = Raise AttributeError ∨ size = Raise ZeroDivisionError) ∧
    (Forall (Forall (λ j, j ≠ 0%Z)) (enc_strides enc) → size = Raise AttributeError).
Proof.
  eexists _, _. split; [vm_compute; reflexivity|].
  split; [vm_compute; reflexivity|].
  apply (NexToU_Decoder_feature_map_size_raises (λ _ _ _ _, Ok tt) (λ _ _, Ok tt)
           (λ _, Ok tt) (λ _ k, Ok (kernel_entries k))
           (λ _, Some (λ size, Ok (product size))) (λ a b, Ok (a + b)%Z)
           (λ l, Ok (product l))
           1 [64; 64]%Z 5 (ASeq [32; 64; 128; 256; 512]%Z) Conv2d (AnInt 3)
           (ASeq [ASeq [1; 1]; ASeq [2; 2]; ASeq [2; 2]; ASeq [2; 2]; ASeq [2; 2]]%Z)
           (AnInt 2) true None true false None "conv" _ [64; 64]%Z
           (ASeq [ASeq [1; 1]; ASeq [2; 2]; ASeq [2; 2]; ASeq [2; 2]; ASeq [2; 2]]%Z)
           3 (AnInt 2) true _ [64; 64]%Z).
  - vm_compute. reflexivity.
  - vm_compute. reflexivity.
  - lia.
Defined.

Lemma NexToU_Encoder_feature_map_size_skips_graph_blocks_witness :
  ∃ enc,
    example_encoder = Ok enc ∧
    ∀ input_size,
      ∃ e, NexToU_Encoder_compute_conv_feature_map_size
             (λ _, Some (λ size, Ok (product size))) (λ a b, Ok (a + b)%Z) enc input_size
           = Raise e.
Proof.
  eexists. split; [vm_compute; reflexivity|].
  refine (proj1 (NexToU_Encoder_feature_map_size_skips_graph_blocks
           (λ _ _ _ _, Ok tt) (λ _ _, Ok tt) (λ _ k, Ok (kernel_entries k))
           (λ _, Some (λ size, Ok (product size))) (λ a b, Ok (a + b)%Z)
           1 [64; 64]%Z 5 (ASeq [32; 64; 128; 256; 512]%Z) Conv2d (AnInt 3)
           (ASeq [ASeq [1; 1]; ASeq [2; 2]; ASeq [2; 2]; ASeq [2; 2]; ASeq [2; 2]]%Z)
           (AnInt 2) true None true false None "conv" _ _ _) _ _).
  - vm_compute. reflexivity.
  - lia.
  - reflexivity.
  - reflexivity.
Defined.

(** On a patch of 64 x 64 the method of that encoder stops at its second
    stage, the first one with graph blocks. *)
Example NexToU_Encoder_compute_conv_feature_map_size_example :
  (enc ← example_encoder;
   NexToU_Encoder_compute_conv_feature_map_size
     (λ _, Some (λ size, Ok (product size))) (λ a b, Ok (a + b)%Z) enc [64; 64]%Z)
  = Raise AttributeError.
Proof. vm_compute. reflexivity. Qed.
